(** * cameras_mcp: a verification model of the aggregation, statistics,
      ranking, search, listing and status code of [cameras_mcp_web.py]

    The Python module is embedded shallowly:

    - Python [int] is [Z].  A Python [float] is a binary64 number
      ([pyfloat]): a finite value, held as its exact rational value, or an
      infinity.  The float operations of the module ([int / int],
      [float * 100], [float(Fraction)] inside [statistics.mean],
      [round(x, 2)]) round to the nearest binary64 value, ties to even,
      as CPython does; [int / int] and [float(Fraction)] raise
      [OverflowError] where CPython does.  Signed zeros are not told apart
      and NaN cannot arise in these operations.
    - the JSON numbers of a record set are integers ([total] and the daily
      counts are [Z]); JSON [null] or text in their place is outside the
      model.
    - a JSON object / Python [dict] is an association list in insertion
      order ([dict V]); a well-formed dictionary has no repeated key
      ([dict_wf]).
    - a raised exception is the [Err] branch of [result]; every tool body
      runs under one [try ... except Exception], modelled by [response].
    - the remote lookup [fetch_week_data] is a function from month number,
      month name and week to [option PeriodRecordSet] ([None] is the 404
      answer).  A lookup that raises (a transport error, or an HTTP status
      other than 404, which [fetch_json_from_github] re-raises) ends the
      tool in its [except] branch with an error message; the model covers
      the runs in which every lookup answers. *)

From Stdlib Require Import List ZArith QArith Qround Qpower String Ascii Bool.
From Stdlib Require Import Lia Lqa.
From Stdlib Require Import Permutation Sorted OrdersEx.
From Stdlib Require DecimalString.
Import ListNotations.

Local Open Scope Z_scope.

(** ** Exceptions and results *)

Inductive PyError : Type :=
| KeyError (key : string)
| ZeroDivisionError
| OverflowError
| StatisticsError
| ValueError
| ValidationError (fields : list string).

Inductive result (A : Type) : Type :=
| Ok (a : A)
| Err (e : PyError).

Arguments Ok {A} a.
Arguments Err {A} e.

Definition bind {A B : Type} (r : result A) (k : A -> result B) : result B :=
  match r with
  | Ok a => k a
  | Err e => Err e
  end.

Notation "x <- c ;; k" := (bind c (fun x => k))
  (at level 61, c at next level, right associativity).

(** A [for] loop whose body may raise: the first exception ends the loop. *)
Fixpoint foldM {A S : Type} (body : S -> A -> result S) (l : list A) (s : S)
  : result S :=
  match l with
  | [] => Ok s
  | x :: l' => s' <- body s x ;; foldM body l' s'
  end.

(** What a tool hands back: its payload, one of its "No data found"
    messages, or the message built by the outer [except Exception]. *)
Inductive response (A : Type) : Type :=
| Payload (a : A)
| NoDataFound
| ErrorMessage (e : PyError).

Arguments Payload {A} a.
Arguments NoDataFound {A}.
Arguments ErrorMessage {A} e.

Definition run_tool {A : Type} (body : result (option A)) : response A :=
  match body with
  | Ok (Some a) => Payload a
  | Ok None => NoDataFound
  | Err e => ErrorMessage e
  end.

(** ** Dictionaries in insertion order *)

Definition dict (V : Type) : Type := list (string * V).

Section Dict.
Context {V : Type}.

Definition keys (d : dict V) : list string := map fst d.
Definition values (d : dict V) : list V := map snd d.

(** [d.get(k)] *)
Fixpoint dict_get (k : string) (d : dict V) : option V :=
  match d with
  | [] => None
  | (k', v) :: d' => if String.eqb k k' then Some v else dict_get k d'
  end.

(** [k in d] *)
Definition dict_mem (k : string) (d : dict V) : bool :=
  match dict_get k d with Some _ => true | None => false end.

(** [d[k]] *)
Definition dict_getitem (k : string) (d : dict V) : result V :=
  match dict_get k d with Some v => Ok v | None => Err (KeyError k) end.

(** [d[k] = v]: an existing key keeps its place, a new one goes last. *)
Fixpoint dict_set (k : string) (v : V) (d : dict V) : dict V :=
  match d with
  | [] => [(k, v)]
  | (k', v') :: d' =>
      if String.eqb k k' then (k, v) :: d' else (k', v') :: dict_set k v d'
  end.

Definition dict_wf (d : dict V) : Prop := NoDup (keys d).

(** [bool(d)]: a dictionary is truthy when it is not empty. *)
Definition truthy_dict (d : dict V) : bool :=
  match d with [] => false | _ :: _ => true end.
End Dict.

(** [d.get(k, default)] *)
Definition dict_get_default {V : Type} (k : string) (dflt : V) (d : dict V) : V :=
  match dict_get k d with Some v => v | None => dflt end.

(** Optional JSON field read with [obj.get(field, {})]. *)
Definition get_or_empty {V : Type} (o : option (dict V)) : dict V :=
  match o with Some d => d | None => [] end.

(** Required JSON field read with [obj[field]]. *)
Definition field {A : Type} (name : string) (o : option A) : result A :=
  match o with Some a => Ok a | None => Err (KeyError name) end.

(** ** Numbers *)

(** A Python [float]: a finite binary64 value, held as its exact rational
    value, or an infinity. *)
Inductive pyfloat : Type :=
| Fin (q : Q)
| Inf (negative : bool).

(** A Python number as the tools produce them: an [int] or a [float]. *)
Inductive number : Type :=
| PyInt (z : Z)
| PyFloat (x : pyfloat).

(** Nearest integer, ties to the even one. *)
Definition round_half_even (q : Q) : Z :=
  let f := Qfloor q in
  match Qcompare (q - inject_Z f) (1 # 2) with
  | Lt => f
  | Gt => f + 1
  | Eq => if Z.even f then f else f + 1
  end.

Definition pow2 (k : Z) : Q := (2 ^ k)%Q.

(** The binary logarithm of a positive rational, rounded down. *)
Definition ilog2 (q : Q) : Z :=
  let k := Z.log2 (Qnum q) - Z.log2 (Zpos (Qden q)) in
  if Qle_bool (pow2 k) q then k else k - 1.

(** The exponent of the last place of the binary64 numbers around a
    positive [q]: 53 significant bits, and no exponent below that of the
    subnormal numbers. *)
Definition ulp_exponent (q : Q) : Z := Z.max (-1074) (ilog2 q - 52).

(** A positive rational rounded to the nearest multiple of its last place,
    ties to even. *)
Definition round_pos (q : Q) : Q :=
  let e := ulp_exponent q in
  (inject_Z (round_half_even (q / pow2 e)) * pow2 e)%Q.

(** The binary64 number nearest to a rational, ties to even; an infinity
    when the rounded value passes the largest finite one. *)
Definition to_float (q : Q) : pyfloat :=
  match Qcompare q 0 with
  | Eq => Fin 0
  | Gt => let r := round_pos q in
          if Qle_bool (pow2 1024) r then Inf false else Fin (Qred r)
  | Lt => let r := round_pos (- q) in
          if Qle_bool (pow2 1024) r then Inf true else Fin (Qred (- r))
  end.

(** [a / b] on two [int]s: the correctly rounded quotient;
    [ZeroDivisionError] for [b = 0], [OverflowError] when the quotient is
    too large for a float. *)
Definition int_truediv (a b : Z) : result pyfloat :=
  if b =? 0 then Err ZeroDivisionError
  else
    match to_float (inject_Z a / inject_Z b) with
    | Inf _ => Err OverflowError
    | Fin v => Ok (Fin v)
    end.

(** [x * 100] on a [float]: the product rounded, an infinity on
    overflow. *)
Definition float_times_100 (x : pyfloat) : pyfloat :=
  match x with
  | Fin v => to_float (v * 100)
  | Inf negative => Inf negative
  end.

(** [round(x, 2)] on a [float]: the exact value of [x] is rounded to two
    decimals, ties to even, and the float nearest to that decimal is
    returned. *)
Definition round2 (x : pyfloat) : pyfloat :=
  match x with
  | Fin v => to_float (inject_Z (round_half_even (v * 100)) / 100)
  | Inf negative => Inf negative
  end.

(** [round(x, 2)] on a number: an [int] comes back unchanged. *)
Definition py_round2 (x : number) : number :=
  match x with
  | PyInt z => PyInt z
  | PyFloat f => PyFloat (round2 f)
  end.

(** The value of a number, and [<=] on numbers: Python compares an [int]
    and a [float] by their exact values. *)
Definition num_val (x : number) : pyfloat :=
  match x with
  | PyInt z => Fin (inject_Z z)
  | PyFloat f => f
  end.

Definition float_leb (x y : pyfloat) : bool :=
  match x, y with
  | Fin a, Fin b => Qle_bool a b
  | Fin _, Inf negative => negb negative
  | Inf negative, Fin _ => negative
  | Inf n1, Inf n2 => n1 || negb n2
  end.

Definition num_leb (x y : number) : bool := float_leb (num_val x) (num_val y).

(** [sum] of a list of [int]: left to right from 0. *)
Definition py_sumZ (l : list Z) : Z := fold_left Z.add l 0.

(** [min(values)] and [max(values)] on [int]s; [ValueError] on an empty
    sequence. *)
Definition py_min (l : list Z) : result Z :=
  match l with
  | [] => Err ValueError
  | x :: l' => Ok (fold_left (fun m y => if y <? m then y else m) l' x)
  end.

Definition py_max (l : list Z) : result Z :=
  match l with
  | [] => Err ValueError
  | x :: l' => Ok (fold_left (fun m y => if m <? y then y else m) l' x)
  end.

(** ** Stable sorting

    [list.sort] and [sorted] are stable; [py_sort leb] is the stable
    insertion sort for the total preorder [leb], which returns the one
    ordered arrangement that keeps equal-keyed elements in input order. *)

Section StableSort.
Context {A : Type} (leb : A -> A -> bool).

Fixpoint insert (x : A) (l : list A) : list A :=
  match l with
  | [] => [x]
  | y :: l' => if leb x y then x :: l else y :: insert x l'
  end.

Definition py_sort (l : list A) : list A := fold_right insert [] l.
End StableSort.

(** ** [statistics.mean], [statistics.median]

    On a list of [int]s.  [mean] adds the data exactly and divides: an
    integral quotient comes back as an [int], any other as the float
    nearest to it ([float(Fraction)]).  [median] sorts the data and takes
    the middle element, or [(a + b) / 2] for the two middle ones: a true
    division of [int]s, always a float. *)

Definition mean (data : list Z) : result number :=
  match data with
  | [] => Err StatisticsError
  | _ :: _ =>
      let total := py_sumZ data in
      let n := Z.of_nat (List.length data) in
      if total mod n =? 0 then Ok (PyInt (total / n))
      else x <- int_truediv total n ;; Ok (PyFloat x)
  end.

Definition median (data : list Z) : result number :=
  let data := py_sort Z.leb data in
  let n := List.length data in
  match n with
  | O => Err StatisticsError
  | _ =>
      if Nat.eqb (Nat.modulo n 2) 1 then Ok (PyInt (nth (Nat.div n 2) data 0))
      else
        let i := Nat.div n 2 in
        x <- int_truediv (nth (i - 1) data 0 + nth i data 0) 2 ;;
        Ok (PyFloat x)
  end.

(** ** [calculate_statistics]

    The tools call it on a list of stored total-counts, which are
    [int]s. *)

Record Statistics : Type := mkStatistics {
  st_mean : number;
  st_median : number;
  st_min : Z;
  st_max : Z;
  st_total : Z
}.

Definition calculate_statistics (vals : list Z) : result Statistics :=
  match vals with
  | [] => Ok (mkStatistics (PyInt 0) (PyInt 0) 0 0 0)
  | _ :: _ =>
      m <- mean vals ;;
      md <- median vals ;;
      lo <- py_min vals ;;
      hi <- py_max vals ;;
      Ok (mkStatistics (py_round2 m) (py_round2 md) lo hi (py_sumZ vals))
  end.

(** ** Record model: the JSON of one week *)

(** One camera's object in [semanaN.json].  The tools read ["camera"],
    ["total"] and ["used_storage"] with [obj[...]] (absent: [KeyError]) and
    ["infractions"], ["frames"] with [obj.get(..., {})]. *)
Record CameraData : Type := mkCameraData {
  camera : option string;
  uptime : option string;
  used_storage : option string;
  total : option Z;
  infractions : option (dict Z);
  frames : option (dict Z)
}.

Definition PeriodRecordSet : Type := dict CameraData.

(** [fetch_week_data(month_number, month_name, week_number)]; [None] is the
    404 answer of [fetch_json_from_github]. *)
Definition Resolver : Type := Z -> string -> Z -> option PeriodRecordSet.

(** [if data:] on an [Optional[Dict]]. *)
Definition truthy_data (data : option PeriodRecordSet) : bool :=
  match data with
  | Some d => truthy_dict d
  | None => false
  end.

(** [if s:] on an [Optional[str]]: [None] and the empty string are falsy. *)
Definition truthy_str (s : option string) : bool :=
  match s with
  | Some s' => negb (String.eqb s' "")
  | None => false
  end.

(** [if n:] on an [Optional[int]]: [None] and 0 are falsy. *)
Definition truthy_int (n : option Z) : bool :=
  match n with
  | Some n' => negb (n' =? 0)
  | None => false
  end.

Definition get_available_weeks (fetch : Resolver) (month_number : Z)
    (month_name : string) : list Z :=
  filter (fun week => truthy_data (fetch month_number month_name week))
         [1; 2; 3; 4; 5].

(** ** Efficiency expressions *)

(** [(total_infractions / total_frames * 100) if total_frames > 0 else 0]
    of [compare_cameras]. *)
Definition compare_efficiency (total_infractions total_frames : Z)
  : result number :=
  if 0 <? total_frames then
    q <- int_truediv total_infractions total_frames ;;
    Ok (PyFloat (float_times_100 q))
  else Ok (PyInt 0).

(** [round(a / b * 100, 2) if b > 0 else 0]: the expression of the analysis
    entry, of the monthly summary, of each weekly-breakdown line and of each
    top-camera line. *)
Definition rounded_efficiency (a b : Z) : result number :=
  if 0 <? b then
    q <- int_truediv a b ;;
    Ok (PyFloat (round2 (float_times_100 q)))
  else Ok (PyInt 0).

(** The daily merge shared by the analysis accumulators:
    [if date not in acc: acc[date] = 0] then [acc[date] += count]. *)
Definition add_daily (acc : dict Z) (entry : string * Z) : result (dict Z) :=
  let '(date, count) := entry in
  let acc := if dict_mem date acc then acc else dict_set date 0 acc in
  v <- dict_getitem date acc ;;
  Ok (dict_set date (v + count) acc).

(** ** [analyze_camera_performance] *)

Module AnalyzeCameraPerformanceInput.
Record t : Type := mk {
  month_number : Z;
  month_name : string;
  week_number : option Z;
  camera_id : option string
}.
End AnalyzeCameraPerformanceInput.

(** One value of [all_data]. *)
Module AllData.
Record t : Type := mk {
  name : string;
  weeks : list Z;
  infractions : list Z;
  frames : list Z;
  daily_infractions : dict Z;
  daily_frames : dict Z
}.
End AllData.

(** One value of [analysis]. *)
Module Analysis.
Record t : Type := mk {
  name : string;
  weeks_analyzed : nat;
  infraction_stats : Statistics;
  daily_infraction_avg : number;
  daily_frame_avg : number;
  efficiency : number
}.
End Analysis.

(** Body of [for camera_id, camera_data in data.items()] (lines 459-485). *)
Definition collect_camera (camera_filter : option string) (week : Z)
    (all_data : dict AllData.t) (item : string * CameraData)
  : result (dict AllData.t) :=
  let '(camera_id, camera_data) := item in
  if truthy_str camera_filter
     && negb (String.eqb camera_id (match camera_filter with Some c => c | None => "" end))
  then Ok all_data
  else
    all_data <-
      (if dict_mem camera_id all_data then Ok all_data
       else
         nm <- field "camera" (camera camera_data) ;;
         Ok (dict_set camera_id (AllData.mk nm [] [] [] [] []) all_data)) ;;
    e <- dict_getitem camera_id all_data ;;
    let e := AllData.mk (AllData.name e) (AllData.weeks e ++ [week])
               (AllData.infractions e) (AllData.frames e)
               (AllData.daily_infractions e) (AllData.daily_frames e) in
    t <- field "total" (total camera_data) ;;
    let e := AllData.mk (AllData.name e) (AllData.weeks e)
               (AllData.infractions e ++ [t]) (AllData.frames e)
               (AllData.daily_infractions e) (AllData.daily_frames e) in
    di <- foldM add_daily (get_or_empty (infractions camera_data))
            (AllData.daily_infractions e) ;;
    df <- foldM add_daily (get_or_empty (frames camera_data))
            (AllData.daily_frames e) ;;
    Ok (dict_set camera_id
          (AllData.mk (AllData.name e) (AllData.weeks e) (AllData.infractions e)
             (AllData.frames e) di df)
          all_data).

(** Body of [for week in weeks_to_analyze] (lines 456-485). *)
Definition collect_week (fetch : Resolver)
    (params : AnalyzeCameraPerformanceInput.t)
    (all_data : dict AllData.t) (week : Z) : result (dict AllData.t) :=
  let data := fetch (AnalyzeCameraPerformanceInput.month_number params)
                    (AnalyzeCameraPerformanceInput.month_name params) week in
  if truthy_data data then
    foldM (collect_camera (AnalyzeCameraPerformanceInput.camera_id params) week)
          (match data with Some d => d | None => [] end) all_data
  else Ok all_data.

Definition collect_all_data (fetch : Resolver)
    (params : AnalyzeCameraPerformanceInput.t) (weeks_to_analyze : list Z)
  : result (dict AllData.t) :=
  foldM (collect_week fetch params) weeks_to_analyze [].

(** [round(mean(vs), 2) if vs else 0] *)
Definition daily_avg (vs : list Z) : result number :=
  match vs with
  | [] => Ok (PyInt 0)
  | _ :: _ => m <- mean vs ;; Ok (py_round2 m)
  end.

(** Body of [for camera_id, data in all_data.items()] (lines 492-518). *)
Definition analyse_camera (analysis : dict Analysis.t)
    (item : string * AllData.t) : result (dict Analysis.t) :=
  let '(camera_id, data) := item in
  infraction_stats <-
    calculate_statistics (AllData.infractions data) ;;
  let daily_infraction_values := values (AllData.daily_infractions data) in
  let daily_frame_values := values (AllData.daily_frames data) in
  dia <- daily_avg daily_infraction_values ;;
  dfa <- daily_avg daily_frame_values ;;
  eff <- rounded_efficiency (py_sumZ daily_infraction_values)
           (py_sumZ daily_frame_values) ;;
  Ok (dict_set camera_id
        (Analysis.mk (AllData.name data) (List.length (AllData.weeks data))
           infraction_stats dia dfa eff)
        analysis).

(** Lines 442-449: the requested week, or every available one. *)
Definition weeks_to_analyze (fetch : Resolver)
    (params : AnalyzeCameraPerformanceInput.t) : list Z :=
  if truthy_int (AnalyzeCameraPerformanceInput.week_number params) then
    match AnalyzeCameraPerformanceInput.week_number params with
    | Some w => [w]
    | None => []
    end
  else get_available_weeks fetch
         (AnalyzeCameraPerformanceInput.month_number params)
         (AnalyzeCameraPerformanceInput.month_name params).

Definition analyze_camera_performance (fetch : Resolver)
    (params : AnalyzeCameraPerformanceInput.t) : response (dict Analysis.t) :=
  run_tool
    (match weeks_to_analyze fetch params with
     | [] => Ok None
     | _ :: _ =>
         all_data <-
           collect_all_data fetch params (weeks_to_analyze fetch params) ;;
         match all_data with
         | [] => Ok None
         | _ :: _ =>
             analysis <- foldM analyse_camera all_data [] ;;
             Ok (Some analysis)
         end
     end).

(** ** [compare_cameras] *)

Module CompareCamerasInput.
Record t : Type := mk {
  month_number : Z;
  month_name : string;
  week_number : Z;
  metric : string
}.

(** The [field_validator("metric")] of the model. *)
Definition validate_metric (v : string) : result string :=
  if existsb (String.eqb v) ["infractions"; "frames"; "efficiency"]%string
  then Ok v
  else Err ValueError.

(** Construction of the model from the request's arguments: the [ge]/[le]
    bounds of the integer fields and the metric validator all run, and
    every failing field is reported in one [ValidationError].  String
    fields arrive here already stripped ([str_strip_whitespace]). *)
Definition failing_fields (month_number : Z) (week_number : Z)
    (metric : string) : list string :=
  (if (1 <=? month_number) && (month_number <=? 12) then [] else ["month_number"%string])
  ++ (if (1 <=? week_number) && (week_number <=? 5) then [] else ["week_number"%string])
  ++ (match validate_metric metric with Ok _ => [] | Err _ => ["metric"%string] end).

Definition validate (month_number : Z) (month_name : string)
    (week_number : Z) (metric : string) : result t :=
  match failing_fields month_number week_number metric with
  | [] => Ok (mk month_number month_name week_number metric)
  | fs => Err (ValidationError fs)
  end.
End CompareCamerasInput.

(** One element of [comparisons]. *)
Module Comparison.
Record t : Type := mk {
  id : string;
  name : string;
  infractions : Z;
  frames : Z;
  efficiency : number;
  metric_value : number;
  storage : string
}.
End Comparison.

(** Body of [for camera_id, camera_data in data.items()] (lines 586-614). *)
Definition compare_camera (metric : string) (comparisons : list Comparison.t)
    (item : string * CameraData) : result (list Comparison.t) :=
  let '(camera_id, camera_data) := item in
  total_infractions <- field "total" (total camera_data) ;;
  let total_frames := py_sumZ (values (get_or_empty (frames camera_data))) in
  metric_value <-
    (if String.eqb metric "infractions" then Ok (PyInt total_infractions)
     else if String.eqb metric "frames" then Ok (PyInt total_frames)
     else if String.eqb metric "efficiency" then
       compare_efficiency total_infractions total_frames
     else Ok (PyInt 0)) ;;
  nm <- field "camera" (camera camera_data) ;;
  eff <- compare_efficiency total_infractions total_frames ;;
  st <- field "used_storage" (used_storage camera_data) ;;
  Ok (comparisons
      ++ [Comparison.mk camera_id nm total_infractions total_frames eff
            metric_value st]).

(** [key=lambda x: x["metric_value"], reverse=True]: larger values first. *)
Definition by_metric_desc (x y : Comparison.t) : bool :=
  num_leb (Comparison.metric_value y) (Comparison.metric_value x).

Definition compare_cameras (fetch : Resolver) (params : CompareCamerasInput.t)
  : response (list Comparison.t) :=
  run_tool
    (let data := fetch (CompareCamerasInput.month_number params)
                       (CompareCamerasInput.month_name params)
                       (CompareCamerasInput.week_number params) in
     if negb (truthy_data data) then Ok None
     else
       comparisons <-
         foldM (compare_camera (CompareCamerasInput.metric params))
               (match data with Some d => d | None => [] end) [] ;;
       Ok (Some (py_sort by_metric_desc comparisons))).

(** A ranking request as the server receives it: the arguments are
    validated into a [CompareCamerasInput] before the tool body runs. *)
Definition compare_cameras_request (fetch : Resolver) (month_number : Z)
    (month_name : string) (week_number : Z) (metric : string)
  : result (response (list Comparison.t)) :=
  params <- CompareCamerasInput.validate month_number month_name week_number
              metric ;;
  Ok (compare_cameras fetch params).

(** ** [search_infractions] *)

Module SearchInfractionsInput.
Record t : Type := mk {
  month_number : Z;
  month_name : string;
  date : option string;
  min_infractions : option Z;
  max_infractions : option Z
}.
End SearchInfractionsInput.

(** One element of [matches]. *)
Module Match.
Record t : Type := mk {
  week : Z;
  camera_id : string;
  camera_name : string;
  date : string;
  infractions : Z;
  frames : Z
}.
End Match.

(** [a < b] on [str]. *)
Definition str_ltb (a b : string) : bool :=
  match String_as_OT.compare a b with Lt => true | _ => false end.

(** Body of [for date, count in infractions.items()] (lines 693-719). *)
Definition search_date (params : SearchInfractionsInput.t) (week : Z)
    (camera_id : string) (camera_data : CameraData)
    (matches : list Match.t) (entry : string * Z) : result (list Match.t) :=
  let '(date, count) := entry in
  if truthy_str (SearchInfractionsInput.date params)
     && negb (String.eqb date
                (match SearchInfractionsInput.date params with
                 | Some d => d | None => "" end))
  then Ok matches
  else if match SearchInfractionsInput.min_infractions params with
          | Some lo => count <? lo
          | None => false
          end
  then Ok matches
  else if match SearchInfractionsInput.max_infractions params with
          | Some hi => hi <? count
          | None => false
          end
  then Ok matches
  else
    nm <- field "camera" (camera camera_data) ;;
    Ok (matches
        ++ [Match.mk week camera_id nm date count
              (dict_get_default date 0 (get_or_empty (frames camera_data)))]).

(** Body of [for camera_id, camera_data in data.items()]. *)
Definition search_camera (params : SearchInfractionsInput.t) (week : Z)
    (matches : list Match.t) (item : string * CameraData)
  : result (list Match.t) :=
  let '(camera_id, camera_data) := item in
  foldM (search_date params week camera_id camera_data)
        (get_or_empty (infractions camera_data)) matches.

(** Body of [for week in available_weeks] (lines 685-719). *)
Definition search_week (fetch : Resolver) (params : SearchInfractionsInput.t)
    (matches : list Match.t) (week : Z) : result (list Match.t) :=
  let data := fetch (SearchInfractionsInput.month_number params)
                    (SearchInfractionsInput.month_name params) week in
  if negb (truthy_data data) then Ok matches
  else foldM (search_camera params week)
             (match data with Some d => d | None => [] end) matches.

Definition scan_matches (fetch : Resolver) (params : SearchInfractionsInput.t)
    (weeks : list Z) : result (list Match.t) :=
  foldM (search_week fetch params) weeks [].

(** [key=lambda x: (x["date"], -x["infractions"])]: tuples compare
    lexicographically. *)
Definition by_date_then_count (x y : Match.t) : bool :=
  str_ltb (Match.date x) (Match.date y)
  || (String.eqb (Match.date x) (Match.date y)
      && (- Match.infractions x <=? - Match.infractions y)).

Definition search_infractions (fetch : Resolver)
    (params : SearchInfractionsInput.t) : response (list Match.t) :=
  run_tool
    (let available_weeks :=
       get_available_weeks fetch (SearchInfractionsInput.month_number params)
         (SearchInfractionsInput.month_name params) in
     match available_weeks with
     | [] => Ok None
     | _ :: _ =>
         matches <- scan_matches fetch params available_weeks ;;
         Ok (Some (py_sort by_date_then_count matches))
     end).

(** ** [get_monthly_report] *)

(** [ResponseFormat]: the output format a request asks for. *)
Inductive ResponseFormat : Type := MARKDOWN | JSON.

Module GetMonthlyReportInput.
Record t : Type := mk {
  month_number : Z;
  month_name : string;
  response_format : ResponseFormat
}.
End GetMonthlyReportInput.

(** One value of [month_data["cameras"]]. *)
Module CameraTotals.
Record t : Type := mk {
  name : string;
  total_infractions : Z;
  total_frames : Z;
  weeks_active : Z
}.
End CameraTotals.

(** One value of [month_data["daily_totals"]]. *)
Module DailyTotals.
Record t : Type := mk {
  infractions : Z;
  frames : Z
}.
End DailyTotals.

(** One element of [month_data["week_summaries"]]. *)
Module WeekSummary.
Record t : Type := mk {
  week : Z;
  infractions : Z;
  frames : Z
}.
End WeekSummary.

Module MonthData.
Record t : Type := mk {
  total_infractions : Z;
  total_frames : Z;
  cameras : dict CameraTotals.t;
  daily_totals : dict DailyTotals.t;
  week_summaries : list WeekSummary.t
}.

Definition set_cameras (c : dict CameraTotals.t) (m : t) : t :=
  mk (total_infractions m) (total_frames m) c (daily_totals m)
     (week_summaries m).

Definition set_daily_totals (d : dict DailyTotals.t) (m : t) : t :=
  mk (total_infractions m) (total_frames m) (cameras m) d (week_summaries m).
End MonthData.

(** The loop state inside one week: [month_data], [week_infractions],
    [week_frames]. *)
Definition WeekState : Type := (MonthData.t * Z * Z)%type.

(** [if date not in month_data["daily_totals"]: ... = {0, 0}] *)
Definition init_daily (date : string) (m : MonthData.t) : MonthData.t :=
  if dict_mem date (MonthData.daily_totals m) then m
  else MonthData.set_daily_totals
         (dict_set date (DailyTotals.mk 0 0) (MonthData.daily_totals m)) m.

(** Body of the infractions loop (lines 828-835). *)
Definition month_infraction (st : WeekState) (entry : string * Z)
  : result WeekState :=
  let '(month_data, week_infractions, week_frames) := st in
  let '(date, count) := entry in
  let month_data := init_daily date month_data in
  d <- dict_getitem date (MonthData.daily_totals month_data) ;;
  let month_data :=
    MonthData.set_daily_totals
      (dict_set date
         (DailyTotals.mk (DailyTotals.infractions d + count) (DailyTotals.frames d))
         (MonthData.daily_totals month_data))
      month_data in
  Ok (month_data, week_infractions + count, week_frames).

(** Body of the frames loop (lines 837-845). *)
Definition month_frame (camera_id : string) (st : WeekState)
    (entry : string * Z) : result WeekState :=
  let '(month_data, week_infractions, week_frames) := st in
  let '(date, count) := entry in
  let month_data := init_daily date month_data in
  d <- dict_getitem date (MonthData.daily_totals month_data) ;;
  let month_data :=
    MonthData.set_daily_totals
      (dict_set date
         (DailyTotals.mk (DailyTotals.infractions d) (DailyTotals.frames d + count))
         (MonthData.daily_totals month_data))
      month_data in
  let week_frames := week_frames + count in
  c <- dict_getitem camera_id (MonthData.cameras month_data) ;;
  let month_data :=
    MonthData.set_cameras
      (dict_set camera_id
         (CameraTotals.mk (CameraTotals.name c) (CameraTotals.total_infractions c)
            (CameraTotals.total_frames c + count) (CameraTotals.weeks_active c))
         (MonthData.cameras month_data))
      month_data in
  Ok (month_data, week_infractions, week_frames).

(** Body of [for camera_id, camera_data in data.items()] (lines 811-845). *)
Definition month_camera (st : WeekState) (item : string * CameraData)
  : result WeekState :=
  let '(month_data, week_infractions, week_frames) := st in
  let '(camera_id, camera_data) := item in
  month_data <-
    (if dict_mem camera_id (MonthData.cameras month_data) then Ok month_data
     else
       nm <- field "camera" (camera camera_data) ;;
       Ok (MonthData.set_cameras
             (dict_set camera_id (CameraTotals.mk nm 0 0 0)
                (MonthData.cameras month_data))
             month_data)) ;;
  c <- dict_getitem camera_id (MonthData.cameras month_data) ;;
  t <- field "total" (total camera_data) ;;
  let month_data :=
    MonthData.set_cameras
      (dict_set camera_id
         (CameraTotals.mk (CameraTotals.name c)
            (CameraTotals.total_infractions c + t)
            (CameraTotals.total_frames c) (CameraTotals.weeks_active c))
         (MonthData.cameras month_data))
      month_data in
  c <- dict_getitem camera_id (MonthData.cameras month_data) ;;
  let month_data :=
    MonthData.set_cameras
      (dict_set camera_id
         (CameraTotals.mk (CameraTotals.name c) (CameraTotals.total_infractions c)
            (CameraTotals.total_frames c) (CameraTotals.weeks_active c + 1))
         (MonthData.cameras month_data))
      month_data in
  st <- foldM month_infraction (get_or_empty (infractions camera_data))
          (month_data, week_infractions, week_frames) ;;
  foldM (month_frame camera_id) (get_or_empty (frames camera_data)) st.

(** Body of [for week in available_weeks] (lines 803-852). *)
Definition month_week (fetch : Resolver) (params : GetMonthlyReportInput.t)
    (month_data : MonthData.t) (week : Z) : result MonthData.t :=
  let data := fetch (GetMonthlyReportInput.month_number params)
                    (GetMonthlyReportInput.month_name params) week in
  if negb (truthy_data data) then Ok month_data
  else
    st <- foldM month_camera (match data with Some d => d | None => [] end)
            (month_data, 0, 0) ;;
    let '(month_data, week_infractions, week_frames) := st in
    Ok (MonthData.mk
          (MonthData.total_infractions month_data + week_infractions)
          (MonthData.total_frames month_data + week_frames)
          (MonthData.cameras month_data)
          (MonthData.daily_totals month_data)
          (MonthData.week_summaries month_data
           ++ [WeekSummary.mk week week_infractions week_frames])).

Definition aggregate_month (fetch : Resolver) (params : GetMonthlyReportInput.t)
    (weeks : list Z) : result MonthData.t :=
  foldM (month_week fetch params) weeks (MonthData.mk 0 0 [] [] []).

(** The ["summary"] object of the report. *)
Module Summary.
Record t : Type := mk {
  total_infractions : Z;
  total_frames : Z;
  efficiency : number;
  weeks_available : nat;
  cameras_active : nat
}.
End Summary.

Module MonthlyReport.
Record t : Type := mk {
  summary : Summary.t;
  cameras : dict CameraTotals.t;
  week_summaries : list WeekSummary.t;
  (* the efficiency printed on each "Weekly Breakdown" line of the
     markdown answer; the JSON answer has no such lines *)
  weekly_breakdown : list (WeekSummary.t * number);
  (* the "Top Performing Cameras" lines of the markdown answer *)
  top_cameras : list (string * CameraTotals.t * number)
}.
End MonthlyReport.

(** [key=lambda x: x[1]["total_infractions"], reverse=True] *)
Definition by_total_infractions_desc (x y : string * CameraTotals.t) : bool :=
  CameraTotals.total_infractions (snd y) <=? CameraTotals.total_infractions (snd x).

(** A comprehension-like loop: [f] on every element, first exception wins. *)
Fixpoint mapM {A B : Type} (f : A -> result B) (l : list A) : result (list B) :=
  match l with
  | [] => Ok []
  | x :: l' => y <- f x ;; ys <- mapM f l' ;; Ok (y :: ys)
  end.

Definition week_line (s : WeekSummary.t) : result (WeekSummary.t * number) :=
  e <- rounded_efficiency (WeekSummary.infractions s) (WeekSummary.frames s) ;;
  Ok (s, e).

Definition camera_line (x : string * CameraTotals.t)
  : result (string * CameraTotals.t * number) :=
  e <- rounded_efficiency (CameraTotals.total_infractions (snd x))
         (CameraTotals.total_frames (snd x)) ;;
  Ok (fst x, snd x, e).

(** The JSON answer computes the summary efficiency only (lines 864-885);
    the markdown answer computes it too, then the efficiency of each weekly
    line and of each top-camera line (lines 888-927). *)
Definition get_monthly_report (fetch : Resolver)
    (params : GetMonthlyReportInput.t) : response MonthlyReport.t :=
  run_tool
    (let available_weeks :=
       get_available_weeks fetch (GetMonthlyReportInput.month_number params)
         (GetMonthlyReportInput.month_name params) in
     match available_weeks with
     | [] => Ok None
     | _ :: _ =>
         month_data <- aggregate_month fetch params available_weeks ;;
         let camera_rankings :=
           py_sort by_total_infractions_desc (MonthData.cameras month_data) in
         eff <- rounded_efficiency (MonthData.total_infractions month_data)
                  (MonthData.total_frames month_data) ;;
         let summary :=
           Summary.mk (MonthData.total_infractions month_data)
             (MonthData.total_frames month_data) eff
             (List.length available_weeks)
             (List.length (MonthData.cameras month_data)) in
         match GetMonthlyReportInput.response_format params with
         | JSON =>
             Ok (Some (MonthlyReport.mk summary
                         (MonthData.cameras month_data)
                         (MonthData.week_summaries month_data) [] []))
         | MARKDOWN =>
             lines <- mapM week_line (MonthData.week_summaries month_data) ;;
             top <- mapM camera_line (firstn 5 camera_rankings) ;;
             Ok (Some (MonthlyReport.mk summary
                         (MonthData.cameras month_data)
                         (MonthData.week_summaries month_data)
                         lines top))
         end
     end).

(** * The remaining helpers and tools *)

(** ** [truncate_response] *)

Definition CHARACTER_LIMIT : Z := 25000.

Definition newline : string := String "010"%char EmptyString.

(** The text appended to a truncated response. *)
Definition truncation_notice : string :=
  String.append newline
    (String.append newline
       "... [Response truncated due to size. Use filters to narrow results.]").

(** [len] counts the characters of the text; [response[:n]] is its first
    [n] characters (all of them when there are fewer). *)
Definition truncate_response (response : string) : string :=
  if Z.of_nat (String.length response) <=? CHARACTER_LIMIT then response
  else
    let truncated :=
      String.substring 0 (Z.to_nat (CHARACTER_LIMIT - 200)) response in
    String.append truncated truncation_notice.

(** ** [format_camera_data_markdown] *)

(** [str(n)] of an [int], as an f-string renders it. *)
Definition py_str_int (n : Z) : string :=
  DecimalString.NilZero.string_of_int (Z.to_int n).

Section Formatting.
(** [str.strip], Python's removal of leading and trailing white space. *)
Variable py_strip : string -> string.

Definition daily_line (entry : string * Z) : string :=
  String.append "- "
    (String.append (fst entry) (String.append ": " (py_str_int (snd entry)))).

Definition format_camera_data_markdown (camera_id : string)
    (camera_data : CameraData) (include_daily : bool) : result string :=
  nm <- field "camera" (camera camera_data) ;;
  up <- field "uptime" (uptime camera_data) ;;
  st <- field "used_storage" (used_storage camera_data) ;;
  t <- field "total" (total camera_data) ;;
  let lines :=
    [String.append "## Camera "
       (String.append camera_id (String.append " - " nm));
     String.append "- **Uptime**: " (py_strip up);
     String.append "- **Storage Used**: " st;
     String.append "- **Total Infractions**: " (py_str_int t)] in
  lines <-
    (if include_daily
        && match infractions camera_data with Some _ => true | None => false end
     then
       let lines := lines ++ [String.append newline "### Daily Infractions:"] in
       inf <- field "infractions" (infractions camera_data) ;;
       let lines := lines ++ map daily_line inf in
       let lines := lines ++ [String.append newline "### Daily Frames:"] in
       fr <- field "frames" (frames camera_data) ;;
       Ok (lines ++ map daily_line fr)
     else Ok lines) ;;
  Ok (String.concat newline lines).
End Formatting.

(** ** [get_camera_status] *)

Module GetCameraStatusInput.
Record t : Type := mk {
  month_number : Z;
  month_name : string;
  week_number : Z;
  camera_id : string;
  include_daily : bool;
  response_format : ResponseFormat
}.
End GetCameraStatusInput.

(** What [get_camera_status] hands back: one of its two "not found"
    messages, the observation ([json.dumps] of it), the markdown text, or
    the message of the outer [except Exception]. *)
Inductive StatusResponse : Type :=
| StatusNoData
| StatusCameraNotFound
| StatusJson (camera_data : CameraData)
| StatusMarkdown (text : string)
| StatusError (e : PyError).

Definition get_camera_status (py_strip : string -> string) (fetch : Resolver)
    (params : GetCameraStatusInput.t) : StatusResponse :=
  let data := fetch (GetCameraStatusInput.month_number params)
                    (GetCameraStatusInput.month_name params)
                    (GetCameraStatusInput.week_number params) in
  if negb (truthy_data data) then StatusNoData
  else
    let data := match data with Some d => d | None => [] end in
    if negb (dict_mem (GetCameraStatusInput.camera_id params) data)
    then StatusCameraNotFound
    else
      match dict_getitem (GetCameraStatusInput.camera_id params) data with
      | Err e => StatusError e
      | Ok camera_data =>
          match GetCameraStatusInput.response_format params with
          | JSON => StatusJson camera_data
          | MARKDOWN =>
              match format_camera_data_markdown py_strip
                      (GetCameraStatusInput.camera_id params) camera_data
                      (GetCameraStatusInput.include_daily params) with
              | Ok text => StatusMarkdown text
              | Err e => StatusError e
              end
          end
      end.

(** ** [list_cameras] *)

Module ListCamerasInput.
Record t : Type := mk {
  month_number : Z;
  month_name : string;
  week_number : option Z
}.
End ListCamerasInput.

(** One element of [cameras_info]. *)
Module CameraInfo.
Record t : Type := mk {
  id : string;
  name : string;
  total_infractions : Z;
  storage_used : string;
  week : Z
}.
End CameraInfo.

(** Body of [for camera_id, camera_data in data.items()] (lines 302-311 and
    325-334). *)
Definition camera_info (week : Z) (cameras_info : list CameraInfo.t)
    (item : string * CameraData) : result (list CameraInfo.t) :=
  let '(camera_id, camera_data) := item in
  nm <- field "camera" (camera camera_data) ;;
  t <- field "total" (total camera_data) ;;
  st <- field "used_storage" (used_storage camera_data) ;;
  Ok (cameras_info ++ [CameraInfo.mk camera_id nm t st week]).

(** Body of [for week in available_weeks] (lines 320-334). *)
Definition list_week (fetch : Resolver) (params : ListCamerasInput.t)
    (cameras_info : list CameraInfo.t) (week : Z)
  : result (list CameraInfo.t) :=
  let data := fetch (ListCamerasInput.month_number params)
                    (ListCamerasInput.month_name params) week in
  if truthy_data data then
    foldM (camera_info week) (match data with Some d => d | None => [] end)
          cameras_info
  else Ok cameras_info.

(** Lines 292-334: [cameras_info], or [None] for a "No data found" answer. *)
Definition collect_cameras_info (fetch : Resolver)
    (params : ListCamerasInput.t) : result (option (list CameraInfo.t)) :=
  if truthy_int (ListCamerasInput.week_number params) then
    let week := match ListCamerasInput.week_number params with
                | Some w => w | None => 0 end in
    let data := fetch (ListCamerasInput.month_number params)
                      (ListCamerasInput.month_name params) week in
    if negb (truthy_data data) then Ok None
    else
      infos <- foldM (camera_info week)
                 (match data with Some d => d | None => [] end) [] ;;
      Ok (Some infos)
  else
    let available_weeks :=
      get_available_weeks fetch (ListCamerasInput.month_number params)
        (ListCamerasInput.month_name params) in
    match available_weeks with
    | [] => Ok None
    | _ :: _ =>
        infos <- foldM (list_week fetch params) available_weeks [] ;;
        Ok (Some infos)
    end.

(** The JSON answer: [{"cameras": cameras_info, "count": len(cameras_info)}]. *)
Module CameraList.
Record t : Type := mk {
  cameras : list CameraInfo.t;
  count : nat
}.
End CameraList.

Definition list_cameras (fetch : Resolver) (params : ListCamerasInput.t)
  : response CameraList.t :=
  run_tool
    (infos <- collect_cameras_info fetch params ;;
     Ok (match infos with
         | Some l => Some (CameraList.mk l (List.length l))
         | None => None
         end)).

(** Body of the grouping loop of the markdown answer (lines 353-357):
    [if id not in by_camera: by_camera[id] = []] then
    [by_camera[id].append(info)]. *)
Definition group_info (by_camera : dict (list CameraInfo.t))
    (info : CameraInfo.t) : result (dict (list CameraInfo.t)) :=
  let by_camera :=
    if dict_mem (CameraInfo.id info) by_camera then by_camera
    else dict_set (CameraInfo.id info) [] by_camera in
  l <- dict_getitem (CameraInfo.id info) by_camera ;;
  Ok (dict_set (CameraInfo.id info) (l ++ [info]) by_camera).

(** [a <= b] on [str], the order of [sorted(by_camera.keys())]. *)
Definition str_leb (a b : string) : bool := negb (str_ltb b a).

(** The sections of the markdown answer (lines 352-365): the groups of
    [by_camera] in ascending order of camera id. *)
Definition camera_sections (cameras_info : list CameraInfo.t)
  : result (list (string * list CameraInfo.t)) :=
  by_camera <- foldM group_info cameras_info [] ;;
  mapM (fun camera_id =>
          camera_infos <- dict_getitem camera_id by_camera ;;
          Ok (camera_id, camera_infos))
       (py_sort str_leb (keys by_camera)).

(** [len(set(c['id'] for c in cameras_info))], the "Total cameras found". *)
Definition total_cameras_found (cameras_info : list CameraInfo.t) : nat :=
  List.length (nodup string_dec (map CameraInfo.id cameras_info)).

(** ** The daily trend of [get_monthly_report] *)

(** [l[-n:]]: the last [n] elements, all of them when there are fewer. *)
Definition py_last {A : Type} (n : nat) (l : list A) : list A :=
  skipn (List.length l - n) l.

(** Lines 930-938: [sorted(month_data["daily_totals"].keys())[-7:]] and,
    for each of these dates, [month_data["daily_totals"][date]]. *)
Definition daily_trend (daily_totals : dict DailyTotals.t)
  : result (list (string * DailyTotals.t)) :=
  let sorted_dates := py_last 7 (py_sort str_leb (keys daily_totals)) in
  mapM (fun date =>
          daily <- dict_getitem date daily_totals ;;
          Ok (date, daily))
       sorted_dates.

(** * Specification-side vocabulary

    The definitions below are not translations of the program; they spell
    out the words of the specification so that the theorems can compare the
    program with them. *)

(** Mathematical sums. *)
Definition sumZ (l : list Z) : Z := fold_right Z.add 0 l.

(** "infractions divided by frames times 100", as a rational number. *)
Definition spec_ratio (infractions frames : Z) : Q :=
  (inject_Z infractions / inject_Z frames * 100)%Q.

(** The same expression evaluated in binary64: the quotient of the two
    integers, rounded, times 100, rounded. *)
Definition float_ratio (infractions frames : Z) : pyfloat :=
  float_times_100 (to_float (inject_Z infractions / inject_Z frames)).

(** The guarded ratio, and the guarded ratio rounded to two decimals. *)
Definition guarded_ratio (i f : Z) : number :=
  if 0 <? f then PyFloat (float_ratio i f) else PyInt 0.

Definition guarded_rounded (i f : Z) : number :=
  if 0 <? f then PyFloat (round2 (float_ratio i f)) else PyInt 0.

(** Numbers compared by value. *)
Definition num_le (x y : number) : Prop := num_leb x y = true.


(** The number is finite and within [eps] of the rational [q]. *)
Definition num_near (x : number) (q eps : Q) : Prop :=
  match num_val x with
  | Fin v => (q - eps <= v /\ v <= q + eps)%Q
  | Inf _ => False
  end.

(** The number is finite and has the value [q]. *)
Definition num_is (x : number) (q : Q) : Prop := num_near x q 0.

(** Counts that fit a binary64 number exactly (53 bits), and counts far
    inside the binary64 range. *)
Definition int53 (z : Z) : Prop := Z.abs z <= 2 ^ 53.

Definition in_float_range (z : Z) : Prop := Z.abs z <= 2 ^ 1000.

(** The stored total-count field of an observation. *)
Definition stored_total (cd : CameraData) : Z :=
  match total cd with Some t => t | None => 0 end.

(** The sum of the daily frame mapping of an observation. *)
Definition daily_frame_sum (cd : CameraData) : Z :=
  sumZ (values (get_or_empty (frames cd))).

(** The value of each metric kind of the ranker for an observation. *)
Definition spec_metric (metric : string) (cd : CameraData) : number :=
  if String.eqb metric "infractions" then PyInt (stored_total cd)
  else if String.eqb metric "frames" then PyInt (daily_frame_sum cd)
  else guarded_ratio (stored_total cd) (daily_frame_sum cd).

(** The ranking entry [e] describes the device [item] of a record set. *)
Definition spec_ranks (metric : string) (item : string * CameraData)
    (e : Comparison.t) : Prop :=
  Comparison.id e = fst item
  /\ camera (snd item) = Some (Comparison.name e)
  /\ total (snd item) = Some (Comparison.infractions e)
  /\ used_storage (snd item) = Some (Comparison.storage e)
  /\ Comparison.frames e = daily_frame_sum (snd item)
  /\ Comparison.efficiency e
     = guarded_ratio (Comparison.infractions e) (Comparison.frames e)
  /\ Comparison.metric_value e = spec_metric metric (snd item).

(** A device observation that carries the three fields the ranker reads. *)
Definition complete (cd : CameraData) : Prop :=
  camera cd <> None /\ total cd <> None /\ used_storage cd <> None.

(** A complete observation whose total-count is far inside the binary64
    range, so that its ratio to any frame count is a float. *)
Definition rankable (cd : CameraData) : Prop :=
  complete cd /\ in_float_range (stored_total cd).

(** The mean and the median of the specification, as rational numbers:
    the sum divided by the number of values, and the middle value of a
    sorted arrangement (half the sum of the two middle values when their
    number is even). *)
Definition spec_mean (S : list Z) : Q :=
  (inject_Z (sumZ S) / inject_Z (Z.of_nat (List.length S)))%Q.

Definition spec_median (sorted : list Z) : Q :=
  let n := List.length sorted in
  if Nat.odd n then inject_Z (nth (Nat.div n 2) sorted 0)
  else (inject_Z (nth (Nat.div n 2 - 1) sorted 0 + nth (Nat.div n 2) sorted 0)%Z
        / inject_Z 2)%Q.

(** The mean field: the mean itself when it is a whole number, otherwise
    the float nearest to the mean, rounded to two decimals. *)
Definition mean_field (S : list Z) (x : number) : Prop :=
  (exists k, (spec_mean S == inject_Z k)%Q /\ x = PyInt k)
  \/ ((forall k, ~ (spec_mean S == inject_Z k)%Q)
      /\ x = PyFloat (round2 (to_float (spec_mean S)))).

(** The median field: the middle value itself, or the float nearest to
    half the sum of the two middle values, rounded to two decimals. *)
Definition median_field (sorted : list Z) (x : number) : Prop :=
  if Nat.odd (List.length sorted)
  then x = PyInt (nth (Nat.div (List.length sorted) 2) sorted 0)
  else x = PyFloat (round2 (to_float (spec_median sorted))).

(** Non-negative counts inside the floating-point range. *)
Definition count_in_range (z : Z) : Prop := 0 <= z <= 2 ^ 1000.

(** ** Sample record sets

    The scenario of the specification (device A, one period) and small
    variations of it, used to exercise the theorems on concrete inputs. *)

Definition cam_A : CameraData :=
  mkCameraData (Some "Cam A"%string) (Some "3 days"%string) (Some "10G"%string) (Some 10)
    (Some [("01-05", 4); ("01-06", 6)]%string)
    (Some [("01-05", 40); ("01-06", 60)]%string).

(** A device whose stored total (7) disagrees with its daily counts. *)
Definition cam_B : CameraData :=
  mkCameraData (Some "Cam B"%string) (Some "1 day"%string) (Some "2G"%string) (Some 7)
    (Some [("01-05", 1); ("01-07", 2)]%string)
    (Some [("01-05", 3)]%string).

(** A device observation without a display name. *)
Definition cam_nameless : CameraData :=
  mkCameraData None (Some "1 day"%string) (Some "2G"%string) (Some 3)
    (Some [("01-05", 1)]%string) (Some [("01-05", 3)]%string).

(** One infraction in three frames. *)
Definition cam_third : CameraData :=
  mkCameraData (Some "Cam T"%string) (Some "1 day"%string) (Some "2G"%string) (Some 1)
    (Some [("01-05", 1)]%string) (Some [("01-05", 3)]%string).

(** Two devices whose stored totals (5 and 3) both disagree with their
    daily counts (4 and 4), the two errors cancelling each other. *)
Definition cam_over : CameraData :=
  mkCameraData (Some "Cam P"%string) (Some "1 day"%string) (Some "2G"%string) (Some 5)
    (Some [("01-05", 4)]%string) (Some [("01-05", 40)]%string).

Definition cam_under : CameraData :=
  mkCameraData (Some "Cam Q"%string) (Some "1 day"%string) (Some "2G"%string) (Some 3)
    (Some [("01-05", 4)]%string) (Some [("01-05", 40)]%string).

Definition week_offsetting : PeriodRecordSet :=
  [("P"%string, cam_over); ("Q"%string, cam_under)].

Definition week_A : PeriodRecordSet := [("A"%string, cam_A)].
Definition week_AB : PeriodRecordSet := [("A"%string, cam_A); ("B"%string, cam_B)].

(** Period 1 holds [data]; every other period is missing. *)
Definition one_week (data : PeriodRecordSet) : Resolver :=
  fun _ _ week => if week =? 1 then Some data else None.

(** Periods 1 and 3 hold record sets; the others are missing. *)
Definition two_weeks (d1 d3 : PeriodRecordSet) : Resolver :=
  fun _ _ week =>
    if week =? 1 then Some d1 else if week =? 3 then Some d3 else None.

(** The resolver answered for the period (anything but "not found"). *)
Definition period_found (fetch : Resolver) (month_number : Z)
    (month_name : string) (week : Z) : bool :=
  match fetch month_number month_name week with
  | Some _ => true
  | None => false
  end.

(** ** Search vocabulary *)

(** A (period, device, observation, date, infraction count) tuple. *)
Definition Tuple : Type := (Z * string * CameraData * string * Z)%type.

Definition tuples_of_camera (week : Z) (item : string * CameraData)
  : list Tuple :=
  map (fun entry => (week, fst item, snd item, fst entry, snd entry))
      (get_or_empty (infractions (snd item))).

Definition tuples_of_week (fetch : Resolver) (month_number : Z)
    (month_name : string) (week : Z) : list Tuple :=
  match fetch month_number month_name week with
  | Some data => flat_map (tuples_of_camera week) data
  | None => []
  end.

(** Every tuple present in the given periods, in scan order. *)
Definition spec_tuples (fetch : Resolver) (params : SearchInfractionsInput.t)
    (weeks : list Z) : list Tuple :=
  flat_map (tuples_of_week fetch (SearchInfractionsInput.month_number params)
              (SearchInfractionsInput.month_name params)) weeks.

(** The criteria as the specification words them: each criterion that is
    set must hold. *)
Definition spec_criteria_as_claimed (params : SearchInfractionsInput.t)
    (t : Tuple) : bool :=
  let '(_, _, _, date, count) := t in
  match SearchInfractionsInput.date params with
  | Some d => String.eqb date d
  | None => true
  end
  && match SearchInfractionsInput.min_infractions params with
     | Some lo => lo <=? count
     | None => true
     end
  && match SearchInfractionsInput.max_infractions params with
     | Some hi => count <=? hi
     | None => true
     end.

(** The criteria with an empty date text counting as "no date set". *)
Definition spec_criteria (params : SearchInfractionsInput.t) (t : Tuple)
  : bool :=
  let '(_, _, _, date, count) := t in
  match SearchInfractionsInput.date params with
  | Some d => String.eqb d "" || String.eqb date d
  | None => true
  end
  && match SearchInfractionsInput.min_infractions params with
     | Some lo => lo <=? count
     | None => true
     end
  && match SearchInfractionsInput.max_infractions params with
     | Some hi => count <=? hi
     | None => true
     end.

Definition tuple_named (t : Tuple) : Prop :=
  let '(_, _, cd, _, _) := t in camera cd <> None.

(** The match a tuple gives rise to; the frame count is the device's frame
    mapping at the tuple's date, 0 when absent. *)
Definition spec_match (t : Tuple) : Match.t :=
  let '(week, cid, cd, date, count) := t in
  Match.mk week cid (match camera cd with Some n => n | None => ""%string end)
    date count (dict_get_default date 0 (get_or_empty (frames cd))).

(** Ascending date, then descending infraction count. *)
Definition spec_order (x y : Match.t) : Prop :=
  String_as_OT.lt (Match.date x) (Match.date y)
  \/ (Match.date x = Match.date y /\ Match.infractions y <= Match.infractions x).

(** The identity of a match: which period, which device, which date. *)
Definition match_key (m : Match.t) : Z * string * string :=
  (Match.week m, Match.camera_id m, Match.date m).

Definition tuple_key (t : Tuple) : Z * string * string :=
  let '(week, cid, _, date, _) := t in (week, cid, date).

(** The (period, device, date) triple is present in the scanned periods:
    the period is available and the device's infraction mapping of that
    period has the date. *)
Definition spec_present (fetch : Resolver) (month_number : Z)
    (month_name : string) (week : Z) (cid date : string) : Prop :=
  In week (get_available_weeks fetch month_number month_name)
  /\ exists data cd n,
       fetch month_number month_name week = Some data
       /\ In (cid, cd) data
       /\ In (date, n) (get_or_empty (infractions cd)).

(** A record set made of dictionaries: no repeated device identifier, no
    repeated date in a daily mapping. *)
Definition record_set_wf (data : PeriodRecordSet) : Prop :=
  dict_wf data
  /\ forall cid cd, In (cid, cd) data ->
       dict_wf (get_or_empty (infractions cd))
       /\ dict_wf (get_or_empty (frames cd)).

(** Every answer of the resolver is such a record set. *)
Definition resolver_wf (fetch : Resolver) : Prop :=
  forall month_number month_name week data,
    fetch month_number month_name week = Some data -> record_set_wf data.

(** ** Merge vocabulary *)

(** Addition of counts that may be absent: an absent count adds nothing,
    and the sum is absent only when every count is. *)
Definition opt_add (a b : option Z) : option Z :=
  match a, b with
  | Some x, Some y => Some (x + y)
  | Some x, None => Some x
  | None, _ => b
  end.

Definition opt_sum (l : list (option Z)) : option Z := fold_right opt_add None l.

(** What one period holds for a device and a date in the daily mapping
    [proj] (infractions or frames). *)
Definition spec_period_count (proj : CameraData -> option (dict Z))
    (fetch : Resolver) (month_number : Z) (month_name : string)
    (cid date : string) (week : Z) : option Z :=
  match fetch month_number month_name week with
  | Some data =>
      match dict_get cid data with
      | Some cd => dict_get date (get_or_empty (proj cd))
      | None => None
      end
  | None => None
  end.

(** The entries of an association list filed under [key], added up. *)
Definition keyed_sum {V : Type} (g : V -> option Z) (key : string)
    (d : dict V) : option Z :=
  opt_sum (map (fun item => if String.eqb key (fst item) then g (snd item)
                            else None) d).

(** The merged count of a device and a date in the accumulator. *)
Definition merged (proj : AllData.t -> dict Z) (all_data : dict AllData.t)
    (cid date : string) : option Z :=
  match dict_get cid all_data with
  | Some e => dict_get date (proj e)
  | None => None
  end.

(** The device passes the optional device filter of the analysis. *)
Definition selected (camera_filter : option string) (cid : string) : bool :=
  negb (truthy_str camera_filter
        && negb (String.eqb cid
                   (match camera_filter with Some c => c | None => ""%string end))).

(** ** Monthly totals vocabulary *)

(** The per-device totals of the monthly rollup, as a mapping from device
    to total infractions. *)
Definition inf_view (cameras : dict CameraTotals.t) : dict Z :=
  map (fun item => (fst item, CameraTotals.total_infractions (snd item)))
      cameras.

(** The sum of the per-device totals. *)
Definition per_device_totals (cameras : dict CameraTotals.t) : Z :=
  sumZ (values (inf_view cameras)).

(** The sum of the daily infraction mapping of an observation. *)
Definition daily_infraction_sum (cd : CameraData) : Z :=
  sumZ (values (get_or_empty (infractions cd))).

Definition week_records (fetch : Resolver) (month_number : Z)
    (month_name : string) (week : Z) : PeriodRecordSet :=
  match fetch month_number month_name week with
  | Some data => data
  | None => []
  end.

(** The sum of all daily infraction entries of every device of every found
    period. *)
Definition spec_daily_total (fetch : Resolver) (month_number : Z)
    (month_name : string) (weeks : list Z) : Z :=
  sumZ (map (fun week =>
               sumZ (map (fun item => daily_infraction_sum (snd item))
                         (week_records fetch month_number month_name week)))
            weeks).

(** The sum of all stored total-count fields. *)
Definition spec_stored_total (fetch : Resolver) (month_number : Z)
    (month_name : string) (weeks : list Z) : Z :=
  sumZ (map (fun week =>
               sumZ (map (fun item => stored_total (snd item))
                         (week_records fetch month_number month_name week)))
            weeks).

(** The stored total-count a period holds for a device. *)
Definition spec_period_total (fetch : Resolver) (month_number : Z)
    (month_name : string) (cid : string) (week : Z) : option Z :=
  match fetch month_number month_name week with
  | Some data =>
      match dict_get cid data with
      | Some cd => total cd
      | None => None
      end
  | None => None
  end.

(** Every stored total-count matches the sum of its own daily infraction
    mapping. *)
Definition totals_consistent (fetch : Resolver) (month_number : Z)
    (month_name : string) (weeks : list Z) : Prop :=
  forall week data cid cd,
    In week weeks -> fetch month_number month_name week = Some data ->
    In (cid, cd) data -> total cd = Some (daily_infraction_sum cd).

(** The stored totals of a record set, device by device. *)
Definition stored_entries (data : PeriodRecordSet) : dict Z :=
  map (fun item => (fst item, stored_total (snd item))) data.

(** Two periods of the additive-merge scenario: device D with 3 and then 5
    infractions on the same date. *)
Definition cam_D3 : CameraData :=
  mkCameraData (Some "Cam D"%string) (Some "1 day"%string) (Some "1G"%string)
    (Some 3) (Some [("2024-01-01", 3)]%string) (Some [("2024-01-01", 30)]%string).

Definition cam_D5 : CameraData :=
  mkCameraData (Some "Cam D"%string) (Some "2 days"%string) (Some "1G"%string)
    (Some 5) (Some [("2024-01-01", 5)]%string) (Some [("2024-01-01", 50)]%string).

(** ** Vocabulary of the further properties *)

(** The field whose absence [compare_cameras] meets first in an
    observation: it reads the total, then the name, then the storage. *)
Definition first_missing_compare (cd : CameraData) : option string :=
  match total cd, camera cd, used_storage cd with
  | None, _, _ => Some "total"%string
  | Some _, None, _ => Some "camera"%string
  | Some _, Some _, None => Some "used_storage"%string
  | Some _, Some _, Some _ => None
  end.

(** A tuple that meets the criteria although its observation has no
    display name. *)
Definition unnamed_match (params : SearchInfractionsInput.t) (t : Tuple)
  : bool :=
  spec_criteria params t
  && match t with
     | (_, _, cd, _, _) =>
         match camera cd with Some _ => false | None => true end
     end.

(** Same date and same infraction count: the sort key of search cannot
    tell the two matches apart. *)
Definition same_sort_key (date : string) (count : Z) (m : Match.t) : bool :=
  String.eqb (Match.date m) date && (Match.infractions m =? count).

(** The period holds an observation of the device (in a non-empty record
    set that was found). *)
Definition holds_device (fetch : Resolver) (month_number : Z)
    (month_name : string) (cid : string) (week : Z) : bool :=
  match fetch month_number month_name week with
  | Some data => dict_mem cid data
  | None => false
  end.

(** The per-period lists of a rollup that may not exist yet. *)
Definition rollup_weeks (o : option AllData.t) : list Z :=
  match o with Some e => AllData.weeks e | None => [] end.

Definition rollup_totals (o : option AllData.t) : list Z :=
  match o with Some e => AllData.infractions e | None => [] end.

Definition rollup_frames (o : option AllData.t) : list Z :=
  match o with Some e => AllData.frames e | None => [] end.

(** What one observation [cd] of period [week] does to the rollup of its
    device: the period and the stored total are appended; the name is set
    only when the rollup is created. *)
Definition extends_rollup (week : Z) (cd : CameraData)
    (before after : option AllData.t) : Prop :=
  exists e t,
    after = Some e
    /\ total cd = Some t
    /\ AllData.weeks e = rollup_weeks before ++ [week]
    /\ AllData.infractions e = rollup_totals before ++ [t]
    /\ AllData.frames e = rollup_frames before
    /\ match before with
       | Some e0 => AllData.name e = AllData.name e0
       | None => camera cd = Some (AllData.name e)
       end.

(** The display name a period holds for a device. *)
Definition period_name (fetch : Resolver) (month_number : Z)
    (month_name : string) (cid : string) (week : Z) : option string :=
  match fetch month_number month_name week with
  | Some data =>
      match dict_get cid data with
      | Some cd => camera cd
      | None => None
      end
  | None => None
  end.

(** ** Views of the monthly rollup *)

(** A dictionary seen through one field of its values. *)
Definition dict_map {V W : Type} (f : V -> W) (d : dict V) : dict W :=
  map (fun item => (fst item, f (snd item))) d.

Definition frames_view (cameras : dict CameraTotals.t) : dict Z :=
  dict_map CameraTotals.total_frames cameras.

Definition active_view (cameras : dict CameraTotals.t) : dict Z :=
  dict_map CameraTotals.weeks_active cameras.

Definition names_view (cameras : dict CameraTotals.t) : dict string :=
  dict_map CameraTotals.name cameras.

Definition daily_inf_view (daily : dict DailyTotals.t) : dict Z :=
  dict_map DailyTotals.infractions daily.

Definition daily_frames_view (daily : dict DailyTotals.t) : dict Z :=
  dict_map DailyTotals.frames daily.

(** The same keys, every count 0: what creating the entries alone does. *)
Definition zeroed (entries : dict Z) : dict Z :=
  map (fun e => (fst e, 0)) entries.

(** What one observation contributes to each view, as a sequence of
    "create with 0 when absent, then add" steps. *)
Definition total_events (item : string * CameraData) : dict Z :=
  [(fst item, stored_total (snd item))].

Definition active_events (item : string * CameraData) : dict Z :=
  [(fst item, 1)].

Definition frame_events (item : string * CameraData) : dict Z :=
  (fst item, 0)
  :: map (fun e => (fst item, snd e)) (get_or_empty (frames (snd item))).

Definition daily_inf_events (item : string * CameraData) : dict Z :=
  get_or_empty (infractions (snd item))
  ++ zeroed (get_or_empty (frames (snd item))).

Definition daily_frame_events (item : string * CameraData) : dict Z :=
  zeroed (get_or_empty (infractions (snd item)))
  ++ get_or_empty (frames (snd item)).

(** The fields of the month data that the loops over the daily mappings
    leave alone. *)
Definition same_totals (md md' : MonthData.t) : Prop :=
  MonthData.total_infractions md' = MonthData.total_infractions md
  /\ MonthData.total_frames md' = MonthData.total_frames md
  /\ MonthData.week_summaries md' = MonthData.week_summaries md.

(** The five views of [md'] are those of [md] after the given events. *)
Definition views_after (md md' : MonthData.t)
    (totals actives frame_ev daily_inf daily_fr : dict Z) : Prop :=
  foldM add_daily totals (inf_view (MonthData.cameras md))
  = Ok (inf_view (MonthData.cameras md'))
  /\ foldM add_daily actives (active_view (MonthData.cameras md))
     = Ok (active_view (MonthData.cameras md'))
  /\ foldM add_daily frame_ev (frames_view (MonthData.cameras md))
     = Ok (frames_view (MonthData.cameras md'))
  /\ foldM add_daily daily_inf (daily_inf_view (MonthData.daily_totals md))
     = Ok (daily_inf_view (MonthData.daily_totals md'))
  /\ foldM add_daily daily_fr (daily_frames_view (MonthData.daily_totals md))
     = Ok (daily_frames_view (MonthData.daily_totals md')).

(** The frames a period holds for a device, summed over its dates. *)
Definition spec_period_frames (fetch : Resolver) (month_number : Z)
    (month_name : string) (cid : string) (week : Z) : option Z :=
  match fetch month_number month_name week with
  | Some data =>
      match dict_get cid data with
      | Some cd => Some (daily_frame_sum cd)
      | None => None
      end
  | None => None
  end.

(** The sum of all daily frame entries of every device of every found
    period. *)
Definition spec_frames_total (fetch : Resolver) (month_number : Z)
    (month_name : string) (weeks : list Z) : Z :=
  sumZ (map (fun week =>
               sumZ (map (fun item => daily_frame_sum (snd item))
                         (week_records fetch month_number month_name week)))
            weeks).

(** What all observations of all found periods hold for one date in the
    daily mapping [proj], a missing date counting 0. *)
Definition spec_date_total (proj : CameraData -> option (dict Z))
    (fetch : Resolver) (month_number : Z) (month_name : string)
    (date : string) (weeks : list Z) : Z :=
  sumZ (map (fun week =>
               sumZ (map (fun item =>
                            dict_get_default date 0
                              (get_or_empty (proj (snd item))))
                         (week_records fetch month_number month_name week)))
            weeks).

(** The summary line of a period: its daily infractions and frames, all
    devices together. *)
Definition spec_week_summary (fetch : Resolver) (month_number : Z)
    (month_name : string) (week : Z) : WeekSummary.t :=
  WeekSummary.mk week
    (sumZ (map (fun item => daily_infraction_sum (snd item))
               (week_records fetch month_number month_name week)))
    (sumZ (map (fun item => daily_frame_sum (snd item))
               (week_records fetch month_number month_name week))).

(** An absent count read as 0. *)
Definition opt_val (o : option Z) : Z :=
  match o with Some v => v | None => 0 end.

(** The events of a whole period, observation after observation, and of
    all periods. *)
Definition week_events (ev : string * CameraData -> dict Z) (fetch : Resolver)
    (month_number : Z) (month_name : string) (week : Z) : dict Z :=
  flat_map ev (week_records fetch month_number month_name week).

Definition month_events (ev : string * CameraData -> dict Z) (fetch : Resolver)
    (month_number : Z) (month_name : string) (weeks : list Z) : dict Z :=
  flat_map (week_events ev fetch month_number month_name) weeks.

(** The summary lines of the periods that were found with data. *)
Definition spec_week_summaries (fetch : Resolver) (month_number : Z)
    (month_name : string) (weeks : list Z) : list WeekSummary.t :=
  map (spec_week_summary fetch month_number month_name)
      (filter (fun week => truthy_data (fetch month_number month_name week))
              weeks).

(** The empty month data the report starts from. *)
Definition empty_month : MonthData.t := MonthData.mk 0 0 [] [] [].

(** An observation the monthly rollup can take whatever came before: it
    has a total-count and a display name. *)
Definition month_ready (cd : CameraData) : bool :=
  match total cd, camera cd with
  | Some _, Some _ => true
  | _, _ => false
  end.

(** Every observation of every period is such an observation. *)
Definition month_all_ready (fetch : Resolver) (month_number : Z)
    (month_name : string) (weeks : list Z) : Prop :=
  forall week cid cd,
    In week weeks ->
    In (cid, cd) (week_records fetch month_number month_name week) ->
    month_ready cd = true.

(** The number of periods that hold the device. *)
Definition periods_holding (fetch : Resolver) (month_number : Z)
    (month_name : string) (cid : string) (weeks : list Z) : Z :=
  Z.of_nat (List.length
              (filter (holds_device fetch month_number month_name cid) weeks)).

(** Some observation of some period has the date in one of its two daily
    mappings. *)
Definition date_seen (fetch : Resolver) (month_number : Z)
    (month_name : string) (date : string) (weeks : list Z) : Prop :=
  exists week cid cd,
    In week weeks
    /\ In (cid, cd) (week_records fetch month_number month_name week)
    /\ (In date (keys (get_or_empty (infractions cd)))
        \/ In date (keys (get_or_empty (frames cd)))).

(** The key of the monthly ranking. *)
Definition ranking_total (x : string * CameraTotals.t) : Z :=
  CameraTotals.total_infractions (snd x).

(** A printed top-camera line without its efficiency figure. *)
Definition line_entry (line : string * CameraTotals.t * number)
  : string * CameraTotals.t :=
  (fst (fst line), snd (fst line)).

(** The month data of the sample record set of devices A and B held by
    period 1. *)
Definition month_AB : MonthData.t :=
  MonthData.mk 13 103
    [("A"%string, CameraTotals.mk "Cam A" 10 100 1);
     ("B"%string, CameraTotals.mk "Cam B" 7 3 1)]
    [("01-05"%string, DailyTotals.mk 5 43);
     ("01-06"%string, DailyTotals.mk 6 60);
     ("01-07"%string, DailyTotals.mk 2 0)]
    [WeekSummary.mk 1 13 103].

Definition params_enero : GetMonthlyReportInput.t :=
  GetMonthlyReportInput.mk 1 "enero" MARKDOWN.

(** The report of the same month. *)
Definition report_AB : MonthlyReport.t :=
  MonthlyReport.mk
    (Summary.mk 13 103 (PyFloat (to_float (1262 # 100))) 1 2)
    (MonthData.cameras month_AB)
    (MonthData.week_summaries month_AB)
    [(WeekSummary.mk 1 13 103, PyFloat (to_float (1262 # 100)))]
    [("A"%string, CameraTotals.mk "Cam A" 10 100 1,
      PyFloat (to_float (1000 # 100)));
     ("B"%string, CameraTotals.mk "Cam B" 7 3 1,
      PyFloat (to_float (23333 # 100)))].

(** ** Vocabulary of the listing and of the status *)

(** The periods that [list_cameras] reads: the requested one, or all the
    available ones. *)
Definition listed_weeks (fetch : Resolver) (params : ListCamerasInput.t)
  : list Z :=
  if truthy_int (ListCamerasInput.week_number params) then
    [match ListCamerasInput.week_number params with
     | Some w => w
     | None => 0
     end]
  else
    get_available_weeks fetch (ListCamerasInput.month_number params)
      (ListCamerasInput.month_name params).

(** Every observation of the listed periods with its period, in the order
    of the periods and, within a period, of the record set. *)
Definition spec_listing (fetch : Resolver) (params : ListCamerasInput.t)
  : list (Z * (string * CameraData)) :=
  flat_map (fun week =>
              map (pair week)
                  (week_records fetch (ListCamerasInput.month_number params)
                     (ListCamerasInput.month_name params) week))
           (listed_weeks fetch params).

(** The field whose absence [list_cameras] meets first in an observation:
    it reads the name, then the total, then the storage. *)
Definition first_missing_list (cd : CameraData) : option string :=
  match camera cd, total cd, used_storage cd with
  | None, _, _ => Some "camera"%string
  | Some _, None, _ => Some "total"%string
  | Some _, Some _, None => Some "used_storage"%string
  | Some _, Some _, Some _ => None
  end.

(** The first element of a list for which [f] is defined. *)
Fixpoint first_some {A B : Type} (f : A -> option B) (l : list A)
  : option B :=
  match l with
  | [] => None
  | x :: l' =>
      match f x with
      | Some b => Some b
      | None => first_some f l'
      end
  end.

(** An absent text read as the empty text. *)
Definition opt_text (o : option string) : string :=
  match o with Some s => s | None => ""%string end.

(** The listing line of an observation of a period. *)
Definition spec_info (entry : Z * (string * CameraData)) : CameraInfo.t :=
  CameraInfo.mk (fst (snd entry))
    (opt_text (camera (snd (snd entry))))
    (stored_total (snd (snd entry)))
    (opt_text (used_storage (snd (snd entry))))
    (fst entry).

(** The listing lines of one device, in listing order. *)
Definition infos_of (camera_id : string) (cameras_info : list CameraInfo.t)
  : list CameraInfo.t :=
  filter (fun info => String.eqb camera_id (CameraInfo.id info)) cameras_info.

(** A group that may not exist yet, extended by further lines; no group is
    created for no line. *)
Definition opt_app (o : option (list CameraInfo.t)) (more : list CameraInfo.t)
  : option (list CameraInfo.t) :=
  match o, more with
  | None, [] => None
  | None, _ :: _ => Some more
  | Some l, _ => Some (l ++ more)
  end.

(** The field whose absence the markdown status meets first: the four
    header fields in the order the header reads them, then, when the daily
    detail is requested and the observation has a daily infraction
    mapping, the daily frame mapping. *)
Definition first_missing_status (include_daily : bool) (cd : CameraData)
  : option string :=
  match camera cd, uptime cd, used_storage cd, total cd with
  | None, _, _, _ => Some "camera"%string
  | Some _, None, _, _ => Some "uptime"%string
  | Some _, Some _, None, _ => Some "used_storage"%string
  | Some _, Some _, Some _, None => Some "total"%string
  | Some _, Some _, Some _, Some _ =>
      if include_daily then
        match infractions cd, frames cd with
        | Some _, None => Some "frames"%string
        | _, _ => None
        end
      else None
  end.

(** Two observations with the same four header fields. *)
Definition same_header (cd cd' : CameraData) : Prop :=
  camera cd = camera cd' /\ uptime cd = uptime cd'
  /\ used_storage cd = used_storage cd' /\ total cd = total cd'.

(** A rollup whose figures are all far inside the floating-point range:
    the stored totals, the merged daily counts and the sum of the merged
    daily infractions are at most 2^1000 in absolute value. *)
Definition rollup_in_range (d : AllData.t) : Prop :=
  Forall in_float_range (AllData.infractions d)
  /\ Forall in_float_range (values (AllData.daily_infractions d))
  /\ Forall in_float_range (values (AllData.daily_frames d))
  /\ in_float_range (sumZ (values (AllData.daily_infractions d))).

(** Month data whose infraction figures are all far inside the
    floating-point range. *)
Definition month_in_range (md : MonthData.t) : Prop :=
  in_float_range (MonthData.total_infractions md)
  /\ Forall (fun s => in_float_range (WeekSummary.infractions s))
       (MonthData.week_summaries md)
  /\ Forall (fun x => in_float_range (CameraTotals.total_infractions (snd x)))
       (MonthData.cameras md).
(** * Properties *)

(** ** Loops in the [result] monad *)

Lemma bind_Ok {A B : Type} (r : result A) (k : A -> result B) (b : B) :
  bind r k = Ok b -> exists a, r = Ok a /\ k a = Ok b.
Proof.
  destruct r as [a|e]; simpl; intros H; [exists a; auto | discriminate].
Qed.

Lemma foldM_app {A S : Type} (body : S -> A -> result S) (l1 l2 : list A) (s : S) :
  foldM body (l1 ++ l2) s = (s' <- foldM body l1 s ;; foldM body l2 s').
Proof.
  revert s; induction l1 as [|x l1 IH]; intros s; simpl; [reflexivity|].
  destruct (body s x) as [s'|e]; simpl; [apply IH | reflexivity].
Qed.

(** A loop invariant: [I] relates the part of the list already consumed to
    the current state. *)
Lemma foldM_invariant {A S : Type} (body : S -> A -> result S)
    (I : list A -> S -> Prop) (l : list A) (s0 s : S) :
  I [] s0 ->
  (forall done x st st', I done st -> body st x = Ok st' -> I (done ++ [x]) st') ->
  foldM body l s0 = Ok s -> I l s.
Proof.
  intros H0 Hstep.
  assert (G : forall todo done st, I done st ->
                foldM body todo st = Ok s -> I (done ++ todo) s).
  { induction todo as [|x todo IH]; intros done st Hi Hf; simpl in Hf.
    - inversion Hf; subst. now rewrite app_nil_r.
    - apply bind_Ok in Hf. destruct Hf as [st' [Hb Hf]].
      replace (done ++ x :: todo) with ((done ++ [x]) ++ todo)
        by now rewrite <- app_assoc.
      eapply IH; [eapply Hstep; eassumption | exact Hf]. }
  intros Hf. apply (G l [] s0 H0 Hf).
Qed.

(** A loop whose body never raises runs to its end. *)
Lemma foldM_total {A S : Type} (body : S -> A -> result S) (l : list A) (s : S) :
  (forall st x, exists st', body st x = Ok st') ->
  exists s', foldM body l s = Ok s'.
Proof.
  intros Hb. revert s; induction l as [|x l IH]; intros s; simpl.
  - now exists s.
  - destruct (Hb s x) as [st' ->]. simpl. apply IH.
Qed.

(** Steps that leave the state alone can be dropped from the loop. *)
Lemma foldM_filter {A S : Type} (body : S -> A -> result S) (keep : A -> bool)
    (l : list A) (s : S) :
  (forall st x, keep x = false -> body st x = Ok st) ->
  foldM body l s = foldM body (filter keep l) s.
Proof.
  intros Hskip. revert s; induction l as [|x l IH]; intros s; simpl; [reflexivity|].
  destruct (keep x) eqn:Hk; simpl.
  - destruct (body s x); simpl; auto.
  - rewrite (Hskip s x Hk). simpl. apply IH.
Qed.

(** ** Dictionary lemmas *)

Section DictFacts.
Context {V : Type}.
Implicit Types (d : dict V) (k : string) (v : V).

Lemma dict_get_set_same k v d : dict_get k (dict_set k v d) = Some v.
Proof.
  induction d as [|[k' v'] d IH]; simpl.
  - now rewrite String.eqb_refl.
  - destruct (String.eqb k k') eqn:E; simpl.
    + now rewrite String.eqb_refl.
    + now rewrite E.
Qed.

Lemma dict_get_set_other k k' v d :
  k' <> k -> dict_get k' (dict_set k v d) = dict_get k' d.
Proof.
  intros Hne. induction d as [|[k0 v0] d IH]; simpl.
  - apply String.eqb_neq in Hne. now rewrite Hne.
  - destruct (String.eqb k k0) eqn:E; simpl.
    + apply String.eqb_eq in E; subst k0.
      apply String.eqb_neq in Hne. now rewrite Hne.
    + destruct (String.eqb k' k0); auto.
Qed.

Lemma dict_get_set k k' v d :
  dict_get k' (dict_set k v d)
  = if String.eqb k' k then Some v else dict_get k' d.
Proof.
  destruct (String.eqb k' k) eqn:E.
  - apply String.eqb_eq in E; subst. apply dict_get_set_same.
  - apply String.eqb_neq in E. now apply dict_get_set_other.
Qed.

Lemma dict_get_None k d : dict_get k d = None <-> ~ In k (keys d).
Proof.
  induction d as [|[k' v'] d IH]; simpl.
  - tauto.
  - destruct (String.eqb k k') eqn:E.
    + apply String.eqb_eq in E; subst. split; [discriminate | tauto].
    + apply String.eqb_neq in E. rewrite IH. split; intros H; [|tauto].
      intros [Heq | Hin]; [now subst | tauto].
Qed.

Lemma dict_get_In k v d : dict_get k d = Some v -> In (k, v) d.
Proof.
  induction d as [|[k' v'] d IH]; simpl; [discriminate|].
  destruct (String.eqb k k') eqn:E.
  - apply String.eqb_eq in E; subst. intros H; inversion H; auto.
  - auto.
Qed.

Lemma dict_wf_get k v d : dict_wf d -> In (k, v) d -> dict_get k d = Some v.
Proof.
  unfold dict_wf. induction d as [|[k' v'] d IH]; simpl; [tauto|].
  intros Hnd [Heq | Hin].
  - inversion Heq; subst. now rewrite String.eqb_refl.
  - inversion Hnd as [|? ? Hnotin Hnd']; subst.
    destruct (String.eqb k k') eqn:E; [|auto].
    apply String.eqb_eq in E; subst. exfalso. apply Hnotin.
    change k' with (fst (k', v)). now apply in_map.
Qed.

Lemma keys_dict_set_mem k v d :
  dict_mem k d = true -> keys (dict_set k v d) = keys d.
Proof.
  unfold dict_mem. induction d as [|[k' v'] d IH]; simpl; [discriminate|].
  destruct (String.eqb k k') eqn:E; simpl.
  - apply String.eqb_eq in E. now subst.
  - intros H. now rewrite IH.
Qed.

Lemma keys_dict_set_new k v d :
  dict_mem k d = false -> keys (dict_set k v d) = keys d ++ [k].
Proof.
  unfold dict_mem. induction d as [|[k' v'] d IH]; simpl; [reflexivity|].
  destruct (String.eqb k k') eqn:E; simpl; [discriminate|].
  intros H. now rewrite IH.
Qed.

Lemma dict_mem_In k d : dict_mem k d = true <-> In k (keys d).
Proof.
  unfold dict_mem. destruct (dict_get k d) as [v|] eqn:E.
  - split; [intros _ | reflexivity].
    apply dict_get_In in E. now apply (in_map fst) in E.
  - split; [discriminate | intros Hin].
    apply dict_get_None in E. contradiction.
Qed.

Lemma dict_set_wf k v d : dict_wf d -> dict_wf (dict_set k v d).
Proof.
  unfold dict_wf. intros Hwf. destruct (dict_mem k d) eqn:E.
  - now rewrite keys_dict_set_mem.
  - rewrite keys_dict_set_new by exact E.
    apply NoDup_app; [exact Hwf | repeat constructor; simpl; tauto |].
    intros x Hin [<-|[]].
    apply dict_mem_In in Hin. congruence.
Qed.
End DictFacts.

(** ** The stable sort *)

Section StableSortFacts.
Context {A : Type} (leb : A -> A -> bool).

Lemma insert_perm (x : A) (l : list A) : Permutation (insert leb x l) (x :: l).
Proof.
  induction l as [|y l IH]; simpl; [reflexivity|].
  destruct (leb x y); [reflexivity|].
  rewrite IH. apply perm_swap.
Qed.

Lemma py_sort_perm (l : list A) : Permutation (py_sort leb l) l.
Proof.
  induction l as [|x l IH]; simpl; [reflexivity|].
  rewrite insert_perm. now constructor.
Qed.

Lemma py_sort_In (x : A) (l : list A) : In x (py_sort leb l) <-> In x l.
Proof.
  split; apply Permutation_in;
    [apply py_sort_perm | symmetry; apply py_sort_perm].
Qed.

(** Stability: elements that the order does not separate keep the
    relative order they had in the input. *)
Lemma insert_filter (p : A -> bool) (x : A) (l : list A) :
  (forall a b, p a = true -> p b = true -> leb a b = true) ->
  filter p (insert leb x l) = filter p (x :: l).
Proof.
  intros Hp. induction l as [|y l IH]; simpl; [reflexivity|].
  destruct (leb x y) eqn:E; simpl; [reflexivity|].
  rewrite IH. simpl.
  destruct (p x) eqn:Px, (p y) eqn:Py; try reflexivity.
  rewrite (Hp x y Px Py) in E. discriminate.
Qed.

Lemma py_sort_stable (p : A -> bool) (l : list A) :
  (forall a b, p a = true -> p b = true -> leb a b = true) ->
  filter p (py_sort leb l) = filter p l.
Proof.
  intros Hp. induction l as [|x l IH]; simpl; [reflexivity|].
  rewrite insert_filter by exact Hp. simpl. now rewrite IH.
Qed.

Hypothesis leb_total : forall a b, leb a b = false -> leb b a = true.
Hypothesis leb_trans :
  forall a b c, leb a b = true -> leb b c = true -> leb a c = true.

Let le (a b : A) : Prop := leb a b = true.

Lemma insert_sorted (x : A) (l : list A) :
  StronglySorted le l -> StronglySorted le (insert leb x l).
Proof.
  induction 1 as [|y l Hs IH Hall]; simpl.
  - repeat constructor.
  - destruct (leb x y) eqn:E.
    + constructor; [now constructor|].
      constructor; [exact E|].
      eapply Forall_impl; [|exact Hall].
      intros z Hz. unfold le in *. eapply leb_trans; eassumption.
    + constructor; [exact IH|].
      apply Forall_forall. intros z Hz.
      apply (Permutation_in _ (insert_perm x l)) in Hz.
      destruct Hz as [<-|Hz].
      * now apply leb_total.
      * rewrite Forall_forall in Hall. now apply Hall.
Qed.

Lemma py_sort_sorted (l : list A) : StronglySorted le (py_sort leb l).
Proof.
  induction l as [|x l IH]; simpl; [constructor | now apply insert_sorted].
Qed.
End StableSortFacts.

(** ** Numbers *)

Ltac inv_bind :=
  repeat match goal with
         | H : bind _ _ = Ok _ |- _ =>
             let a := fresh "a" in
             let Ha := fresh "Ha" in
             apply bind_Ok in H; destruct H as [a [Ha H]]
         | H : Ok _ = Ok _ |- _ => inversion H; subst; clear H
         end.

Lemma fold_left_Zadd (l : list Z) (a : Z) : fold_left Z.add l a = a + sumZ l.
Proof.
  revert a; induction l as [|x l IH]; intros a; simpl; [lia|].
  rewrite IH. lia.
Qed.

Lemma py_sumZ_sumZ (l : list Z) : py_sumZ l = sumZ l.
Proof. unfold py_sumZ. now rewrite fold_left_Zadd. Qed.

(** ** Rounding to the nearest integer *)

Lemma round_half_even_near (y : Q) :
  (y - (1#2) <= inject_Z (round_half_even y)
   /\ inject_Z (round_half_even y) <= y + (1#2))%Q.
Proof.
  unfold round_half_even.
  pose proof (Qfloor_le y) as Hlo. pose proof (Qlt_floor y) as Hhi.
  rewrite inject_Z_plus in Hhi. change (inject_Z 1) with 1%Q in Hhi.
  destruct (Qcompare_spec (y - inject_Z (Qfloor y)) (1#2)) as [He|Hl|Hg].
  - destruct (Z.even (Qfloor y)); rewrite ?inject_Z_plus;
      change (inject_Z 1) with 1%Q; split; lra.
  - split; lra.
  - rewrite inject_Z_plus. change (inject_Z 1) with 1%Q. split; lra.
Qed.

Lemma round_half_even_Z (y : Q) (k : Z) :
  (y == inject_Z k)%Q -> round_half_even y = k.
Proof.
  intros He. unfold round_half_even.
  assert (Hf : Qfloor y = k) by (rewrite He; apply Qfloor_Z).
  rewrite Hf.
  destruct (Qcompare_spec (y - inject_Z k) (1#2)) as [H|H|H];
    [lra | reflexivity | lra].
Qed.

Lemma round_half_even_lower (y : Q) (k : Z) :
  (inject_Z k <= y)%Q -> k <= round_half_even y.
Proof.
  intros Hle. apply Qfloor_resp_le in Hle. rewrite Qfloor_Z in Hle.
  unfold round_half_even.
  destruct (Qcompare _ _); [destruct (Z.even _)| |]; lia.
Qed.

Lemma round_half_even_upper (y : Q) (k : Z) :
  (y <= inject_Z k)%Q -> round_half_even y <= k.
Proof.
  intros Hle. pose proof (Qfloor_resp_le _ _ Hle) as Hf.
  rewrite Qfloor_Z in Hf.
  destruct (Z.eq_dec (Qfloor y) k) as [E|E].
  - assert (y == inject_Z k)%Q as He.
    { pose proof (Qfloor_le y) as H. rewrite E in H. lra. }
    rewrite (round_half_even_Z y k He). lia.
  - unfold round_half_even.
    destruct (Qcompare _ _); [destruct (Z.even _)| |]; lia.
Qed.

(** Rounding to the nearest integer is monotone. *)
Lemma round_half_even_mono (x y : Q) :
  (x <= y)%Q -> round_half_even x <= round_half_even y.
Proof.
  intros Hxy. pose proof (Qfloor_resp_le _ _ Hxy) as Hf.
  unfold round_half_even.
  destruct (Z.eq_dec (Qfloor x) (Qfloor y)) as [E|E].
  - rewrite E.
    destruct (Qcompare_spec (x - inject_Z (Qfloor y)) (1#2)) as [Hx|Hx|Hx];
      destruct (Qcompare_spec (y - inject_Z (Qfloor y)) (1#2)) as [Hy|Hy|Hy];
      try (destruct (Z.even (Qfloor y))); try lia; lra.
  - destruct (Qcompare _ _); destruct (Qcompare _ _);
      repeat match goal with |- context [Z.even ?a] => destruct (Z.even a) end;
      lia.
Qed.

(** ** Powers of two *)

Lemma pow2_pos (k : Z) : (0 < pow2 k)%Q.
Proof. unfold pow2. apply Qpower_0_lt. reflexivity. Qed.

Lemma pow2_add (a b : Z) : (pow2 (a + b) == pow2 a * pow2 b)%Q.
Proof. unfold pow2. apply Qpower_plus. discriminate. Qed.

Lemma pow2_sub (a b : Z) : (pow2 (a - b) == pow2 a / pow2 b)%Q.
Proof. unfold pow2. apply Qpower_minus. discriminate. Qed.

Lemma pow2_le (a b : Z) : a <= b -> (pow2 a <= pow2 b)%Q.
Proof. intros H. unfold pow2. apply Qpower_le_compat_l; [exact H | discriminate]. Qed.

Lemma pow2_lt (a b : Z) : a < b -> (pow2 a < pow2 b)%Q.
Proof. intros H. unfold pow2. apply Qpower_lt_compat_l; [exact H | reflexivity]. Qed.

Lemma pow2_lt_inv (a b : Z) : (pow2 a < pow2 b)%Q -> a < b.
Proof. intros H. unfold pow2 in H. eapply Qpower_lt_compat_l_inv; [exact H | reflexivity]. Qed.

Lemma pow2_nonneg (k : Z) : 0 <= k -> (pow2 k == inject_Z (2 ^ k))%Q.
Proof. intros H. unfold pow2. symmetry. apply (Zpower_Qpower 2 k H). Qed.

Lemma pow2_succ (k : Z) : (pow2 (k + 1) == 2 * pow2 k)%Q.
Proof. rewrite pow2_add. unfold pow2 at 2. rewrite Qpower_1_r. ring. Qed.

(** ** The binary logarithm of a positive rational *)

Lemma Q_as_fraction (q : Q) :
  (q == inject_Z (Qnum q) / inject_Z (Zpos (Qden q)))%Q.
Proof.
  destruct q as [n d]. cbn [Qnum Qden]. rewrite Qmake_Qdiv. reflexivity.
Qed.

Lemma ilog2_spec (q : Q) :
  (0 < q)%Q -> (pow2 (ilog2 q) <= q /\ q < pow2 (ilog2 q + 1))%Q.
Proof.
  intros Hq.
  assert (Hn : 0 < Qnum q) by (destruct q as [n d]; unfold Qlt in Hq; simpl in *; lia).
  set (n := Qnum q) in *. set (d := Zpos (Qden q)).
  assert (Hd : 0 < d) by (unfold d; lia).
  destruct (Z.log2_spec n Hn) as [Hn1 Hn2].
  destruct (Z.log2_spec d Hd) as [Hd1 Hd2].
  pose proof (Z.log2_nonneg n) as Ln. pose proof (Z.log2_nonneg d) as Ld.
  set (ln := Z.log2 n) in *. set (ld := Z.log2 d) in *.
  assert (Hqeq : (q == inject_Z n / inject_Z d)%Q) by apply Q_as_fraction.
  assert (Hdq : (0 < inject_Z d)%Q) by (rewrite <- (Zlt_Qlt 0); exact Hd).
  (* bounds of n and d as rationals *)
  assert (Bn1 : (pow2 ln <= inject_Z n)%Q)
    by (rewrite pow2_nonneg by lia; rewrite <- Zle_Qle; exact Hn1).
  assert (Bn2 : (inject_Z n < pow2 (ln + 1))%Q).
  { rewrite pow2_nonneg by lia. rewrite <- Zlt_Qlt.
    replace (ln + 1) with (Z.succ ln) by lia. exact Hn2. }
  assert (Bd1 : (pow2 ld <= inject_Z d)%Q)
    by (rewrite pow2_nonneg by lia; rewrite <- Zle_Qle; exact Hd1).
  assert (Bd2 : (inject_Z d < pow2 (ld + 1))%Q).
  { rewrite pow2_nonneg by lia. rewrite <- Zlt_Qlt.
    replace (ld + 1) with (Z.succ ld) by lia. exact Hd2. }
  (* q lies between 2^(k0-1) and 2^(k0+1) *)
  assert (Hlo : (pow2 (ln - ld - 1) < q)%Q).
  { rewrite Hqeq. apply Qlt_shift_div_l; [exact Hdq|].
    apply Qlt_le_trans with (pow2 (ln - ld - 1) * pow2 (ld + 1))%Q.
    - apply Qmult_lt_l; [apply pow2_pos | exact Bd2].
    - rewrite <- pow2_add. replace (ln - ld - 1 + (ld + 1)) with ln by lia.
      exact Bn1. }
  assert (Hhi : (q < pow2 (ln - ld + 1))%Q).
  { rewrite Hqeq. apply Qlt_shift_div_r; [exact Hdq|].
    apply Qlt_le_trans with (pow2 (ln + 1)); [exact Bn2|].
    replace (ln + 1) with (ln - ld + 1 + ld) by lia. rewrite pow2_add.
    apply Qmult_le_l; [apply pow2_pos | exact Bd1]. }
  unfold ilog2. fold n d. fold ln ld.
  destruct (Qle_bool (pow2 (ln - ld)) q) eqn:E.
  - apply Qle_bool_iff in E. split; [exact E | exact Hhi].
  - split; [apply Qlt_le_weak; exact Hlo|].
    replace (ln - ld - 1 + 1) with (ln - ld) by lia.
    apply Qnot_le_lt. intros H. apply Qle_bool_iff in H. congruence.
Qed.

Lemma ilog2_unique (q : Q) (k : Z) :
  (pow2 k <= q)%Q -> (q < pow2 (k + 1))%Q -> ilog2 q = k.
Proof.
  intros H1 H2.
  assert (Hq : (0 < q)%Q) by (pose proof (pow2_pos k); lra).
  destruct (ilog2_spec q Hq) as [S1 S2].
  assert (A : ilog2 q < k + 1) by (apply pow2_lt_inv; lra).
  assert (B : k < ilog2 q + 1) by (apply pow2_lt_inv; lra).
  lia.
Qed.

Lemma ilog2_mono (x y : Q) :
  (0 < x)%Q -> (x <= y)%Q -> ilog2 x <= ilog2 y.
Proof.
  intros Hx Hxy. assert (Hy : (0 < y)%Q) by lra.
  destruct (ilog2_spec x Hx) as [X1 _]. destruct (ilog2_spec y Hy) as [_ Y2].
  assert (ilog2 x < ilog2 y + 1) by (apply pow2_lt_inv; lra). lia.
Qed.

(** ** Rounding a positive rational to binary64 *)

Lemma scaled_back (q : Q) (e : Z) : (q / pow2 e * pow2 e == q)%Q.
Proof. field. pose proof (pow2_pos e). lra. Qed.

Lemma round_pos_near (q : Q) :
  (q - pow2 (ulp_exponent q) * (1 # 2) <= round_pos q
   /\ round_pos q <= q + pow2 (ulp_exponent q) * (1 # 2))%Q.
Proof.
  unfold round_pos. set (e := ulp_exponent q).
  pose proof (pow2_pos e) as HP.
  destruct (round_half_even_near (q / pow2 e)) as [H1 H2].
  set (m := inject_Z (round_half_even (q / pow2 e))) in *.
  split.
  - setoid_replace (q - pow2 e * (1 # 2))%Q with ((q / pow2 e - (1#2)) * pow2 e)%Q
      by (field; lra).
    apply Qmult_le_compat_r; [exact H1 | lra].
  - setoid_replace (q + pow2 e * (1 # 2))%Q with ((q / pow2 e + (1#2)) * pow2 e)%Q
      by (field; lra).
    apply Qmult_le_compat_r; [exact H2 | lra].
Qed.

Lemma round_pos_exact (q : Q) (m : Z) :
  (q / pow2 (ulp_exponent q) == inject_Z m)%Q -> (round_pos q == q)%Q.
Proof.
  intros H. unfold round_pos. rewrite (round_half_even_Z _ m H), <- H.
  apply scaled_back.
Qed.

Lemma round_pos_le_pow2 (q : Q) (k : Z) :
  (q <= pow2 k)%Q -> ulp_exponent q <= k -> (round_pos q <= pow2 k)%Q.
Proof.
  intros Hq He. unfold round_pos. set (e := ulp_exponent q) in *.
  pose proof (pow2_pos e) as HP.
  assert (Hy : (q / pow2 e <= inject_Z (2 ^ (k - e)))%Q).
  { rewrite <- pow2_nonneg by lia. rewrite pow2_sub.
    apply Qmult_le_compat_r; [exact Hq|].
    apply Qlt_le_weak, Qinv_lt_0_compat. exact HP. }
  apply round_half_even_upper in Hy. rewrite Zle_Qle in Hy.
  rewrite <- pow2_nonneg in Hy by lia.
  setoid_replace (pow2 k) with (pow2 (k - e) * pow2 e)%Q
    by (rewrite <- pow2_add; replace (k - e + e) with k by lia; reflexivity).
  apply Qmult_le_compat_r; [exact Hy | lra].
Qed.

Lemma round_pos_ge_pow2 (q : Q) (k : Z) :
  (pow2 k <= q)%Q -> ulp_exponent q <= k -> (pow2 k <= round_pos q)%Q.
Proof.
  intros Hq He. unfold round_pos. set (e := ulp_exponent q) in *.
  pose proof (pow2_pos e) as HP.
  assert (Hy : (inject_Z (2 ^ (k - e)) <= q / pow2 e)%Q).
  { rewrite <- pow2_nonneg by lia. rewrite pow2_sub.
    apply Qmult_le_compat_r; [exact Hq|].
    apply Qlt_le_weak, Qinv_lt_0_compat. exact HP. }
  apply round_half_even_lower in Hy. rewrite Zle_Qle in Hy.
  rewrite <- pow2_nonneg in Hy by lia.
  setoid_replace (pow2 k) with (pow2 (k - e) * pow2 e)%Q
    by (rewrite <- pow2_add; replace (k - e + e) with k by lia; reflexivity).
  apply Qmult_le_compat_r; [exact Hy | lra].
Qed.

Lemma round_pos_nonneg (q : Q) : (0 <= q)%Q -> (0 <= round_pos q)%Q.
Proof.
  intros Hq. unfold round_pos. pose proof (pow2_pos (ulp_exponent q)) as HP.
  apply Qmult_le_0_compat; [|lra].
  rewrite <- (Zle_Qle 0). apply round_half_even_lower.
  change (inject_Z 0) with 0%Q.
  apply Qle_shift_div_l; [exact HP | lra].
Qed.

Lemma round_pos_mono (x y : Q) :
  (0 < x)%Q -> (x <= y)%Q -> (round_pos x <= round_pos y)%Q.
Proof.
  intros Hx Hxy. assert (Hy : (0 < y)%Q) by lra.
  pose proof (ilog2_mono x y Hx Hxy) as Hk.
  destruct (Z.eq_dec (ulp_exponent x) (ulp_exponent y)) as [E|E].
  - unfold round_pos. rewrite E. set (e := ulp_exponent y).
    pose proof (pow2_pos e) as HP.
    apply Qmult_le_compat_r; [|lra].
    rewrite <- Zle_Qle. apply round_half_even_mono.
    apply Qmult_le_compat_r; [exact Hxy|].
    apply Qlt_le_weak, Qinv_lt_0_compat. exact HP.
  - assert (Hlt : ulp_exponent x < ulp_exponent y)
      by (unfold ulp_exponent in *; lia).
    assert (Hkk : ilog2 x < ilog2 y) by (unfold ulp_exponent in *; lia).
    destruct (ilog2_spec x Hx) as [_ X2]. destruct (ilog2_spec y Hy) as [Y1 _].
    apply Qle_trans with (pow2 (ilog2 y)).
    + apply round_pos_le_pow2.
      * apply Qle_trans with (pow2 (ilog2 x + 1)); [lra | apply pow2_le; lia].
      * unfold ulp_exponent in *. lia.
    + apply round_pos_ge_pow2; [exact Y1 | unfold ulp_exponent in *; lia].
Qed.

(** Integers of at most 53 bits are binary64 values. *)
Lemma round_pos_int (z : Z) :
  0 < z <= 2 ^ 53 -> (round_pos (inject_Z z) == inject_Z z)%Q.
Proof.
  intros [Hz1 Hz2].
  assert (Hq : (0 < inject_Z z)%Q) by (rewrite <- (Zlt_Qlt 0); exact Hz1).
  destruct (Z.eq_dec z (2 ^ 53)) as [->|Hne].
  - assert (Hk : ilog2 (inject_Z (2 ^ 53)) = 53).
    { apply ilog2_unique.
      - rewrite pow2_nonneg by lia. apply Qle_refl.
      - rewrite pow2_nonneg by lia. rewrite <- Zlt_Qlt. lia. }
    apply (round_pos_exact _ (2 ^ 52)). unfold ulp_exponent. rewrite Hk.
    replace (Z.max (-1074) (53 - 52)) with 1 by lia.
    vm_compute. reflexivity.
  - assert (Hk : ilog2 (inject_Z z) <= 52).
    { destruct (ilog2_spec _ Hq) as [S1 _].
      assert (ilog2 (inject_Z z) < 53); [|lia].
      apply pow2_lt_inv. apply Qle_lt_trans with (inject_Z z); [exact S1|].
      rewrite pow2_nonneg by lia. rewrite <- Zlt_Qlt. lia. }
    set (e := ulp_exponent (inject_Z z)).
    assert (He : e <= 0) by (unfold e, ulp_exponent; lia).
    apply (round_pos_exact _ (z * 2 ^ (- e))). fold e.
    rewrite inject_Z_mult, <- pow2_nonneg by lia.
    setoid_replace (pow2 (- e)) with (/ pow2 e)%Q; [reflexivity|].
    unfold pow2. apply Qpower_opp.
Qed.

(** ** Conversion to binary64 *)

Lemma to_float_zero (q : Q) : (q == 0)%Q -> to_float q = Fin 0.
Proof.
  intros H. unfold to_float.
  destruct (Qcompare q 0) eqn:E; [reflexivity| |].
  - apply Qlt_alt in E. lra.
  - apply Qgt_alt in E. lra.
Qed.

Lemma to_float_pos (q : Q) :
  (0 < q)%Q ->
  to_float q = if Qle_bool (pow2 1024) (round_pos q) then Inf false
               else Fin (Qred (round_pos q)).
Proof.
  intros H. unfold to_float.
  destruct (Qcompare q 0) eqn:E; [| |reflexivity].
  - apply Qeq_alt in E. lra.
  - apply Qlt_alt in E. lra.
Qed.

Lemma to_float_neg (q : Q) :
  (q < 0)%Q ->
  to_float q = if Qle_bool (pow2 1024) (round_pos (- q)) then Inf true
               else Fin (Qred (- round_pos (- q))).
Proof.
  intros H. unfold to_float.
  destruct (Qcompare q 0) eqn:E; [|reflexivity|].
  - apply Qeq_alt in E. lra.
  - apply Qgt_alt in E. lra.
Qed.

Lemma float_leb_Fin (a b : Q) : float_leb (Fin a) (Fin b) = true <-> (a <= b)%Q.
Proof. apply Qle_bool_iff. Qed.

Lemma Qle_bool_false (a b : Q) : Qle_bool a b = false <-> (b < a)%Q.
Proof.
  split.
  - intros H. apply Qnot_le_lt. intros Hle. apply Qle_bool_iff in Hle. congruence.
  - intros H. destruct (Qle_bool a b) eqn:E; [|reflexivity].
    apply Qle_bool_iff in E. lra.
Qed.

(** Rounding to binary64 is monotone. *)
Lemma to_float_mono (x y : Q) :
  (x <= y)%Q -> float_leb (to_float x) (to_float y) = true.
Proof.
  intros Hxy.
  destruct (Q_dec x 0) as [[Hx|Hx]|Hx], (Q_dec y 0) as [[Hy|Hy]|Hy];
    try (exfalso; lra).
  - (* both negative *)
    rewrite (to_float_neg x Hx), (to_float_neg y Hy).
    assert (Hm : (round_pos (- y) <= round_pos (- x))%Q)
      by (apply round_pos_mono; lra).
    destruct (Qle_bool (pow2 1024) (round_pos (- x))) eqn:Ex;
      [destruct (Qle_bool (pow2 1024) (round_pos (- y))); reflexivity|].
    apply Qle_bool_false in Ex.
    destruct (Qle_bool (pow2 1024) (round_pos (- y))) eqn:Ey.
    + apply Qle_bool_iff in Ey. lra.
    + apply float_leb_Fin. rewrite !Qred_correct. lra.
  - rewrite (to_float_neg x Hx), (to_float_pos y Hy).
    pose proof (round_pos_nonneg (- x)) as Nx.
    pose proof (round_pos_nonneg y) as Ny.
    destruct (Qle_bool _ (round_pos (- x))), (Qle_bool _ (round_pos y));
      try reflexivity.
    apply float_leb_Fin. rewrite !Qred_correct. lra.
  - rewrite (to_float_neg x Hx), (to_float_zero y Hy).
    pose proof (round_pos_nonneg (- x)) as Nx.
    destruct (Qle_bool _ (round_pos (- x))); [reflexivity|].
    apply float_leb_Fin. rewrite !Qred_correct. lra.
  - rewrite (to_float_pos x Hx), (to_float_pos y Hy).
    assert (Hm : (round_pos x <= round_pos y)%Q)
      by (apply round_pos_mono; lra).
    destruct (Qle_bool (pow2 1024) (round_pos y)) eqn:Ey;
      [destruct (Qle_bool (pow2 1024) (round_pos x)); reflexivity|].
    apply Qle_bool_false in Ey.
    destruct (Qle_bool (pow2 1024) (round_pos x)) eqn:Ex.
    + apply Qle_bool_iff in Ex. lra.
    + apply float_leb_Fin. rewrite !Qred_correct. exact Hm.
  - rewrite (to_float_zero x Hx), (to_float_pos y Hy).
    pose proof (round_pos_nonneg y) as Ny.
    destruct (Qle_bool _ (round_pos y)); [reflexivity|].
    apply float_leb_Fin. rewrite !Qred_correct. lra.
  - rewrite (to_float_zero x Hx), (to_float_zero y Hy). reflexivity.
Qed.

(** A rational between two binary64 values rounds to a binary64 value
    between them. *)
Lemma to_float_between (lo hi vlo vhi q : Q) :
  to_float lo = Fin vlo -> to_float hi = Fin vhi ->
  (lo <= q)%Q -> (q <= hi)%Q ->
  exists v, to_float q = Fin v /\ (vlo <= v)%Q /\ (v <= vhi)%Q.
Proof.
  intros Hlo Hhi H1 H2.
  pose proof (to_float_mono lo q H1) as M1.
  pose proof (to_float_mono q hi H2) as M2.
  rewrite Hlo in M1. rewrite Hhi in M2.
  destruct (to_float q) as [v|[|]]; simpl in M1, M2; try discriminate.
  exists v. split; [reflexivity|]. split; now apply Qle_bool_iff.
Qed.

Lemma Qred_inject_Z (z : Z) : Qred (inject_Z z) = inject_Z z.
Proof.
  unfold Qred, inject_Z.
  pose proof (Z.ggcd_gcd z 1) as Hg.
  pose proof (Z.ggcd_correct_divisors z 1) as Hd.
  destruct (Z.ggcd z 1) as [g [aa bb]]. cbn [fst snd] in *.
  rewrite Z.gcd_1_r in Hg. subst g. destruct Hd as [Ha Hb].
  rewrite Z.mul_1_l in Ha, Hb. subst aa bb. reflexivity.
Qed.

(** Integers of at most 53 bits are binary64 values. *)
Lemma to_float_int (z : Z) :
  Z.abs z <= 2 ^ 53 -> to_float (inject_Z z) = Fin (inject_Z z).
Proof.
  intros Hz. destruct (Z.lt_trichotomy z 0) as [H|[H|H]].
  - assert (Hq : (inject_Z z < 0)%Q)
      by (change 0%Q with (inject_Z 0); rewrite <- Zlt_Qlt; exact H).
    rewrite (to_float_neg _ Hq).
    assert (Hr : (round_pos (- inject_Z z) == inject_Z (- z))%Q).
    { rewrite <- inject_Z_opp. apply round_pos_int. lia. }
    assert (Hb : Qle_bool (pow2 1024) (round_pos (- inject_Z z)) = false).
    { apply Qle_bool_false. rewrite Hr. rewrite pow2_nonneg by lia.
      rewrite <- Zlt_Qlt. assert (2 ^ 53 < 2 ^ 1024) by (apply Z.pow_lt_mono_r; lia).
      lia. }
    rewrite Hb. f_equal.
    rewrite (Qred_complete _ (inject_Z z)); [apply Qred_inject_Z|].
    rewrite Hr, inject_Z_opp. ring.
  - subst z. reflexivity.
  - assert (Hq : (0 < inject_Z z)%Q)
      by (change 0%Q with (inject_Z 0); rewrite <- Zlt_Qlt; exact H).
    rewrite (to_float_pos _ Hq).
    assert (Hr : (round_pos (inject_Z z) == inject_Z z)%Q)
      by (apply round_pos_int; lia).
    assert (Hb : Qle_bool (pow2 1024) (round_pos (inject_Z z)) = false).
    { apply Qle_bool_false. rewrite Hr. rewrite pow2_nonneg by lia.
      rewrite <- Zlt_Qlt. assert (2 ^ 53 < 2 ^ 1024) by (apply Z.pow_lt_mono_r; lia).
      lia. }
    rewrite Hb. f_equal.
    rewrite (Qred_complete _ (inject_Z z) Hr). apply Qred_inject_Z.
Qed.

(** A rational between two integers of at most 53 bits rounds to a
    binary64 value between them. *)
Lemma to_float_between_int (lo hi : Z) (q : Q) :
  Z.abs lo <= 2 ^ 53 -> Z.abs hi <= 2 ^ 53 ->
  (inject_Z lo <= q)%Q -> (q <= inject_Z hi)%Q ->
  exists v, to_float q = Fin v /\ (inject_Z lo <= v)%Q /\ (v <= inject_Z hi)%Q.
Proof.
  intros Hlo Hhi. apply to_float_between; now apply to_float_int.
Qed.

(** [round(x, 2)] keeps a float between two such integers. *)
Lemma round2_between_int (lo hi : Z) (v : Q) :
  Z.abs lo <= 2 ^ 53 -> Z.abs hi <= 2 ^ 53 ->
  (inject_Z lo <= v)%Q -> (v <= inject_Z hi)%Q ->
  exists w, round2 (Fin v) = Fin w
            /\ (inject_Z lo <= w)%Q /\ (w <= inject_Z hi)%Q.
Proof.
  intros Hlo Hhi H1 H2. unfold round2.
  apply to_float_between_int; [exact Hlo | exact Hhi | |].
  - apply Qle_shift_div_l; [reflexivity|].
    change 100%Q with (inject_Z 100). rewrite <- inject_Z_mult, <- Zle_Qle.
    apply round_half_even_lower. rewrite inject_Z_mult.
    change (inject_Z 100) with 100%Q. lra.
  - apply Qle_shift_div_r; [reflexivity|].
    change 100%Q with (inject_Z 100). rewrite <- inject_Z_mult, <- Zle_Qle.
    apply round_half_even_upper. rewrite inject_Z_mult.
    change (inject_Z 100) with 100%Q. lra.
Qed.

(** ** Accuracy of the conversion *)

Lemma ilog2_lower (q : Q) (k : Z) : (pow2 k <= q)%Q -> k <= ilog2 q.
Proof.
  intros H. assert (Hq : (0 < q)%Q) by (pose proof (pow2_pos k); lra).
  destruct (ilog2_spec q Hq) as [_ S2].
  assert (k < ilog2 q + 1) by (apply pow2_lt_inv; lra). lia.
Qed.

Lemma ilog2_upper (q : Q) (k : Z) :
  (0 < q)%Q -> (q <= pow2 k)%Q -> ilog2 q <= k.
Proof.
  intros Hq H. destruct (ilog2_spec q Hq) as [S1 _].
  destruct (Z_le_gt_dec (ilog2 q) k) as [L|G]; [exact L|].
  exfalso. assert (pow2 (k + 1) <= pow2 (ilog2 q))%Q by (apply pow2_le; lia).
  assert (pow2 k < pow2 (k + 1))%Q by (apply pow2_lt; lia). lra.
Qed.

(** In the normal range the binary64 number nearest to [q] is within
    [q * 2^-53] of it. *)
Lemma to_float_near (q : Q) :
  (pow2 (-1022) <= q)%Q -> (q <= pow2 1023)%Q ->
  exists v, to_float q = Fin v
    /\ (q - q * (1 # 9007199254740992) <= v)%Q
    /\ (v <= q + q * (1 # 9007199254740992))%Q.
Proof.
  intros Hlo Hhi.
  assert (Hq : (0 < q)%Q) by (pose proof (pow2_pos (-1022)); lra).
  pose proof (ilog2_lower q _ Hlo) as Hk.
  destruct (ilog2_spec q Hq) as [S1 _].
  destruct (round_pos_near q) as [N1 N2].
  assert (He : ulp_exponent q = ilog2 q - 52) by (unfold ulp_exponent; lia).
  rewrite He in N1, N2.
  assert (Hp : (pow2 (ilog2 q - 52) == pow2 (ilog2 q) * (1 # 4503599627370496))%Q).
  { replace (ilog2 q - 52) with (ilog2 q + -52) by lia. rewrite pow2_add.
    assert (pow2 (-52) == 1 # 4503599627370496)%Q as -> by reflexivity.
    reflexivity. }
  rewrite Hp in N1, N2.
  assert (H1023 : (pow2 1024 == 2 * pow2 1023)%Q) by (apply (pow2_succ 1023)).
  rewrite (to_float_pos q Hq).
  assert (Hb : Qle_bool (pow2 1024) (round_pos q) = false).
  { apply Qle_bool_false. rewrite H1023. pose proof (pow2_pos 1023). lra. }
  rewrite Hb. exists (Qred (round_pos q)). split; [reflexivity|].
  rewrite Qred_correct. split; lra.
Qed.

(** A non-negative quotient of two integers below [2^1000], times 100, in
    floats: within [2^-51] of the exact ratio, relatively. *)
Lemma float_ratio_near (i f : Z) :
  0 <= i <= 2 ^ 1000 -> 0 < f <= 2 ^ 1000 ->
  exists q x,
    to_float (inject_Z i / inject_Z f) = Fin q
    /\ float_times_100 (Fin q) = Fin x
    /\ let r := (inject_Z i / inject_Z f * 100)%Q in
       (r - r * (1 # 2251799813685248) <= x)%Q
       /\ (x <= r + r * (1 # 2251799813685248))%Q
       /\ (0 <= x)%Q /\ (x <= pow2 1010)%Q.
Proof.
  intros [Hi1 Hi2] [Hf1 Hf2].
  assert (Hfq : (0 < inject_Z f)%Q)
    by (change 0%Q with (inject_Z 0); rewrite <- Zlt_Qlt; exact Hf1).
  assert (P1010 : (pow2 1010 == inject_Z (2 ^ 1010))%Q)
    by (apply pow2_nonneg; lia).
  destruct (Z.eq_dec i 0) as [->|Hne].
  - exists 0%Q, 0%Q.
    assert (Hz : (inject_Z 0 / inject_Z f == 0)%Q).
    { change (inject_Z 0) with 0%Q. unfold Qdiv. ring. }
    split; [now apply to_float_zero|].
    split; [reflexivity|]. cbv zeta. rewrite Hz.
    pose proof (pow2_pos 1010). repeat split; lra.
  - set (q := (inject_Z i / inject_Z f)%Q).
    assert (B1000 : (pow2 1000 == inject_Z (2 ^ 1000))%Q)
      by (apply pow2_nonneg; lia).
    assert (Bm1000 : (pow2 (-1000) == / pow2 1000)%Q)
      by (unfold pow2; apply (Qpower_opp 2 1000)).
    assert (Hiq : (1 <= inject_Z i)%Q)
      by (change 1%Q with (inject_Z 1); rewrite <- Zle_Qle; lia).
    assert (Hiq2 : (inject_Z i <= pow2 1000)%Q)
      by (rewrite B1000, <- Zle_Qle; exact Hi2).
    assert (Hfq1 : (1 <= inject_Z f)%Q)
      by (change 1%Q with (inject_Z 1); rewrite <- Zle_Qle; lia).
    assert (Hfq2 : (inject_Z f <= pow2 1000)%Q)
      by (rewrite B1000, <- Zle_Qle; exact Hf2).
    pose proof (pow2_pos 1000) as P1000.
    assert (Hqlo : (pow2 (-1000) <= q)%Q).
    { rewrite Bm1000. unfold q. apply Qle_shift_div_l; [exact Hfq|].
      apply Qle_trans with (/ pow2 1000 * pow2 1000)%Q.
      - apply Qmult_le_l; [apply Qinv_lt_0_compat; exact P1000 | exact Hfq2].
      - setoid_replace (/ pow2 1000 * pow2 1000)%Q with 1%Q by (field; lra).
        exact Hiq. }
    assert (Hqhi : (q <= pow2 1000)%Q).
    { unfold q. apply Qle_shift_div_r; [exact Hfq|].
      apply Qle_trans with (pow2 1000 * 1)%Q; [lra|].
      apply Qmult_le_l; [exact P1000 | exact Hfq1]. }
    assert (L1 : (pow2 (-1022) <= pow2 (-1000))%Q) by (apply pow2_le; lia).
    assert (L2 : (pow2 1000 <= pow2 1023)%Q) by (apply pow2_le; lia).
    destruct (to_float_near q) as [v [Hv [V1 V2]]]; [lra | lra |].
    assert (L3 : (pow2 (-1000) == 2 * pow2 (-1001))%Q)
      by (apply (pow2_succ (-1001))).
    assert (L4 : (pow2 (-1022) <= pow2 (-1001))%Q) by (apply pow2_le; lia).
    assert (L5 : (128 * pow2 1000 == pow2 1007)%Q).
    { replace 1007 with (7 + 1000) by lia. rewrite pow2_add.
      assert (pow2 7 == 128)%Q as -> by reflexivity. reflexivity. }
    assert (L6 : (pow2 1007 <= pow2 1023)%Q) by (apply pow2_le; lia).
    assert (L7 : (pow2 1007 <= pow2 1010)%Q) by (apply pow2_le; lia).
    pose proof (pow2_pos (-1001)) as Pm.
    destruct (to_float_near (v * 100)) as [x [Hx [X1 X2]]]; [lra | lra |].
    exists v, x. split; [exact Hv|]. split; [exact Hx|].
    cbv zeta. fold q. repeat split; lra.
Qed.

(** [round(x, 2)] of a non-negative float: within 0.005, and the rounding
    of the decimal back to binary64, of [x]. *)
Lemma round2_near (x : Q) :
  (0 <= x)%Q -> (x <= pow2 1010)%Q ->
  exists y, round2 (Fin x) = Fin y
    /\ (x - (1 # 200) - (x + 1) * (1 # 4503599627370496) <= y)%Q
    /\ (y <= x + (1 # 200) + (x + 1) * (1 # 4503599627370496))%Q.
Proof.
  intros Hx0 Hx1. unfold round2.
  set (n := round_half_even (x * 100)).
  destruct (round_half_even_near (x * 100)) as [N1 N2]. fold n in N1, N2.
  assert (Hn : 0 <= n).
  { apply round_half_even_lower. change (inject_Z 0) with 0%Q. lra. }
  set (d := (inject_Z n / 100)%Q).
  assert (Hd : (d * 100 == inject_Z n)%Q) by (unfold d; field).
  destruct (Z.eq_dec n 0) as [E|E].
  - exists 0%Q. split.
    + apply to_float_zero. unfold d. rewrite E. reflexivity.
    + rewrite E in N1, N2. change (inject_Z 0) with 0%Q in N1, N2.
      split; lra.
  - assert (Hn1 : (1 <= inject_Z n)%Q)
      by (change 1%Q with (inject_Z 1); rewrite <- Zle_Qle; lia).
    assert (L1 : (pow2 (-1022) <= pow2 (-7))%Q) by (apply pow2_le; lia).
    assert (L2 : (pow2 (-7) == 1 # 128)%Q) by reflexivity.
    assert (L3 : (pow2 1010 <= pow2 1022)%Q) by (apply pow2_le; lia).
    assert (L4 : (pow2 1023 == 2 * pow2 1022)%Q) by (apply (pow2_succ 1022)).
    assert (L5 : (pow2 0 <= pow2 1022)%Q) by (apply pow2_le; lia).
    assert (L6 : (pow2 0 == 1)%Q) by reflexivity.
    destruct (to_float_near d) as [y [Hy [Y1 Y2]]]; [lra | lra |].
    exists y. split; [exact Hy|]. split; lra.
Qed.

(** ** The guarded efficiency expressions *)

Lemma pow2_1000 : to_float (inject_Z (2 ^ 1000)) = Fin (inject_Z (2 ^ 1000)).
Proof. vm_compute. reflexivity. Qed.

Lemma pow2_1000_neg :
  to_float (inject_Z (- 2 ^ 1000)) = Fin (inject_Z (- 2 ^ 1000)).
Proof. vm_compute. reflexivity. Qed.

(** The quotient of a count far inside the binary64 range by a positive
    count is a float. *)
Lemma int_truediv_in_range (a b : Z) :
  0 < b -> in_float_range a ->
  exists v, to_float (inject_Z a / inject_Z b) = Fin v
            /\ int_truediv a b = Ok (Fin v).
Proof.
  intros Hb Ha. unfold in_float_range in Ha.
  assert (Hbq : (1 <= inject_Z b)%Q)
    by (change 1%Q with (inject_Z 1); rewrite <- Zle_Qle; lia).
  assert (Ha1 : (inject_Z (- 2 ^ 1000) <= inject_Z a)%Q)
    by (rewrite <- Zle_Qle; lia).
  assert (Ha2 : (inject_Z a <= inject_Z (2 ^ 1000))%Q)
    by (rewrite <- Zle_Qle; lia).
  assert (Hneg : (inject_Z (- 2 ^ 1000) == - inject_Z (2 ^ 1000))%Q)
    by (rewrite inject_Z_opp; reflexivity).
  assert (Hpos : (0 <= inject_Z (2 ^ 1000))%Q)
    by (change 0%Q with (inject_Z 0); rewrite <- Zle_Qle; lia).
  set (q := (inject_Z a / inject_Z b)%Q).
  assert (Hq : (q * inject_Z b == inject_Z a)%Q) by (unfold q; field; lra).
  assert (Hq1 : (inject_Z (- 2 ^ 1000) <= q)%Q).
  { destruct (Qlt_le_dec q 0) as [Hn|Hp]; [|lra].
    apply Qle_trans with (q * inject_Z b)%Q; [lra|].
    setoid_replace q with (q * 1)%Q at 2 by ring.
    setoid_replace (q * inject_Z b)%Q with (- (- q * inject_Z b))%Q by ring.
    setoid_replace (q * 1)%Q with (- (- q * 1))%Q by ring.
    apply Qopp_le_compat. apply Qmult_le_l; lra. }
  assert (Hq2 : (q <= inject_Z (2 ^ 1000))%Q).
  { destruct (Qlt_le_dec q 0) as [Hn|Hp]; [lra|].
    apply Qle_trans with (q * inject_Z b)%Q; [|lra].
    setoid_replace q with (q * 1)%Q at 1 by ring.
    destruct (Qeq_dec q 0) as [E|E]; [rewrite E; lra|].
    apply Qmult_le_l; lra. }
  destruct (to_float_between _ _ _ _ q pow2_1000_neg pow2_1000 Hq1 Hq2)
    as [v [Hv _]].
  exists v. split; [exact Hv|]. unfold int_truediv.
  assert ((b =? 0) = false) as -> by (apply Z.eqb_neq; lia).
  fold q. now rewrite Hv.
Qed.

Lemma int_truediv_cases (a b : Z) :
  0 < b ->
  match to_float (inject_Z a / inject_Z b) with
  | Fin v => int_truediv a b = Ok (Fin v)
  | Inf _ => int_truediv a b = Err OverflowError
  end.
Proof.
  intros Hb. unfold int_truediv.
  assert ((b =? 0) = false) as -> by (apply Z.eqb_neq; lia).
  destruct (to_float _); reflexivity.
Qed.

(** What the two efficiency expressions do: they are guarded, they return
    the float value of the expression, and they raise only when the
    quotient is too large for a float. *)
Lemma compare_efficiency_cases (i f : Z) :
  (f <= 0 /\ compare_efficiency i f = Ok (PyInt 0))
  \/ (0 < f /\ compare_efficiency i f = Ok (guarded_ratio i f)
      /\ exists v, to_float (inject_Z i / inject_Z f) = Fin v)
  \/ (0 < f /\ compare_efficiency i f = Err OverflowError
      /\ exists s, to_float (inject_Z i / inject_Z f) = Inf s).
Proof.
  unfold compare_efficiency, guarded_ratio, float_ratio.
  destruct (0 <? f) eqn:E.
  - apply Z.ltb_lt in E. right. pose proof (int_truediv_cases i f E) as H.
    destruct (to_float (inject_Z i / inject_Z f)) as [v|s] eqn:Ev.
    + left. rewrite H. cbn [bind]. split; [exact E|]. split; [reflexivity|].
      now exists v.
    + right. rewrite H. cbn [bind]. split; [exact E|]. split; [reflexivity|].
      now exists s.
  - apply Z.ltb_ge in E. left. split; [exact E | reflexivity].
Qed.

Lemma rounded_efficiency_cases (i f : Z) :
  (f <= 0 /\ rounded_efficiency i f = Ok (PyInt 0))
  \/ (0 < f /\ rounded_efficiency i f = Ok (guarded_rounded i f)
      /\ exists v, to_float (inject_Z i / inject_Z f) = Fin v)
  \/ (0 < f /\ rounded_efficiency i f = Err OverflowError
      /\ exists s, to_float (inject_Z i / inject_Z f) = Inf s).
Proof.
  unfold rounded_efficiency, guarded_rounded, float_ratio.
  destruct (0 <? f) eqn:E.
  - apply Z.ltb_lt in E. right. pose proof (int_truediv_cases i f E) as H.
    destruct (to_float (inject_Z i / inject_Z f)) as [v|s] eqn:Ev.
    + left. rewrite H. cbn [bind]. split; [exact E|]. split; [reflexivity|].
      now exists v.
    + right. rewrite H. cbn [bind]. split; [exact E|]. split; [reflexivity|].
      now exists s.
  - apply Z.ltb_ge in E. left. split; [exact E | reflexivity].
Qed.

Lemma guarded_ratio_zero (i f : Z) : f <= 0 -> guarded_ratio i f = PyInt 0.
Proof.
  intros H. unfold guarded_ratio.
  assert ((0 <? f) = false) as -> by (apply Z.ltb_ge; exact H). reflexivity.
Qed.

Lemma guarded_rounded_zero (i f : Z) : f <= 0 -> guarded_rounded i f = PyInt 0.
Proof.
  intros H. unfold guarded_rounded.
  assert ((0 <? f) = false) as -> by (apply Z.ltb_ge; exact H). reflexivity.
Qed.

Lemma compare_efficiency_Ok (i f : Z) (v : number) :
  compare_efficiency i f = Ok v -> v = guarded_ratio i f.
Proof.
  intros H.
  destruct (compare_efficiency_cases i f) as [[Hf E]|[[Hf [E _]]|[Hf [E _]]]];
    rewrite E in H; inversion H; subst; [|reflexivity].
  symmetry. now apply guarded_ratio_zero.
Qed.

Lemma rounded_efficiency_Ok (i f : Z) (v : number) :
  rounded_efficiency i f = Ok v -> v = guarded_rounded i f.
Proof.
  intros H.
  destruct (rounded_efficiency_cases i f) as [[Hf E]|[[Hf [E _]]|[Hf [E _]]]];
    rewrite E in H; inversion H; subst; [|reflexivity].
  symmetry. now apply guarded_rounded_zero.
Qed.

Lemma compare_efficiency_in_range (i f : Z) :
  in_float_range i -> compare_efficiency i f = Ok (guarded_ratio i f).
Proof.
  intros Hi.
  destruct (compare_efficiency_cases i f) as [[Hf E]|[[Hf [E _]]|[Hf [E [s Hs]]]]].
  - rewrite E. f_equal. symmetry. now apply guarded_ratio_zero.
  - exact E.
  - destruct (int_truediv_in_range i f Hf Hi) as [v [Hv _]]. congruence.
Qed.

Lemma rounded_efficiency_in_range (i f : Z) :
  in_float_range i -> rounded_efficiency i f = Ok (guarded_rounded i f).
Proof.
  intros Hi.
  destruct (rounded_efficiency_cases i f) as [[Hf E]|[[Hf [E _]]|[Hf [E [s Hs]]]]].
  - rewrite E. f_equal. symmetry. now apply guarded_rounded_zero.
  - exact E.
  - destruct (int_truediv_in_range i f Hf Hi) as [v [Hv _]]. congruence.
Qed.
(** ** The comparative ranker *)



Lemma float_leb_refl (x : pyfloat) : float_leb x x = true.
Proof.
  destruct x as [a|[|]]; simpl; try reflexivity.
  apply Qle_bool_iff. apply Qle_refl.
Qed.



Lemma num_leb_refl (x : number) : num_leb x x = true.
Proof. apply float_leb_refl. Qed.



(** The metric selection of the loop body, for the three metric kinds. *)
Lemma metric_selection_value (metric : string) (t f : Z) (eff : number) :
  In metric ["infractions"; "frames"; "efficiency"]%string ->
  (if String.eqb metric "infractions" then PyInt t
   else if String.eqb metric "frames" then PyInt f
   else if String.eqb metric "efficiency" then eff
   else PyInt 0)
  = (if String.eqb metric "infractions" then PyInt t
     else if String.eqb metric "frames" then PyInt f
     else eff).
Proof. intros [<-|[<-|[<-|[]]]]; reflexivity. Qed.

(** The loop body on an observation that carries the three fields: one
    entry, whatever the metric text is. *)
Lemma compare_camera_complete (metric : string) (acc : list Comparison.t)
    (cid : string) (cd : CameraData) :
  rankable cd ->
  exists e,
    compare_camera metric acc (cid, cd) = Ok (acc ++ [e])
    /\ Comparison.id e = cid
    /\ (In metric ["infractions"; "frames"; "efficiency"]%string ->
        spec_ranks metric (cid, cd) e)
    /\ (~ In metric ["infractions"; "frames"; "efficiency"]%string ->
        Comparison.metric_value e = PyInt 0).
Proof.
  intros [[Hn [Ht Hs]] Hr].
  destruct cd as [[nm|] up [st|] [t|] inf fr]; simpl in Hn, Ht, Hs;
    try congruence.
  unfold stored_total in Hr; simpl in Hr.
  set (f := py_sumZ (values (get_or_empty fr))).
  pose proof (compare_efficiency_in_range t f Hr) as He.
  exists (Comparison.mk cid nm t f (guarded_ratio t f)
            (if String.eqb metric "infractions" then PyInt t
             else if String.eqb metric "frames" then PyInt f
             else if String.eqb metric "efficiency" then guarded_ratio t f
             else PyInt 0) st).
  split; [|split; [reflexivity|split]].
  - unfold compare_camera. cbn [total frames camera used_storage field bind].
    fold f. rewrite He.
    destruct (String.eqb metric "infractions");
      [|destruct (String.eqb metric "frames");
        [|destruct (String.eqb metric "efficiency")]]; reflexivity.
  - intros Hm. rewrite (metric_selection_value metric t f _ Hm).
    unfold spec_ranks, spec_metric, stored_total, daily_frame_sum.
    cbn [fst snd Comparison.id Comparison.name Comparison.infractions
         Comparison.frames Comparison.efficiency Comparison.metric_value
         Comparison.storage camera total used_storage frames].
    assert (Hf : f = sumZ (values (get_or_empty fr)))
      by (unfold f; apply py_sumZ_sumZ).
    rewrite <- Hf. repeat split; reflexivity.
  - intros Hnot. cbn [Comparison.metric_value].
    destruct (String.eqb_spec metric "infractions") as [E|_];
      [exfalso; apply Hnot; subst; simpl; tauto|].
    destruct (String.eqb_spec metric "frames") as [E|_];
      [exfalso; apply Hnot; subst; simpl; tauto|].
    destruct (String.eqb_spec metric "efficiency") as [E|_];
      [exfalso; apply Hnot; subst; simpl; tauto|].
    reflexivity.
Qed.

(** One pass of the loop over such observations appends one entry per
    device, in iteration order. *)
Lemma compare_loop_complete_any (metric : string) (data : PeriodRecordSet) :
  (forall cid cd, In (cid, cd) data -> rankable cd) ->
  forall acc, exists entries,
    foldM (compare_camera metric) data acc = Ok (acc ++ entries)
    /\ map Comparison.id entries = keys data
    /\ (In metric ["infractions"; "frames"; "efficiency"]%string ->
        Forall2 (spec_ranks metric) data entries)
    /\ (~ In metric ["infractions"; "frames"; "efficiency"]%string ->
        Forall (fun e => Comparison.metric_value e = PyInt 0) entries).
Proof.
  induction data as [|[cid cd] data IH]; intros Hc acc.
  - exists []. simpl. rewrite app_nil_r. auto.
  - destruct (compare_camera_complete metric acc cid cd
                (Hc cid cd (or_introl eq_refl))) as [e [He [Hid [Hs Hz]]]].
    destruct (IH (fun c d H => Hc c d (or_intror H)) (acc ++ [e]))
      as [entries [Hf [Hids [Hall Hzs]]]].
    exists (e :: entries). split; [|split; [|split]].
    + cbn [foldM]. rewrite He. cbn [bind]. rewrite Hf.
      now rewrite <- app_assoc.
    + simpl. now rewrite Hid, Hids.
    + intros Hm. constructor; auto.
    + intros Hnot. constructor; auto.
Qed.

(** Whatever the metric, every entry the loop appends carries the guarded
    ratio of its own two figures, evaluated in floating point. *)
Lemma compare_loop_efficiency (metric : string) (data : PeriodRecordSet)
    (acc r : list Comparison.t) :
  let P e := Comparison.efficiency e
             = guarded_ratio (Comparison.infractions e) (Comparison.frames e) in
  Forall P acc -> foldM (compare_camera metric) data acc = Ok r -> Forall P r.
Proof.
  intros P Hacc Hf.
  apply (foldM_invariant (compare_camera metric) (fun _ st => Forall P st)
           data acc r Hacc); [|exact Hf].
  intros done [cid cd] st st' Hst Hb. unfold compare_camera in Hb.
  inv_bind.
  apply Forall_app. split; [exact Hst|]. constructor; [|constructor].
  unfold P. cbn [Comparison.efficiency Comparison.infractions Comparison.frames].
  now apply compare_efficiency_Ok.
Qed.

(** ** Efficiency *)

Lemma mapM_In {A B : Type} (f : A -> result B) (l : list A) (r : list B) :
  mapM f l = Ok r -> forall y, In y r -> exists x, In x l /\ f x = Ok y.
Proof.
  revert r; induction l as [|x l IH]; intros r H y Hy; simpl in H.
  - inversion H; subst. destruct Hy.
  - inv_bind. destruct Hy as [<-|Hy].
    + exists x. split; [now left | assumption].
    + destruct (IH _ Ha0 y Hy) as [x' [Hx' Hfx']].
      exists x'. split; [now right | assumption].
Qed.

Lemma compare_efficiency_no_zero_division (i f : Z) :
  compare_efficiency i f <> Err ZeroDivisionError.
Proof.
  destruct (compare_efficiency_cases i f) as [[_ E]|[[_ [E _]]|[_ [E _]]]];
    rewrite E; discriminate.
Qed.

Lemma rounded_efficiency_no_zero_division (i f : Z) :
  rounded_efficiency i f <> Err ZeroDivisionError.
Proof.
  destruct (rounded_efficiency_cases i f) as [[_ E]|[[_ [E _]]|[_ [E _]]]];
    rewrite E; discriminate.
Qed.

(** For counts inside the floating-point range, the float value of the
    guarded ratio is within a relative error of 2^-51 of the rational
    infractions / frames * 100, and the rounded one is within 0.005 of it,
    up to the same kind of error. *)
Lemma guarded_ratio_near (i f : Z) :
  0 <= i <= 2 ^ 1000 -> 0 < f <= 2 ^ 1000 ->
  num_near (guarded_ratio i f) (spec_ratio i f)
    (spec_ratio i f * (1 # 2251799813685248)).
Proof.
  intros Hi Hf.
  destruct (float_ratio_near i f Hi Hf) as [q [x [Hq [Hx [B1 [B2 _]]]]]].
  unfold guarded_ratio, float_ratio, num_near.
  assert ((0 <? f) = true) as -> by (apply Z.ltb_lt; lia).
  rewrite Hq, Hx. cbn [num_val]. unfold spec_ratio. split; lra.
Qed.

Lemma guarded_rounded_near (i f : Z) :
  0 <= i <= 2 ^ 1000 -> 0 < f <= 2 ^ 1000 ->
  num_near (guarded_rounded i f) (spec_ratio i f)
    ((1 # 200) + (spec_ratio i f + 1) * (1 # 1125899906842624)).
Proof.
  intros Hi Hf.
  destruct (float_ratio_near i f Hi Hf) as [q [x [Hq [Hx [B1 [B2 [B3 B4]]]]]]].
  destruct (round2_near x B3 B4) as [y [Hy [Y1 Y2]]].
  unfold guarded_rounded, float_ratio, num_near.
  assert ((0 <? f) = true) as -> by (apply Z.ltb_lt; lia).
  rewrite Hq, Hx, Hy. cbn [num_val]. unfold spec_ratio.
  cbv zeta in B1, B2.
  set (r := (inject_Z i / inject_Z f * 100)%Q) in *.
  assert (Hr : (0 <= r)%Q) by lra.
  split; lra.
Qed.

(** Rounding acts on the float, not on the rational: 23 infractions in 160
    frames are 14.375 percent, the float product is just below it, and its
    rounding to two decimals is 14.37; 1 in 40 rounds to 0.03. *)
Lemma rounded_efficiency_samples :
  rounded_efficiency 23 160 = Ok (PyFloat (to_float (1437 # 100)))
  /\ mean (1 :: repeat 0 39) = Ok (PyFloat (to_float (1 # 40)))
  /\ daily_avg (1 :: repeat 0 39) = Ok (PyFloat (to_float (3 # 100))).
Proof. repeat split; vm_compute; reflexivity. Qed.

(** The efficiency of an analysis entry is the rounded, guarded ratio of
    the two sums of the device's merged daily mappings. *)
Lemma analyse_loop_efficiency (all_data : dict AllData.t)
    (analysis : dict Analysis.t) :
  foldM analyse_camera all_data [] = Ok analysis ->
  forall cid e, dict_get cid analysis = Some e ->
  exists d, In (cid, d) all_data
    /\ Analysis.efficiency e
       = guarded_rounded (sumZ (values (AllData.daily_infractions d)))
           (sumZ (values (AllData.daily_frames d))).
Proof.
  intros Hf.
  apply (foldM_invariant analyse_camera
           (fun done st => forall cid e, dict_get cid st = Some e ->
              exists d, In (cid, d) done
                /\ Analysis.efficiency e
                   = guarded_rounded
                       (sumZ (values (AllData.daily_infractions d)))
                       (sumZ (values (AllData.daily_frames d))))
           all_data [] analysis); [discriminate| |exact Hf].
  intros done [k d] st st' Hst Hb cid e He. unfold analyse_camera in Hb.
  inv_bind.
  rewrite dict_get_set in He. destruct (String.eqb cid k) eqn:E.
  - apply String.eqb_eq in E; subst. inversion He; subst; clear He.
    exists d. split; [apply in_or_app; right; now left|].
    cbn [Analysis.efficiency]. rewrite <- !py_sumZ_sumZ.
    now apply rounded_efficiency_Ok.
  - destruct (Hst cid e He) as [d' [Hin Heq]].
    exists d'. split; [apply in_or_app; now left | exact Heq].
Qed.

Lemma run_tool_Payload {A : Type} (body : result (option A)) (a : A) :
  run_tool body = Payload a -> body = Ok (Some a).
Proof.
  destruct body as [[x|]|e]; simpl; intros H; inversion H; reflexivity.
Qed.

Lemma run_tool_ErrorMessage {A : Type} (body : result (option A)) (e : PyError) :
  body = Err e -> run_tool body = ErrorMessage e.
Proof. now intros ->. Qed.

Lemma monthly_report_efficiency (fetch : Resolver)
    (params : GetMonthlyReportInput.t) (rep : MonthlyReport.t) :
  get_monthly_report fetch params = Payload rep ->
  Summary.efficiency (MonthlyReport.summary rep)
  = guarded_rounded (Summary.total_infractions (MonthlyReport.summary rep))
      (Summary.total_frames (MonthlyReport.summary rep))
  /\ (forall s q, In (s, q) (MonthlyReport.weekly_breakdown rep) ->
        q = guarded_rounded (WeekSummary.infractions s) (WeekSummary.frames s))
  /\ (forall cid c q, In (cid, c, q) (MonthlyReport.top_cameras rep) ->
        q = guarded_rounded (CameraTotals.total_infractions c)
              (CameraTotals.total_frames c)).
Proof.
  intros H. apply run_tool_Payload in H. unfold get_monthly_report in H.
  destruct (get_available_weeks _ _ _) as [|w ws]; [discriminate|].
  inv_bind. apply rounded_efficiency_Ok in Ha0. rename Ha0 into He.
  destruct (GetMonthlyReportInput.response_format params).
  - apply bind_Ok in H. destruct H as [lines [Hl H]].
    apply bind_Ok in H. destruct H as [top [Ht H]].
    inversion H; clear H. simpl. split; [exact He|split].
    + intros s q Hin. destruct (mapM_In _ _ _ Hl _ Hin) as [x [_ Hx]].
      unfold week_line in Hx. inv_bind. now apply rounded_efficiency_Ok.
    + intros cid c q Hin. destruct (mapM_In _ _ _ Ht _ Hin) as [x [_ Hx]].
      unfold camera_line in Hx. inv_bind. now apply rounded_efficiency_Ok.
  - inversion H; clear H. simpl.
    split; [exact He|split]; intros; contradiction.
Qed.

(** C1 (amended): wherever an efficiency is computed, the division is
    guarded by [frames > 0] and the result is exactly 0 otherwise, so a
    division by zero cannot occur.  When frames > 0 the figure is the
    floating-point value of infractions / frames * 100 (the quotient
    rounded to a float, then the product rounded to a float): for counts
    between 0 and 2^1000 it is within a relative error of 2^-51 of the
    rational infractions / frames * 100.  The per-week comparison yields
    that value; the multi-week analysis, the monthly summary, the weekly
    breakdown and the top-camera lines yield it rounded to two decimals,
    which is within 0.005 + (ratio + 1) * 2^-50 of the rational ratio. *)
Theorem C1_efficiency_zero_guard :
  (forall i f : Z, f <= 0 ->
      compare_efficiency i f = Ok (PyInt 0)
      /\ rounded_efficiency i f = Ok (PyInt 0))
  /\ (forall i f : Z,
        compare_efficiency i f <> Err ZeroDivisionError
        /\ rounded_efficiency i f <> Err ZeroDivisionError)
  /\ (forall i f : Z, 0 <= i <= 2 ^ 1000 -> 0 < f <= 2 ^ 1000 ->
        compare_efficiency i f = Ok (guarded_ratio i f)
        /\ rounded_efficiency i f = Ok (guarded_rounded i f)
        /\ num_near (guarded_ratio i f) (spec_ratio i f)
             (spec_ratio i f * (1 # 2251799813685248))
        /\ num_near (guarded_rounded i f) (spec_ratio i f)
             ((1 # 200) + (spec_ratio i f + 1) * (1 # 1125899906842624)))
  /\ (forall fetch params ranking e,
        compare_cameras fetch params = Payload ranking -> In e ranking ->
        Comparison.efficiency e
        = guarded_ratio (Comparison.infractions e) (Comparison.frames e))
  /\ (forall fetch params analysis cid e,
        analyze_camera_performance fetch params = Payload analysis ->
        dict_get cid analysis = Some e ->
        exists all_data d,
          collect_all_data fetch params (weeks_to_analyze fetch params)
          = Ok all_data
          /\ In (cid, d) all_data
          /\ Analysis.efficiency e
             = guarded_rounded (sumZ (values (AllData.daily_infractions d)))
                 (sumZ (values (AllData.daily_frames d))))
  /\ (forall fetch params rep,
        get_monthly_report fetch params = Payload rep ->
        Summary.efficiency (MonthlyReport.summary rep)
        = guarded_rounded
            (Summary.total_infractions (MonthlyReport.summary rep))
            (Summary.total_frames (MonthlyReport.summary rep))
        /\ (forall s q, In (s, q) (MonthlyReport.weekly_breakdown rep) ->
              q = guarded_rounded (WeekSummary.infractions s)
                    (WeekSummary.frames s))
        /\ (forall cid c q, In (cid, c, q) (MonthlyReport.top_cameras rep) ->
              q = guarded_rounded (CameraTotals.total_infractions c)
                    (CameraTotals.total_frames c))).
Proof.
  split; [|split; [|split; [|split; [|split]]]].
  - intros i f Hf. split.
    + destruct (compare_efficiency_cases i f)
        as [[_ E]|[[H _]|[H _]]]; [exact E | lia | lia].
    + destruct (rounded_efficiency_cases i f)
        as [[_ E]|[[H _]|[H _]]]; [exact E | lia | lia].
  - intros i f. split;
      [apply compare_efficiency_no_zero_division
      |apply rounded_efficiency_no_zero_division].
  - intros i f Hi Hf.
    assert (Hr : in_float_range i) by (unfold in_float_range; lia).
    split; [now apply compare_efficiency_in_range|].
    split; [now apply rounded_efficiency_in_range|].
    split; [now apply guarded_ratio_near | now apply guarded_rounded_near].
  - intros fetch params ranking e H Hin.
    apply run_tool_Payload in H. unfold compare_cameras in H.
    destruct (negb _); [discriminate|]. inv_bind.
    apply py_sort_In in Hin.
    pose proof (compare_loop_efficiency _ _ [] a (Forall_nil _) Ha) as Hall.
    rewrite Forall_forall in Hall. now apply Hall.
  - intros fetch params analysis cid e H He.
    apply run_tool_Payload in H. unfold analyze_camera_performance in H.
    destruct (weeks_to_analyze fetch params) as [|w ws] eqn:Hw; [discriminate|].
    inv_bind. destruct a as [|x all_data]; [discriminate|]. inv_bind.
    destruct (analyse_loop_efficiency _ _ Ha0 cid e He) as [d [Hin Heq]].
    exists (x :: all_data), d. auto.
  - intros fetch params rep H.
    exact (monthly_report_efficiency fetch params rep H).
Qed.

(** C1, the claim as worded fails: in the multi-week analysis a device with
    1 infraction in 3 frames gets efficiency 33.33 (the float nearest to
    it), which is not 1 / 3 * 100; and the figure of the ranker for 1
    infraction in 3 frames is the float 33.33333333333333, which is not
    1 / 3 * 100 either. *)
Lemma C1_counterexample_rounded :
  (exists analysis e,
     analyze_camera_performance (one_week [("T"%string, cam_third)])
       (AnalyzeCameraPerformanceInput.mk 1 "enero" None None)
     = Payload analysis
     /\ dict_get "T" analysis = Some e
     /\ Analysis.efficiency e = PyFloat (to_float (3333 # 100))
     /\ ~ num_is (Analysis.efficiency e) (spec_ratio 1 3))
  /\ compare_efficiency 1 3
     = Ok (PyFloat (Fin (2345624805922133 # 70368744177664)))
  /\ ~ num_is (PyFloat (Fin (2345624805922133 # 70368744177664)))
         (spec_ratio 1 3).
Proof.
  split; [|split].
  - eexists. eexists. split; [vm_compute; reflexivity|].
    split; [reflexivity|]. split; [vm_compute; reflexivity|].
    vm_compute. intros [H _]. apply H. reflexivity.
  - vm_compute. reflexivity.
  - vm_compute. intros [H _]. apply H. reflexivity.
Qed.

(** ** Validation of the ranking request *)

Lemma validate_metric_In (v : string) :
  CompareCamerasInput.validate_metric v = Ok v
  <-> In v ["infractions"; "frames"; "efficiency"]%string.
Proof.
  unfold CompareCamerasInput.validate_metric.
  destruct (existsb _ _) eqn:E.
  - split; [intros _ | reflexivity].
    apply existsb_exists in E. destruct E as [x [Hin Hx]].
    apply String.eqb_eq in Hx. now subst.
  - split; [discriminate | intros Hin].
    assert (existsb (String.eqb v) ["infractions"; "frames"; "efficiency"]%string
            = true) as E'.
    { apply existsb_exists. exists v. split; [exact Hin|apply String.eqb_refl]. }
    congruence.
Qed.

Lemma validate_metric_reject (v : string) :
  ~ In v ["infractions"; "frames"; "efficiency"]%string ->
  CompareCamerasInput.validate_metric v = Err ValueError.
Proof.
  intros Hn. pose proof (validate_metric_In v) as H.
  unfold CompareCamerasInput.validate_metric in *.
  destruct (existsb _ _); [|reflexivity].
  exfalso. apply Hn. now apply H.
Qed.

(** A model that was built carries one of the three metric kinds. *)
Lemma validated_metric_In (month_number : Z) (month_name : string)
    (week_number : Z) (metric : string) (params : CompareCamerasInput.t) :
  CompareCamerasInput.validate month_number month_name week_number metric
  = Ok params ->
  In (CompareCamerasInput.metric params)
     ["infractions"; "frames"; "efficiency"]%string.
Proof.
  unfold CompareCamerasInput.validate, CompareCamerasInput.failing_fields.
  destruct (CompareCamerasInput.validate_metric metric) eqn:E.
  - intros H.
    assert (a = metric) as ->.
    { unfold CompareCamerasInput.validate_metric in E.
      destruct (existsb _ _); now inversion E. }
    apply validate_metric_In in E.
    destruct ((1 <=? month_number) && (month_number <=? 12));
      destruct ((1 <=? week_number) && (week_number <=? 5));
      simpl in H; inversion H; subst; exact E.
  - destruct ((1 <=? month_number) && (month_number <=? 12));
      destruct ((1 <=? week_number) && (week_number <=? 5));
      simpl; discriminate.
Qed.

(** C9 (confirmed): a ranking request whose metric is none of infractions,
    frames, efficiency is rejected with a validation error that names the
    metric field; the answer is the same whatever the record source holds,
    so nothing was computed over a record set, and no ranking is returned. *)
Theorem C9_unsupported_metric_rejected (fetch : Resolver) (month_number : Z)
    (month_name : string) (week_number : Z) (metric : string) :
  ~ In metric ["infractions"; "frames"; "efficiency"]%string ->
  exists fields,
    compare_cameras_request fetch month_number month_name week_number metric
    = Err (ValidationError fields)
    /\ In "metric"%string fields.
Proof.
  intros Hn. unfold compare_cameras_request, CompareCamerasInput.validate,
    CompareCamerasInput.failing_fields.
  rewrite (validate_metric_reject metric Hn).
  destruct ((1 <=? month_number) && (month_number <=? 12));
    destruct ((1 <=? week_number) && (week_number <=? 5)); simpl;
    eexists; (split; [reflexivity | simpl; tauto]).
Qed.

Lemma C9_witness :
  exists fields,
    compare_cameras_request (one_week week_A) 1 "enero" 1 "speed"
    = Err (ValidationError fields)
    /\ In "metric"%string fields.
Proof.
  apply (C9_unsupported_metric_rejected (one_week week_A) 1 "enero" 1 "speed").
  simpl. intros [H|[H|[H|[]]]]; discriminate.
Defined.

(** ** Missing periods *)

Lemma truthy_data_found (fetch : Resolver) (mn : Z) (name : string) (w : Z) :
  period_found fetch mn name w = false ->
  truthy_data (fetch mn name w) = false.
Proof. unfold period_found. now destruct (fetch mn name w). Qed.

Lemma collect_week_missing fetch params all_data week :
  period_found fetch (AnalyzeCameraPerformanceInput.month_number params)
    (AnalyzeCameraPerformanceInput.month_name params) week = false ->
  collect_week fetch params all_data week = Ok all_data.
Proof.
  intros H. unfold collect_week. now rewrite (truthy_data_found _ _ _ _ H).
Qed.

Lemma search_week_missing fetch params matches week :
  period_found fetch (SearchInfractionsInput.month_number params)
    (SearchInfractionsInput.month_name params) week = false ->
  search_week fetch params matches week = Ok matches.
Proof.
  intros H. unfold search_week. now rewrite (truthy_data_found _ _ _ _ H).
Qed.

Lemma month_week_missing fetch params month_data week :
  period_found fetch (GetMonthlyReportInput.month_number params)
    (GetMonthlyReportInput.month_name params) week = false ->
  month_week fetch params month_data week = Ok month_data.
Proof.
  intros H. unfold month_week. now rewrite (truthy_data_found _ _ _ _ H).
Qed.
(** ** The statistics calculator *)

Lemma fold_min_spec (l : list Z) (x : Z) :
  let m := fold_left (fun m y => if y <? m then y else m) l x in
  In m (x :: l) /\ m <= x /\ Forall (fun y => m <= y) l.
Proof.
  revert x; induction l as [|y l IH]; intros x; simpl.
  - split; [now left | split; [lia | constructor]].
  - destruct (Z.ltb_spec y x) as [Hlt|Hle].
    + destruct (IH y) as [Hin [Hm Hall]]. split; [|split].
      * destruct Hin as [<-|Hin]; [right; now left | right; now right].
      * lia.
      * constructor; assumption.
    + destruct (IH x) as [Hin [Hm Hall]]. split; [|split].
      * destruct Hin as [<-|Hin]; [now left | right; now right].
      * exact Hm.
      * constructor; [lia | assumption].
Qed.

Lemma fold_max_spec (l : list Z) (x : Z) :
  let m := fold_left (fun m y => if m <? y then y else m) l x in
  In m (x :: l) /\ x <= m /\ Forall (fun y => y <= m) l.
Proof.
  revert x; induction l as [|y l IH]; intros x; simpl.
  - split; [now left | split; [lia | constructor]].
  - destruct (Z.ltb_spec x y) as [Hlt|Hle].
    + destruct (IH y) as [Hin [Hm Hall]]. split; [|split].
      * destruct Hin as [<-|Hin]; [right; now left | right; now right].
      * lia.
      * constructor; assumption.
    + destruct (IH x) as [Hin [Hm Hall]]. split; [|split].
      * destruct Hin as [<-|Hin]; [now left | right; now right].
      * exact Hm.
      * constructor; [lia | assumption].
Qed.

Lemma py_min_spec (S : list Z) :
  S <> [] ->
  exists m, py_min S = Ok m /\ In m S /\ Forall (fun y => m <= y) S.
Proof.
  destruct S as [|x l]; [congruence|]. intros _.
  destruct (fold_min_spec l x) as [Hin [Hm Hall]].
  eexists. split; [reflexivity|]. split; [exact Hin|].
  constructor; assumption.
Qed.

Lemma py_max_spec (S : list Z) :
  S <> [] ->
  exists m, py_max S = Ok m /\ In m S /\ Forall (fun y => y <= m) S.
Proof.
  destruct S as [|x l]; [congruence|]. intros _.
  destruct (fold_max_spec l x) as [Hin [Hm Hall]].
  eexists. split; [reflexivity|]. split; [exact Hin|].
  constructor; assumption.
Qed.

Lemma sumZ_bounds (lo hi : Z) (S : list Z) :
  Forall (fun x => lo <= x <= hi) S ->
  lo * Z.of_nat (List.length S) <= sumZ S <= hi * Z.of_nat (List.length S).
Proof.
  induction 1 as [|x S Hx _ IH].
  - simpl. lia.
  - cbn [List.length sumZ fold_right]. fold (sumZ S).
    rewrite Nat2Z.inj_succ. lia.
Qed.

(** ** Quotients of integers, as floats *)

Lemma int_truediv_Ok (a b : Z) (x : pyfloat) :
  int_truediv a b = Ok x ->
  b <> 0 /\ to_float (inject_Z a / inject_Z b) = x.
Proof.
  unfold int_truediv. destruct (Z.eqb_spec b 0) as [E|E]; [discriminate|].
  destruct (to_float _) as [v|s]; [|discriminate].
  intros H. inversion H. now split.
Qed.

(** A quotient that lies between two integers which are floats is a float
    between them. *)
Lemma int_truediv_between (a b lo hi : Z) (vlo vhi : Q) :
  0 < b -> lo * b <= a <= hi * b ->
  to_float (inject_Z lo) = Fin vlo -> to_float (inject_Z hi) = Fin vhi ->
  exists v, int_truediv a b = Ok (Fin v) /\ (vlo <= v)%Q /\ (v <= vhi)%Q.
Proof.
  intros Hb [H1 H2] Hlo Hhi.
  assert (Hbq : (0 < inject_Z b)%Q)
    by (change 0%Q with (inject_Z 0); rewrite <- Zlt_Qlt; exact Hb).
  assert (Q1 : (inject_Z lo <= inject_Z a / inject_Z b)%Q).
  { apply Qle_shift_div_l; [exact Hbq|].
    rewrite <- inject_Z_mult, <- Zle_Qle. exact H1. }
  assert (Q2 : (inject_Z a / inject_Z b <= inject_Z hi)%Q).
  { apply Qle_shift_div_r; [exact Hbq|].
    rewrite <- inject_Z_mult, <- Zle_Qle. exact H2. }
  destruct (to_float_between _ _ _ _ _ Hlo Hhi Q1 Q2) as [v [Hv [B1 B2]]].
  exists v. split; [|split; assumption].
  unfold int_truediv.
  assert ((b =? 0) = false) as -> by (apply Z.eqb_neq; lia).
  now rewrite Hv.
Qed.

Lemma int53_to_float (z : Z) :
  int53 z -> to_float (inject_Z z) = Fin (inject_Z z).
Proof. apply to_float_int. Qed.

(** ** Mean *)

Lemma length_pos {A : Type} (S : list A) :
  S <> [] -> 0 < Z.of_nat (List.length S).
Proof. destruct S; [congruence | simpl; lia]. Qed.

Lemma quotient_whole (a b k : Z) :
  0 < b -> ((inject_Z a / inject_Z b == inject_Z k)%Q <-> a = k * b).
Proof.
  intros Hb.
  assert (Hbq : (0 < inject_Z b)%Q)
    by (change 0%Q with (inject_Z 0); rewrite <- Zlt_Qlt; exact Hb).
  split.
  - intros H. apply inject_Z_injective. rewrite inject_Z_mult, <- H.
    field. lra.
  - intros ->. rewrite inject_Z_mult. field. lra.
Qed.

(** What [mean] returns: the quotient itself when it is whole, the float
    nearest to it otherwise. *)
Lemma mean_Ok (S : list Z) (m : number) :
  mean S = Ok m ->
  (exists k, (spec_mean S == inject_Z k)%Q /\ m = PyInt k)
  \/ ((forall k, ~ (spec_mean S == inject_Z k)%Q)
      /\ m = PyFloat (to_float (spec_mean S))).
Proof.
  unfold mean, spec_mean. destruct S as [|x l]; [discriminate|].
  set (S := x :: l). rewrite py_sumZ_sumZ.
  assert (Hn : 0 < Z.of_nat (List.length S)) by (apply length_pos; discriminate).
  destruct (Z.eqb_spec (sumZ S mod Z.of_nat (List.length S)) 0) as [E|E].
  - intros H. inversion H; subst; clear H. left.
    exists (sumZ S / Z.of_nat (List.length S)). split; [|reflexivity].
    apply (proj2 (quotient_whole _ _ _ Hn)).
    apply Z.div_exact in E; [|lia]. lia.
  - intros H. inv_bind. apply int_truediv_Ok in Ha. destruct Ha as [_ Ha].
    right. split; [|now rewrite Ha].
    intros k Hk.
    pose proof (proj1 (quotient_whole _ _ k Hn) Hk) as Hk'.
    apply E. rewrite Hk'. apply Z.mod_mul. lia.
Qed.

(** [mean] returns whenever the values have float-sized bounds, and its
    result lies between them. *)
Lemma mean_between (lo hi : Z) (vlo vhi : Q) (S : list Z) :
  S <> [] ->
  Forall (fun x => lo <= x <= hi) S ->
  to_float (inject_Z lo) = Fin vlo -> to_float (inject_Z hi) = Fin vhi ->
  (vlo <= inject_Z lo)%Q -> (inject_Z hi <= vhi)%Q ->
  exists m v, mean S = Ok m /\ num_val m = Fin v
              /\ (vlo <= v)%Q /\ (v <= vhi)%Q.
Proof.
  intros Hne Hall Hlo Hhi Vlo Vhi.
  pose proof (length_pos S Hne) as Hn.
  pose proof (sumZ_bounds lo hi S Hall) as Hs.
  unfold mean. destruct S as [|x l]; [congruence|].
  set (S := x :: l) in *. rewrite py_sumZ_sumZ.
  destruct (Z.eqb_spec (sumZ S mod Z.of_nat (List.length S)) 0) as [E|E].
  - exists (PyInt (sumZ S / Z.of_nat (List.length S))), 
      (inject_Z (sumZ S / Z.of_nat (List.length S))).
    split; [reflexivity|]. split; [reflexivity|].
    apply Z.div_exact in E; [|lia].
    set (k := sumZ S / Z.of_nat (List.length S)) in *.
    assert (lo <= k <= hi) by nia.
    split; [eapply Qle_trans; [exact Vlo|] | eapply Qle_trans; [|exact Vhi]];
      rewrite <- Zle_Qle; lia.
  - destruct (int_truediv_between (sumZ S) (Z.of_nat (List.length S)) lo hi
                vlo vhi Hn Hs Hlo Hhi) as [v [Hv [B1 B2]]].
    exists (PyFloat (Fin v)), v. rewrite Hv. cbn [bind].
    split; [reflexivity|]. split; [reflexivity|]. split; assumption.
Qed.

(** ** Median *)

Lemma odd_mod2 (n : nat) : Nat.eqb (Nat.modulo n 2) 1 = Nat.odd n.
Proof.
  rewrite <- Nat.bit0_mod, Nat.bit0_odd. now destruct (Nat.odd n).
Qed.

Lemma Zleb_total (a b : Z) : Z.leb a b = false -> Z.leb b a = true.
Proof. rewrite Z.leb_gt, Z.leb_le. lia. Qed.

Lemma Zleb_trans (a b c : Z) :
  Z.leb a b = true -> Z.leb b c = true -> Z.leb a c = true.
Proof. rewrite !Z.leb_le. lia. Qed.

Lemma py_sort_Z_sorted (S : list Z) : StronglySorted Z.le (py_sort Z.leb S).
Proof.
  pose proof (py_sort_sorted Z.leb Zleb_total Zleb_trans S) as H.
  induction H as [|a l _ IH Hall]; constructor; [exact IH|].
  eapply Forall_impl; [|exact Hall]. intros b Hb. now apply Z.leb_le.
Qed.

(** A list of integers has one sorted arrangement. *)
Lemma sorted_perm_unique (l1 l2 : list Z) :
  Permutation l1 l2 -> StronglySorted Z.le l1 -> StronglySorted Z.le l2 ->
  l1 = l2.
Proof.
  revert l2. induction l1 as [|a l1 IH]; intros l2 Hp H1 H2.
  - apply Permutation_nil in Hp. now subst.
  - destruct l2 as [|b l2];
      [symmetry in Hp; apply Permutation_nil in Hp; discriminate|].
    inversion H1 as [|? ? S1 F1]; subst. inversion H2 as [|? ? S2 F2]; subst.
    rewrite Forall_forall in F1, F2.
    assert (Hab : a = b).
    { assert (Ia : In a (b :: l2))
        by (eapply Permutation_in; [exact Hp | now left]).
      assert (Ib : In b (a :: l1))
        by (eapply Permutation_in; [symmetry; exact Hp | now left]).
      destruct Ia as [E|Ia]; [now symmetry|].
      destruct Ib as [E|Ib]; [now symmetry|].
      pose proof (F2 a Ia). pose proof (F1 b Ib). lia. }
    subst b. f_equal. apply IH; [|assumption|assumption].
    now apply Permutation_cons_inv in Hp.
Qed.

(** What [median] returns, in terms of any sorted arrangement of the
    values. *)
Lemma median_Ok (S sorted : list Z) (md : number) :
  Permutation sorted S -> StronglySorted Z.le sorted ->
  median S = Ok md ->
  if Nat.odd (List.length sorted)
  then md = PyInt (nth (Nat.div (List.length sorted) 2) sorted 0)
  else md = PyFloat (to_float (spec_median sorted)).
Proof.
  intros Hp Hs.
  assert (E : py_sort Z.leb S = sorted).
  { apply sorted_perm_unique; [|apply py_sort_Z_sorted|exact Hs].
    rewrite py_sort_perm. now symmetry. }
  unfold median, spec_median. rewrite E.
  destruct (List.length sorted) as [|n] eqn:En; [discriminate|].
  rewrite <- En. rewrite odd_mod2.
  destruct (Nat.odd (List.length sorted)).
  - intros H. now inversion H.
  - intros H. inv_bind. apply int_truediv_Ok in Ha. destruct Ha as [_ Ha].
    now rewrite Ha.
Qed.

Lemma nth_sorted_in_range (lo hi : Z) (S : list Z) (i : nat) :
  Forall (fun x => lo <= x <= hi) S ->
  (i < List.length (py_sort Z.leb S))%nat ->
  lo <= nth i (py_sort Z.leb S) 0 <= hi.
Proof.
  intros Hall Hi. rewrite Forall_forall in Hall. apply Hall.
  apply (py_sort_In Z.leb). now apply nth_In.
Qed.

(** [median] returns whenever the values have float-sized bounds, and its
    result lies between them. *)
Lemma median_between (lo hi : Z) (vlo vhi : Q) (S : list Z) :
  S <> [] ->
  Forall (fun x => lo <= x <= hi) S ->
  to_float (inject_Z lo) = Fin vlo -> to_float (inject_Z hi) = Fin vhi ->
  (vlo <= inject_Z lo)%Q -> (inject_Z hi <= vhi)%Q ->
  exists md v, median S = Ok md /\ num_val md = Fin v
               /\ (vlo <= v)%Q /\ (v <= vhi)%Q.
Proof.
  intros Hne Hall Hlo Hhi Vlo Vhi. unfold median.
  set (data := py_sort Z.leb S).
  assert (Hlen : List.length data = List.length S)
    by (apply Permutation_length, py_sort_perm).
  assert (Hpos : (0 < List.length data)%nat).
  { rewrite Hlen. destruct S; [congruence | simpl; lia]. }
  destruct (List.length data) as [|n] eqn:En; [lia|].
  rewrite <- En in *.
  assert (Hhalf : (Nat.div (List.length data) 2 < List.length data)%nat)
    by (apply Nat.div_lt; lia).
  destruct (Nat.eqb (Nat.modulo (List.length data) 2) 1) eqn:Eodd.
  - pose proof (nth_sorted_in_range lo hi S _ Hall Hhalf) as B.
    fold data in B.
    exists (PyInt (nth (Nat.div (List.length data) 2) data 0)),
      (inject_Z (nth (Nat.div (List.length data) 2) data 0)).
    split; [reflexivity|]. split; [reflexivity|].
    split; [eapply Qle_trans; [exact Vlo|] | eapply Qle_trans; [|exact Vhi]];
      rewrite <- Zle_Qle; lia.
  - assert (A : lo <= nth (Nat.div (List.length data) 2 - 1) data 0 <= hi)
      by (apply nth_sorted_in_range; [exact Hall | fold data; lia]).
    pose proof (nth_sorted_in_range lo hi S _ Hall Hhalf) as B.
    fold data in B.
    destruct (int_truediv_between
                (nth (Nat.div (List.length data) 2 - 1) data 0
                 + nth (Nat.div (List.length data) 2) data 0) 2 lo hi
                vlo vhi) as [v [Hv [B1 B2]]];
      [lia | lia | exact Hlo | exact Hhi |].
    exists (PyFloat (Fin v)), v. rewrite Hv. cbn [bind].
    split; [reflexivity|]. split; [reflexivity|]. split; assumption.
Qed.

(** Rounding to two decimals keeps a number between two integers that are
    floats. *)
Lemma py_round2_between_int (lo hi : Z) (x : number) (v : Q) :
  int53 lo -> int53 hi ->
  num_val x = Fin v -> (inject_Z lo <= v)%Q -> (v <= inject_Z hi)%Q ->
  num_le (PyInt lo) (py_round2 x) /\ num_le (py_round2 x) (PyInt hi).
Proof.
  intros Hlo Hhi Hx B1 B2. unfold num_le, num_leb.
  destruct x as [z|f]; cbn [py_round2 num_val] in *.
  - inversion Hx; subst. cbn [float_leb]. rewrite !Qle_bool_iff. now split.
  - subst f.
    destruct (round2_between_int lo hi v Hlo Hhi B1 B2) as [w [Hw [W1 W2]]].
    rewrite Hw. cbn [float_leb]. rewrite !Qle_bool_iff. now split.
Qed.

(** The calculator, field by field. *)
Lemma calculate_statistics_Ok (S : list Z) (s : Statistics) :
  S <> [] -> calculate_statistics S = Ok s ->
  exists m md,
    mean S = Ok m /\ median S = Ok md
    /\ py_min S = Ok (st_min s) /\ py_max S = Ok (st_max s)
    /\ st_mean s = py_round2 m /\ st_median s = py_round2 md
    /\ st_total s = sumZ S.
Proof.
  intros Hne H. unfold calculate_statistics in H.
  destruct S as [|x l]; [congruence|]. inv_bind.
  exists a, a0. cbn [st_min st_max st_mean st_median st_total].
  rewrite py_sumZ_sumZ. auto 10.
Qed.

Lemma calculate_statistics_runs (S : list Z) (m md : number) :
  S <> [] -> mean S = Ok m -> median S = Ok md ->
  exists s, calculate_statistics S = Ok s.
Proof.
  intros Hne Hm Hmd.
  destruct (py_min_spec S Hne) as [lo [Hlo _]].
  destruct (py_max_spec S Hne) as [hi [Hhi _]].
  unfold calculate_statistics. destruct S as [|x l]; [congruence|].
  rewrite Hm, Hmd, Hlo, Hhi. cbn [bind]. eexists. reflexivity.
Qed.

Lemma in_float_range_bounds (S : list Z) :
  Forall in_float_range S ->
  Forall (fun x => - 2 ^ 1000 <= x <= 2 ^ 1000) S.
Proof.
  apply Forall_impl. unfold in_float_range. intros x. lia.
Qed.

(** The binary64 number nearest to a positive [q] is within [q * 2^-53],
    or half the smallest positive float, of it. *)
Lemma to_float_near_abs (q : Q) :
  (0 < q)%Q -> (q <= pow2 1023)%Q ->
  exists v, to_float q = Fin v
    /\ (0 <= v)%Q
    /\ (q - q * (1 # 9007199254740992) - pow2 (-1075) <= v)%Q
    /\ (v <= q + q * (1 # 9007199254740992) + pow2 (-1075))%Q.
Proof.
  intros Hq Hhi.
  destruct (ilog2_spec q Hq) as [S1 _].
  destruct (round_pos_near q) as [N1 N2].
  pose proof (round_pos_nonneg q) as N0.
  assert (H1023 : (pow2 1024 == 2 * pow2 1023)%Q) by (apply (pow2_succ 1023)).
  assert (Hsub : (pow2 (-1074) == 2 * pow2 (-1075))%Q)
    by (apply (pow2_succ (-1075))).
  assert (Hsmall : (pow2 (-1075) <= pow2 1022)%Q) by (apply pow2_le; lia).
  assert (H1022 : (pow2 1023 == 2 * pow2 1022)%Q) by (apply (pow2_succ 1022)).
  pose proof (pow2_pos (-1075)) as P1. pose proof (pow2_pos 1023) as P2.
  assert (He : (pow2 (ulp_exponent q) * (1 # 2)
                <= q * (1 # 9007199254740992) + pow2 (-1075))%Q).
  { unfold ulp_exponent.
    destruct (Z.max_spec (-1074) (ilog2 q - 52)) as [[_ ->]|[_ ->]].
    - replace (ilog2 q - 52) with (ilog2 q + -52) by lia. rewrite pow2_add.
      assert (pow2 (-52) == 1 # 4503599627370496)%Q as -> by reflexivity.
      lra.
    - rewrite Hsub. lra. }
  rewrite (to_float_pos q Hq).
  assert (Hb : Qle_bool (pow2 1024) (round_pos q) = false).
  { apply Qle_bool_false. rewrite H1023. lra. }
  rewrite Hb. exists (Qred (round_pos q)). split; [reflexivity|].
  rewrite Qred_correct. split; [|split]; [|lra|lra].
  apply N0. lra.
Qed.

(** The float nearest to a non-negative [q], rounded to two decimals: within
    0.005 of [q], up to the floating-point error. *)
Lemma rounded_float_near (q : Q) :
  (0 <= q)%Q -> (q <= pow2 1000)%Q ->
  exists y, round2 (to_float q) = Fin y
    /\ (q - ((1 # 200) + (q + 1) * (1 # 1125899906842624)) <= y)%Q
    /\ (y <= q + ((1 # 200) + (q + 1) * (1 # 1125899906842624)))%Q.
Proof.
  intros H0 H1.
  assert (L1 : (pow2 1000 <= pow2 1009)%Q) by (apply pow2_le; lia).
  assert (L2 : (pow2 1010 == 2 * pow2 1009)%Q) by (apply (pow2_succ 1009)).
  assert (L3 : (pow2 1009 <= pow2 1023)%Q) by (apply pow2_le; lia).
  assert (L4 : (pow2 (-1075) <= pow2 (-60))%Q) by (apply pow2_le; lia).
  assert (L5 : (pow2 (-60) == 1 # 1152921504606846976)%Q) by reflexivity.
  assert (L6 : (pow2 0 <= pow2 1009)%Q) by (apply pow2_le; lia).
  assert (L7 : (pow2 0 == 1)%Q) by reflexivity.
  pose proof (pow2_pos (-1075)) as P1.
  destruct (Qlt_le_dec 0 q) as [Hq|Hq].
  - destruct (to_float_near_abs q Hq) as [v [Hv [V0 [V1 V2]]]]; [lra|].
    destruct (round2_near v V0) as [y [Hy [Y1 Y2]]]; [lra|].
    exists y. rewrite Hv. split; [exact Hy|]. split; lra.
  - assert (Hz : (q == 0)%Q) by lra.
    rewrite (to_float_zero q Hz). exists 0%Q. split; [reflexivity|].
    split; lra.
Qed.

Lemma count_in_range_bounds (S : list Z) :
  Forall count_in_range S -> Forall (fun x => 0 <= x <= 2 ^ 1000) S.
Proof. apply Forall_impl. unfold count_in_range. intros x. lia. Qed.

Lemma spec_mean_range (S : list Z) :
  S <> [] -> Forall count_in_range S ->
  (0 <= spec_mean S)%Q /\ (spec_mean S <= pow2 1000)%Q.
Proof.
  intros Hne Hall. pose proof (length_pos S Hne) as Hn.
  pose proof (sumZ_bounds 0 (2 ^ 1000) S (count_in_range_bounds S Hall)) as Hs.
  assert (Hnq : (0 < inject_Z (Z.of_nat (List.length S)))%Q)
    by (change 0%Q with (inject_Z 0); rewrite <- Zlt_Qlt; exact Hn).
  assert (P : (pow2 1000 == inject_Z (2 ^ 1000))%Q)
    by (apply pow2_nonneg; lia).
  unfold spec_mean. split.
  - apply Qle_shift_div_l; [exact Hnq|].
    change 0%Q with (inject_Z 0). rewrite <- inject_Z_mult, <- Zle_Qle. lia.
  - rewrite P. apply Qle_shift_div_r; [exact Hnq|].
    rewrite <- inject_Z_mult, <- Zle_Qle. lia.
Qed.

Lemma nth_in_range (P : Z -> Prop) (l : list Z) (i : nat) :
  Forall P l -> (i < List.length l)%nat -> P (nth i l 0).
Proof.
  intros Hall Hi. rewrite Forall_forall in Hall. apply Hall. now apply nth_In.
Qed.

Lemma spec_median_range (sorted : list Z) :
  sorted <> [] -> Forall count_in_range sorted ->
  (0 <= spec_median sorted)%Q /\ (spec_median sorted <= pow2 1000)%Q.
Proof.
  intros Hne Hall.
  assert (Hpos : (0 < List.length sorted)%nat)
    by (destruct sorted; [congruence | simpl; lia]).
  assert (Hhalf : (Nat.div (List.length sorted) 2 < List.length sorted)%nat)
    by (apply Nat.div_lt; lia).
  assert (P : (pow2 1000 == inject_Z (2 ^ 1000))%Q)
    by (apply pow2_nonneg; lia).
  pose proof (nth_in_range _ sorted _ Hall Hhalf) as B.
  assert (A : count_in_range (nth (Nat.div (List.length sorted) 2 - 1) sorted 0))
    by (apply nth_in_range; [exact Hall | lia]).
  unfold count_in_range in A, B.
  unfold spec_median. rewrite P. destruct (Nat.odd (List.length sorted)).
  - rewrite <- (Zle_Qle 0), <- Zle_Qle. lia.
  - split.
    + apply Qle_shift_div_l; [reflexivity|].
      change 0%Q with (inject_Z 0). rewrite <- inject_Z_mult, <- Zle_Qle. lia.
    + apply Qle_shift_div_r; [reflexivity|].
      rewrite <- inject_Z_mult, <- Zle_Qle. lia.
Qed.

(** The two rounded fields are near the exact mean and median. *)
Lemma mean_field_near (S : list Z) (x : number) :
  (0 <= spec_mean S)%Q -> (spec_mean S <= pow2 1000)%Q ->
  mean_field S x ->
  num_near x (spec_mean S)
    ((1 # 200) + (spec_mean S + 1) * (1 # 1125899906842624)).
Proof.
  intros H0 H1 [[k [Hk ->]]|[_ ->]]; unfold num_near; cbn [num_val].
  - rewrite <- Hk. split; lra.
  - destruct (rounded_float_near _ H0 H1) as [y [Hy [Y1 Y2]]].
    rewrite Hy. now split.
Qed.

Lemma median_field_near (sorted : list Z) (x : number) :
  (0 <= spec_median sorted)%Q -> (spec_median sorted <= pow2 1000)%Q ->
  median_field sorted x ->
  num_near x (spec_median sorted)
    ((1 # 200) + (spec_median sorted + 1) * (1 # 1125899906842624)).
Proof.
  intros H0 H1. unfold median_field, num_near.
  destruct (Nat.odd (List.length sorted)) eqn:E; intros ->; cbn [num_val].
  - unfold spec_median in *. rewrite E in *. split; lra.
  - destruct (rounded_float_near _ H0 H1) as [y [Hy [Y1 Y2]]].
    rewrite Hy. now split.
Qed.

Lemma mean_field_of (S : list Z) (m : number) :
  mean S = Ok m -> mean_field S (py_round2 m).
Proof.
  intros H. destruct (mean_Ok S m H) as [[k [Hk ->]]|[Hk ->]].
  - left. now exists k.
  - right. now split.
Qed.

Lemma median_field_of (S sorted : list Z) (md : number) :
  Permutation sorted S -> StronglySorted Z.le sorted ->
  median S = Ok md -> median_field sorted (py_round2 md).
Proof.
  intros Hp Hs H. pose proof (median_Ok S sorted md Hp Hs H) as G.
  unfold median_field. destruct (Nat.odd (List.length sorted)); now subst.
Qed.

(** The three exact fields. *)
Lemma statistics_exact_fields (S : list Z) (s : Statistics) :
  S <> [] -> calculate_statistics S = Ok s ->
  st_total s = sumZ S
  /\ In (st_min s) S /\ Forall (fun x => st_min s <= x) S
  /\ In (st_max s) S /\ Forall (fun x => x <= st_max s) S.
Proof.
  intros Hne H.
  destruct (calculate_statistics_Ok S s Hne H)
    as [m [md [_ [_ [Hlo [Hhi [_ [_ Ht]]]]]]]].
  destruct (py_min_spec S Hne) as [lo [Hlo' [Ilo Alo]]].
  destruct (py_max_spec S Hne) as [hi [Hhi' [Ihi Ahi]]].
  assert (lo = st_min s) by congruence. assert (hi = st_max s) by congruence.
  subst lo hi. auto.
Qed.

(** The bounds of the two rounded fields, for values that are floats. *)
Lemma statistics_bounds (S : list Z) (s : Statistics) :
  S <> [] -> Forall int53 S -> calculate_statistics S = Ok s ->
  num_le (PyInt (st_min s)) (st_mean s)
  /\ num_le (st_mean s) (PyInt (st_max s))
  /\ num_le (PyInt (st_min s)) (st_median s)
  /\ num_le (st_median s) (PyInt (st_max s)).
Proof.
  intros Hne H53 H.
  destruct (calculate_statistics_Ok S s Hne H)
    as [m [md [Hm [Hmd [Hlo [Hhi [Em [Emd _]]]]]]]].
  destruct (py_min_spec S Hne) as [lo [Hlo' [Ilo Alo]]].
  destruct (py_max_spec S Hne) as [hi [Hhi' [Ihi Ahi]]].
  assert (lo = st_min s) by congruence. assert (hi = st_max s) by congruence.
  subst lo hi.
  assert (Hrange : Forall (fun x => st_min s <= x <= st_max s) S).
  { rewrite Forall_forall in *. intros x Hx. split; auto. }
  assert (L53 : int53 (st_min s))
    by (rewrite Forall_forall in H53; now apply H53).
  assert (U53 : int53 (st_max s))
    by (rewrite Forall_forall in H53; now apply H53).
  destruct (mean_between _ _ _ _ S Hne Hrange (int53_to_float _ L53)
              (int53_to_float _ U53) (Qle_refl _) (Qle_refl _))
    as [m' [v [Hm' [Hv [V1 V2]]]]].
  destruct (median_between _ _ _ _ S Hne Hrange (int53_to_float _ L53)
              (int53_to_float _ U53) (Qle_refl _) (Qle_refl _))
    as [md' [w [Hmd' [Hw [W1 W2]]]]].
  assert (m' = m) by congruence. assert (md' = md) by congruence. subst m' md'.
  rewrite Em, Emd.
  destruct (py_round2_between_int _ _ m v L53 U53 Hv V1 V2).
  destruct (py_round2_between_int _ _ md w L53 U53 Hw W1 W2).
  auto.
Qed.

Lemma calculate_statistics_in_range (S : list Z) :
  S <> [] -> Forall in_float_range S ->
  exists s, calculate_statistics S = Ok s.
Proof.
  intros Hne Hall. pose proof (in_float_range_bounds S Hall) as Hb.
  destruct (mean_between _ _ _ _ S Hne Hb pow2_1000_neg pow2_1000
              (Qle_refl _) (Qle_refl _)) as [m [_ [Hm _]]].
  destruct (median_between _ _ _ _ S Hne Hb pow2_1000_neg pow2_1000
              (Qle_refl _) (Qle_refl _)) as [md [_ [Hmd _]]].
  exact (calculate_statistics_runs S m md Hne Hm Hmd).
Qed.

(** C5 (amended): on the empty sequence all five fields are 0.  On a
    non-empty sequence of integers (the counts the program passes) of at
    most 2^1000 in absolute value the calculator returns.  Whenever it
    returns, the total is the sum and the minimum and maximum are the exact
    least and greatest elements; the mean field is the mean itself when it
    is a whole number and otherwise the float nearest to the mean, rounded
    to two decimals; the median field is the middle value of the sorted
    values, or the float nearest to half the sum of the two middle values,
    rounded to two decimals.  For non-negative values both fields are
    within 0.005 + (value + 1) * 2^-50 of the exact mean and median, and
    for values of at most 2^53 in absolute value both lie between the
    minimum and the maximum. *)
Theorem C5_statistics_calculator :
  calculate_statistics [] = Ok (mkStatistics (PyInt 0) (PyInt 0) 0 0 0)
  /\ (forall S : list Z, S <> [] -> Forall in_float_range S ->
        exists s, calculate_statistics S = Ok s)
  /\ (forall (S : list Z) (s : Statistics),
        S <> [] -> calculate_statistics S = Ok s ->
        st_total s = sumZ S
        /\ In (st_min s) S /\ Forall (fun x => st_min s <= x) S
        /\ In (st_max s) S /\ Forall (fun x => x <= st_max s) S
        /\ mean_field S (st_mean s)
        /\ (forall sorted, Permutation sorted S -> StronglySorted Z.le sorted ->
              median_field sorted (st_median s))
        /\ (Forall count_in_range S ->
              num_near (st_mean s) (spec_mean S)
                ((1 # 200) + (spec_mean S + 1) * (1 # 1125899906842624))
              /\ forall sorted,
                   Permutation sorted S -> StronglySorted Z.le sorted ->
                   num_near (st_median s) (spec_median sorted)
                     ((1 # 200)
                      + (spec_median sorted + 1) * (1 # 1125899906842624)))
        /\ (Forall int53 S ->
              num_le (PyInt (st_min s)) (st_mean s)
              /\ num_le (st_mean s) (PyInt (st_max s))
              /\ num_le (PyInt (st_min s)) (st_median s)
              /\ num_le (st_median s) (PyInt (st_max s)))).
Proof.
  split; [reflexivity|]. split; [exact calculate_statistics_in_range|].
  intros S s Hne H.
  destruct (calculate_statistics_Ok S s Hne H)
    as [m [md [Hm [Hmd [_ [_ [Em [Emd _]]]]]]]].
  destruct (statistics_exact_fields S s Hne H) as [Ht [Ilo [Alo [Ihi Ahi]]]].
  pose proof (mean_field_of S m Hm) as Fm. rewrite <- Em in Fm.
  assert (Fmd : forall sorted,
             Permutation sorted S -> StronglySorted Z.le sorted ->
             median_field sorted (st_median s)).
  { intros sorted Hp Hs. rewrite Emd.
    exact (median_field_of S sorted md Hp Hs Hmd). }
  repeat (split; [assumption|]). split.
  - intros Hc. destruct (spec_mean_range S Hne Hc) as [M0 M1]. split.
    + now apply mean_field_near.
    + intros sorted Hp Hs.
      assert (Hne' : sorted <> []).
      { intros ->. apply Permutation_nil in Hp. congruence. }
      assert (Hc' : Forall count_in_range sorted).
      { rewrite Forall_forall in *. intros x Hx. apply Hc.
        eapply Permutation_in; eassumption. }
      destruct (spec_median_range sorted Hne' Hc') as [D0 D1].
      apply median_field_near; auto.
  - intros H53. exact (statistics_bounds S s Hne H53 H).
Qed.

(** C5, the claim as worded fails: for the two values 2^53 + 1 and
    2^53 + 1 the minimum is 2^53 + 1, but half their sum is not a float:
    the median field is 9007199254740992.0 = 2^53, below the minimum. *)
Lemma C5_counterexample_large_counts :
  exists s,
    calculate_statistics [2 ^ 53 + 1; 2 ^ 53 + 1] = Ok s
    /\ st_min s = 2 ^ 53 + 1
    /\ st_median s = PyFloat (Fin (inject_Z (2 ^ 53)))
    /\ ~ num_le (PyInt (st_min s)) (st_median s).
Proof.
  eexists. split; [vm_compute; reflexivity|].
  split; [reflexivity|]. split; [reflexivity|].
  vm_compute. discriminate.
Qed.

(** ** Search *)

(** A loop whose body appends [g x] to the accumulator builds the
    concatenation of the [g x]. *)
Lemma foldM_append {A B : Type} (body : list B -> A -> result (list B))
    (g : A -> list B) (P : A -> Prop) (l : list A) :
  (forall acc x, P x -> body acc x = Ok (acc ++ g x)) ->
  Forall P l ->
  forall acc, foldM body l acc = Ok (acc ++ flat_map g l).
Proof.
  intros Hb Hall. induction Hall as [|x l Hx _ IH]; intros acc; simpl.
  - now rewrite app_nil_r.
  - rewrite (Hb acc x Hx). simpl. rewrite IH. now rewrite app_assoc.
Qed.

Lemma flat_map_map_filter {A B C : Type} (f : B -> C) (p : B -> bool)
    (G : A -> list B) (l : list A) :
  flat_map (fun x => map f (filter p (G x))) l
  = map f (filter p (flat_map G l)).
Proof.
  induction l as [|x l IH]; simpl; [reflexivity|].
  now rewrite filter_app, map_app, IH.
Qed.

Lemma flat_map_singleton {A B : Type} (h : A -> B) (l : list A) :
  flat_map (fun x => [h x]) l = map h l.
Proof. induction l as [|x l IH]; simpl; [reflexivity | now rewrite IH]. Qed.

Lemma search_date_spec (params : SearchInfractionsInput.t) (week : Z)
    (cid : string) (cd : CameraData) (acc : list Match.t)
    (entry : string * Z) :
  let t : Tuple := (week, cid, cd, fst entry, snd entry) in
  (spec_criteria params t = true -> tuple_named t) ->
  search_date params week cid cd acc entry
  = Ok (acc ++ map spec_match (filter (spec_criteria params) [t])).
Proof.
  destruct entry as [date count]. simpl. intros Hn.
  unfold search_date, spec_criteria in *.
  destruct params as [mn name d lo hi]; simpl in *.
  assert (Hd : truthy_str d
               && negb (String.eqb date match d with Some d0 => d0 | None => "" end)
               = negb match d with
                      | Some d0 => String.eqb d0 "" || String.eqb date d0
                      | None => true
                      end).
  { destruct d as [d0|]; simpl; [|reflexivity].
    destruct (String.eqb d0 ""); destruct (String.eqb date d0); reflexivity. }
  rewrite Hd.
  destruct (match d with
            | Some d0 => String.eqb d0 "" || String.eqb date d0
            | None => true
            end); simpl; [|now rewrite app_nil_r].
  assert (Hlo : match lo with Some lo0 => count <? lo0 | None => false end
                = negb match lo with Some lo0 => lo0 <=? count | None => true end).
  { destruct lo as [lo0|]; [|reflexivity].
    destruct (Z.ltb_spec count lo0), (Z.leb_spec lo0 count); simpl; auto; lia. }
  rewrite Hlo.
  destruct (match lo with Some lo0 => lo0 <=? count | None => true end);
    simpl; [|now rewrite app_nil_r].
  assert (Hhi : match hi with Some hi0 => hi0 <? count | None => false end
                = negb match hi with Some hi0 => count <=? hi0 | None => true end).
  { destruct hi as [hi0|]; [|reflexivity].
    destruct (Z.ltb_spec hi0 count), (Z.leb_spec count hi0); simpl; auto; lia. }
  rewrite Hhi.
  destruct (match hi with Some hi0 => count <=? hi0 | None => true end);
    simpl; [|now rewrite app_nil_r].
  simpl in Hn. specialize (Hn eq_refl).
  destruct (camera cd) as [nm|]; [reflexivity | congruence].
Qed.

Lemma search_camera_spec (params : SearchInfractionsInput.t) (week : Z)
    (acc : list Match.t) (item : string * CameraData) :
  (forall t, In t (tuples_of_camera week item) ->
             spec_criteria params t = true -> tuple_named t) ->
  search_camera params week acc item
  = Ok (acc ++ map spec_match
                 (filter (spec_criteria params) (tuples_of_camera week item))).
Proof.
  destruct item as [cid cd]. intros Hn. unfold search_camera.
  rewrite (foldM_append _
             (fun entry => map spec_match
                (filter (spec_criteria params)
                   [(week, cid, cd, fst entry, snd entry)]))
             (fun entry => spec_criteria params
                             (week, cid, cd, fst entry, snd entry) = true ->
                           tuple_named (week, cid, cd, fst entry, snd entry))).
  - rewrite (flat_map_map_filter spec_match (spec_criteria params)
               (fun entry => [(week, cid, cd, fst entry, snd entry)])).
    unfold tuples_of_camera. simpl.
    now rewrite flat_map_singleton.
  - intros acc' entry H. apply search_date_spec. exact H.
  - apply Forall_forall. intros entry Hin. apply Hn.
    unfold tuples_of_camera. simpl.
    apply (in_map (fun e => (week, cid, cd, fst e, snd e))) in Hin. exact Hin.
Qed.

Lemma search_week_spec (fetch : Resolver) (params : SearchInfractionsInput.t)
    (acc : list Match.t) (week : Z) :
  let tuples := tuples_of_week fetch (SearchInfractionsInput.month_number params)
                  (SearchInfractionsInput.month_name params) week in
  (forall t, In t tuples -> spec_criteria params t = true -> tuple_named t) ->
  search_week fetch params acc week
  = Ok (acc ++ map spec_match (filter (spec_criteria params) tuples)).
Proof.
  unfold search_week, tuples_of_week.
  destruct (fetch _ _ week) as [data|]; simpl;
    [|intros _; now rewrite app_nil_r].
  destruct data as [|x data]; [intros _; simpl; now rewrite app_nil_r|].
  cbn [truthy_dict negb]. intros Hn.
  rewrite (foldM_append _
             (fun item => map spec_match
                (filter (spec_criteria params) (tuples_of_camera week item)))
             (fun item => forall t, In t (tuples_of_camera week item) ->
                spec_criteria params t = true -> tuple_named t)).
  - now rewrite flat_map_map_filter.
  - intros acc' item H. now apply search_camera_spec.
  - apply Forall_forall. intros item Hin t Ht. apply Hn.
    apply in_flat_map. exists item. split; assumption.
Qed.

(** The scan collects, in scan order, the match of every tuple that meets
    the criteria. *)
Lemma scan_matches_spec (fetch : Resolver) (params : SearchInfractionsInput.t)
    (weeks : list Z) :
  (forall t, In t (spec_tuples fetch params weeks) ->
             spec_criteria params t = true -> tuple_named t) ->
  scan_matches fetch params weeks
  = Ok (map spec_match
          (filter (spec_criteria params) (spec_tuples fetch params weeks))).
Proof.
  intros Hn. unfold scan_matches, spec_tuples.
  rewrite (foldM_append _
             (fun week => map spec_match
                (filter (spec_criteria params)
                   (tuples_of_week fetch
                      (SearchInfractionsInput.month_number params)
                      (SearchInfractionsInput.month_name params) week)))
             (fun week => forall t,
                In t (tuples_of_week fetch
                        (SearchInfractionsInput.month_number params)
                        (SearchInfractionsInput.month_name params) week) ->
                spec_criteria params t = true -> tuple_named t)).
  - now rewrite flat_map_map_filter.
  - intros acc week H. now apply search_week_spec.
  - apply Forall_forall. intros week Hin t Ht. apply Hn.
    apply in_flat_map. exists week. split; assumption.
Qed.

(** *** The sort key *)

Lemma str_ltb_lt (a b : string) : str_ltb a b = true <-> String_as_OT.lt a b.
Proof.
  unfold str_ltb, String_as_OT.lt.
  destruct (String_as_OT.compare a b); split; congruence.
Qed.

Lemma by_date_then_count_iff (x y : Match.t) :
  by_date_then_count x y = true <-> spec_order x y.
Proof.
  unfold by_date_then_count, spec_order.
  rewrite orb_true_iff, andb_true_iff, str_ltb_lt, String.eqb_eq, Z.leb_le.
  split; (intros [H|[H1 H2]]; [now left | right; split; [exact H1 | lia]]).
Qed.

Lemma str_trichotomy (a b : string) :
  String_as_OT.lt a b \/ a = b \/ String_as_OT.lt b a.
Proof.
  destruct (String_as_OT.compare_spec a b) as [H|H|H]; auto.
Qed.

Lemma spec_order_total (x y : Match.t) : spec_order x y \/ spec_order y x.
Proof.
  unfold spec_order.
  destruct (str_trichotomy (Match.date x) (Match.date y)) as [H|[H|H]].
  - left. now left.
  - destruct (Z.le_ge_cases (Match.infractions x) (Match.infractions y)).
    + right. right. split; [now symmetry | assumption].
    + left. right. split; [assumption | lia].
  - right. now left.
Qed.

Lemma spec_order_trans (x y z : Match.t) :
  spec_order x y -> spec_order y z -> spec_order x z.
Proof.
  unfold spec_order.
  intros [H1|[H1 H1']] [H2|[H2 H2']].
  - left. eapply (@StrictOrder_Transitive _ _ String_as_OT.lt_strorder);
      eassumption.
  - left. now rewrite <- H2.
  - left. now rewrite H1.
  - right. split; [congruence | lia].
Qed.

Lemma by_date_then_count_total (x y : Match.t) :
  by_date_then_count x y = false -> by_date_then_count y x = true.
Proof.
  intros H. apply by_date_then_count_iff.
  destruct (spec_order_total x y) as [H'|H']; [|exact H'].
  apply by_date_then_count_iff in H'. congruence.
Qed.

Lemma by_date_then_count_trans (x y z : Match.t) :
  by_date_then_count x y = true -> by_date_then_count y z = true ->
  by_date_then_count x z = true.
Proof.
  rewrite !by_date_then_count_iff. apply spec_order_trans.
Qed.

Lemma sorted_by_date_then_count (l : list Match.t) :
  StronglySorted spec_order (py_sort by_date_then_count l).
Proof.
  pose proof (py_sort_sorted by_date_then_count by_date_then_count_total
                by_date_then_count_trans l) as Hs.
  induction Hs as [|a s _ IH Hall]; constructor; [exact IH|].
  eapply Forall_impl; [|exact Hall].
  intros b Hb. now apply by_date_then_count_iff.
Qed.

Lemma search_exact (fetch : Resolver)
    (params : SearchInfractionsInput.t) :
  let weeks := get_available_weeks fetch
                 (SearchInfractionsInput.month_number params)
                 (SearchInfractionsInput.month_name params) in
  weeks <> [] ->
  (forall t, In t (spec_tuples fetch params weeks) ->
             spec_criteria params t = true -> tuple_named t) ->
  exists matches,
    search_infractions fetch params = Payload matches
    /\ Permutation matches
         (map spec_match
            (filter (spec_criteria params) (spec_tuples fetch params weeks))).
Proof.
  intros weeks Hne Hn.
  exists (py_sort by_date_then_count
            (map spec_match
               (filter (spec_criteria params)
                  (spec_tuples fetch params weeks)))).
  split; [|apply py_sort_perm].
  unfold search_infractions. fold weeks.
  destruct weeks as [|w ws] eqn:Hw; [congruence|].
  rewrite (scan_matches_spec fetch params (w :: ws) Hn). reflexivity.
Qed.

(** C3 (amended): when at least one period is available and every tuple
    that meets the criteria belongs to an observation with a display name,
    search returns exactly the matches of the (period, device, date, count)
    tuples for which the date criterion holds (unset, set to the empty
    text, or equal), the count is at least the minimum when set and at most
    the maximum when set; each match carries the device's frame count for
    that date, 0 when absent; and the result is ordered by ascending date,
    then descending infraction count. *)
Theorem C3_search_exact_and_sorted (fetch : Resolver)
    (params : SearchInfractionsInput.t) :
  let weeks := get_available_weeks fetch
                 (SearchInfractionsInput.month_number params)
                 (SearchInfractionsInput.month_name params) in
  weeks <> [] ->
  (forall t, In t (spec_tuples fetch params weeks) ->
             spec_criteria params t = true -> tuple_named t) ->
  exists matches,
    search_infractions fetch params = Payload matches
    /\ Permutation matches
         (map spec_match
            (filter (spec_criteria params) (spec_tuples fetch params weeks)))
    /\ StronglySorted spec_order matches.
Proof.
  intros weeks Hne Hn.
  exists (py_sort by_date_then_count
            (map spec_match
               (filter (spec_criteria params)
                  (spec_tuples fetch params weeks)))).
  split; [|split; [apply py_sort_perm | apply sorted_by_date_then_count]].
  unfold search_infractions. fold weeks.
  destruct weeks as [|w ws] eqn:Hw; [congruence|].
  rewrite (scan_matches_spec fetch params (w :: ws) Hn). reflexivity.
Qed.

(** C3, the claim as worded fails: with the date criterion set to the
    empty text, search returns the matches of every date instead of the
    (here: no) tuples whose date equals the criterion. *)
Lemma C3_counterexample_empty_date :
  exists matches,
    search_infractions (one_week week_A)
      (SearchInfractionsInput.mk 1 "enero" (Some ""%string) None None)
    = Payload matches
    /\ ~ Permutation matches
         (map spec_match
            (filter
               (spec_criteria_as_claimed
                  (SearchInfractionsInput.mk 1 "enero" (Some ""%string) None None))
               (spec_tuples (one_week week_A)
                  (SearchInfractionsInput.mk 1 "enero" (Some ""%string) None None)
                  (get_available_weeks (one_week week_A) 1 "enero")))).
Proof.
  eexists. split; [vm_compute; reflexivity|].
  vm_compute. intros H. apply Permutation_sym in H.
  now apply Permutation_nil in H.
Qed.

(** *** No criteria *)

Lemma NoDup_map_flat_map {A B K P : Type} (k : B -> K) (p : A -> P)
    (proj : K -> P) (G : A -> list B) (l : list A) :
  NoDup (map p l) ->
  (forall x, In x l -> NoDup (map k (G x))) ->
  (forall x b, In x l -> In b (G x) -> proj (k b) = p x) ->
  NoDup (map k (flat_map G l)).
Proof.
  induction l as [|x l IH]; intros Hp Hin Hproj; simpl; [constructor|].
  inversion Hp as [|? ? Hnotin Hp']; subst.
  rewrite map_app. apply NoDup_app.
  - apply Hin. now left.
  - apply IH; auto.
    + intros y Hy. apply Hin. now right.
    + intros y b Hy Hb. apply Hproj; [now right | exact Hb].
  - intros key H1 H2. apply Hnotin.
    apply in_map_iff in H1. destruct H1 as [b1 [Hk1 Hb1]].
    apply in_map_iff in H2. destruct H2 as [b2 [Hk2 Hb2]].
    apply in_flat_map in Hb2. destruct Hb2 as [y [Hy Hb2]].
    assert (p x = p y) as ->.
    { rewrite <- (Hproj x b1 (or_introl eq_refl) Hb1).
      rewrite <- (Hproj y b2 (or_intror Hy) Hb2). congruence. }
    now apply in_map.
Qed.

Lemma tuples_of_camera_NoDup (week : Z) (item : string * CameraData) :
  dict_wf (get_or_empty (infractions (snd item))) ->
  NoDup (map tuple_key (tuples_of_camera week item)).
Proof.
  unfold tuples_of_camera, dict_wf, keys. rewrite map_map. simpl.
  generalize (get_or_empty (infractions (snd item))) as entries.
  induction entries as [|e entries IH]; simpl; intros Hnd; [constructor|].
  inversion Hnd as [|? ? Hnotin Hnd']; subst. constructor; [|auto].
  intros Hin. apply Hnotin. apply in_map_iff in Hin.
  destruct Hin as [e' [He' Hin]]. injection He' as Heq.
  rewrite <- Heq. now apply in_map.
Qed.

Lemma get_available_weeks_NoDup (fetch : Resolver) (mn : Z) (name : string) :
  NoDup (get_available_weeks fetch mn name).
Proof.
  unfold get_available_weeks. apply NoDup_filter.
  repeat constructor; simpl; intuition lia.
Qed.

Lemma spec_tuples_NoDup (fetch : Resolver) (params : SearchInfractionsInput.t)
    (weeks : list Z) :
  resolver_wf fetch -> NoDup weeks ->
  NoDup (map tuple_key (spec_tuples fetch params weeks)).
Proof.
  intros Hwf Hnd. unfold spec_tuples.
  apply (NoDup_map_flat_map tuple_key (fun w => w) (fun key => fst (fst key))).
  - now rewrite map_id.
  - intros w _. unfold tuples_of_week.
    destruct (fetch _ _ w) as [data|] eqn:Hf; [|constructor].
    destruct (Hwf _ _ _ _ Hf) as [Hd Hitems].
    apply (NoDup_map_flat_map tuple_key fst (fun key => snd (fst key))).
    + exact Hd.
    + intros [cid cd] Hin. apply tuples_of_camera_NoDup.
      now apply (Hitems cid cd).
    + intros [cid cd] b _ Hb. unfold tuples_of_camera in Hb.
      apply in_map_iff in Hb. destruct Hb as [e [<- _]]. reflexivity.
  - intros w b _ Hb. unfold tuples_of_week in Hb.
    destruct (fetch _ _ w) as [data|]; [|destruct Hb].
    apply in_flat_map in Hb. destruct Hb as [[cid cd] [_ Hb]].
    unfold tuples_of_camera in Hb.
    apply in_map_iff in Hb. destruct Hb as [e [<- _]]. reflexivity.
Qed.

Lemma match_key_spec_match (t : Tuple) : match_key (spec_match t) = tuple_key t.
Proof. now destruct t as [[[[week cid] cd] date] count]. Qed.

Lemma spec_tuples_present (fetch : Resolver) (params : SearchInfractionsInput.t)
    (w : Z) (cid date : string) :
  In (w, cid, date)
     (map tuple_key
        (spec_tuples fetch params
           (get_available_weeks fetch
              (SearchInfractionsInput.month_number params)
              (SearchInfractionsInput.month_name params))))
  <-> spec_present fetch (SearchInfractionsInput.month_number params)
        (SearchInfractionsInput.month_name params) w cid date.
Proof.
  unfold spec_present, spec_tuples. rewrite in_map_iff. split.
  - intros [t [Hk Ht]]. apply in_flat_map in Ht.
    destruct Ht as [w' [Hw' Ht]]. unfold tuples_of_week in Ht.
    destruct (fetch _ _ w') as [data|] eqn:Hf; [|destruct Ht].
    apply in_flat_map in Ht. destruct Ht as [[cid' cd] [Hitem Ht]].
    unfold tuples_of_camera in Ht. apply in_map_iff in Ht.
    destruct Ht as [[d n] [<- Hin]]. simpl in Hk. inversion Hk; subst.
    split; [exact Hw'|]. exists data, cd, n. auto.
  - intros [Hw [data [cd [n [Hf [Hitem Hin]]]]]].
    exists (w, cid, cd, date, n). split; [reflexivity|].
    apply in_flat_map. exists w. split; [exact Hw|].
    unfold tuples_of_week. rewrite Hf.
    apply in_flat_map. exists (cid, cd). split; [exact Hitem|].
    unfold tuples_of_camera. simpl.
    apply (in_map (fun e => (w, cid, cd, fst e, snd e)) _ (date, n)) in Hin.
    exact Hin.
Qed.

Lemma filter_all {A : Type} (p : A -> bool) (l : list A) :
  (forall x, p x = true) -> filter p l = l.
Proof.
  intros H. induction l as [|x l IH]; simpl; [reflexivity|].
  now rewrite H, IH.
Qed.

(** C6 (amended): with no criteria set (and at least one period available,
    every observation with daily infractions carrying a display name),
    search returns exactly one match per (period, device, date) triple
    present in the scanned periods: no two matches share period, device and
    date, and a triple has a match exactly when it is present. *)
Theorem C6_search_all_once (fetch : Resolver) (month_number : Z)
    (month_name : string) :
  let params := SearchInfractionsInput.mk month_number month_name None None None in
  let weeks := get_available_weeks fetch month_number month_name in
  resolver_wf fetch ->
  weeks <> [] ->
  (forall t, In t (spec_tuples fetch params weeks) -> tuple_named t) ->
  exists matches,
    search_infractions fetch params = Payload matches
    /\ NoDup (map match_key matches)
    /\ forall week cid date,
         In (week, cid, date) (map match_key matches)
         <-> spec_present fetch month_number month_name week cid date.
Proof.
  intros params weeks Hwf Hne Hn.
  destruct (search_exact fetch params Hne) as [matches [Hs Hp]].
  { intros t Ht _. now apply Hn. }
  change (Permutation matches
            (map spec_match
               (filter (spec_criteria params)
                  (spec_tuples fetch params weeks)))) in Hp.
  assert (Hall : filter (spec_criteria params) (spec_tuples fetch params weeks)
                 = spec_tuples fetch params weeks).
  { apply filter_all. now intros [[[[w c] cd] d] n]. }
  rewrite Hall in Hp.
  assert (Hkeys : Permutation (map match_key matches)
                    (map tuple_key (spec_tuples fetch params weeks))).
  { rewrite (Permutation_map match_key Hp), map_map.
    erewrite map_ext; [reflexivity | apply match_key_spec_match]. }
  exists matches. split; [exact Hs|]. split.
  - apply (Permutation_NoDup (Permutation_sym Hkeys)).
    apply spec_tuples_NoDup; [exact Hwf | apply get_available_weeks_NoDup].
  - intros week cid date.
    pose proof (spec_tuples_present fetch params week cid date) as Hpres.
    change (In (week, cid, date)
              (map tuple_key (spec_tuples fetch params weeks))
            <-> spec_present fetch month_number month_name week cid date)
      in Hpres.
    rewrite <- Hpres.
    split; apply Permutation_in; [exact Hkeys | now apply Permutation_sym].
Qed.

(** C6, the claim as worded fails: when two periods both hold device A
    with the date 01-05, a search without criteria returns two matches for
    the one (device, date) pair. *)
Lemma C6_counterexample_two_periods :
  exists matches,
    search_infractions (two_weeks week_A week_A)
      (SearchInfractionsInput.mk 1 "enero" None None None)
    = Payload matches
    /\ ~ NoDup (map (fun m => (Match.camera_id m, Match.date m)) matches).
Proof.
  eexists. split; [vm_compute; reflexivity|].
  simpl. intros H. inversion H as [|? ? Hnotin _]; subst.
  apply Hnotin. now left.
Qed.

(** ** Additive merge *)

Lemma opt_add_None_r (a : option Z) : opt_add a None = a.
Proof. now destruct a. Qed.

Lemma opt_add_assoc (a b c : option Z) :
  opt_add a (opt_add b c) = opt_add (opt_add a b) c.
Proof. destruct a, b, c; simpl; f_equal; lia. Qed.

Lemma opt_sum_app (l1 l2 : list (option Z)) :
  opt_sum (l1 ++ l2) = opt_add (opt_sum l1) (opt_sum l2).
Proof.
  induction l1 as [|a l1 IH]; simpl; [reflexivity|].
  now rewrite IH, opt_add_assoc.
Qed.

Lemma keyed_sum_app {V : Type} (g : V -> option Z) (key : string)
    (d1 d2 : dict V) :
  keyed_sum g key (d1 ++ d2) = opt_add (keyed_sum g key d1) (keyed_sum g key d2).
Proof. unfold keyed_sum. now rewrite map_app, opt_sum_app. Qed.

Lemma keyed_sum_absent {V : Type} (g : V -> option Z) (key : string)
    (d : dict V) :
  ~ In key (keys d) -> keyed_sum g key d = None.
Proof.
  unfold keyed_sum. induction d as [|[k v] d IH]; simpl; [reflexivity|].
  intros Hn. destruct (String.eqb key k) eqn:E.
  - apply String.eqb_eq in E. subst. exfalso. apply Hn. now left.
  - rewrite IH; [reflexivity | tauto].
Qed.

(** In a dictionary the sum filed under a key is the one entry stored
    under it. *)
Lemma keyed_sum_wf {V : Type} (g : V -> option Z) (key : string) (d : dict V) :
  dict_wf d ->
  keyed_sum g key d
  = match dict_get key d with Some v => g v | None => None end.
Proof.
  unfold dict_wf. induction d as [|[k v] d IH]; simpl; [reflexivity|].
  intros Hnd. inversion Hnd as [|? ? Hnotin Hnd']; subst.
  unfold keyed_sum. simpl. fold (keyed_sum g key d).
  destruct (String.eqb key k) eqn:E.
  - apply String.eqb_eq in E. subst.
    rewrite (keyed_sum_absent g k d Hnotin). apply opt_add_None_r.
  - simpl. now apply IH.
Qed.

Lemma add_daily_get (acc : dict Z) (entry : string * Z) :
  exists acc',
    add_daily acc entry = Ok acc'
    /\ forall date,
         dict_get date acc'
         = opt_add (dict_get date acc)
             (if String.eqb date (fst entry) then Some (snd entry) else None).
Proof.
  destruct entry as [d c]. unfold add_daily, dict_mem, dict_getitem. simpl.
  destruct (dict_get d acc) as [v|] eqn:Hd.
  - rewrite Hd. simpl. eexists. split; [reflexivity|].
    intros date. rewrite dict_get_set.
    destruct (String.eqb date d) eqn:E.
    + apply String.eqb_eq in E. subst. now rewrite Hd.
    + now rewrite opt_add_None_r.
  - rewrite dict_get_set_same. simpl. eexists. split; [reflexivity|].
    intros date. rewrite !dict_get_set.
    destruct (String.eqb date d) eqn:E.
    + apply String.eqb_eq in E. subst. now rewrite Hd.
    + now rewrite opt_add_None_r.
Qed.

(** Merging a daily mapping into an accumulator never fails and adds, date
    by date, what the mapping holds. *)
Lemma merge_daily_get (entries acc : dict Z) :
  exists acc',
    foldM add_daily entries acc = Ok acc'
    /\ forall date,
         dict_get date acc'
         = opt_add (dict_get date acc) (keyed_sum Some date entries).
Proof.
  revert acc; induction entries as [|entry entries IH]; intros acc.
  - exists acc. split; [reflexivity|]. intros date.
    now rewrite opt_add_None_r.
  - destruct (add_daily_get acc entry) as [acc1 [H1 G1]].
    destruct (IH acc1) as [acc' [H2 G2]].
    exists acc'. split; [simpl; now rewrite H1|].
    intros date. rewrite G2, G1.
    change (entry :: entries) with ([entry] ++ entries).
    rewrite keyed_sum_app, opt_add_assoc. f_equal.
    unfold keyed_sum. simpl. now rewrite opt_add_None_r.
Qed.

Lemma selected_false (camera_filter : option string) (k : string) :
  truthy_str camera_filter
  && negb (String.eqb k (match camera_filter with Some c => c | None => "" end))
  = negb (selected camera_filter k).
Proof. unfold selected. now rewrite negb_involutive. Qed.

Lemma dict_mem_get {V : Type} (k : string) (d : dict V) :
  dict_mem k d = false -> dict_get k d = None.
Proof. unfold dict_mem. now destruct (dict_get k d). Qed.

Lemma dict_getitem_Ok {V : Type} (k : string) (d : dict V) (v : V) :
  dict_getitem k d = Ok v -> dict_get k d = Some v.
Proof.
  unfold dict_getitem. destruct (dict_get k d); intros H; now inversion H.
Qed.

(** One device observation adds its two daily mappings to the device's
    accumulator and touches no other device. *)
Lemma collect_camera_merged (camera_filter : option string) (week : Z)
    (st st' : dict AllData.t) (k : string) (cd : CameraData) :
  collect_camera camera_filter week st (k, cd) = Ok st' ->
  (selected camera_filter k = false -> st' = st)
  /\ (forall c, c <> k -> dict_get c st' = dict_get c st)
  /\ (selected camera_filter k = true ->
      forall cid date,
        merged AllData.daily_infractions st' cid date
        = opt_add (merged AllData.daily_infractions st cid date)
            (if String.eqb cid k
             then keyed_sum Some date (get_or_empty (infractions cd))
             else None)
        /\ merged AllData.daily_frames st' cid date
           = opt_add (merged AllData.daily_frames st cid date)
               (if String.eqb cid k
                then keyed_sum Some date (get_or_empty (frames cd))
                else None)).
Proof.
  unfold collect_camera. rewrite selected_false.
  destruct (selected camera_filter k); simpl negb; cbv iota; intros H.
  2:{ inversion H; subst. split; [reflexivity | split; [reflexivity | discriminate]]. }
  split; [discriminate|].
  inv_bind. simpl in Ha2, Ha3.
  destruct (merge_daily_get (get_or_empty (infractions cd))
              (AllData.daily_infractions a0)) as [di [Hdi Gdi]].
  destruct (merge_daily_get (get_or_empty (frames cd))
              (AllData.daily_frames a0)) as [df [Hdf Gdf]].
  rewrite Hdi in Ha2. rewrite Hdf in Ha3. inv_bind.
  apply dict_getitem_Ok in Ha0.
  assert (Hst : forall c, c <> k -> dict_get c a = dict_get c st).
  { intros c Hc. destruct (dict_mem k st); inv_bind; [reflexivity|].
    now apply dict_get_set_other. }
  assert (Hk : forall proj,
             (proj = AllData.daily_infractions \/ proj = AllData.daily_frames) ->
             forall d, dict_get d (proj a0) = merged proj st k d).
  { intros proj Hproj d. unfold merged.
    destruct (dict_mem k st) eqn:Hmem; inv_bind.
    - now rewrite Ha0.
    - rewrite dict_get_set_same in Ha0. inversion Ha0; subst.
      rewrite (dict_mem_get _ _ Hmem).
      destruct Hproj as [-> | ->]; reflexivity. }
  split.
  { intros c Hc. rewrite dict_get_set_other by exact Hc. now apply Hst. }
  intros _ cid date.
  unfold merged at 1 3. rewrite !dict_get_set.
  destruct (String.eqb cid k) eqn:E.
  - apply String.eqb_eq in E. subst cid. simpl.
    rewrite Gdi, Gdf, !Hk by auto. split; reflexivity.
  - apply String.eqb_neq in E. rewrite (Hst cid E).
    rewrite !opt_add_None_r. split; reflexivity.
Qed.

Lemma keyed_sum_snoc {V : Type} (g : V -> option Z) (key k : string) (v : V)
    (d : dict V) :
  keyed_sum g key (d ++ [(k, v)])
  = opt_add (keyed_sum g key d) (if String.eqb key k then g v else None).
Proof.
  rewrite keyed_sum_app. f_equal. unfold keyed_sum. simpl.
  apply opt_add_None_r.
Qed.

Lemma selected_neq (camera_filter : option string) (cid k : string) :
  selected camera_filter cid = true -> selected camera_filter k = false ->
  String.eqb cid k = false.
Proof.
  intros H1 H2. apply String.eqb_neq. intros ->. congruence.
Qed.

(** The devices of one record set, merged into the accumulator. *)
Lemma collect_data_merged (camera_filter : option string) (week : Z)
    (data : PeriodRecordSet) (st st' : dict AllData.t) :
  foldM (collect_camera camera_filter week) data st = Ok st' ->
  forall cid date,
    (selected camera_filter cid = false -> dict_get cid st' = dict_get cid st)
    /\ (selected camera_filter cid = true ->
        merged AllData.daily_infractions st' cid date
        = opt_add (merged AllData.daily_infractions st cid date)
            (keyed_sum (fun cd => keyed_sum Some date
                                    (get_or_empty (infractions cd))) cid data)
        /\ merged AllData.daily_frames st' cid date
           = opt_add (merged AllData.daily_frames st cid date)
               (keyed_sum (fun cd => keyed_sum Some date
                                       (get_or_empty (frames cd))) cid data)).
Proof.
  intros Hf.
  apply (foldM_invariant (collect_camera camera_filter week)
           (fun done s => forall cid date,
              (selected camera_filter cid = false ->
               dict_get cid s = dict_get cid st)
              /\ (selected camera_filter cid = true ->
                  merged AllData.daily_infractions s cid date
                  = opt_add (merged AllData.daily_infractions st cid date)
                      (keyed_sum (fun cd => keyed_sum Some date
                                    (get_or_empty (infractions cd))) cid done)
                  /\ merged AllData.daily_frames s cid date
                     = opt_add (merged AllData.daily_frames st cid date)
                         (keyed_sum (fun cd => keyed_sum Some date
                                       (get_or_empty (frames cd))) cid done)))
           data st st'); [| |exact Hf].
  - intros cid date. split; [reflexivity|]. intros _.
    unfold keyed_sum. simpl. now rewrite !opt_add_None_r.
  - intros done [k cd] s s' Hinv Hstep cid date.
    destruct (collect_camera_merged _ _ _ _ _ _ Hstep) as [Hskip [Hother Hsel]].
    destruct (Hinv cid date) as [Iu Is].
    rewrite !keyed_sum_snoc.
    destruct (selected camera_filter k) eqn:Sk.
    + split.
      * intros Su. rewrite <- (Iu Su). apply Hother.
        intros ->. congruence.
      * intros Ss. destruct (Is Ss) as [I1 I2].
        destruct (Hsel eq_refl cid date) as [G1 G2].
        rewrite G1, G2, I1, I2, <- !opt_add_assoc. split; reflexivity.
    + rewrite (Hskip eq_refl). split; [exact Iu|].
      intros Ss. rewrite (selected_neq _ _ _ Ss Sk), !opt_add_None_r.
      now apply Is.
Qed.

Lemma keyed_sum_daily (date : string) (entries : dict Z) :
  dict_wf entries -> keyed_sum Some date entries = dict_get date entries.
Proof.
  intros Hwf. rewrite (keyed_sum_wf Some date entries Hwf).
  now destruct (dict_get date entries).
Qed.

Lemma keyed_sum_period (proj : CameraData -> option (dict Z))
    (fetch : Resolver) (mn : Z) (name : string) (week : Z)
    (data : PeriodRecordSet) (cid date : string) :
  dict_wf data ->
  (forall c cd, In (c, cd) data -> dict_wf (get_or_empty (proj cd))) ->
  fetch mn name week = Some data ->
  keyed_sum (fun cd => keyed_sum Some date (get_or_empty (proj cd))) cid data
  = spec_period_count proj fetch mn name cid date week.
Proof.
  intros Hwf Hitems Hf. unfold spec_period_count. rewrite Hf.
  rewrite (keyed_sum_wf _ cid data Hwf).
  destruct (dict_get cid data) as [cd|] eqn:Hg; [|reflexivity].
  apply keyed_sum_daily. apply (Hitems cid). now apply dict_get_In.
Qed.

Lemma spec_period_count_falsy (proj : CameraData -> option (dict Z))
    (fetch : Resolver) (mn : Z) (name : string) (cid date : string) (week : Z) :
  truthy_data (fetch mn name week) = false ->
  spec_period_count proj fetch mn name cid date week = None.
Proof.
  unfold spec_period_count. destruct (fetch mn name week) as [[|x d]|];
    simpl; [reflexivity | discriminate | reflexivity].
Qed.

(** One period, merged into the accumulator. *)
Lemma collect_week_merged (fetch : Resolver)
    (params : AnalyzeCameraPerformanceInput.t) (st st' : dict AllData.t)
    (week : Z) :
  resolver_wf fetch ->
  collect_week fetch params st week = Ok st' ->
  forall cid date,
    let mn := AnalyzeCameraPerformanceInput.month_number params in
    let name := AnalyzeCameraPerformanceInput.month_name params in
    let flt := AnalyzeCameraPerformanceInput.camera_id params in
    (selected flt cid = false -> dict_get cid st' = dict_get cid st)
    /\ (selected flt cid = true ->
        merged AllData.daily_infractions st' cid date
        = opt_add (merged AllData.daily_infractions st cid date)
            (spec_period_count infractions fetch mn name cid date week)
        /\ merged AllData.daily_frames st' cid date
           = opt_add (merged AllData.daily_frames st cid date)
               (spec_period_count frames fetch mn name cid date week)).
Proof.
  intros Hwf Hstep cid date mn name flt. unfold collect_week in Hstep.
  fold mn name flt in Hstep.
  destruct (truthy_data (fetch mn name week)) eqn:Ht.
  - destruct (fetch mn name week) as [data|] eqn:Hf; [|discriminate].
    destruct (Hwf _ _ _ _ Hf) as [Hd Hitems].
    destruct (collect_data_merged _ _ _ _ _ Hstep cid date) as [Hu Hs].
    split; [exact Hu|]. intros Ss. destruct (Hs Ss) as [G1 G2].
    rewrite G1, G2.
    rewrite (keyed_sum_period infractions fetch mn name week data cid date Hd)
      by (exact Hf || (intros c cd' Hin; now apply (Hitems c cd'))).
    rewrite (keyed_sum_period frames fetch mn name week data cid date Hd)
      by (exact Hf || (intros c cd' Hin; now apply (Hitems c cd'))).
    split; reflexivity.
  - inversion Hstep; subst. split; [reflexivity|]. intros _.
    rewrite !spec_period_count_falsy by exact Ht.
    now rewrite !opt_add_None_r.
Qed.

(** C2 (confirmed): in a device's rollup, the merged daily infraction
    mapping (and likewise the merged daily frame mapping) holds, for every
    date, the sum of the counts that the periods hold for that device and
    date; a date that two periods both hold is mapped to the sum of the two
    counts, never to one of them. *)
Theorem C2_merge_is_additive (fetch : Resolver)
    (params : AnalyzeCameraPerformanceInput.t) (weeks : list Z)
    (all_data : dict AllData.t) (cid : string) (e : AllData.t)
    (date : string) :
  resolver_wf fetch ->
  collect_all_data fetch params weeks = Ok all_data ->
  dict_get cid all_data = Some e ->
  dict_get date (AllData.daily_infractions e)
  = opt_sum (map (spec_period_count infractions fetch
                    (AnalyzeCameraPerformanceInput.month_number params)
                    (AnalyzeCameraPerformanceInput.month_name params)
                    cid date) weeks)
  /\ dict_get date (AllData.daily_frames e)
     = opt_sum (map (spec_period_count frames fetch
                       (AnalyzeCameraPerformanceInput.month_number params)
                       (AnalyzeCameraPerformanceInput.month_name params)
                       cid date) weeks).
Proof.
  intros Hwf Hc He.
  set (mn := AnalyzeCameraPerformanceInput.month_number params).
  set (name := AnalyzeCameraPerformanceInput.month_name params).
  set (flt := AnalyzeCameraPerformanceInput.camera_id params).
  assert (Hinv : forall c d,
    (selected flt c = false -> dict_get c all_data = None)
    /\ (selected flt c = true ->
        merged AllData.daily_infractions all_data c d
        = opt_sum (map (spec_period_count infractions fetch mn name c d) weeks)
        /\ merged AllData.daily_frames all_data c d
           = opt_sum (map (spec_period_count frames fetch mn name c d) weeks))).
  { apply (foldM_invariant (collect_week fetch params)
             (fun done s => forall c d,
                (selected flt c = false -> dict_get c s = None)
                /\ (selected flt c = true ->
                    merged AllData.daily_infractions s c d
                    = opt_sum (map (spec_period_count infractions fetch mn
                                      name c d) done)
                    /\ merged AllData.daily_frames s c d
                       = opt_sum (map (spec_period_count frames fetch mn
                                         name c d) done)))
             weeks [] all_data); [| |exact Hc].
    - intros c d. split; [reflexivity | intros _; split; reflexivity].
    - intros done w s s' Hs Hstep c d.
      destruct (collect_week_merged fetch params s s' w Hwf Hstep c d)
        as [Hu Hsel].
      destruct (Hs c d) as [Iu Is]. split.
      + intros Su. rewrite (Hu Su). now apply Iu.
      + intros Ss. destruct (Hsel Ss) as [G1 G2]. destruct (Is Ss) as [I1 I2].
        rewrite G1, G2, I1, I2, !map_app, !opt_sum_app. simpl.
        now rewrite !opt_add_None_r. }
  destruct (Hinv cid date) as [Hu Hs].
  destruct (selected flt cid) eqn:Ss.
  - destruct (Hs eq_refl) as [G1 G2]. unfold merged in G1, G2.
    rewrite He in G1, G2. split; assumption.
  - rewrite (Hu eq_refl) in He. discriminate.
Qed.

(** ** The monthly rollup *)

Lemma sumZ_app (l1 l2 : list Z) : sumZ (l1 ++ l2) = sumZ l1 + sumZ l2.
Proof. induction l1 as [|x l1 IH]; simpl; [reflexivity | rewrite IH; lia]. Qed.

Lemma sumZ_values_dict_set (d : dict Z) (k : string) (v : Z) :
  sumZ (values (dict_set k v d))
  = sumZ (values d) - dict_get_default k 0 d + v.
Proof.
  unfold dict_get_default. induction d as [|[k' v'] d IH]; simpl; [lia|].
  destruct (String.eqb k k'); simpl; [lia | rewrite IH; lia].
Qed.

Lemma add_daily_sum (acc acc' : dict Z) (entry : string * Z) :
  add_daily acc entry = Ok acc' ->
  sumZ (values acc') = sumZ (values acc) + snd entry.
Proof.
  destruct entry as [d c]. unfold add_daily, dict_mem, dict_getitem. simpl.
  destruct (dict_get d acc) as [v|] eqn:Hd.
  - rewrite Hd. simpl. intros H. inversion H; subst.
    rewrite sumZ_values_dict_set. unfold dict_get_default. rewrite Hd. lia.
  - rewrite dict_get_set_same. simpl. intros H. inversion H; subst.
    rewrite !sumZ_values_dict_set. unfold dict_get_default.
    rewrite dict_get_set_same, Hd. lia.
Qed.

Lemma merge_daily_sum (entries acc acc' : dict Z) :
  foldM add_daily entries acc = Ok acc' ->
  sumZ (values acc') = sumZ (values acc) + sumZ (values entries).
Proof.
  revert acc; induction entries as [|entry entries IH]; intros acc H;
    simpl in H.
  - inversion H; subst. simpl. lia.
  - inv_bind. rewrite (IH _ H), (add_daily_sum _ _ _ Ha). simpl. lia.
Qed.

Lemma inf_view_set (k : string) (c : CameraTotals.t) (d : dict CameraTotals.t) :
  inf_view (dict_set k c d)
  = dict_set k (CameraTotals.total_infractions c) (inf_view d).
Proof.
  induction d as [|[k' c'] d IH]; simpl; [reflexivity|].
  destruct (String.eqb k k'); simpl; [reflexivity | now rewrite IH].
Qed.

Lemma inf_view_get (k : string) (d : dict CameraTotals.t) :
  dict_get k (inf_view d)
  = option_map CameraTotals.total_infractions (dict_get k d).
Proof.
  induction d as [|[k' c'] d IH]; simpl; [reflexivity|].
  destruct (String.eqb k k'); simpl; [reflexivity | exact IH].
Qed.

Lemma dict_set_same_value {V : Type} (k : string) (v : V) (d : dict V) :
  dict_get k d = Some v -> dict_set k v d = d.
Proof.
  induction d as [|[k' v'] d IH]; simpl; [discriminate|].
  destruct (String.eqb k k') eqn:E.
  - apply String.eqb_eq in E. subst. intros H. now inversion H.
  - intros H. now rewrite IH.
Qed.

(** The infractions loop of one device: only the daily totals and the
    week's running count change. *)
Lemma month_infractions_loop (entries : dict Z) (md md' : MonthData.t)
    (wi wf wi' wf' : Z) :
  foldM month_infraction entries (md, wi, wf) = Ok (md', wi', wf') ->
  MonthData.cameras md' = MonthData.cameras md
  /\ MonthData.total_infractions md' = MonthData.total_infractions md
  /\ wi' = wi + sumZ (values entries).
Proof.
  intros H.
  apply (foldM_invariant month_infraction
           (fun done st =>
              MonthData.cameras (fst (fst st)) = MonthData.cameras md
              /\ MonthData.total_infractions (fst (fst st))
                 = MonthData.total_infractions md
              /\ snd (fst st) = wi + sumZ (values done))
           entries (md, wi, wf) (md', wi', wf')); [| |exact H].
  - simpl. repeat split; lia.
  - intros done [date count] [[m i] f] [[m2 i2] f2] [I1 [I2 I3]] Hstep.
    simpl in *. unfold month_infraction, init_daily in Hstep.
    inv_bind. simpl.
    unfold values in *. rewrite map_app, sumZ_app. simpl.
    destruct (dict_mem date (MonthData.daily_totals m)); simpl;
      repeat split; auto; lia.
Qed.

(** The frames loop of one device leaves every total-infractions figure
    alone. *)
Lemma month_frames_loop (k : string) (entries : dict Z) (md md' : MonthData.t)
    (wi wf wi' wf' : Z) :
  foldM (month_frame k) entries (md, wi, wf) = Ok (md', wi', wf') ->
  inf_view (MonthData.cameras md') = inf_view (MonthData.cameras md)
  /\ MonthData.total_infractions md' = MonthData.total_infractions md
  /\ wi' = wi.
Proof.
  intros H.
  apply (foldM_invariant (month_frame k)
           (fun done st =>
              inf_view (MonthData.cameras (fst (fst st)))
              = inf_view (MonthData.cameras md)
              /\ MonthData.total_infractions (fst (fst st))
                 = MonthData.total_infractions md
              /\ snd (fst st) = wi)
           entries (md, wi, wf) (md', wi', wf')); [| |exact H].
  - simpl. auto.
  - intros done [date count] [[m i] f] [[m2 i2] f2] [I1 [I2 I3]] Hstep.
    simpl in *. unfold month_frame in Hstep. inv_bind. simpl in *.
    apply dict_getitem_Ok in Ha0.
    assert (Hc : MonthData.cameras (init_daily date m) = MonthData.cameras m)
      by (unfold init_daily; now destruct (dict_mem _ _)).
    assert (Ht : MonthData.total_infractions (init_daily date m)
                 = MonthData.total_infractions m)
      by (unfold init_daily; now destruct (dict_mem _ _)).
    rewrite Hc in *. rewrite Ht.
    rewrite inf_view_set. simpl.
    rewrite dict_set_same_value; [auto|].
    rewrite inf_view_get, Ha0. reflexivity.
Qed.

(** One device observation of the monthly loop: its stored total is added
    to the device's total, its daily infractions to the week's count. *)
Lemma month_camera_step (md md' : MonthData.t) (wi wf wi' wf' : Z)
    (k : string) (cd : CameraData) :
  month_camera (md, wi, wf) (k, cd) = Ok (md', wi', wf') ->
  total cd <> None
  /\ add_daily (inf_view (MonthData.cameras md)) (k, stored_total cd)
     = Ok (inf_view (MonthData.cameras md'))
  /\ MonthData.total_infractions md' = MonthData.total_infractions md
  /\ wi' = wi + daily_infraction_sum cd.
Proof.
  unfold month_camera. intros H. inv_bind.
  rename a into m1, a0 into c0, a1 into t, a2 into c1, a3 into st1.
  destruct st1 as [[m2 i2] f2].
  destruct (month_infractions_loop _ _ _ _ _ _ _ Ha3) as [C1 [T1 W1]].
  destruct (month_frames_loop _ _ _ _ _ _ _ _ H) as [C2 [T2 W2]].
  simpl in Ha2, C1, T1.
  apply dict_getitem_Ok in Ha0, Ha2.
  rewrite dict_get_set_same in Ha2. inversion Ha2; subst c1; clear Ha2.
  simpl in C1. rewrite C1, !inf_view_set in C2. simpl in C2.
  rewrite (dict_set_same_value k (CameraTotals.total_infractions c0 + t))
    in C2 by apply dict_get_set_same.
  assert (Htot : total cd = Some t) by (destruct (total cd); now inversion Ha1).
  split; [congruence|].
  unfold stored_total, daily_infraction_sum. rewrite Htot.
  assert (Hm1 : MonthData.total_infractions m1 = MonthData.total_infractions md
                /\ add_daily (inf_view (MonthData.cameras md)) (k, t)
                   = Ok (dict_set k (CameraTotals.total_infractions c0 + t)
                           (inf_view (MonthData.cameras m1)))).
  { unfold add_daily, dict_mem, dict_getitem in *. rewrite !inf_view_get.
    destruct (dict_get k (MonthData.cameras md)) as [c|] eqn:Hk; simpl.
    - inv_bind. rewrite Hk in Ha0. inversion Ha0; subst.
      rewrite inf_view_get, Hk. simpl. auto.
    - inv_bind. simpl in *. rewrite dict_get_set_same in Ha0.
      inversion Ha0; subst. simpl. rewrite inf_view_set. simpl.
      rewrite dict_get_set_same. simpl. auto. }
  destruct Hm1 as [Hm1 Hadd].
  split; [now rewrite C2 | split; [congruence | lia]].
Qed.

(** The devices of one record set in the monthly loop. *)
Lemma month_data_loop (data : PeriodRecordSet) (md md' : MonthData.t)
    (wi wf wi' wf' : Z) :
  foldM month_camera data (md, wi, wf) = Ok (md', wi', wf') ->
  Forall (fun item => total (snd item) <> None) data
  /\ foldM add_daily (stored_entries data) (inf_view (MonthData.cameras md))
     = Ok (inf_view (MonthData.cameras md'))
  /\ MonthData.total_infractions md' = MonthData.total_infractions md
  /\ wi' = wi + sumZ (map (fun item => daily_infraction_sum (snd item)) data).
Proof.
  revert md wi wf; induction data as [|[k cd] data IH]; intros md wi wf H;
    cbn [foldM] in H.
  - inversion H; subst. simpl. repeat split; [constructor | lia].
  - apply bind_Ok in H. destruct H as [[[m1 i1] f1] [Ha H]].
    destruct (month_camera_step _ _ _ _ _ _ _ _ Ha) as [Ht [Hadd [Htot Hwi]]].
    destruct (IH _ _ _ H) as [Hall [Hfold [Htot' Hwi']]].
    split; [constructor; assumption|]. split; [|split].
    + unfold stored_entries in *. cbn [map foldM fst snd].
      rewrite Hadd. cbn [bind]. exact Hfold.
    + congruence.
    + simpl. lia.
Qed.

Lemma week_records_falsy (fetch : Resolver) (mn : Z) (name : string) (w : Z) :
  truthy_data (fetch mn name w) = false -> week_records fetch mn name w = [].
Proof.
  unfold week_records. destruct (fetch mn name w) as [[|x d]|]; simpl;
    [reflexivity | discriminate | reflexivity].
Qed.

(** One period of the monthly loop. *)
Lemma month_week_step (fetch : Resolver) (params : GetMonthlyReportInput.t)
    (md md' : MonthData.t) (week : Z) :
  let records := week_records fetch (GetMonthlyReportInput.month_number params)
                   (GetMonthlyReportInput.month_name params) week in
  month_week fetch params md week = Ok md' ->
  Forall (fun item => total (snd item) <> None) records
  /\ foldM add_daily (stored_entries records) (inf_view (MonthData.cameras md))
     = Ok (inf_view (MonthData.cameras md'))
  /\ MonthData.total_infractions md'
     = MonthData.total_infractions md
       + sumZ (map (fun item => daily_infraction_sum (snd item)) records).
Proof.
  intros records H. unfold month_week in H.
  destruct (truthy_data (fetch _ _ week)) eqn:Ht; cbn [negb] in H.
  - apply bind_Ok in H. destruct H as [[[m1 i1] f1] [Ha H]].
    inversion H; subst; clear H. simpl.
    change (foldM month_camera records (md, 0, 0) = Ok (m1, i1, f1)) in Ha.
    destruct (month_data_loop _ _ _ _ _ _ _ Ha) as [Hall [Hfold [Htot Hwi]]].
    split; [exact Hall|]. split; [exact Hfold|]. lia.
  - inversion H; subst. unfold records.
    rewrite (week_records_falsy _ _ _ _ Ht). simpl.
    split; [constructor|]. split; [reflexivity | lia].
Qed.

(** The whole monthly loop: the overall total is the sum of the daily
    entries; the per-device totals are the stored totals, merged. *)
Lemma aggregate_month_totals (fetch : Resolver)
    (params : GetMonthlyReportInput.t) (weeks : list Z) (md : MonthData.t) :
  let mn := GetMonthlyReportInput.month_number params in
  let name := GetMonthlyReportInput.month_name params in
  aggregate_month fetch params weeks = Ok md ->
  Forall (fun w => Forall (fun item => total (snd item) <> None)
                     (week_records fetch mn name w)) weeks
  /\ foldM add_daily
       (flat_map (fun w => stored_entries (week_records fetch mn name w)) weeks)
       []
     = Ok (inf_view (MonthData.cameras md))
  /\ MonthData.total_infractions md = spec_daily_total fetch mn name weeks.
Proof.
  intros mn name H.
  apply (foldM_invariant (month_week fetch params)
           (fun done m =>
              Forall (fun w => Forall (fun item => total (snd item) <> None)
                                 (week_records fetch mn name w)) done
              /\ foldM add_daily
                   (flat_map (fun w => stored_entries
                                         (week_records fetch mn name w)) done)
                   []
                 = Ok (inf_view (MonthData.cameras m))
              /\ MonthData.total_infractions m
                 = spec_daily_total fetch mn name done)
           weeks (MonthData.mk 0 0 [] [] []) md); [| |exact H].
  - split; [constructor|]. split; reflexivity.
  - intros done w m m' [I1 [I2 I3]] Hstep.
    destruct (month_week_step fetch params m m' w Hstep) as [Hall [Hfold Htot]].
    fold mn name in Hall, Hfold, Htot.
    split; [apply Forall_app; split; [exact I1 | now constructor]|].
    split.
    + rewrite flat_map_app, foldM_app, I2. simpl. now rewrite app_nil_r.
    + rewrite Htot, I3. unfold spec_daily_total.
      rewrite map_app, sumZ_app. simpl. lia.
Qed.

Lemma keyed_sum_flat_map {A V : Type} (g : V -> option Z) (key : string)
    (G : A -> dict V) (l : list A) :
  keyed_sum g key (flat_map G l)
  = opt_sum (map (fun x => keyed_sum g key (G x)) l).
Proof.
  induction l as [|x l IH]; simpl; [reflexivity|].
  now rewrite keyed_sum_app, IH.
Qed.

Lemma sumZ_values_flat_map {A : Type} (G : A -> dict Z) (l : list A) :
  sumZ (values (flat_map G l)) = sumZ (map (fun x => sumZ (values (G x))) l).
Proof.
  unfold values. induction l as [|x l IH]; simpl; [reflexivity|].
  now rewrite map_app, sumZ_app, IH.
Qed.

Lemma values_stored_entries (data : PeriodRecordSet) :
  values (stored_entries data) = map (fun item => stored_total (snd item)) data.
Proof. unfold values, stored_entries. now rewrite map_map. Qed.

Lemma keys_stored_entries (data : PeriodRecordSet) :
  keys (stored_entries data) = keys data.
Proof. unfold keys, stored_entries. now rewrite map_map. Qed.

Lemma stored_entries_get (cid : string) (data : PeriodRecordSet) :
  dict_get cid (stored_entries data)
  = option_map stored_total (dict_get cid data).
Proof.
  induction data as [|[k cd] data IH]; simpl; [reflexivity|].
  destruct (String.eqb cid k); [reflexivity | exact IH].
Qed.

Lemma stored_period_total (fetch : Resolver) (mn : Z) (name : string)
    (cid : string) (week : Z) :
  resolver_wf fetch ->
  Forall (fun item => total (snd item) <> None)
         (week_records fetch mn name week) ->
  keyed_sum Some cid (stored_entries (week_records fetch mn name week))
  = spec_period_total fetch mn name cid week.
Proof.
  intros Hwf Hall. unfold week_records, spec_period_total in *.
  destruct (fetch mn name week) as [data|] eqn:Hf; [|reflexivity].
  destruct (Hwf _ _ _ _ Hf) as [Hd _].
  rewrite keyed_sum_wf
    by (unfold dict_wf; now rewrite keys_stored_entries).
  rewrite stored_entries_get.
  destruct (dict_get cid data) as [cd|] eqn:Hg; [|reflexivity].
  simpl. apply dict_get_In in Hg. rewrite Forall_forall in Hall.
  specialize (Hall _ Hg). simpl in Hall. unfold stored_total.
  destruct (total cd); [reflexivity | congruence].
Qed.

Lemma stored_total_consistent (fetch : Resolver) (mn : Z) (name : string)
    (weeks : list Z) :
  totals_consistent fetch mn name weeks ->
  spec_stored_total fetch mn name weeks = spec_daily_total fetch mn name weeks.
Proof.
  intros Hc. unfold spec_stored_total, spec_daily_total. f_equal.
  apply map_ext_in. intros w Hw. f_equal.
  apply map_ext_in. intros [cid cd] Hin. simpl.
  unfold week_records in Hin.
  destruct (fetch mn name w) as [data|] eqn:Hf; [|destruct Hin].
  unfold stored_total. now rewrite (Hc w data cid cd Hw Hf Hin).
Qed.

(** C10 (amended): in the monthly rollup the overall total-infractions
    figure is the sum of all daily infraction entries of every device and
    found period, while each device's total is the sum of that device's
    stored per-period total-count fields.  The sum of the per-device
    totals is therefore the sum of all stored total-counts: it equals the
    overall figure exactly when the stored total-counts and the daily
    entries have the same sum, which is the case whenever every stored
    total-count matches the sum of its own daily mapping (a sufficient
    condition, not a necessary one).  On the sample record set whose device
    B stores 7 against a daily sum of 3 the two figures differ (13 and
    17). *)
Theorem C10_overall_vs_per_device_totals :
  (forall (fetch : Resolver) (params : GetMonthlyReportInput.t)
          (weeks : list Z) (md : MonthData.t),
      let mn := GetMonthlyReportInput.month_number params in
      let name := GetMonthlyReportInput.month_name params in
      resolver_wf fetch ->
      aggregate_month fetch params weeks = Ok md ->
      MonthData.total_infractions md = spec_daily_total fetch mn name weeks
      /\ (forall cid c,
            dict_get cid (MonthData.cameras md) = Some c ->
            Some (CameraTotals.total_infractions c)
            = opt_sum (map (spec_period_total fetch mn name cid) weeks))
      /\ per_device_totals (MonthData.cameras md)
         = spec_stored_total fetch mn name weeks
      /\ (MonthData.total_infractions md
          = per_device_totals (MonthData.cameras md)
          <-> spec_daily_total fetch mn name weeks
              = spec_stored_total fetch mn name weeks)
      /\ (totals_consistent fetch mn name weeks ->
          MonthData.total_infractions md
          = per_device_totals (MonthData.cameras md)))
  /\ (exists md,
        aggregate_month (one_week week_AB) params_enero [1] = Ok md
        /\ total cam_B <> Some (daily_infraction_sum cam_B)
        /\ MonthData.total_infractions md = 13
        /\ per_device_totals (MonthData.cameras md) = 17).
Proof.
  split.
  - intros fetch params weeks md mn name Hwf H.
    destruct (aggregate_month_totals fetch params weeks md H)
      as [Hall [Hfold Htot]].
    fold mn name in Hall, Hfold, Htot.
    assert (Hstored : per_device_totals (MonthData.cameras md)
                      = spec_stored_total fetch mn name weeks).
    { unfold per_device_totals. rewrite (merge_daily_sum _ _ _ Hfold).
      rewrite sumZ_values_flat_map. unfold spec_stored_total. simpl.
      f_equal. apply map_ext. intros w. now rewrite values_stored_entries. }
    split; [exact Htot|]. split; [|split; [exact Hstored|split]].
    + intros cid c Hc.
      destruct (merge_daily_get
                  (flat_map (fun w => stored_entries
                                        (week_records fetch mn name w)) weeks)
                  []) as [view [Hv Gv]].
      rewrite Hv in Hfold. inversion Hfold as [Hview]; clear Hfold.
      specialize (Gv cid). rewrite Hview, inf_view_get, Hc in Gv.
      simpl in Gv. rewrite Gv, keyed_sum_flat_map. f_equal.
      apply map_ext_in. intros w Hw. rewrite Forall_forall in Hall.
      apply stored_period_total; [exact Hwf | now apply Hall].
    + rewrite Htot, Hstored. reflexivity.
    + intros Hc. rewrite Htot, Hstored. symmetry.
      now apply stored_total_consistent.
  - eexists. split; [vm_compute; reflexivity|].
    split; [vm_compute; discriminate|]. split; reflexivity.
Qed.

(** C10, the claim as worded fails: the two figures can be equal although
    no stored total-count matches its daily mapping.  Devices P and Q store
    5 and 3 against daily sums of 4 and 4: the overall figure and the sum
    of the per-device totals are both 8. *)
Lemma C10_counterexample_offsetting_totals :
  exists md,
    aggregate_month (one_week week_offsetting) params_enero [1] = Ok md
    /\ total cam_over <> Some (daily_infraction_sum cam_over)
    /\ total cam_under <> Some (daily_infraction_sum cam_under)
    /\ ~ totals_consistent (one_week week_offsetting) 1 "enero" [1]
    /\ MonthData.total_infractions md = 8
    /\ per_device_totals (MonthData.cameras md) = 8.
Proof.
  eexists. split; [vm_compute; reflexivity|].
  split; [vm_compute; discriminate|]. split; [vm_compute; discriminate|].
  split; [|split; reflexivity].
  intros Hc.
  specialize (Hc 1 week_offsetting "P"%string cam_over (or_introl eq_refl)
                eq_refl (or_introl eq_refl)).
  vm_compute in Hc. discriminate.
Qed.

(** ** Malformed records *)

Lemma foldM_Err_step {A S : Type} (body : S -> A -> result S) (l1 l2 : list A)
    (x : A) (s : S) :
  (forall st, exists e, body st x = Err e) ->
  exists e, foldM body (l1 ++ x :: l2) s = Err e.
Proof.
  intros Hx. rewrite foldM_app.
  destruct (foldM body l1 s) as [st|e]; simpl; [|now exists e].
  destruct (Hx st) as [e ->]. simpl. now exists e.
Qed.

(** A selected observation without a total-count raises. *)
Lemma collect_camera_no_total (camera_filter : option string) (week : Z)
    (st : dict AllData.t) (k : string) (cd : CameraData) :
  selected camera_filter k = true -> total cd = None ->
  exists e, collect_camera camera_filter week st (k, cd) = Err e.
Proof.
  intros Hs Ht. unfold collect_camera. rewrite selected_false, Hs. simpl negb.
  cbv iota. unfold dict_mem, dict_getitem.
  destruct (dict_get k st) as [e0|] eqn:Hk; simpl.
  - rewrite Hk. simpl. rewrite Ht. simpl. eexists. reflexivity.
  - destruct (camera cd) as [nm|]; simpl; [|eexists; reflexivity].
    rewrite dict_get_set_same. simpl. rewrite Ht. simpl. eexists. reflexivity.
Qed.

(** A selected observation without a display name raises when the device
    has no accumulator yet. *)
Lemma collect_camera_no_name (camera_filter : option string) (week : Z)
    (st : dict AllData.t) (k : string) (cd : CameraData) :
  selected camera_filter k = true -> camera cd = None ->
  dict_get k st = None ->
  exists e, collect_camera camera_filter week st (k, cd) = Err e.
Proof.
  intros Hs Hn Hk. unfold collect_camera. rewrite selected_false, Hs.
  simpl negb. cbv iota. unfold dict_mem. rewrite Hk, Hn. simpl.
  eexists. reflexivity.
Qed.

Lemma collect_data_no_total (camera_filter : option string) (week : Z)
    (data : PeriodRecordSet) (st : dict AllData.t) (cid : string)
    (cd : CameraData) :
  In (cid, cd) data -> selected camera_filter cid = true -> total cd = None ->
  exists e, foldM (collect_camera camera_filter week) data st = Err e.
Proof.
  intros Hin Hs Ht. apply in_split in Hin. destruct Hin as [l1 [l2 ->]].
  apply foldM_Err_step. intros st0. now apply collect_camera_no_total.
Qed.

(** While a device that is nameless everywhere has no accumulator, a record
    set either raises or does not hold the device. *)
Lemma collect_data_no_name (camera_filter : option string) (week : Z)
    (cid : string) (data : PeriodRecordSet) (st : dict AllData.t) :
  selected camera_filter cid = true ->
  (forall cd, In (cid, cd) data -> camera cd = None) ->
  dict_get cid st = None ->
  (exists e, foldM (collect_camera camera_filter week) data st = Err e)
  \/ (exists st', foldM (collect_camera camera_filter week) data st = Ok st'
                  /\ dict_get cid st' = None /\ ~ In cid (keys data)).
Proof.
  intros Hs. revert st. induction data as [|[k cd] data IH]; intros st Hn Hst.
  - right. exists st. simpl. auto.
  - cbn [foldM].
    destruct (String.eqb cid k) eqn:E.
    + apply String.eqb_eq in E. subst k. left.
      destruct (collect_camera_no_name camera_filter week st cid cd Hs
                  (Hn cd (or_introl eq_refl)) Hst) as [e ->].
      simpl. now exists e.
    + apply String.eqb_neq in E.
      destruct (collect_camera camera_filter week st (k, cd)) as [st1|e] eqn:Hc;
        simpl; [|left; now exists e].
      destruct (collect_camera_merged _ _ _ _ _ _ Hc) as [_ [Hother _]].
      destruct (IH st1 (fun cd' H => Hn cd' (or_intror H))) as [Herr|Hok].
      * rewrite (Hother cid E). exact Hst.
      * left. exact Herr.
      * right. destruct Hok as [st' [Hf [Hg Hnotin]]].
        exists st'. split; [exact Hf|]. split; [exact Hg|].
        simpl. intros [Heq|Hin]; [now apply E | now apply Hnotin].
Qed.

Lemma truthy_data_In (data : PeriodRecordSet) (x : string * CameraData) :
  In x data -> truthy_data (Some data) = true.
Proof. destruct data; [intros [] | reflexivity]. Qed.

Lemma collect_weeks_no_total (fetch : Resolver)
    (params : AnalyzeCameraPerformanceInput.t) (weeks : list Z)
    (st : dict AllData.t) (week : Z) (data : PeriodRecordSet) (cid : string)
    (cd : CameraData) :
  In week weeks ->
  fetch (AnalyzeCameraPerformanceInput.month_number params)
        (AnalyzeCameraPerformanceInput.month_name params) week = Some data ->
  In (cid, cd) data ->
  selected (AnalyzeCameraPerformanceInput.camera_id params) cid = true ->
  total cd = None ->
  exists e, foldM (collect_week fetch params) weeks st = Err e.
Proof.
  intros Hw Hf Hin Hs Ht. apply in_split in Hw. destruct Hw as [l1 [l2 ->]].
  apply foldM_Err_step. intros st0. unfold collect_week.
  rewrite Hf, (truthy_data_In data _ Hin).
  now apply (collect_data_no_total _ _ _ _ cid cd).
Qed.

Lemma collect_weeks_no_name (fetch : Resolver)
    (params : AnalyzeCameraPerformanceInput.t) (cid : string)
    (weeks : list Z) (st : dict AllData.t) :
  let mn := AnalyzeCameraPerformanceInput.month_number params in
  let name := AnalyzeCameraPerformanceInput.month_name params in
  selected (AnalyzeCameraPerformanceInput.camera_id params) cid = true ->
  (forall w d cd, In w weeks -> fetch mn name w = Some d -> In (cid, cd) d ->
                  camera cd = None) ->
  dict_get cid st = None ->
  (exists e, foldM (collect_week fetch params) weeks st = Err e)
  \/ (exists st', foldM (collect_week fetch params) weeks st = Ok st'
                  /\ dict_get cid st' = None
                  /\ forall w d, In w weeks -> fetch mn name w = Some d ->
                                 ~ In cid (keys d)).
Proof.
  intros mn name Hs. revert st.
  induction weeks as [|w weeks IH]; intros st Hn Hst.
  - right. exists st. simpl. split; [reflexivity|]. split; [exact Hst|].
    intros w d [].
  - cbn [foldM].
    destruct (collect_week fetch params st w) as [st1|e] eqn:Hcw; cbn [bind];
      [|left; now exists e].
    assert (H1 : dict_get cid st1 = None
                 /\ forall d, fetch mn name w = Some d -> ~ In cid (keys d)).
    { unfold collect_week in Hcw. fold mn name in Hcw.
      destruct (fetch mn name w) as [d|] eqn:Hf.
      - destruct (truthy_data (Some d)) eqn:Ht.
        + destruct (collect_data_no_name
                      (AnalyzeCameraPerformanceInput.camera_id params) w cid d
                      st Hs (fun cd H => Hn w d cd (or_introl eq_refl) Hf H) Hst)
            as [[e He]|[st2 [Hf2 [Hg2 Hnot2]]]]; [congruence|].
          assert (st2 = st1) as -> by congruence.
          split; [exact Hg2|]. intros d' Hd'. now inversion Hd'; subst.
        + inversion Hcw; subst. split; [exact Hst|].
          intros d' Hd'. inversion Hd'; subst.
          destruct d'; [intros [] | discriminate].
      - inversion Hcw; subst. split; [exact Hst | discriminate]. }
    destruct H1 as [Hg1 Hnot1].
    destruct (IH st1 (fun w' d' cd' H => Hn w' d' cd' (or_intror H)) Hg1)
      as [Herr|[st' [Hf' [Hg' Hnot']]]]; [left; exact Herr|].
    right. exists st'. split; [exact Hf'|]. split; [exact Hg'|].
    intros w' d' [<-|Hin] Hf''; [now apply Hnot1 | now apply (Hnot' w' d')].
Qed.

(** C7 (amended): when an analysed period holds a selected device
    observation without its total-count field, or a selected device has a
    display name in none of the analysed periods, the whole analysis request
    ends in an error message: no value is substituted for the missing
    field, and no contribution of any other device is returned. *)
Theorem C7_malformed_record_fails_request (fetch : Resolver)
    (params : AnalyzeCameraPerformanceInput.t) (week : Z)
    (data : PeriodRecordSet) (cid : string) (cd : CameraData) :
  let mn := AnalyzeCameraPerformanceInput.month_number params in
  let name := AnalyzeCameraPerformanceInput.month_name params in
  In week (weeks_to_analyze fetch params) ->
  fetch mn name week = Some data ->
  In (cid, cd) data ->
  selected (AnalyzeCameraPerformanceInput.camera_id params) cid = true ->
  (total cd = None
   \/ forall w d cd', In w (weeks_to_analyze fetch params) ->
                      fetch mn name w = Some d -> In (cid, cd') d ->
                      camera cd' = None) ->
  exists e, analyze_camera_performance fetch params = ErrorMessage e.
Proof.
  intros mn name Hw Hf Hin Hs Hbad.
  assert (Herr : exists e,
             collect_all_data fetch params (weeks_to_analyze fetch params)
             = Err e).
  { destruct Hbad as [Ht|Hn].
    - now apply (collect_weeks_no_total fetch params _ [] week data cid cd).
    - destruct (collect_weeks_no_name fetch params cid
                  (weeks_to_analyze fetch params) [] Hs Hn eq_refl)
        as [Herr|[st' [_ [_ Hnot]]]]; [exact Herr|].
      exfalso. apply (Hnot week data Hw Hf).
      change cid with (fst (cid, cd)). now apply in_map. }
  destruct Herr as [e He]. exists e.
  unfold analyze_camera_performance.
  destruct (weeks_to_analyze fetch params) as [|w ws] eqn:Hweeks;
    [destruct Hw|].
  rewrite He. reflexivity.
Qed.

(** C7, the claim as worded fails: device A is complete and comes first,
    device B of the same period has no display name, and the analysis
    returns the error message of the [KeyError] instead of A's figures. *)
Lemma C7_counterexample_request_aborts :
  analyze_camera_performance
    (one_week [("A"%string, cam_A); ("B"%string, cam_nameless)])
    (AnalyzeCameraPerformanceInput.mk 1 "enero" None None)
  = ErrorMessage (KeyError "camera")
  /\ forall analysis,
       analyze_camera_performance
         (one_week [("A"%string, cam_A); ("B"%string, cam_nameless)])
         (AnalyzeCameraPerformanceInput.mk 1 "enero" None None)
       <> Payload analysis.
Proof.
  assert (H : analyze_camera_performance
                (one_week [("A"%string, cam_A); ("B"%string, cam_nameless)])
                (AnalyzeCameraPerformanceInput.mk 1 "enero" None None)
              = ErrorMessage (KeyError "camera")) by (vm_compute; reflexivity).
  split; [exact H|]. intros analysis. rewrite H. discriminate.
Qed.

(** ** The theorems on the sample record sets *)

Lemma one_week_wf (data : PeriodRecordSet) :
  record_set_wf data -> resolver_wf (one_week data).
Proof.
  intros Hd mn name week d. unfold one_week.
  destruct (week =? 1); intros H; inversion H; subst. exact Hd.
Qed.

Lemma two_weeks_wf (d1 d3 : PeriodRecordSet) :
  record_set_wf d1 -> record_set_wf d3 -> resolver_wf (two_weeks d1 d3).
Proof.
  intros H1 H3 mn name week d. unfold two_weeks.
  destruct (week =? 1); [intros H; inversion H; subst; exact H1|].
  destruct (week =? 3); intros H; inversion H; subst. exact H3.
Qed.

Ltac solve_NoDup :=
  repeat constructor; simpl;
  repeat match goal with
         | |- ~ _ => intros ?
         | H : _ \/ _ |- _ => destruct H
         | H : False |- _ => destruct H
         | H : _ = _ |- _ => discriminate H
         end.

Ltac solve_record_set_wf :=
  split;
  [ unfold dict_wf; solve_NoDup
  | intros ? ? Hin; simpl in Hin;
    repeat match goal with
           | H : _ \/ _ |- _ => destruct H
           | H : False |- _ => destruct H
           | H : (_, _) = (_, _) |- _ => inversion H; subst; clear H
           end;
    (split; unfold dict_wf; solve_NoDup) ].

Lemma week_A_wf : record_set_wf week_A.
Proof. solve_record_set_wf. Qed.

Lemma week_AB_wf : record_set_wf week_AB.
Proof. solve_record_set_wf. Qed.

Lemma week_D3_wf : record_set_wf [("D"%string, cam_D3)].
Proof. solve_record_set_wf. Qed.

Lemma week_D5_wf : record_set_wf [("D"%string, cam_D5)].
Proof. solve_record_set_wf. Qed.

(** The additive-merge scenario of the specification: {2024-01-01: 3} and
    {2024-01-01: 5} merge to {2024-01-01: 8}. *)
Lemma C2_witness :
  dict_get "2024-01-01"
    (AllData.daily_infractions
       (AllData.mk "Cam D" [1; 3] [3; 5] []
          [("2024-01-01", 8)]%string [("2024-01-01", 80)]%string))
  = Some 8
  /\ dict_get "2024-01-01"
       (AllData.daily_frames
          (AllData.mk "Cam D" [1; 3] [3; 5] []
             [("2024-01-01", 8)]%string [("2024-01-01", 80)]%string))
     = Some 80.
Proof.
  apply (C2_merge_is_additive
           (two_weeks [("D"%string, cam_D3)] [("D"%string, cam_D5)])
           (AnalyzeCameraPerformanceInput.mk 1 "enero" None None)
           [1; 2; 3]
           [("D"%string,
             AllData.mk "Cam D" [1; 3] [3; 5] []
               [("2024-01-01", 8)]%string [("2024-01-01", 80)]%string)]
           "D" _ "2024-01-01").
  - apply two_weeks_wf; [apply week_D3_wf | apply week_D5_wf].
  - vm_compute. reflexivity.
  - reflexivity.
Defined.

Lemma C3_witness :
  exists matches,
    search_infractions (one_week week_A)
      (SearchInfractionsInput.mk 1 "enero" None (Some 5) None)
    = Payload matches
    /\ Permutation matches
         (map spec_match
            (filter
               (spec_criteria
                  (SearchInfractionsInput.mk 1 "enero" None (Some 5) None))
               (spec_tuples (one_week week_A)
                  (SearchInfractionsInput.mk 1 "enero" None (Some 5) None)
                  (get_available_weeks (one_week week_A) 1 "enero"))))
    /\ StronglySorted spec_order matches.
Proof.
  apply (C3_search_exact_and_sorted (one_week week_A)
           (SearchInfractionsInput.mk 1 "enero" None (Some 5) None)).
  - vm_compute. discriminate.
  - intros t Hin _. vm_compute in Hin.
    destruct Hin as [<-|[<-|[]]]; simpl; discriminate.
Defined.


Lemma C5_witness :
  exists s,
    calculate_statistics [10; 20; 25] = Ok s
    /\ st_total s = sumZ [10; 20; 25]
    /\ In (st_min s) [10; 20; 25]
    /\ Forall (fun x => st_min s <= x) [10; 20; 25]
    /\ In (st_max s) [10; 20; 25]
    /\ Forall (fun x => x <= st_max s) [10; 20; 25]
    /\ mean_field [10; 20; 25] (st_mean s)
    /\ (forall sorted,
          Permutation sorted [10; 20; 25] -> StronglySorted Z.le sorted ->
          median_field sorted (st_median s))
    /\ (Forall count_in_range [10; 20; 25] ->
          num_near (st_mean s) (spec_mean [10; 20; 25])
            ((1 # 200) + (spec_mean [10; 20; 25] + 1) * (1 # 1125899906842624))
          /\ forall sorted,
               Permutation sorted [10; 20; 25] -> StronglySorted Z.le sorted ->
               num_near (st_median s) (spec_median sorted)
                 ((1 # 200)
                  + (spec_median sorted + 1) * (1 # 1125899906842624)))
    /\ (Forall int53 [10; 20; 25] ->
          num_le (PyInt (st_min s)) (st_mean s)
          /\ num_le (st_mean s) (PyInt (st_max s))
          /\ num_le (PyInt (st_min s)) (st_median s)
          /\ num_le (st_median s) (PyInt (st_max s))).
Proof.
  destruct (proj1 (proj2 C5_statistics_calculator) [10; 20; 25]) as [s Hs];
    [discriminate | repeat constructor; vm_compute; discriminate |].
  exists s. split; [exact Hs|].
  apply (proj2 (proj2 C5_statistics_calculator) [10; 20; 25] s);
    [discriminate | exact Hs].
Defined.

Lemma C6_witness :
  exists matches,
    search_infractions (one_week week_AB)
      (SearchInfractionsInput.mk 1 "enero" None None None)
    = Payload matches
    /\ NoDup (map match_key matches)
    /\ forall week cid date,
         In (week, cid, date) (map match_key matches)
         <-> spec_present (one_week week_AB) 1 "enero" week cid date.
Proof.
  apply (C6_search_all_once (one_week week_AB) 1 "enero").
  - apply one_week_wf, week_AB_wf.
  - vm_compute. discriminate.
  - intros t Hin. vm_compute in Hin.
    destruct Hin as [<-|[<-|[<-|[<-|[]]]]]; simpl; discriminate.
Defined.

Lemma C7_witness :
  exists e,
    analyze_camera_performance
      (one_week [("A"%string, cam_A); ("B"%string, cam_nameless)])
      (AnalyzeCameraPerformanceInput.mk 1 "enero" None None)
    = ErrorMessage e.
Proof.
  apply (C7_malformed_record_fails_request
           (one_week [("A"%string, cam_A); ("B"%string, cam_nameless)])
           (AnalyzeCameraPerformanceInput.mk 1 "enero" None None)
           1 [("A"%string, cam_A); ("B"%string, cam_nameless)]
           "B" cam_nameless).
  - vm_compute. tauto.
  - reflexivity.
  - simpl. tauto.
  - reflexivity.
  - right. intros w d cd' Hw Hf Hin. vm_compute in Hw.
    destruct Hw as [<-|[]]. vm_compute in Hf. inversion Hf; subst; clear Hf.
    destruct Hin as [H|[H|[]]]; inversion H; subst. reflexivity.
Defined.

Lemma C10_witness :
  exists md,
    aggregate_month (one_week week_A) params_enero [1; 2] = Ok md
    /\ MonthData.total_infractions md = 10
    /\ per_device_totals (MonthData.cameras md) = 10.
Proof.
  eexists. split; [vm_compute; reflexivity|].
  destruct (proj1 C10_overall_vs_per_device_totals (one_week week_A)
              params_enero [1; 2]
              (MonthData.mk 10 100
                 [("A"%string, CameraTotals.mk "Cam A" 10 100 1)]
                 [("01-05"%string, DailyTotals.mk 4 40);
                  ("01-06"%string, DailyTotals.mk 6 60)]
                 [WeekSummary.mk 1 10 100])
              (one_week_wf week_A week_A_wf) eq_refl)
    as [Htot [_ [Hdev _]]].
  split; [exact Htot | exact Hdev].
Defined.

(** * Further properties of the code *)

(** ** [get_available_weeks] *)

Lemma StronglySorted_filter {A : Type} (R : A -> A -> Prop) (p : A -> bool)
    (l : list A) :
  StronglySorted R l -> StronglySorted R (filter p l).
Proof.
  induction 1 as [|x l Hs IH Hall]; simpl; [constructor|].
  destruct (p x); [|exact IH].
  constructor; [exact IH|].
  rewrite Forall_forall in *. intros y Hy. apply filter_In in Hy.
  apply Hall. tauto.
Qed.

(** X1: the available weeks are exactly the weeks 1..5 whose lookup gives a
    non-empty record set, listed in ascending order without repetition. *)
Theorem X1_available_weeks_exact (fetch : Resolver) (month_number : Z)
    (month_name : string) :
  (forall week,
      In week (get_available_weeks fetch month_number month_name)
      <-> 1 <= week <= 5
          /\ truthy_data (fetch month_number month_name week) = true)
  /\ StronglySorted Z.lt (get_available_weeks fetch month_number month_name).
Proof.
  unfold get_available_weeks. split.
  - intros week. rewrite filter_In. simpl.
    split; intros [H1 H2]; (split; [|exact H2]); [lia|].
    assert (week = 1 \/ week = 2 \/ week = 3 \/ week = 4 \/ week = 5) by lia.
    intuition.
  - apply StronglySorted_filter.
    repeat (constructor; [|repeat constructor; lia]). constructor.
Qed.

(** ** [truncate_response] *)

Lemma string_length_append (a b : string) :
  String.length (String.append a b) = (String.length a + String.length b)%nat.
Proof. induction a as [|c a IH]; simpl; [reflexivity | now rewrite IH]. Qed.

Lemma string_length_substring (n : nat) (s : string) :
  String.length (String.substring 0 n s) = Nat.min n (String.length s).
Proof.
  revert s; induction n as [|n IH]; intros s.
  - destruct s; reflexivity.
  - destruct s as [|c s]; [reflexivity|].
    cbn [String.substring String.length]. now rewrite IH.
Qed.

Lemma truncation_notice_length : String.length truncation_notice = 70%nat.
Proof. reflexivity. Qed.

Lemma truncated_length (response : string) :
  CHARACTER_LIMIT < Z.of_nat (String.length response) ->
  Z.of_nat
    (String.length
       (String.append
          (String.substring 0 (Z.to_nat (CHARACTER_LIMIT - 200)) response)
          truncation_notice))
  = CHARACTER_LIMIT - 130.
Proof.
  unfold CHARACTER_LIMIT. intros Hlong.
  rewrite string_length_append, string_length_substring,
    truncation_notice_length.
  rewrite Nat2Z.inj_add, Nat2Z.inj_min, Z2Nat.id by lia. lia.
Qed.

(** X2: a truncated response never exceeds the character limit; a response
    within the limit comes back unchanged; a longer one becomes its first
    24800 characters followed by the notice (24870 characters in all); and
    truncating twice is the same as truncating once. *)
Theorem X2_truncate_response_bounded (response : string) :
  Z.of_nat (String.length (truncate_response response)) <= CHARACTER_LIMIT
  /\ (Z.of_nat (String.length response) <= CHARACTER_LIMIT ->
      truncate_response response = response)
  /\ (CHARACTER_LIMIT < Z.of_nat (String.length response) ->
      truncate_response response
      = String.append (String.substring 0 (Z.to_nat 24800) response)
          truncation_notice
      /\ Z.of_nat (String.length (truncate_response response)) = 24870)
  /\ truncate_response (truncate_response response)
     = truncate_response response.
Proof.
  unfold truncate_response at 1 2 3 4 6.
  destruct (Z.leb_spec (Z.of_nat (String.length response)) CHARACTER_LIMIT)
    as [Hshort|Hlong].
  - split; [exact Hshort|]. split; [reflexivity|].
    split; [lia|]. unfold truncate_response.
    apply Z.leb_le in Hshort. now rewrite Hshort.
  - pose proof (truncated_length response Hlong) as Hlen.
    cbv zeta. split; [rewrite Hlen; unfold CHARACTER_LIMIT; lia|].
    split; [lia|]. split.
    + intros _. split; [reflexivity|]. rewrite Hlen. reflexivity.
    + unfold truncate_response. rewrite Hlen.
      assert (H : (CHARACTER_LIMIT - 130 <=? CHARACTER_LIMIT) = true)
        by reflexivity.
      rewrite H.
      destruct (Z.leb_spec (Z.of_nat (String.length response)) CHARACTER_LIMIT);
        [lia | reflexivity].
Qed.

(** ** More on the ranker *)

(** X3: the ranking request model is built exactly when the month is
    within 1..12, the week within 1..5 and the metric (as it arrives,
    stripped of surrounding white space) one of the three kinds; the model
    then carries the arguments unchanged. *)
Theorem X3_compare_input_accepted_iff (month_number : Z) (month_name : string)
    (week_number : Z) (metric : string) (params : CompareCamerasInput.t) :
  CompareCamerasInput.validate month_number month_name week_number metric
  = Ok params
  <-> 1 <= month_number <= 12
      /\ 1 <= week_number <= 5
      /\ In metric ["infractions"; "frames"; "efficiency"]%string
      /\ params = CompareCamerasInput.mk month_number month_name week_number
                    metric.
Proof.
  unfold CompareCamerasInput.validate, CompareCamerasInput.failing_fields.
  destruct (Z.leb_spec 1 month_number), (Z.leb_spec month_number 12),
    (Z.leb_spec 1 week_number), (Z.leb_spec week_number 5);
    cbn [andb app];
    try (split; [intros Hv;
                 destruct (CompareCamerasInput.validate_metric metric);
                 discriminate Hv
                | intros [? [? _]]; lia]).
  destruct (CompareCamerasInput.validate_metric metric) as [v|e] eqn:E.
  - assert (v = metric) as ->.
    { unfold CompareCamerasInput.validate_metric in E.
      destruct (existsb _ _); now inversion E. }
    apply validate_metric_In in E. split.
    + intros Hv. inversion Hv; subst. repeat split; auto.
    + intros [_ [_ [_ ->]]]. reflexivity.
  - split; [discriminate|]. intros [_ [_ [Hin _]]].
    apply validate_metric_In in Hin. congruence.
Qed.

Lemma X3_witness :
  CompareCamerasInput.validate 3 "marzo" 2 "frames"
  = Ok (CompareCamerasInput.mk 3 "marzo" 2 "frames").
Proof.
  apply (proj2 (X3_compare_input_accepted_iff 3 "marzo" 2 "frames" _)).
  repeat split; try lia. simpl. tauto.
Defined.

(** An observation with a missing field raises the [KeyError] of the first
    field the loop body reads. *)
Lemma compare_camera_incomplete (metric : string) (acc : list Comparison.t)
    (cid : string) (cd : CameraData) (f : string) :
  first_missing_compare cd = Some f ->
  in_float_range (stored_total cd) ->
  compare_camera metric acc (cid, cd) = Err (KeyError f).
Proof.
  unfold first_missing_compare, compare_camera, stored_total.
  destruct cd as [[nm|] up [st|] [t|] inf fr];
    cbn [field total camera used_storage frames bind];
    intros H Hr; inversion H; subst; try reflexivity;
    rewrite (compare_efficiency_in_range _ _ Hr);
    repeat match goal with
           | |- context [String.eqb ?a ?b] => destruct (String.eqb a b)
           end; reflexivity.
Qed.

(** X4: when the record set of the week holds an incomplete observation,
    the comparison answers with the error message of the [KeyError] of the
    first missing field (total, then name, then storage) of the first
    incomplete device in iteration order; nothing is ranked.  (The stored
    total-counts read so far are at most 2^1000 in absolute value; beyond
    the floating-point range the division raises first.) *)
Theorem X4_compare_first_missing_field (fetch : Resolver)
    (params : CompareCamerasInput.t) (before after : PeriodRecordSet)
    (cid : string) (cd : CameraData) (f : string) :
  fetch (CompareCamerasInput.month_number params)
        (CompareCamerasInput.month_name params)
        (CompareCamerasInput.week_number params)
  = Some (before ++ (cid, cd) :: after) ->
  (forall c d, In (c, d) before -> rankable d) ->
  first_missing_compare cd = Some f ->
  in_float_range (stored_total cd) ->
  compare_cameras fetch params = ErrorMessage (KeyError f).
Proof.
  intros Hf Hc Hm Hr. unfold compare_cameras. rewrite Hf.
  assert (Ht : truthy_data (Some (before ++ (cid, cd) :: after)) = true)
    by (destruct before; reflexivity).
  rewrite Ht. cbn [negb]. rewrite foldM_app.
  destruct (compare_loop_complete_any (CompareCamerasInput.metric params)
              before Hc []) as [entries [He _]].
  rewrite He. cbn [bind foldM].
  rewrite (compare_camera_incomplete _ _ _ _ _ Hm Hr). reflexivity.
Qed.

Lemma X4_witness :
  compare_cameras (one_week [("A"%string, cam_A); ("B"%string, cam_nameless)])
    (CompareCamerasInput.mk 1 "enero" 1 "frames")
  = ErrorMessage (KeyError "camera").
Proof.
  apply (X4_compare_first_missing_field
           (one_week [("A"%string, cam_A); ("B"%string, cam_nameless)])
           (CompareCamerasInput.mk 1 "enero" 1 "frames")
           [("A"%string, cam_A)] [] "B" cam_nameless "camera").
  - reflexivity.
  - intros c d [H|[]]. inversion H; subst.
    split; [repeat split; discriminate | vm_compute; discriminate].
  - reflexivity.
  - vm_compute. discriminate.
Defined.

(** Sorting a list whose elements the order does not separate changes
    nothing. *)
Lemma py_sort_all_equal {A : Type} (leb : A -> A -> bool) (l : list A) :
  (forall x y, In x l -> In y l -> leb x y = true) -> py_sort leb l = l.
Proof.
  induction l as [|x l IH]; intros H; simpl; [reflexivity|].
  rewrite IH by (intros a b Ha Hb; apply H; now right).
  destruct l as [|y l]; [reflexivity|]. simpl.
  now rewrite (H x y (or_introl eq_refl) (or_intror (or_introl eq_refl))).
Qed.

(** X5: the tool body itself rejects nothing: run on a metric text outside
    the three kinds (which only an unvalidated caller can pass), it gives
    every device the metric value 0 and returns the devices in the record
    set's iteration order.  (The observations are complete, with stored
    total-counts of at most 2^1000 in absolute value.) *)
Theorem X5_compare_unvalidated_metric (fetch : Resolver)
    (params : CompareCamerasInput.t) (data : PeriodRecordSet) :
  ~ In (CompareCamerasInput.metric params)
       ["infractions"; "frames"; "efficiency"]%string ->
  fetch (CompareCamerasInput.month_number params)
        (CompareCamerasInput.month_name params)
        (CompareCamerasInput.week_number params) = Some data ->
  data <> [] ->
  (forall cid cd, In (cid, cd) data -> rankable cd) ->
  exists ranking,
    compare_cameras fetch params = Payload ranking
    /\ map Comparison.id ranking = keys data
    /\ Forall (fun e => Comparison.metric_value e = PyInt 0) ranking.
Proof.
  intros Hnot Hf Hne Hc.
  destruct (compare_loop_complete_any (CompareCamerasInput.metric params)
              data Hc []) as [entries [He [Hids [_ Hall]]]].
  specialize (Hall Hnot). exists entries.
  split; [|split; [exact Hids | exact Hall]].
  assert (Ht : truthy_data (Some data) = true)
    by (destruct data; [congruence | reflexivity]).
  unfold compare_cameras. rewrite Hf, Ht. cbn [negb]. rewrite He.
  cbn [bind app]. rewrite py_sort_all_equal; [reflexivity|].
  intros x y Hx Hy. rewrite Forall_forall in Hall.
  unfold by_metric_desc. rewrite (Hall x Hx), (Hall y Hy). reflexivity.
Qed.

Lemma X5_witness :
  exists ranking,
    compare_cameras (one_week week_AB)
      (CompareCamerasInput.mk 1 "enero" 1 "speed")
    = Payload ranking
    /\ map Comparison.id ranking = keys week_AB
    /\ Forall (fun e => Comparison.metric_value e = PyInt 0) ranking.
Proof.
  apply (X5_compare_unvalidated_metric (one_week week_AB)
           (CompareCamerasInput.mk 1 "enero" 1 "speed") week_AB).
  - simpl. intros [H|[H|[H|[]]]]; discriminate.
  - reflexivity.
  - discriminate.
  - intros cid cd [H|[H|[]]]; inversion H; subst;
      (split; [repeat split; discriminate | vm_compute; discriminate]).
Defined.

(** ** More on search *)

(** A loop whose body either appends [g x] or raises [e0], according to
    [bad x]: it raises exactly when some element is bad. *)
Lemma foldM_append_or_raise {A B : Type} (body : list B -> A -> result (list B))
    (g : A -> list B) (bad : A -> bool) (e0 : PyError) (l : list A) :
  (forall acc x, bad x = false -> body acc x = Ok (acc ++ g x)) ->
  (forall acc x, bad x = true -> body acc x = Err e0) ->
  forall acc,
    foldM body l acc
    = if existsb bad l then Err e0 else Ok (acc ++ flat_map g l).
Proof.
  intros Hok Herr. induction l as [|x l IH]; intros acc; simpl.
  - now rewrite app_nil_r.
  - destruct (bad x) eqn:E; simpl.
    + now rewrite (Herr acc x E).
    + rewrite (Hok acc x E). simpl. rewrite IH.
      destruct (existsb bad l); [reflexivity | now rewrite app_assoc].
Qed.

Lemma existsb_flat_map {A B : Type} (bad : B -> bool) (G : A -> list B)
    (l : list A) :
  existsb bad (flat_map G l) = existsb (fun x => existsb bad (G x)) l.
Proof.
  induction l as [|x l IH]; simpl; [reflexivity|].
  now rewrite existsb_app, IH.
Qed.

Lemma existsb_map_comp {A B : Type} (bad : B -> bool) (h : A -> B)
    (l : list A) :
  existsb bad (map h l) = existsb (fun x => bad (h x)) l.
Proof. induction l as [|x l IH]; simpl; [reflexivity | now rewrite IH]. Qed.

Lemma unnamed_match_false (params : SearchInfractionsInput.t) (l : list Tuple) :
  existsb (unnamed_match params) l = false ->
  forall t, In t l -> spec_criteria params t = true -> tuple_named t.
Proof.
  intros H t Hin Hc.
  assert (Hu : unnamed_match params t = false).
  { destruct (unnamed_match params t) eqn:E; [|reflexivity].
    assert (existsb (unnamed_match params) l = true)
      by (apply existsb_exists; eauto).
    congruence. }
  unfold unnamed_match in Hu. rewrite Hc in Hu.
  destruct t as [[[[w c] cd] d] n]. simpl in *.
  destruct (camera cd); [discriminate | discriminate].
Qed.

Lemma search_date_raises (params : SearchInfractionsInput.t) (week : Z)
    (cid : string) (cd : CameraData) (acc : list Match.t)
    (entry : string * Z) :
  unnamed_match params (week, cid, cd, fst entry, snd entry) = true ->
  search_date params week cid cd acc entry = Err (KeyError "camera").
Proof.
  destruct entry as [date count]. unfold unnamed_match. simpl.
  intros H. apply andb_true_iff in H. destruct H as [Hc Hn].
  unfold search_date, spec_criteria in *.
  destruct params as [mn name d lo hi]; simpl in *.
  apply andb_true_iff in Hc. destruct Hc as [Hc Hhi].
  apply andb_true_iff in Hc. destruct Hc as [Hd Hlo].
  assert (Hd' : truthy_str d
                && negb (String.eqb date
                           match d with Some d0 => d0 | None => "" end)
                = false).
  { destruct d as [d0|]; simpl; [|reflexivity].
    apply orb_true_iff in Hd. destruct Hd as [Hd|Hd]; rewrite Hd;
      [reflexivity | apply andb_false_r]. }
  rewrite Hd'.
  assert (Hlo' : match lo with Some lo0 => count <? lo0 | None => false end
                 = false).
  { destruct lo as [lo0|]; [|reflexivity].
    apply Z.leb_le in Hlo. apply Z.ltb_ge. exact Hlo. }
  rewrite Hlo'.
  assert (Hhi' : match hi with Some hi0 => hi0 <? count | None => false end
                 = false).
  { destruct hi as [hi0|]; [|reflexivity].
    apply Z.leb_le in Hhi. apply Z.ltb_ge. exact Hhi. }
  rewrite Hhi'. destruct (camera cd); [discriminate | reflexivity].
Qed.

Lemma search_camera_cases (params : SearchInfractionsInput.t) (week : Z)
    (acc : list Match.t) (item : string * CameraData) :
  search_camera params week acc item
  = if existsb (unnamed_match params) (tuples_of_camera week item)
    then Err (KeyError "camera")
    else Ok (acc ++ map spec_match
                      (filter (spec_criteria params)
                         (tuples_of_camera week item))).
Proof.
  destruct (existsb _ _) eqn:E.
  - destruct item as [cid cd]. unfold search_camera.
    rewrite (foldM_append_or_raise _
               (fun entry => map spec_match
                  (filter (spec_criteria params)
                     [(week, cid, cd, fst entry, snd entry)]))
               (fun entry => unnamed_match params
                               (week, cid, cd, fst entry, snd entry))
               (KeyError "camera")).
    + unfold tuples_of_camera in E. rewrite existsb_map_comp in E. simpl in E.
      now rewrite E.
    + intros acc' entry H. apply search_date_spec.
      apply (unnamed_match_false params
               [(week, cid, cd, fst entry, snd entry)]); [|now left].
      simpl. now rewrite H.
    + intros acc' entry H. now apply search_date_raises.
  - apply search_camera_spec. now apply unnamed_match_false.
Qed.

Lemma search_week_cases (fetch : Resolver) (params : SearchInfractionsInput.t)
    (acc : list Match.t) (week : Z) :
  let tuples := tuples_of_week fetch (SearchInfractionsInput.month_number params)
                  (SearchInfractionsInput.month_name params) week in
  search_week fetch params acc week
  = if existsb (unnamed_match params) tuples
    then Err (KeyError "camera")
    else Ok (acc ++ map spec_match (filter (spec_criteria params) tuples)).
Proof.
  intros tuples. destruct (existsb _ tuples) eqn:E.
  - unfold search_week. unfold tuples, tuples_of_week in E.
    destruct (fetch _ _ week) as [data|]; [|discriminate].
    destruct data as [|x data]; [discriminate|].
    cbn [truthy_data truthy_dict negb].
    rewrite (foldM_append_or_raise _
               (fun item => map spec_match
                  (filter (spec_criteria params) (tuples_of_camera week item)))
               (fun item => existsb (unnamed_match params)
                              (tuples_of_camera week item))
               (KeyError "camera")).
    + rewrite existsb_flat_map in E. now rewrite E.
    + intros acc' item H. rewrite search_camera_cases. now rewrite H.
    + intros acc' item H. rewrite search_camera_cases. now rewrite H.
  - apply search_week_spec. now apply unnamed_match_false.
Qed.

(** The scan in closed form. *)
Lemma scan_matches_cases (fetch : Resolver) (params : SearchInfractionsInput.t)
    (weeks : list Z) :
  scan_matches fetch params weeks
  = if existsb (unnamed_match params) (spec_tuples fetch params weeks)
    then Err (KeyError "camera")
    else Ok (map spec_match
               (filter (spec_criteria params) (spec_tuples fetch params weeks))).
Proof.
  unfold scan_matches, spec_tuples.
  rewrite (foldM_append_or_raise _
             (fun week => map spec_match
                (filter (spec_criteria params)
                   (tuples_of_week fetch
                      (SearchInfractionsInput.month_number params)
                      (SearchInfractionsInput.month_name params) week)))
             (fun week => existsb (unnamed_match params)
                (tuples_of_week fetch
                   (SearchInfractionsInput.month_number params)
                   (SearchInfractionsInput.month_name params) week))
             (KeyError "camera")).
  - rewrite existsb_flat_map. destruct (existsb _ weeks); [reflexivity|].
    now rewrite flat_map_map_filter.
  - intros acc week H. rewrite search_week_cases. now rewrite H.
  - intros acc week H. rewrite search_week_cases. now rewrite H.
Qed.

Lemma search_infractions_cases (fetch : Resolver)
    (params : SearchInfractionsInput.t) :
  let weeks := get_available_weeks fetch
                 (SearchInfractionsInput.month_number params)
                 (SearchInfractionsInput.month_name params) in
  let tuples := spec_tuples fetch params weeks in
  search_infractions fetch params
  = match weeks with
    | [] => NoDataFound
    | _ :: _ =>
        if existsb (unnamed_match params) tuples
        then ErrorMessage (KeyError "camera")
        else Payload (py_sort by_date_then_count
                        (map spec_match
                           (filter (spec_criteria params) tuples)))
    end.
Proof.
  intros weeks tuples. unfold search_infractions. fold weeks.
  destruct weeks as [|w ws] eqn:Hw; [reflexivity|].
  rewrite scan_matches_cases. unfold tuples.
  destruct (existsb _ _); reflexivity.
Qed.

(** X6: the outcomes of a search over the record sets the resolver
    delivers.  With no available period it answers "no data".  Otherwise,
    if some tuple meets the criteria while its observation has no display
    name, it answers with the error message of [KeyError 'camera']; an
    observation without a name whose dates all fail the criteria does no
    harm.  When no such tuple exists it returns the sorted matches. *)
Theorem X6_search_outcomes (fetch : Resolver)
    (params : SearchInfractionsInput.t) :
  let weeks := get_available_weeks fetch
                 (SearchInfractionsInput.month_number params)
                 (SearchInfractionsInput.month_name params) in
  let tuples := spec_tuples fetch params weeks in
  (weeks = [] -> search_infractions fetch params = NoDataFound)
  /\ (weeks <> [] ->
      (exists t, In t tuples /\ unnamed_match params t = true) ->
      search_infractions fetch params = ErrorMessage (KeyError "camera"))
  /\ (weeks <> [] ->
      (forall t, In t tuples -> unnamed_match params t = false) ->
      search_infractions fetch params
      = Payload (py_sort by_date_then_count
                   (map spec_match (filter (spec_criteria params) tuples)))).
Proof.
  intros weeks tuples.
  pose proof (search_infractions_cases fetch params) as Hcases.
  cbv zeta in Hcases. fold weeks in Hcases. fold tuples in Hcases.
  rewrite Hcases. split; [intros ->; reflexivity|]. split.
  - intros Hne Hex. apply existsb_exists in Hex. rewrite Hex.
    destruct weeks; [congruence | reflexivity].
  - intros Hne Hall.
    assert (Hf : existsb (unnamed_match params) tuples = false).
    { destruct (existsb _ tuples) eqn:E; [|reflexivity].
      apply existsb_exists in E. destruct E as [t [Hin Ht]].
      rewrite (Hall t Hin) in Ht. discriminate. }
    rewrite Hf. destruct weeks; [congruence | reflexivity].
Qed.

Lemma X6_witness :
  search_infractions (one_week [("B"%string, cam_nameless)])
    (SearchInfractionsInput.mk 1 "enero" None None None)
  = ErrorMessage (KeyError "camera").
Proof.
  apply (proj1 (proj2 (X6_search_outcomes
                         (one_week [("B"%string, cam_nameless)])
                         (SearchInfractionsInput.mk 1 "enero" None None None)))).
  - vm_compute. discriminate.
  - exists (1, "B"%string, cam_nameless, "01-05"%string, 1).
    split; [vm_compute; left; reflexivity | reflexivity].
Defined.

Lemma existsb_false_all {A : Type} (bad : A -> bool) (l : list A) :
  (forall x, In x l -> bad x = false) -> existsb bad l = false.
Proof.
  intros H. destruct (existsb bad l) eqn:E; [|reflexivity].
  apply existsb_exists in E. destruct E as [x [Hin Hx]].
  rewrite (H x Hin) in Hx. discriminate.
Qed.

Lemma filter_none {A : Type} (p : A -> bool) (l : list A) :
  (forall x, p x = false) -> filter p l = [].
Proof.
  intros H. induction l as [|x l IH]; simpl; [reflexivity|].
  now rewrite H.
Qed.

(** X7: the bounds are not checked against each other.  When the minimum
    exceeds the maximum and at least one period is available, search finds
    nothing and returns the empty list (not an error, not "no data"), even
    when observations lack their display name. *)
Theorem X7_search_empty_range (fetch : Resolver) (month_number : Z)
    (month_name : string) (date : option string) (lo hi : Z) :
  hi < lo ->
  get_available_weeks fetch month_number month_name <> [] ->
  search_infractions fetch
    (SearchInfractionsInput.mk month_number month_name date (Some lo) (Some hi))
  = Payload [].
Proof.
  intros Hrange Hne.
  set (params := SearchInfractionsInput.mk month_number month_name date
                   (Some lo) (Some hi)).
  assert (Hc : forall t, spec_criteria params t = false).
  { intros [[[[w c] cd] d] n]. unfold spec_criteria, params. simpl.
    destruct (Z.leb_spec lo n), (Z.leb_spec n hi);
      rewrite ?andb_false_r; try reflexivity. lia. }
  pose proof (search_infractions_cases fetch params) as Hcases.
  cbv zeta in Hcases. rewrite Hcases. simpl.
  destruct (get_available_weeks fetch month_number month_name) as [|w ws];
    [congruence|].
  rewrite existsb_false_all
    by (intros t _; unfold unnamed_match; now rewrite Hc).
  now rewrite filter_none.
Qed.

Lemma X7_witness :
  search_infractions (one_week week_A)
    (SearchInfractionsInput.mk 1 "enero" None (Some 9) (Some 2))
  = Payload [].
Proof.
  apply (X7_search_empty_range (one_week week_A) 1 "enero" None 9 2).
  - lia.
  - vm_compute. discriminate.
Defined.

(** X8: the sort of search is stable.  Matches with the same date and the
    same infraction count come out in the order the scan met them: period
    by period, and within a period in the record set's device order. *)
Theorem X8_search_ties_in_scan_order (fetch : Resolver)
    (params : SearchInfractionsInput.t) :
  let weeks := get_available_weeks fetch
                 (SearchInfractionsInput.month_number params)
                 (SearchInfractionsInput.month_name params) in
  let scanned := map spec_match
                   (filter (spec_criteria params)
                      (spec_tuples fetch params weeks)) in
  weeks <> [] ->
  (forall t, In t (spec_tuples fetch params weeks) ->
             spec_criteria params t = true -> tuple_named t) ->
  exists matches,
    search_infractions fetch params = Payload matches
    /\ forall date count,
         filter (same_sort_key date count) matches
         = filter (same_sort_key date count) scanned.
Proof.
  intros weeks scanned Hne Hn.
  exists (py_sort by_date_then_count scanned). split.
  - unfold search_infractions. fold weeks.
    destruct weeks as [|w ws] eqn:Hw; [congruence|].
    rewrite (scan_matches_spec fetch params (w :: ws) Hn). reflexivity.
  - intros date count. apply py_sort_stable.
    intros a b Ha Hb. unfold same_sort_key in Ha, Hb.
    apply andb_true_iff in Ha, Hb. destruct Ha as [Ha1 Ha2], Hb as [Hb1 Hb2].
    apply String.eqb_eq in Ha1, Hb1. apply Z.eqb_eq in Ha2, Hb2.
    apply by_date_then_count_iff. right. split; [congruence | lia].
Qed.

Lemma X8_witness :
  exists matches,
    search_infractions (two_weeks week_A week_A)
      (SearchInfractionsInput.mk 1 "enero" None None None)
    = Payload matches
    /\ forall date count,
         filter (same_sort_key date count) matches
         = filter (same_sort_key date count)
             (map spec_match
                (filter
                   (spec_criteria
                      (SearchInfractionsInput.mk 1 "enero" None None None))
                   (spec_tuples (two_weeks week_A week_A)
                      (SearchInfractionsInput.mk 1 "enero" None None None)
                      (get_available_weeks (two_weeks week_A week_A) 1
                         "enero")))).
Proof.
  apply (X8_search_ties_in_scan_order (two_weeks week_A week_A)
           (SearchInfractionsInput.mk 1 "enero" None None None)).
  - vm_compute. discriminate.
  - intros t Hin _. vm_compute in Hin.
    destruct Hin as [<-|[<-|[<-|[<-|[]]]]]; simpl; discriminate.
Defined.

(** ** More on the multi-week analysis *)

(** One selected observation extends the rollup of its device and leaves
    the others alone. *)
Lemma collect_camera_lists (camera_filter : option string) (week : Z)
    (st st' : dict AllData.t) (k : string) (cd : CameraData) :
  collect_camera camera_filter week st (k, cd) = Ok st' ->
  selected camera_filter k = true ->
  extends_rollup week cd (dict_get k st) (dict_get k st').
Proof.
  unfold collect_camera. rewrite selected_false. intros H Hs.
  rewrite Hs in H. cbn [negb] in H. cbv iota in H.
  inv_bind. simpl in Ha2, Ha3.
  apply dict_getitem_Ok in Ha0.
  rewrite dict_get_set_same.
  assert (Ht : total cd = Some a1) by (destruct (total cd); now inversion Ha1).
  eexists. exists a1. split; [reflexivity|]. split; [exact Ht|]. simpl.
  unfold dict_mem in Ha.
  destruct (dict_get k st) as [e0|] eqn:Hk.
  - inv_bind. rewrite Hk in Ha0. inversion Ha0; subst. simpl. auto.
  - inv_bind. rewrite dict_get_set_same in Ha0. inversion Ha0; subst. simpl.
    repeat split. destruct (camera cd); now inversion Ha4.
Qed.

(** A record set (a dictionary) extends the rollup of each selected device
    it holds and leaves the rollups of the other devices alone. *)
Lemma collect_data_lists (camera_filter : option string) (week : Z)
    (cid : string) (data : PeriodRecordSet) :
  dict_wf data ->
  selected camera_filter cid = true ->
  forall st st',
    foldM (collect_camera camera_filter week) data st = Ok st' ->
    match dict_get cid data with
    | Some cd => extends_rollup week cd (dict_get cid st) (dict_get cid st')
    | None => dict_get cid st' = dict_get cid st
    end.
Proof.
  unfold dict_wf. intros Hwf Hs.
  induction data as [|[k cd] data IH]; intros st st' H.
  - simpl in H. now inversion H.
  - inversion Hwf as [|? ? Hnotin Hwf']; subst.
    cbn [foldM] in H. apply bind_Ok in H. destruct H as [st1 [Hstep H]].
    specialize (IH Hwf' st1 st' H).
    destruct (collect_camera_merged _ _ _ _ _ _ Hstep) as [_ [Hother _]].
    cbn [dict_get]. destruct (String.eqb cid k) eqn:E.
    + apply String.eqb_eq in E. subst k.
      assert (Hnone : dict_get cid data = None) by now apply dict_get_None.
      rewrite Hnone in IH. rewrite IH.
      now apply (collect_camera_lists camera_filter week st st1 cid cd).
    + apply String.eqb_neq in E. rewrite <- (Hother cid E).
      exact IH.
Qed.

Lemma holds_device_get (fetch : Resolver) (mn : Z) (name : string)
    (cid : string) (week : Z) :
  holds_device fetch mn name cid week = true ->
  exists data cd, fetch mn name week = Some data /\ dict_get cid data = Some cd.
Proof.
  unfold holds_device, dict_mem. destruct (fetch mn name week) as [data|];
    [|discriminate].
  destruct (dict_get cid data) as [cd|] eqn:E; [|discriminate].
  intros _. now exists data, cd.
Qed.

(** One period extends the rollup of each selected device it holds. *)
Lemma collect_week_lists (fetch : Resolver)
    (params : AnalyzeCameraPerformanceInput.t) (st st' : dict AllData.t)
    (week : Z) (cid : string) :
  let mn := AnalyzeCameraPerformanceInput.month_number params in
  let name := AnalyzeCameraPerformanceInput.month_name params in
  resolver_wf fetch ->
  selected (AnalyzeCameraPerformanceInput.camera_id params) cid = true ->
  collect_week fetch params st week = Ok st' ->
  if holds_device fetch mn name cid week
  then exists cd,
         spec_period_total fetch mn name cid week = total cd
         /\ period_name fetch mn name cid week = camera cd
         /\ extends_rollup week cd (dict_get cid st) (dict_get cid st')
  else dict_get cid st' = dict_get cid st.
Proof.
  intros mn name Hwf Hs H. unfold collect_week in H. fold mn name in H.
  unfold holds_device, spec_period_total, period_name.
  destruct (fetch mn name week) as [data|] eqn:Hf;
    [|simpl in H; now inversion H].
  destruct (Hwf _ _ _ _ Hf) as [Hd _].
  destruct data as [|x data]; [simpl in H; now inversion H|].
  cbn [truthy_data truthy_dict] in H.
  pose proof (collect_data_lists _ week cid (x :: data) Hd Hs st st' H) as G.
  unfold dict_mem. destruct (dict_get cid (x :: data)) as [cd|];
    [exists cd; auto | exact G].
Qed.

(** The periods of a request, one after the other. *)
Lemma collect_weeks_lists (fetch : Resolver)
    (params : AnalyzeCameraPerformanceInput.t) (cid : string) :
  let mn := AnalyzeCameraPerformanceInput.month_number params in
  let name := AnalyzeCameraPerformanceInput.month_name params in
  resolver_wf fetch ->
  selected (AnalyzeCameraPerformanceInput.camera_id params) cid = true ->
  forall weeks st st',
    foldM (collect_week fetch params) weeks st = Ok st' ->
    let held := filter (holds_device fetch mn name cid) weeks in
    let before := dict_get cid st in
    let after := dict_get cid st' in
    rollup_weeks after = rollup_weeks before ++ held
    /\ map Some (rollup_totals after)
       = map Some (rollup_totals before)
         ++ map (spec_period_total fetch mn name cid) held
    /\ rollup_frames after = rollup_frames before
    /\ (held = [] -> after = before)
    /\ (before = None -> forall w rest, held = w :: rest ->
        exists e, after = Some e
                  /\ period_name fetch mn name cid w = Some (AllData.name e))
    /\ (forall e0, before = Some e0 ->
        exists e, after = Some e /\ AllData.name e = AllData.name e0).
Proof.
  intros mn name Hwf Hs. induction weeks as [|w weeks IH]; intros st st' H.
  - simpl in H. inversion H; subst. simpl. rewrite !app_nil_r.
    repeat split; auto; [discriminate | intros e0 He0; now exists e0].
  - cbn [foldM] in H. apply bind_Ok in H. destruct H as [st1 [Hstep H]].
    specialize (IH st1 st' H). cbv zeta in IH.
    destruct IH as [I1 [I2 [I3 [I4 [I5 I6]]]]].
    pose proof (collect_week_lists fetch params st st1 w cid Hwf Hs Hstep)
      as G. cbv zeta in G. fold mn name in G.
    cbn [filter]. destruct (holds_device fetch mn name cid w) eqn:Hh.
    + destruct G as [cd [Gt [Gn [e1 [t [Ge [Ht [Gw [Gi [Gf Gname]]]]]]]]]].
      rewrite Ge in *. simpl in I1, I2, I3.
      destruct (I6 e1 eq_refl) as [e [He Hname]].
      split; [rewrite I1, Gw; now rewrite <- app_assoc|].
      split; [rewrite I2, Gi, map_app, <- app_assoc; simpl;
              now rewrite Gt, Ht|].
      split; [now rewrite I3|]. split; [discriminate|]. split.
      * intros Hb w0 rest Heq. inversion Heq; subst.
        exists e. split; [exact He|]. rewrite Gn, Hname.
        now rewrite Hb in Gname.
      * intros e0 He0. exists e. split; [exact He|].
        rewrite He0 in Gname. congruence.
    + rewrite G in *. auto 10.
Qed.

Lemma collect_all_unselected (fetch : Resolver)
    (params : AnalyzeCameraPerformanceInput.t) (weeks : list Z)
    (all_data : dict AllData.t) (cid : string) :
  resolver_wf fetch ->
  collect_all_data fetch params weeks = Ok all_data ->
  selected (AnalyzeCameraPerformanceInput.camera_id params) cid = false ->
  dict_get cid all_data = None.
Proof.
  intros Hwf H Hs.
  apply (foldM_invariant (collect_week fetch params)
           (fun _ s => dict_get cid s = None) weeks [] all_data);
    [reflexivity| |exact H].
  intros done w s s' Hinv Hstep.
  destruct (collect_week_merged fetch params s s' w Hwf Hstep cid ""%string)
    as [Hu _].
  now rewrite (Hu Hs).
Qed.

(** X9: a device's rollup lists exactly the analysed periods that hold the
    device, in the order analysed, and beside each its stored total-count;
    the rollup's frames list is never filled and stays empty. *)
Theorem X9_rollup_periods_and_totals (fetch : Resolver)
    (params : AnalyzeCameraPerformanceInput.t) (weeks : list Z)
    (all_data : dict AllData.t) (cid : string) (e : AllData.t) :
  let mn := AnalyzeCameraPerformanceInput.month_number params in
  let name := AnalyzeCameraPerformanceInput.month_name params in
  resolver_wf fetch ->
  collect_all_data fetch params weeks = Ok all_data ->
  dict_get cid all_data = Some e ->
  AllData.weeks e = filter (holds_device fetch mn name cid) weeks
  /\ map Some (AllData.infractions e)
     = map (spec_period_total fetch mn name cid) (AllData.weeks e)
  /\ AllData.weeks e <> []
  /\ AllData.frames e = [].
Proof.
  intros mn name Hwf H He.
  destruct (selected (AnalyzeCameraPerformanceInput.camera_id params) cid)
    eqn:Hs;
    [|rewrite (collect_all_unselected _ _ _ _ _ Hwf H Hs) in He; discriminate].
  destruct (collect_weeks_lists fetch params cid Hwf Hs weeks [] all_data H)
    as [I1 [I2 [I3 [I4 _]]]].
  fold mn name in I1, I2, I4. rewrite He in *. simpl in I1, I2, I3.
  split; [exact I1|]. split; [now rewrite I1|]. split; [|exact I3].
  intros Hnil. rewrite Hnil in I1. symmetry in I1.
  specialize (I4 I1). discriminate.
Qed.

Lemma X9_witness :
  AllData.weeks
    (AllData.mk "Cam D" [1; 3] [3; 5] []
       [("2024-01-01", 8)]%string [("2024-01-01", 80)]%string)
  = filter (holds_device (two_weeks [("D"%string, cam_D3)]
                            [("D"%string, cam_D5)]) 1 "enero" "D") [1; 2; 3]
  /\ map Some [3; 5]
     = map (spec_period_total (two_weeks [("D"%string, cam_D3)]
                                 [("D"%string, cam_D5)]) 1 "enero" "D") [1; 3]
  /\ [1; 3] <> []
  /\ @nil Z = [].
Proof.
  apply (X9_rollup_periods_and_totals
           (two_weeks [("D"%string, cam_D3)] [("D"%string, cam_D5)])
           (AnalyzeCameraPerformanceInput.mk 1 "enero" None None)
           [1; 2; 3]
           [("D"%string,
             AllData.mk "Cam D" [1; 3] [3; 5] []
               [("2024-01-01", 8)]%string [("2024-01-01", 80)]%string)]
           "D").
  - apply two_weeks_wf; [apply week_D3_wf | apply week_D5_wf].
  - vm_compute. reflexivity.
  - reflexivity.
Defined.

(** X10: the display name of a rollup is the one the device has in the
    first analysed period that holds it; the names of later periods are
    not read (they may differ or be missing). *)
Theorem X10_rollup_name_from_first_period (fetch : Resolver)
    (params : AnalyzeCameraPerformanceInput.t) (weeks : list Z)
    (all_data : dict AllData.t) (cid : string) (e : AllData.t) :
  let mn := AnalyzeCameraPerformanceInput.month_number params in
  let name := AnalyzeCameraPerformanceInput.month_name params in
  resolver_wf fetch ->
  collect_all_data fetch params weeks = Ok all_data ->
  dict_get cid all_data = Some e ->
  exists first rest,
    filter (holds_device fetch mn name cid) weeks = first :: rest
    /\ period_name fetch mn name cid first = Some (AllData.name e).
Proof.
  intros mn name Hwf H He.
  destruct (selected (AnalyzeCameraPerformanceInput.camera_id params) cid)
    eqn:Hs;
    [|rewrite (collect_all_unselected _ _ _ _ _ Hwf H Hs) in He; discriminate].
  destruct (collect_weeks_lists fetch params cid Hwf Hs weeks [] all_data H)
    as [_ [_ [_ [I4 [I5 _]]]]].
  fold mn name in I4, I5. rewrite He in *. simpl in I4, I5.
  destruct (filter (holds_device fetch mn name cid) weeks) as [|w rest] eqn:Hf.
  - specialize (I4 eq_refl). discriminate.
  - exists w, rest. split; [reflexivity|].
    destruct (I5 eq_refl w rest eq_refl) as [e' [He' Hn]].
    inversion He'; subst. exact Hn.
Qed.

Lemma X10_witness :
  exists first rest,
    filter (holds_device (two_weeks [("D"%string, cam_D3)]
                            [("D"%string, cam_nameless)]) 1 "enero" "D")
           [1; 2; 3]
    = first :: rest
    /\ period_name (two_weeks [("D"%string, cam_D3)]
                      [("D"%string, cam_nameless)]) 1 "enero" "D" first
       = Some "Cam D"%string.
Proof.
  apply (X10_rollup_name_from_first_period
           (two_weeks [("D"%string, cam_D3)] [("D"%string, cam_nameless)])
           (AnalyzeCameraPerformanceInput.mk 1 "enero" None None)
           [1; 2; 3]
           [("D"%string,
             AllData.mk "Cam D" [1; 3] [3; 3] []
               [("2024-01-01", 3); ("01-05", 1)]%string
               [("2024-01-01", 30); ("01-05", 3)]%string)]
           "D"
           (AllData.mk "Cam D" [1; 3] [3; 3] []
              [("2024-01-01", 3); ("01-05", 1)]%string
              [("2024-01-01", 30); ("01-05", 3)]%string)).
  - apply two_weeks_wf; [apply week_D3_wf | solve_record_set_wf].
  - vm_compute. reflexivity.
  - reflexivity.
Defined.

(** *** What can go wrong, and what cannot *)

Ltac run_merges :=
  repeat match goal with
         | |- context [foldM add_daily ?entries ?acc] =>
             let H := fresh "Hmerge" in
             let r := fresh "merged_map" in
             destruct (merge_daily_get entries acc) as [r [H _]];
             rewrite H; cbn [bind]
         end.

(** The body of the collection loop either skips the observation, or
    raises for a missing name or total, or stores a rollup under the
    device's identifier. *)
Lemma collect_camera_outcome (camera_filter : option string) (week : Z)
    (st : dict AllData.t) (k : string) (cd : CameraData) :
  (selected camera_filter k = false
   /\ collect_camera camera_filter week st (k, cd) = Ok st)
  \/ (selected camera_filter k = true
      /\ ((dict_get k st = None /\ camera cd = None
           /\ collect_camera camera_filter week st (k, cd)
              = Err (KeyError "camera"))
          \/ (total cd = None
              /\ collect_camera camera_filter week st (k, cd)
                 = Err (KeyError "total"))
          \/ (total cd <> None
              /\ (dict_get k st = None -> camera cd <> None)
              /\ exists e st1,
                   collect_camera camera_filter week st (k, cd)
                   = Ok (dict_set k e st1)
                   /\ (st1 = st \/ exists e0, st1 = dict_set k e0 st)))).
Proof.
  unfold collect_camera. rewrite selected_false.
  destruct (selected camera_filter k); cbn [negb]; cbv iota; [right|left; auto].
  split; [reflexivity|]. unfold dict_mem, dict_getitem.
  destruct (dict_get k st) as [e0|] eqn:Hk; cbn [bind].
  - rewrite Hk. cbn [bind].
    destruct (total cd) as [t|]; cbn [field bind].
    + right. right. split; [discriminate|]. split; [discriminate|].
      run_merges. eexists. exists st. split; [reflexivity | now left].
    + right. left. auto.
  - destruct (camera cd) as [nm|]; cbn [field bind].
    + rewrite dict_get_set_same. cbn [bind].
      destruct (total cd) as [t|]; cbn [field bind].
      * right. right. split; [discriminate|]. split; [discriminate|].
        run_merges. eexists. eexists. split; [reflexivity|].
        right. eexists. reflexivity.
      * right. left. auto.
    + left. auto.
Qed.

Lemma foldM_Err_inv {A S : Type} (body : S -> A -> result S)
    (P : PyError -> Prop) (l : list A) :
  (forall st x e, In x l -> body st x = Err e -> P e) ->
  forall s e, foldM body l s = Err e -> P e.
Proof.
  induction l as [|x l IH]; intros Hb s e H; simpl in H; [discriminate|].
  destruct (body s x) as [s1|e1] eqn:E; simpl in H.
  - apply (IH (fun st y e' Hin => Hb st y e' (or_intror Hin)) s1 e H).
  - inversion H; subst. apply (Hb s x e (or_introl eq_refl) E).
Qed.

Lemma foldM_preserves {A S : Type} (body : S -> A -> result S)
    (P : S -> Prop) (l : list A) :
  (forall st x st', P st -> body st x = Ok st' -> P st') ->
  forall s s', P s -> foldM body l s = Ok s' -> P s'.
Proof.
  intros Hb. induction l as [|x l IH]; intros s s' Hs H; simpl in H.
  - now inversion H; subst.
  - apply bind_Ok in H. destruct H as [s1 [Hstep H]].
    apply (IH s1 s'); [eapply Hb; eassumption | exact H].
Qed.

Lemma collect_camera_wf (camera_filter : option string) (week : Z)
    (st st' : dict AllData.t) (item : string * CameraData) :
  dict_wf st -> collect_camera camera_filter week st item = Ok st' ->
  dict_wf st'.
Proof.
  destruct item as [k cd]. intros Hwf H.
  destruct (collect_camera_outcome camera_filter week st k cd)
    as [[_ Hok]|[_ [[_ [_ He]]|[[_ He]|[_ [_ [e1 [st1 [Hok Hst1]]]]]]]]];
    rewrite H in *; try discriminate.
  - now inversion Hok; subst.
  - inversion Hok; subst. apply dict_set_wf.
    destruct Hst1 as [->|[e0 ->]]; [exact Hwf | now apply dict_set_wf].
Qed.

Lemma collect_all_data_wf (fetch : Resolver)
    (params : AnalyzeCameraPerformanceInput.t) (weeks : list Z)
    (all_data : dict AllData.t) :
  collect_all_data fetch params weeks = Ok all_data -> dict_wf all_data.
Proof.
  intros H. unfold collect_all_data in H.
  apply (foldM_preserves (collect_week fetch params) dict_wf weeks)
    with (s := []); [|apply NoDup_nil|exact H].
  intros s w s' Hs Hstep. unfold collect_week in Hstep.
  destruct (truthy_data _); [|now inversion Hstep; subst].
  eapply (foldM_preserves _ dict_wf); [|exact Hs|exact Hstep].
  intros s1 item s2 Hs1. now apply collect_camera_wf.
Qed.

(** The statistics phase keeps the device order: one analysis entry per
    rollup. *)
Lemma analyse_loop_keys (all_data : dict AllData.t) :
  dict_wf all_data ->
  forall acc analysis,
    (forall k, In k (keys all_data) -> ~ In k (keys acc)) ->
    foldM analyse_camera all_data acc = Ok analysis ->
    keys analysis = keys acc ++ keys all_data.
Proof.
  unfold dict_wf. induction all_data as [|[k d] all_data IH];
    intros Hwf acc analysis Hfresh H.
  - simpl in H. inversion H; subst. simpl. now rewrite app_nil_r.
  - inversion Hwf as [|? ? Hnotin Hwf']; subst.
    cbn [foldM] in H. apply bind_Ok in H. destruct H as [st [Hstep H]].
    unfold analyse_camera in Hstep. inv_bind.
    match type of H with
    | context [dict_set k ?a acc] => set (entry := a) in *
    end.
    assert (Hnew : dict_mem k acc = false).
    { destruct (dict_mem k acc) eqn:E; [|reflexivity].
      apply dict_mem_In in E. exfalso.
      apply (Hfresh k); [now left | exact E]. }
    rewrite (IH Hwf' (dict_set k entry acc) analysis); [| |exact H].
    + rewrite keys_dict_set_new by exact Hnew. now rewrite <- app_assoc.
    + intros k' Hin. rewrite keys_dict_set_new by exact Hnew.
      intros Hin'. apply in_app_or in Hin'. destruct Hin' as [Hin'|[<-|[]]].
      * apply (Hfresh k'); [now right | exact Hin'].
      * contradiction.
Qed.

(** [round(mean(vs), 2) if vs else 0] returns on values inside the
    floating-point range. *)
Lemma daily_avg_in_range (vs : list Z) :
  Forall in_float_range vs -> exists q, daily_avg vs = Ok q.
Proof.
  intros Hall. destruct vs as [|v vs]; [eexists; reflexivity|].
  destruct (mean_between _ _ _ _ (v :: vs) ltac:(discriminate)
              (in_float_range_bounds _ Hall) pow2_1000_neg pow2_1000
              (Qle_refl _) (Qle_refl _)) as [m [_ [Hm _]]].
  unfold daily_avg. rewrite Hm. eexists. reflexivity.
Qed.

(** The statistics phase returns when the figures of every rollup are
    inside the floating-point range. *)
Lemma analyse_loop_in_range (all_data : dict AllData.t) :
  (forall k d, In (k, d) all_data -> rollup_in_range d) ->
  forall acc, exists analysis, foldM analyse_camera all_data acc = Ok analysis.
Proof.
  induction all_data as [|[k d] all_data IH]; intros Hr acc.
  - exists acc. reflexivity.
  - destruct (Hr k d (or_introl eq_refl)) as [R1 [R2 [R3 R4]]].
    cbn [foldM]. unfold analyse_camera at 1.
    assert (Hs : exists s, calculate_statistics (AllData.infractions d) = Ok s).
    { destruct (AllData.infractions d) as [|x l] eqn:E;
        [eexists; reflexivity|].
      apply calculate_statistics_in_range; [discriminate | exact R1]. }
    destruct Hs as [s ->].
    destruct (daily_avg_in_range _ R2) as [q1 ->].
    destruct (daily_avg_in_range _ R3) as [q2 ->].
    rewrite <- py_sumZ_sumZ in R4.
    rewrite (rounded_efficiency_in_range _ _ R4). cbn [bind].
    apply IH. intros k' d' Hin. apply (Hr k' d'). now right.
Qed.

(** The exceptions of the statistics phase: a quotient of two integers
    raises only when it is too large for a float. *)
Lemma int_truediv_Err (a b : Z) (e : PyError) :
  b <> 0 -> int_truediv a b = Err e -> e = OverflowError.
Proof.
  intros Hb. unfold int_truediv.
  destruct (Z.eqb_spec b 0) as [E|_]; [contradiction|].
  destruct (to_float _); intros H; now inversion H.
Qed.

Lemma mean_Err (S : list Z) (e : PyError) :
  S <> [] -> mean S = Err e -> e = OverflowError.
Proof.
  intros Hne. unfold mean. destruct S as [|x l]; [congruence|].
  destruct (_ =? 0); [discriminate|].
  destruct (int_truediv _ _) as [v|e'] eqn:E; [discriminate|].
  intros H. inversion H; subst.
  refine (int_truediv_Err _ _ _ _ E). cbn [List.length]. lia.
Qed.

Lemma median_Err (S : list Z) (e : PyError) :
  S <> [] -> median S = Err e -> e = OverflowError.
Proof.
  intros Hne. unfold median.
  assert (Hlen : List.length (py_sort Z.leb S) = List.length S)
    by (apply Permutation_length, py_sort_perm).
  destruct (List.length (py_sort Z.leb S)) as [|n] eqn:En.
  - destruct S; [congruence | simpl in Hlen; discriminate].
  - destruct (Nat.eqb _ 1); [discriminate|].
    destruct (int_truediv _ _) as [v|e'] eqn:E; [discriminate|].
    intros H. inversion H; subst.
    refine (int_truediv_Err _ _ _ _ E). lia.
Qed.

Lemma calculate_statistics_Err (S : list Z) (e : PyError) :
  calculate_statistics S = Err e -> e = OverflowError.
Proof.
  unfold calculate_statistics. destruct S as [|x l]; [discriminate|].
  destruct (mean (x :: l)) as [m|e1] eqn:Em;
    [|intros H; inversion H; subst;
      now apply (mean_Err (x :: l) e ltac:(discriminate))].
  destruct (median (x :: l)) as [md|e2] eqn:Emd;
    [|intros H; inversion H; subst;
      now apply (median_Err (x :: l) e ltac:(discriminate))].
  discriminate.
Qed.

Lemma daily_avg_Err (vs : list Z) (e : PyError) :
  daily_avg vs = Err e -> e = OverflowError.
Proof.
  unfold daily_avg. destruct vs as [|v vs]; [discriminate|].
  destruct (mean (v :: vs)) as [m|e1] eqn:Em; [discriminate|].
  intros H. inversion H; subst.
  now apply (mean_Err (v :: vs) e ltac:(discriminate)).
Qed.

Lemma rounded_efficiency_Err (a b : Z) (e : PyError) :
  rounded_efficiency a b = Err e -> e = OverflowError.
Proof.
  destruct (rounded_efficiency_cases a b) as [[_ E]|[[_ [E _]]|[_ [E _]]]];
    rewrite E; intros H; now inversion H.
Qed.

Lemma analyse_camera_Err (acc : dict Analysis.t) (item : string * AllData.t)
    (e : PyError) :
  analyse_camera acc item = Err e -> e = OverflowError.
Proof.
  destruct item as [k d]. unfold analyse_camera.
  destruct (calculate_statistics _) as [s|e1] eqn:E1;
    [|intros H; inversion H; subst; now apply calculate_statistics_Err in E1].
  destruct (daily_avg (values (AllData.daily_infractions d))) as [q1|e2] eqn:E2;
    [|intros H; inversion H; subst; now apply daily_avg_Err in E2].
  destruct (daily_avg (values (AllData.daily_frames d))) as [q2|e3] eqn:E3;
    [|intros H; inversion H; subst; now apply daily_avg_Err in E3].
  destruct (rounded_efficiency _ _) as [q3|e4] eqn:E4;
    [discriminate|intros H; inversion H; subst;
                  now apply rounded_efficiency_Err in E4].
Qed.

Lemma analyse_loop_Err (all_data : dict AllData.t) (acc : dict Analysis.t)
    (e : PyError) :
  foldM analyse_camera all_data acc = Err e -> e = OverflowError.
Proof.
  apply (foldM_Err_inv analyse_camera (fun e => e = OverflowError)).
  intros st x e' _. apply analyse_camera_Err.
Qed.

Lemma analyze_payload_inv (fetch : Resolver)
    (params : AnalyzeCameraPerformanceInput.t) (analysis : dict Analysis.t) :
  analyze_camera_performance fetch params = Payload analysis ->
  exists all_data,
    collect_all_data fetch params (weeks_to_analyze fetch params) = Ok all_data
    /\ all_data <> []
    /\ foldM analyse_camera all_data [] = Ok analysis.
Proof.
  intros H. apply run_tool_Payload in H.
  unfold analyze_camera_performance in H.
  destruct (weeks_to_analyze fetch params) as [|w ws]; [discriminate|].
  inv_bind. destruct a as [|x all_data]; [discriminate|]. inv_bind.
  exists (x :: all_data). split; [exact Ha|]. split; [discriminate | exact Ha0].
Qed.

(** X11: the statistics phase of the analysis.  A successful analysis has
    one entry per rollup, in the same device order.  Once the rollups are
    built, the analysis returns whenever the figures of every rollup are at
    most 2^1000 in absolute value; and whatever the figures are, the
    statistics phase raises no division by zero, no statistics error and no
    error of an empty minimum or maximum, since every mean, median and
    quotient is guarded. *)
Theorem X11_analysis_statistics_phase (fetch : Resolver)
    (params : AnalyzeCameraPerformanceInput.t) :
  (forall analysis,
      analyze_camera_performance fetch params = Payload analysis ->
      exists all_data,
        collect_all_data fetch params (weeks_to_analyze fetch params)
        = Ok all_data
        /\ all_data <> []
        /\ keys analysis = keys all_data)
  /\ (forall all_data,
        weeks_to_analyze fetch params <> [] ->
        collect_all_data fetch params (weeks_to_analyze fetch params)
        = Ok all_data ->
        all_data <> [] ->
        (forall k d, In (k, d) all_data -> rollup_in_range d) ->
        exists analysis,
          analyze_camera_performance fetch params = Payload analysis
          /\ keys analysis = keys all_data)
  /\ (forall all_data e,
        collect_all_data fetch params (weeks_to_analyze fetch params)
        = Ok all_data ->
        analyze_camera_performance fetch params = ErrorMessage e ->
        e <> ZeroDivisionError /\ e <> StatisticsError /\ e <> ValueError).
Proof.
  split; [|split].
  - intros analysis H.
    destruct (analyze_payload_inv fetch params analysis H)
      as [all_data [Hc [Hne Hf]]].
    exists all_data. split; [exact Hc|]. split; [exact Hne|].
    apply (analyse_loop_keys all_data (collect_all_data_wf _ _ _ _ Hc) []
             analysis); [intros k _ [] | exact Hf].
  - intros all_data Hw Hc Hne Hr.
    destruct (analyse_loop_in_range all_data Hr []) as [analysis Hf].
    exists analysis. split.
    + unfold analyze_camera_performance.
      destruct (weeks_to_analyze fetch params) as [|w ws]; [congruence|].
      rewrite Hc. cbn [bind].
      destruct all_data as [|x all_data]; [congruence|].
      rewrite Hf. reflexivity.
    + apply (analyse_loop_keys all_data (collect_all_data_wf _ _ _ _ Hc) []
               analysis); [intros k _ [] | exact Hf].
  - intros all_data e Hc H. unfold analyze_camera_performance in H.
    destruct (weeks_to_analyze fetch params) as [|w ws]; [discriminate|].
    rewrite Hc in H. cbn [bind] in H.
    destruct all_data as [|x all_data]; [discriminate|].
    destruct (foldM analyse_camera (x :: all_data) []) as [a|e1] eqn:Hf;
      [discriminate|].
    cbn [bind run_tool] in H. inversion H; subst.
    apply analyse_loop_Err in Hf. subst.
    repeat split; discriminate.
Qed.

Lemma X11_witness :
  exists analysis,
    analyze_camera_performance (one_week week_A)
      (AnalyzeCameraPerformanceInput.mk 1 "enero" None None)
    = Payload analysis
    /\ keys analysis = ["A"%string].
Proof.
  apply (proj1 (proj2 (X11_analysis_statistics_phase (one_week week_A)
                  (AnalyzeCameraPerformanceInput.mk 1 "enero" None None)))
           [("A"%string,
             AllData.mk "Cam A" [1] [10] []
               [("01-05", 4); ("01-06", 6)]%string
               [("01-05", 40); ("01-06", 60)]%string)]).
  - vm_compute. discriminate.
  - vm_compute. reflexivity.
  - discriminate.
  - intros k d [H|[]]. inversion H; subst.
    repeat split; repeat constructor; vm_compute; discriminate.
Defined.

Lemma selected_filter_eq (c k : string) :
  c <> ""%string -> selected (Some c) k = true -> k = c.
Proof.
  unfold selected, truthy_str. intros Hc H.
  apply String.eqb_neq in Hc. rewrite Hc in H. simpl in H.
  rewrite negb_involutive in H. now apply String.eqb_eq.
Qed.

Lemma NoDup_all_equal {A : Type} (c : A) (l : list A) :
  NoDup l -> l <> [] -> (forall x, In x l -> x = c) -> l = [c].
Proof.
  intros Hnd Hne Hall. destruct l as [|x l]; [congruence|].
  rewrite (Hall x (or_introl eq_refl)) in *.
  destruct l as [|y l]; [reflexivity|].
  inversion Hnd as [|? ? Hnotin _]; subst. exfalso. apply Hnotin.
  left. apply Hall. right. now left.
Qed.

(** X12: with a non-empty device filter the analysis reports that device
    and no other: a successful answer has exactly one entry, keyed by the
    filter. *)
Theorem X12_device_filter_single_entry (fetch : Resolver)
    (params : AnalyzeCameraPerformanceInput.t) (c : string)
    (analysis : dict Analysis.t) :
  resolver_wf fetch ->
  AnalyzeCameraPerformanceInput.camera_id params = Some c ->
  c <> ""%string ->
  analyze_camera_performance fetch params = Payload analysis ->
  keys analysis = [c].
Proof.
  intros Hwf Hflt Hc H.
  destruct (analyze_payload_inv fetch params analysis H)
    as [all_data [Hcol [Hne Hf]]].
  pose proof (collect_all_data_wf _ _ _ _ Hcol) as Hd.
  rewrite (analyse_loop_keys all_data Hd [] analysis (fun k _ H => H) Hf).
  simpl.
  apply NoDup_all_equal; [exact Hd | |].
  - destruct all_data; [congruence | discriminate].
  - intros k Hin. apply selected_filter_eq; [exact Hc|].
    rewrite <- Hflt.
    destruct (selected (AnalyzeCameraPerformanceInput.camera_id params) k)
      eqn:Hs; [reflexivity|].
    pose proof (collect_all_unselected _ _ _ _ k Hwf Hcol Hs) as Hnone.
    apply dict_get_None in Hnone. contradiction.
Qed.

Lemma X12_witness :
  exists analysis,
    analyze_camera_performance (one_week week_AB)
      (AnalyzeCameraPerformanceInput.mk 1 "enero" None (Some "B"%string))
    = Payload analysis
    /\ keys analysis = ["B"%string].
Proof.
  eexists. split; [vm_compute; reflexivity|].
  apply (X12_device_filter_single_entry (one_week week_AB)
           (AnalyzeCameraPerformanceInput.mk 1 "enero" None (Some "B"%string))
           "B").
  - apply one_week_wf, week_AB_wf.
  - reflexivity.
  - discriminate.
  - vm_compute. reflexivity.
Defined.

(** *** The infraction statistics of a rollup *)

(** Every analysis entry is computed from the rollup of its device. *)
Lemma analyse_loop_stats (all_data : dict AllData.t)
    (analysis : dict Analysis.t) :
  foldM analyse_camera all_data [] = Ok analysis ->
  forall cid a, dict_get cid analysis = Some a ->
  exists d, In (cid, d) all_data
    /\ calculate_statistics (AllData.infractions d)
       = Ok (Analysis.infraction_stats a)
    /\ Analysis.weeks_analyzed a = List.length (AllData.weeks d)
    /\ Analysis.name a = AllData.name d.
Proof.
  intros Hf.
  apply (foldM_invariant analyse_camera
           (fun done st => forall cid a, dict_get cid st = Some a ->
              exists d, In (cid, d) done
                /\ calculate_statistics (AllData.infractions d)
                   = Ok (Analysis.infraction_stats a)
                /\ Analysis.weeks_analyzed a = List.length (AllData.weeks d)
                /\ Analysis.name a = AllData.name d)
           all_data [] analysis); [discriminate| |exact Hf].
  intros done [k d] st st' Hst Hb cid a Ha. unfold analyse_camera in Hb.
  apply bind_Ok in Hb. destruct Hb as [s [Hs Hb]]. inv_bind.
  rewrite dict_get_set in Ha. destruct (String.eqb cid k) eqn:E.
  - apply String.eqb_eq in E; subst. inversion Ha; subst; clear Ha.
    exists d. split; [apply in_or_app; right; now left|]. simpl. auto.
  - destruct (Hst cid a Ha) as [d' [Hin Hrest]].
    exists d'. split; [apply in_or_app; now left | exact Hrest].
Qed.

(** Every rollup has as many stored totals as periods, and at least one. *)
Lemma collect_all_data_aligned (fetch : Resolver)
    (params : AnalyzeCameraPerformanceInput.t) (weeks : list Z)
    (all_data : dict AllData.t) :
  collect_all_data fetch params weeks = Ok all_data ->
  forall k e, dict_get k all_data = Some e ->
    List.length (AllData.weeks e) = List.length (AllData.infractions e)
    /\ AllData.infractions e <> [].
Proof.
  intros H. unfold collect_all_data in H.
  apply (foldM_preserves (collect_week fetch params)
           (fun st => forall k e, dict_get k st = Some e ->
              List.length (AllData.weeks e)
              = List.length (AllData.infractions e)
              /\ AllData.infractions e <> []) weeks) with (s := []);
    [|discriminate|exact H].
  intros s w s' Hs Hstep. unfold collect_week in Hstep.
  destruct (truthy_data _); [|now inversion Hstep; subst].
  revert Hs Hstep.
  apply (foldM_preserves _
           (fun st => forall k e, dict_get k st = Some e ->
              List.length (AllData.weeks e)
              = List.length (AllData.infractions e)
              /\ AllData.infractions e <> [])).
  intros s1 [k0 cd] s2 Hs1 Hc k e He.
  destruct (collect_camera_merged _ _ _ _ _ _ Hc) as [Hskip [Hother _]].
  destruct (selected (AnalyzeCameraPerformanceInput.camera_id params) k0)
    eqn:Hsel; [|rewrite (Hskip eq_refl) in He; now apply (Hs1 k e)].
  destruct (String.eqb k k0) eqn:E.
  - apply String.eqb_eq in E. subst k0.
    destruct (collect_camera_lists _ _ _ _ _ _ Hc Hsel)
      as [e' [t [He' [_ [Hw [Hi _]]]]]].
    rewrite He in He'. inversion He'; subst e'.
    rewrite Hw, Hi, !length_app. simpl.
    split; [|intros Habs; now apply app_eq_nil in Habs as [_ Habs']].
    destruct (dict_get k s1) as [e0|] eqn:Hk; simpl; [|reflexivity].
    destruct (Hs1 k e0 Hk) as [Hlen _]. now rewrite Hlen.
  - apply String.eqb_neq in E. rewrite (Hother k E) in He.
    now apply (Hs1 k e).
Qed.

(** X13: for every device of a successful analysis, the infraction
    statistics are those of the device's per-period stored totals: the
    total is their sum, the minimum and maximum are among them, the number
    of weeks analysed is their number (at least one), and, for stored
    totals of at most 2^53 in absolute value, the rounded mean and median
    lie between the minimum and the maximum. *)
Theorem X13_analysis_statistics_of_totals (fetch : Resolver)
    (params : AnalyzeCameraPerformanceInput.t) (analysis : dict Analysis.t)
    (cid : string) (a : Analysis.t) :
  analyze_camera_performance fetch params = Payload analysis ->
  dict_get cid analysis = Some a ->
  exists all_data d,
    collect_all_data fetch params (weeks_to_analyze fetch params) = Ok all_data
    /\ dict_get cid all_data = Some d
    /\ Analysis.name a = AllData.name d
    /\ Analysis.weeks_analyzed a = List.length (AllData.infractions d)
    /\ (1 <= Analysis.weeks_analyzed a)%nat
    /\ let s := Analysis.infraction_stats a in
       st_total s = sumZ (AllData.infractions d)
       /\ In (st_min s) (AllData.infractions d)
       /\ Forall (fun x => st_min s <= x) (AllData.infractions d)
       /\ In (st_max s) (AllData.infractions d)
       /\ Forall (fun x => x <= st_max s) (AllData.infractions d)
       /\ (Forall int53 (AllData.infractions d) ->
           num_le (PyInt (st_min s)) (st_mean s)
           /\ num_le (st_mean s) (PyInt (st_max s))
           /\ num_le (PyInt (st_min s)) (st_median s)
           /\ num_le (st_median s) (PyInt (st_max s))).
Proof.
  intros H Ha.
  destruct (analyze_payload_inv fetch params analysis H)
    as [all_data [Hcol [_ Hf]]].
  destruct (analyse_loop_stats all_data analysis Hf cid a Ha)
    as [d [Hin [Hstats [Hweeks Hname]]]].
  pose proof (dict_wf_get cid d all_data (collect_all_data_wf _ _ _ _ Hcol) Hin)
    as Hd.
  destruct (collect_all_data_aligned _ _ _ _ Hcol cid d Hd) as [Hlen Hne].
  destruct (statistics_exact_fields _ _ Hne Hstats)
    as [Ht [Ilo [Alo [Ihi Ahi]]]].
  exists all_data, d. split; [exact Hcol|]. split; [exact Hd|].
  split; [exact Hname|]. split; [congruence|]. split.
  - rewrite Hweeks, Hlen. destruct (AllData.infractions d);
      [congruence | simpl; lia].
  - cbv zeta. repeat (split; [assumption|]).
    intros H53. exact (statistics_bounds _ _ Hne H53 Hstats).
Qed.

Lemma X13_witness :
  exists all_data d,
    collect_all_data (one_week week_A)
      (AnalyzeCameraPerformanceInput.mk 1 "enero" None None)
      (weeks_to_analyze (one_week week_A)
         (AnalyzeCameraPerformanceInput.mk 1 "enero" None None))
    = Ok all_data
    /\ dict_get "A" all_data = Some d
    /\ "Cam A"%string = AllData.name d
    /\ 1%nat = List.length (AllData.infractions d)
    /\ (1 <= 1)%nat
    /\ let s := mkStatistics (PyInt 10) (PyInt 10) 10 10 10 in
       st_total s = sumZ (AllData.infractions d)
       /\ In (st_min s) (AllData.infractions d)
       /\ Forall (fun x => st_min s <= x) (AllData.infractions d)
       /\ In (st_max s) (AllData.infractions d)
       /\ Forall (fun x => x <= st_max s) (AllData.infractions d)
       /\ (Forall int53 (AllData.infractions d) ->
           num_le (PyInt (st_min s)) (st_mean s)
           /\ num_le (st_mean s) (PyInt (st_max s))
           /\ num_le (PyInt (st_min s)) (st_median s)
           /\ num_le (st_median s) (PyInt (st_max s))).
Proof.
  apply (X13_analysis_statistics_of_totals (one_week week_A)
           (AnalyzeCameraPerformanceInput.mk 1 "enero" None None)
           [("A"%string,
             Analysis.mk "Cam A" 1
               (mkStatistics (PyInt 10) (PyInt 10) 10 10 10)
               (PyInt 5) (PyInt 50) (PyFloat (to_float 10)))]
           "A"
           (Analysis.mk "Cam A" 1
              (mkStatistics (PyInt 10) (PyInt 10) 10 10 10)
              (PyInt 5) (PyInt 50) (PyFloat (to_float 10)))).
  - vm_compute. reflexivity.
  - reflexivity.
Defined.

(** ** More on the monthly rollup *)

Lemma dict_map_set {V W : Type} (f : V -> W) (k : string) (v : V) (d : dict V) :
  dict_map f (dict_set k v d) = dict_set k (f v) (dict_map f d).
Proof.
  induction d as [|[k' v'] d IH]; simpl; [reflexivity|].
  destruct (String.eqb k k'); simpl; [reflexivity | now rewrite IH].
Qed.

Lemma dict_map_get {V W : Type} (f : V -> W) (k : string) (d : dict V) :
  dict_get k (dict_map f d) = option_map f (dict_get k d).
Proof.
  induction d as [|[k' v'] d IH]; simpl; [reflexivity|].
  destruct (String.eqb k k'); simpl; [reflexivity | exact IH].
Qed.

Lemma add_daily_old (acc : dict Z) (k : string) (v c : Z) :
  dict_get k acc = Some v ->
  add_daily acc (k, c) = Ok (dict_set k (v + c) acc).
Proof.
  intros H. unfold add_daily, dict_mem, dict_getitem. now rewrite H, H.
Qed.

Lemma add_daily_new (acc : dict Z) (k : string) (c : Z) :
  dict_get k acc = None ->
  add_daily acc (k, c) = Ok (dict_set k c (dict_set k 0 acc)).
Proof.
  intros H. unfold add_daily, dict_mem, dict_getitem.
  now rewrite H, dict_get_set_same.
Qed.

(** Creating an entry when absent and adding 0 to it. *)
Lemma add_daily_zero (acc : dict Z) (k : string) :
  add_daily acc (k, 0)
  = Ok (if dict_mem k acc then acc else dict_set k 0 acc).
Proof.
  unfold dict_mem. destruct (dict_get k acc) as [v|] eqn:H.
  - rewrite (add_daily_old acc k v 0 H), Z.add_0_r.
    now rewrite dict_set_same_value.
  - rewrite (add_daily_new acc k 0 H).
    rewrite (dict_set_same_value k 0); [reflexivity | apply dict_get_set_same].
Qed.

Lemma init_daily_views (date : string) (md : MonthData.t) :
  MonthData.cameras (init_daily date md) = MonthData.cameras md
  /\ same_totals md (init_daily date md)
  /\ daily_inf_view (MonthData.daily_totals (init_daily date md))
     = (if dict_mem date (daily_inf_view (MonthData.daily_totals md))
        then daily_inf_view (MonthData.daily_totals md)
        else dict_set date 0 (daily_inf_view (MonthData.daily_totals md)))
  /\ daily_frames_view (MonthData.daily_totals (init_daily date md))
     = (if dict_mem date (daily_frames_view (MonthData.daily_totals md))
        then daily_frames_view (MonthData.daily_totals md)
        else dict_set date 0 (daily_frames_view (MonthData.daily_totals md)))
  /\ exists d, dict_get date (MonthData.daily_totals (init_daily date md))
               = Some d.
Proof.
  unfold init_daily, same_totals, daily_inf_view, daily_frames_view, dict_mem.
  rewrite !dict_map_get.
  destruct (dict_get date (MonthData.daily_totals md)) as [d|] eqn:H; simpl.
  - rewrite H. repeat split; eauto.
  - rewrite !dict_map_set, dict_get_set_same. repeat split; eauto.
Qed.

(** One entry of a daily infraction mapping in the monthly loop. *)
Lemma month_infraction_run (md : MonthData.t) (wi wf : Z) (entry : string * Z) :
  exists md',
    month_infraction (md, wi, wf) entry = Ok (md', wi + snd entry, wf)
    /\ MonthData.cameras md' = MonthData.cameras md
    /\ same_totals md md'
    /\ add_daily (daily_inf_view (MonthData.daily_totals md)) entry
       = Ok (daily_inf_view (MonthData.daily_totals md'))
    /\ add_daily (daily_frames_view (MonthData.daily_totals md)) (fst entry, 0)
       = Ok (daily_frames_view (MonthData.daily_totals md')).
Proof.
  destruct entry as [date count]. unfold month_infraction.
  destruct (init_daily_views date md) as [Hc [Ht [Hi [Hf [d Hd]]]]].
  unfold dict_getitem. rewrite Hd. cbn [bind]. eexists.
  split; [reflexivity|]. cbn [MonthData.set_daily_totals MonthData.cameras
    MonthData.daily_totals fst snd].
  split; [exact Hc|]. split; [exact Ht|].
  unfold daily_inf_view, daily_frames_view in *.
  rewrite !dict_map_set, Hi, Hf. cbn [DailyTotals.infractions DailyTotals.frames].
  assert (Hdi : dict_get date (dict_map DailyTotals.infractions
                                 (MonthData.daily_totals (init_daily date md)))
                = Some (DailyTotals.infractions d))
    by (rewrite dict_map_get, Hd; reflexivity).
  assert (Hdf : dict_get date (dict_map DailyTotals.frames
                                 (MonthData.daily_totals (init_daily date md)))
                = Some (DailyTotals.frames d))
    by (rewrite dict_map_get, Hd; reflexivity).
  rewrite Hi in Hdi. rewrite Hf in Hdf. split.
  - unfold add_daily, dict_getitem. rewrite Hdi. reflexivity.
  - rewrite add_daily_zero. now rewrite (dict_set_same_value _ _ _ Hdf).
Qed.

Lemma same_totals_refl (md : MonthData.t) : same_totals md md.
Proof. unfold same_totals. auto. Qed.

Lemma same_totals_trans (a b c : MonthData.t) :
  same_totals a b -> same_totals b c -> same_totals a c.
Proof. unfold same_totals. intros [? [? ?]] [? [? ?]]. repeat split; congruence. Qed.

(** The infractions loop of one observation, on all views. *)
Lemma month_infractions_run (entries : dict Z) :
  forall (md : MonthData.t) (wi wf : Z),
  exists md',
    foldM month_infraction entries (md, wi, wf)
    = Ok (md', wi + sumZ (values entries), wf)
    /\ MonthData.cameras md' = MonthData.cameras md
    /\ same_totals md md'
    /\ foldM add_daily entries (daily_inf_view (MonthData.daily_totals md))
       = Ok (daily_inf_view (MonthData.daily_totals md'))
    /\ foldM add_daily (zeroed entries)
         (daily_frames_view (MonthData.daily_totals md))
       = Ok (daily_frames_view (MonthData.daily_totals md')).
Proof.
  induction entries as [|entry entries IH]; intros md wi wf.
  - exists md. cbn [foldM values map sumZ fold_right zeroed].
    rewrite Z.add_0_r. repeat split; auto using same_totals_refl.
  - destruct (month_infraction_run md wi wf entry)
      as [md1 [Hstep [Hc [Ht [Hi Hf]]]]].
    destruct (IH md1 (wi + snd entry) wf) as [md' [Hrun [Hc' [Ht' [Hi' Hf']]]]].
    exists md'.
    change (zeroed (entry :: entries)) with ((fst entry, 0) :: zeroed entries).
    cbn [foldM]. rewrite Hstep, Hi, Hf. cbn [bind].
    rewrite Hrun, Hi', Hf'. split.
    + unfold values, sumZ. cbn [map fold_right]. now rewrite Z.add_assoc.
    + split; [congruence|].
      split; [eapply same_totals_trans; eassumption|]. split; reflexivity.
Qed.

(** One entry of a daily frame mapping in the monthly loop. *)
Lemma month_frame_run (k : string) (md : MonthData.t) (wi wf : Z)
    (entry : string * Z) (c0 : CameraTotals.t) :
  dict_get k (MonthData.cameras md) = Some c0 ->
  exists md' c1,
    month_frame k (md, wi, wf) entry = Ok (md', wi, wf + snd entry)
    /\ dict_get k (MonthData.cameras md') = Some c1
    /\ same_totals md md'
    /\ inf_view (MonthData.cameras md') = inf_view (MonthData.cameras md)
    /\ active_view (MonthData.cameras md') = active_view (MonthData.cameras md)
    /\ names_view (MonthData.cameras md') = names_view (MonthData.cameras md)
    /\ add_daily (frames_view (MonthData.cameras md)) (k, snd entry)
       = Ok (frames_view (MonthData.cameras md'))
    /\ add_daily (daily_inf_view (MonthData.daily_totals md)) (fst entry, 0)
       = Ok (daily_inf_view (MonthData.daily_totals md'))
    /\ add_daily (daily_frames_view (MonthData.daily_totals md)) entry
       = Ok (daily_frames_view (MonthData.daily_totals md')).
Proof.
  destruct entry as [date count]. intros Hk. unfold month_frame.
  destruct (init_daily_views date md) as [Hc [Ht [Hi [Hf [d Hd]]]]].
  unfold dict_getitem. rewrite Hd. cbn [bind].
  cbn [MonthData.set_daily_totals MonthData.cameras MonthData.daily_totals].
  rewrite Hc, Hk. cbn [bind]. eexists. eexists.
  split; [reflexivity|].
  cbn [MonthData.set_cameras MonthData.set_daily_totals MonthData.cameras
       MonthData.daily_totals fst snd].
  split; [apply dict_get_set_same|].
  split; [exact Ht|].
  unfold active_view, names_view, frames_view, daily_inf_view,
    daily_frames_view in *.
  rewrite inf_view_set, !dict_map_set, Hi, Hf.
  cbn [CameraTotals.total_infractions CameraTotals.weeks_active
       CameraTotals.name CameraTotals.total_frames
       DailyTotals.infractions DailyTotals.frames].
  assert (Hdi : dict_get date (dict_map DailyTotals.infractions
                                 (MonthData.daily_totals (init_daily date md)))
                = Some (DailyTotals.infractions d))
    by (rewrite dict_map_get, Hd; reflexivity).
  assert (Hdf : dict_get date (dict_map DailyTotals.frames
                                 (MonthData.daily_totals (init_daily date md)))
                = Some (DailyTotals.frames d))
    by (rewrite dict_map_get, Hd; reflexivity).
  rewrite Hi in Hdi. rewrite Hf in Hdf.
  split; [apply dict_set_same_value; now rewrite inf_view_get, Hk|].
  split; [apply dict_set_same_value; now rewrite dict_map_get, Hk|].
  split; [apply dict_set_same_value; now rewrite dict_map_get, Hk|].
  split; [apply add_daily_old; now rewrite dict_map_get, Hk|].
  split.
  - rewrite add_daily_zero. now rewrite (dict_set_same_value _ _ _ Hdi).
  - unfold add_daily, dict_getitem. rewrite Hdf. reflexivity.
Qed.

(** The frames loop of one observation, on all views. *)
Lemma month_frames_run (k : string) (entries : dict Z) :
  forall (md : MonthData.t) (wi wf : Z) (c0 : CameraTotals.t),
  dict_get k (MonthData.cameras md) = Some c0 ->
  exists md' c1,
    foldM (month_frame k) entries (md, wi, wf)
    = Ok (md', wi, wf + sumZ (values entries))
    /\ dict_get k (MonthData.cameras md') = Some c1
    /\ same_totals md md'
    /\ inf_view (MonthData.cameras md') = inf_view (MonthData.cameras md)
    /\ active_view (MonthData.cameras md') = active_view (MonthData.cameras md)
    /\ names_view (MonthData.cameras md') = names_view (MonthData.cameras md)
    /\ foldM add_daily (map (fun e => (k, snd e)) entries)
         (frames_view (MonthData.cameras md))
       = Ok (frames_view (MonthData.cameras md'))
    /\ foldM add_daily (zeroed entries)
         (daily_inf_view (MonthData.daily_totals md))
       = Ok (daily_inf_view (MonthData.daily_totals md'))
    /\ foldM add_daily entries (daily_frames_view (MonthData.daily_totals md))
       = Ok (daily_frames_view (MonthData.daily_totals md')).
Proof.
  induction entries as [|entry entries IH]; intros md wi wf c0 Hk.
  - exists md, c0. cbn [foldM values map sumZ fold_right zeroed].
    rewrite Z.add_0_r. repeat split; auto using same_totals_refl.
  - destruct (month_frame_run k md wi wf entry c0 Hk)
      as [md1 [c1 [Hstep [Hk1 [Ht [Hiv [Hav [Hnv [Hfv [Hdi Hdf]]]]]]]]]].
    destruct (IH md1 wi (wf + snd entry) c1 Hk1)
      as [md' [c2 [Hrun [Hk2 [Ht' [Hiv' [Hav' [Hnv' [Hfv' [Hdi' Hdf']]]]]]]]]].
    exists md', c2.
    change (zeroed (entry :: entries)) with ((fst entry, 0) :: zeroed entries).
    cbn [foldM map]. rewrite Hstep, Hfv, Hdi, Hdf.
    cbn [bind]. rewrite Hrun, Hfv', Hdi', Hdf'. split.
    + unfold values, sumZ. cbn [map fold_right]. now rewrite Z.add_assoc.
    + split; [exact Hk2|].
      split; [eapply same_totals_trans; eassumption|].
      repeat (split; [congruence|]). repeat split; reflexivity.
Qed.

(** An observation of a device that the month data already knows. *)
Lemma month_camera_present (md : MonthData.t) (wi wf : Z) (k : string)
    (cd : CameraData) (c0 : CameraTotals.t) (t : Z) :
  dict_get k (MonthData.cameras md) = Some c0 ->
  total cd = Some t ->
  exists md',
    month_camera (md, wi, wf) (k, cd)
    = Ok (md', wi + daily_infraction_sum cd, wf + daily_frame_sum cd)
    /\ same_totals md md'
    /\ inf_view (MonthData.cameras md')
       = dict_set k (CameraTotals.total_infractions c0 + t)
           (inf_view (MonthData.cameras md))
    /\ active_view (MonthData.cameras md')
       = dict_set k (CameraTotals.weeks_active c0 + 1)
           (active_view (MonthData.cameras md))
    /\ names_view (MonthData.cameras md') = names_view (MonthData.cameras md)
    /\ foldM add_daily
         (map (fun e => (k, snd e)) (get_or_empty (frames cd)))
         (frames_view (MonthData.cameras md))
       = Ok (frames_view (MonthData.cameras md'))
    /\ foldM add_daily (daily_inf_events (k, cd))
         (daily_inf_view (MonthData.daily_totals md))
       = Ok (daily_inf_view (MonthData.daily_totals md'))
    /\ foldM add_daily (daily_frame_events (k, cd))
         (daily_frames_view (MonthData.daily_totals md))
       = Ok (daily_frames_view (MonthData.daily_totals md')).
Proof.
  intros Hk Ht. unfold month_camera, dict_mem, dict_getitem.
  rewrite Hk. cbn [bind]. rewrite Hk, Ht. cbn [bind field].
  cbn [MonthData.set_cameras MonthData.cameras MonthData.daily_totals
       MonthData.total_infractions MonthData.total_frames
       MonthData.week_summaries].
  rewrite dict_get_set_same.
  cbn [bind CameraTotals.name CameraTotals.total_infractions
       CameraTotals.total_frames CameraTotals.weeks_active].
  match goal with
  | |- context [foldM month_infraction _ (?m, wi, wf)] => set (md3 := m)
  end.
  destruct (month_infractions_run (get_or_empty (infractions cd)) md3 wi wf)
    as [md4 [Hrun [Hc4 [Ht4 [Hi4 Hf4]]]]].
  rewrite Hrun. cbn [bind].
  assert (Hk3 : dict_get k (MonthData.cameras md3)
                = Some (CameraTotals.mk (CameraTotals.name c0)
                          (CameraTotals.total_infractions c0 + t)
                          (CameraTotals.total_frames c0)
                          (CameraTotals.weeks_active c0 + 1)))
    by (unfold md3; cbn [MonthData.cameras]; apply dict_get_set_same).
  rewrite <- Hc4 in Hk3.
  destruct (month_frames_run k (get_or_empty (frames cd)) md4
              (wi + sumZ (values (get_or_empty (infractions cd)))) wf _ Hk3)
    as [md' [c1 [Hrun' [_ [Ht' [Hiv [Hav [Hnv [Hfv [Hdi Hdf]]]]]]]]]].
  exists md'. split; [exact Hrun'|].
  assert (Ht3 : same_totals md md3) by (unfold same_totals, md3; auto).
  split; [eapply same_totals_trans;
          [exact Ht3 | eapply same_totals_trans; [exact Ht4 | exact Ht']]|].
  rewrite Hc4 in Hiv, Hav, Hnv, Hfv.
  unfold active_view, names_view, frames_view in *.
  unfold md3 in Hiv, Hav, Hnv, Hfv, Hi4, Hf4.
  cbn [MonthData.set_cameras MonthData.cameras MonthData.daily_totals]
    in Hiv, Hav, Hnv, Hfv, Hi4, Hf4.
  rewrite !inf_view_set in Hiv. rewrite !dict_map_set in Hav.
  rewrite !dict_map_set in Hnv. rewrite !dict_map_set in Hfv.
  cbn [CameraTotals.name CameraTotals.total_infractions
       CameraTotals.total_frames CameraTotals.weeks_active] in *.
  split.
  { rewrite Hiv.
    rewrite (dict_set_same_value k (CameraTotals.total_infractions c0 + t));
      [reflexivity | apply dict_get_set_same]. }
  split.
  { rewrite Hav.
    rewrite (dict_set_same_value k (CameraTotals.weeks_active c0)
               (dict_map CameraTotals.weeks_active (MonthData.cameras md)));
      [reflexivity | now rewrite dict_map_get, Hk]. }
  split.
  { rewrite Hnv.
    rewrite !(dict_set_same_value k (CameraTotals.name c0));
      [reflexivity | now rewrite dict_map_get, Hk
       | rewrite dict_set_same_value; now rewrite dict_map_get, Hk]. }
  split.
  { rewrite <- Hfv.
    rewrite !(dict_set_same_value k (CameraTotals.total_frames c0));
      [reflexivity | now rewrite dict_map_get, Hk
       | rewrite dict_set_same_value; now rewrite dict_map_get, Hk]. }
  split.
  - unfold daily_inf_events. rewrite foldM_app. cbn [fst snd].
    rewrite Hi4. cbn [bind]. exact Hdi.
  - unfold daily_frame_events. rewrite foldM_app. cbn [fst snd].
    rewrite Hf4. cbn [bind]. exact Hdf.
Qed.

(** The first observation of a device creates its entry and then proceeds
    as for a known device. *)
Lemma month_camera_create (md : MonthData.t) (wi wf : Z) (k : string)
    (cd : CameraData) (nm : string) :
  dict_get k (MonthData.cameras md) = None ->
  camera cd = Some nm ->
  month_camera (md, wi, wf) (k, cd)
  = month_camera
      (MonthData.set_cameras
         (dict_set k (CameraTotals.mk nm 0 0 0) (MonthData.cameras md)) md,
       wi, wf)
      (k, cd).
Proof.
  intros Hk Hn. unfold month_camera, dict_mem.
  cbn [MonthData.set_cameras MonthData.cameras].
  rewrite Hk, Hn, dict_get_set_same. reflexivity.
Qed.

(** One observation of the monthly loop on all views: each view takes the
    observation's events. *)
Lemma month_camera_run (md : MonthData.t) (wi wf : Z) (k : string)
    (cd : CameraData) :
  total cd <> None ->
  (dict_get k (MonthData.cameras md) = None -> camera cd <> None) ->
  exists md',
    month_camera (md, wi, wf) (k, cd)
    = Ok (md', wi + daily_infraction_sum cd, wf + daily_frame_sum cd)
    /\ same_totals md md'
    /\ views_after md md' (total_events (k, cd)) (active_events (k, cd))
         (frame_events (k, cd)) (daily_inf_events (k, cd))
         (daily_frame_events (k, cd)).
Proof.
  intros Ht Hn. destruct (total cd) as [t|] eqn:Et; [clear Ht | congruence].
  unfold views_after, total_events, active_events, frame_events, stored_total.
  cbn [fst snd]. rewrite Et. cbn [foldM].
  destruct (dict_get k (MonthData.cameras md)) as [c0|] eqn:Hk.
  - destruct (month_camera_present md wi wf k cd c0 t Hk Et)
      as [md' [Hrun [Hsame [Hiv [Hav [_ [Hfv [Hdi Hdf]]]]]]]].
    exists md'. split; [exact Hrun|]. split; [exact Hsame|].
    rewrite (add_daily_old _ k (CameraTotals.total_infractions c0) t)
      by (rewrite inf_view_get, Hk; reflexivity).
    rewrite (add_daily_old _ k (CameraTotals.weeks_active c0) 1)
      by (unfold active_view; rewrite dict_map_get, Hk; reflexivity).
    rewrite add_daily_zero.
    assert (Hmem : dict_mem k (frames_view (MonthData.cameras md)) = true).
    { unfold dict_mem, frames_view. now rewrite dict_map_get, Hk. }
    rewrite Hmem. cbn [bind]. rewrite Hiv, Hav. auto.
  - destruct (camera cd) as [nm|] eqn:En; [|exfalso; now apply Hn].
    rewrite (month_camera_create md wi wf k cd nm Hk En).
    set (md0 := MonthData.set_cameras
                  (dict_set k (CameraTotals.mk nm 0 0 0) (MonthData.cameras md))
                  md).
    assert (Hk0 : dict_get k (MonthData.cameras md0)
                  = Some (CameraTotals.mk nm 0 0 0))
      by (unfold md0; cbn [MonthData.set_cameras MonthData.cameras];
          apply dict_get_set_same).
    destruct (month_camera_present md0 wi wf k cd _ t Hk0 Et)
      as [md' [Hrun [Hsame [Hiv [Hav [_ [Hfv [Hdi Hdf]]]]]]]].
    exists md'. split; [exact Hrun|].
    split; [eapply same_totals_trans; [|exact Hsame];
            unfold same_totals, md0; auto|].
    unfold md0 in Hiv, Hav, Hfv, Hdi, Hdf.
    cbn [MonthData.set_cameras MonthData.cameras MonthData.daily_totals
         CameraTotals.total_infractions CameraTotals.weeks_active]
      in Hiv, Hav, Hfv, Hdi, Hdf.
    unfold active_view, frames_view in *.
    rewrite inf_view_set in Hiv. rewrite dict_map_set in Hav.
    rewrite dict_map_set in Hfv.
    cbn [CameraTotals.total_infractions CameraTotals.weeks_active
         CameraTotals.total_frames] in Hiv, Hav, Hfv.
    rewrite (add_daily_new _ k t) by (rewrite inf_view_get, Hk; reflexivity).
    rewrite (add_daily_new _ k 1) by (rewrite dict_map_get, Hk; reflexivity).
    rewrite add_daily_zero.
    assert (Hmem : dict_mem k (dict_map CameraTotals.total_frames
                                 (MonthData.cameras md)) = false).
    { unfold dict_mem. now rewrite dict_map_get, Hk. }
    rewrite Hmem. cbn [bind]. rewrite Hiv, Hav. auto.
Qed.

(** What makes an observation raise in the monthly loop. *)
Lemma month_camera_raises (md : MonthData.t) (wi wf : Z) (k : string)
    (cd : CameraData) :
  (dict_get k (MonthData.cameras md) = None -> camera cd = None ->
   month_camera (md, wi, wf) (k, cd) = Err (KeyError "camera"))
  /\ ((dict_get k (MonthData.cameras md) = None -> camera cd <> None) ->
      total cd = None ->
      month_camera (md, wi, wf) (k, cd) = Err (KeyError "total")).
Proof.
  unfold month_camera, dict_mem, dict_getitem. split.
  - intros Hk Hn. now rewrite Hk, Hn.
  - intros Hn Ht.
    destruct (dict_get k (MonthData.cameras md)) as [c0|] eqn:Hk.
    + cbn [bind]. rewrite Hk, Ht. reflexivity.
    + destruct (camera cd) as [nm|]; [|exfalso; now apply Hn].
      cbn [bind field MonthData.set_cameras MonthData.cameras].
      rewrite dict_get_set_same, Ht. reflexivity.
Qed.

(** An observation that the monthly loop gets through. *)
Lemma month_camera_inv (md md' : MonthData.t) (wi wf wi' wf' : Z)
    (k : string) (cd : CameraData) :
  month_camera (md, wi, wf) (k, cd) = Ok (md', wi', wf') ->
  wi' = wi + daily_infraction_sum cd
  /\ wf' = wf + daily_frame_sum cd
  /\ same_totals md md'
  /\ views_after md md' (total_events (k, cd)) (active_events (k, cd))
       (frame_events (k, cd)) (daily_inf_events (k, cd))
       (daily_frame_events (k, cd)).
Proof.
  intros H. destruct (month_camera_raises md wi wf k cd) as [R1 R2].
  assert (Hn : dict_get k (MonthData.cameras md) = None -> camera cd <> None).
  { intros Hk Hc. rewrite (R1 Hk Hc) in H. discriminate. }
  assert (Ht : total cd <> None).
  { intros Ht. rewrite (R2 Hn Ht) in H. discriminate. }
  destruct (month_camera_run md wi wf k cd Ht Hn) as [m [Hrun [Hs Hv]]].
  rewrite Hrun in H. inversion H; subst. auto.
Qed.

Lemma views_after_refl (md : MonthData.t) : views_after md md [] [] [] [] [].
Proof. unfold views_after. cbn [foldM]. auto. Qed.

Lemma views_after_app (a b c : MonthData.t)
    (t1 a1 f1 i1 r1 t2 a2 f2 i2 r2 : dict Z) :
  views_after a b t1 a1 f1 i1 r1 ->
  views_after b c t2 a2 f2 i2 r2 ->
  views_after a c (t1 ++ t2) (a1 ++ a2) (f1 ++ f2) (i1 ++ i2) (r1 ++ r2).
Proof.
  unfold views_after.
  intros [A1 [A2 [A3 [A4 A5]]]] [B1 [B2 [B3 [B4 B5]]]].
  rewrite !foldM_app, A1, A2, A3, A4, A5. cbn [bind]. auto.
Qed.

(** The observations of one record set in the monthly loop. *)
Lemma month_data_views (data : PeriodRecordSet) :
  forall (md md' : MonthData.t) (wi wf wi' wf' : Z),
    foldM month_camera data (md, wi, wf) = Ok (md', wi', wf') ->
    wi' = wi + sumZ (map (fun item => daily_infraction_sum (snd item)) data)
    /\ wf' = wf + sumZ (map (fun item => daily_frame_sum (snd item)) data)
    /\ same_totals md md'
    /\ views_after md md' (flat_map total_events data)
         (flat_map active_events data) (flat_map frame_events data)
         (flat_map daily_inf_events data) (flat_map daily_frame_events data).
Proof.
  induction data as [|[k cd] data IH]; intros md md' wi wf wi' wf' H;
    cbn [foldM] in H.
  - inversion H; subst. cbn [map flat_map sumZ].
    split; [simpl; lia|]. split; [simpl; lia|].
    split; [apply same_totals_refl | apply views_after_refl].
  - apply bind_Ok in H. destruct H as [[[m1 i1] f1] [Ha H]].
    destruct (month_camera_inv _ _ _ _ _ _ _ _ Ha) as [Hi [Hf [Hs Hv]]].
    destruct (IH _ _ _ _ _ _ H) as [Hi' [Hf' [Hs' Hv']]].
    cbn [map flat_map sumZ snd].
    split; [simpl; lia|]. split; [simpl; lia|].
    split; [eapply same_totals_trans; eassumption|].
    eapply views_after_app; eassumption.
Qed.

(** One period of the monthly loop, on every part of the month data. *)
Lemma month_week_views (fetch : Resolver) (params : GetMonthlyReportInput.t)
    (md md' : MonthData.t) (week : Z) :
  let mn := GetMonthlyReportInput.month_number params in
  let name := GetMonthlyReportInput.month_name params in
  month_week fetch params md week = Ok md' ->
  MonthData.total_frames md'
  = MonthData.total_frames md
    + sumZ (map (fun item => daily_frame_sum (snd item))
              (week_records fetch mn name week))
  /\ MonthData.week_summaries md'
     = MonthData.week_summaries md
       ++ (if truthy_data (fetch mn name week)
           then [spec_week_summary fetch mn name week] else [])
  /\ views_after md md'
       (week_events total_events fetch mn name week)
       (week_events active_events fetch mn name week)
       (week_events frame_events fetch mn name week)
       (week_events daily_inf_events fetch mn name week)
       (week_events daily_frame_events fetch mn name week).
Proof.
  intros mn name H. unfold month_week in H. fold mn name in H.
  unfold week_events.
  destruct (truthy_data (fetch mn name week)) eqn:Ht; cbn [negb] in H.
  - apply bind_Ok in H. destruct H as [[[m1 i1] f1] [Ha H]].
    inversion H; subst; clear H.
    change (foldM month_camera (week_records fetch mn name week) (md, 0, 0)
            = Ok (m1, i1, f1)) in Ha.
    destruct (month_data_views _ _ _ _ _ _ _ Ha) as [Hi [Hf [[S1 [S2 S3]] Hv]]].
    cbn [MonthData.total_frames MonthData.week_summaries].
    split; [lia|]. split.
    + rewrite S3, Hi, Hf, !Z.add_0_l. reflexivity.
    + exact Hv.
  - inversion H; subst. rewrite (week_records_falsy _ _ _ _ Ht).
    cbn [map flat_map sumZ]. split; [simpl; lia|].
    split; [now rewrite app_nil_r | apply views_after_refl].
Qed.

(** The whole monthly loop, on every part of the month data. *)
Lemma aggregate_month_views (fetch : Resolver)
    (params : GetMonthlyReportInput.t) (weeks : list Z) (md : MonthData.t) :
  let mn := GetMonthlyReportInput.month_number params in
  let name := GetMonthlyReportInput.month_name params in
  aggregate_month fetch params weeks = Ok md ->
  MonthData.total_frames md = spec_frames_total fetch mn name weeks
  /\ MonthData.week_summaries md = spec_week_summaries fetch mn name weeks
  /\ views_after empty_month md
       (month_events total_events fetch mn name weeks)
       (month_events active_events fetch mn name weeks)
       (month_events frame_events fetch mn name weeks)
       (month_events daily_inf_events fetch mn name weeks)
       (month_events daily_frame_events fetch mn name weeks).
Proof.
  intros mn name H.
  apply (foldM_invariant (month_week fetch params)
           (fun done m =>
              MonthData.total_frames m = spec_frames_total fetch mn name done
              /\ MonthData.week_summaries m
                 = spec_week_summaries fetch mn name done
              /\ views_after empty_month m
                   (month_events total_events fetch mn name done)
                   (month_events active_events fetch mn name done)
                   (month_events frame_events fetch mn name done)
                   (month_events daily_inf_events fetch mn name done)
                   (month_events daily_frame_events fetch mn name done))
           weeks empty_month md); [| |exact H].
  - split; [reflexivity|]. split; [reflexivity | apply views_after_refl].
  - intros done w m m' [I1 [I2 I3]] Hstep.
    destruct (month_week_views fetch params m m' w Hstep) as [Hf [Hw Hv]].
    fold mn name in Hf, Hw, Hv.
    split; [|split].
    + rewrite Hf, I1. unfold spec_frames_total.
      rewrite map_app, sumZ_app. simpl. lia.
    + rewrite Hw, I2. unfold spec_week_summaries.
      rewrite filter_app, map_app. cbn [filter].
      destruct (truthy_data (fetch mn name w)); reflexivity.
    + unfold month_events. rewrite !flat_map_app. cbn [flat_map].
      rewrite !app_nil_r. eapply views_after_app; eassumption.
Qed.

Lemma sumZ_values_zeroed (entries : dict Z) : sumZ (values (zeroed entries)) = 0.
Proof.
  unfold values, zeroed. induction entries as [|e l IH]; simpl; [reflexivity|].
  simpl in IH. now rewrite IH.
Qed.

Lemma values_app {V : Type} (a b : dict V) :
  values (a ++ b) = values a ++ values b.
Proof. unfold values. apply map_app. Qed.

Lemma sumZ_frame_events (item : string * CameraData) :
  sumZ (values (frame_events item)) = daily_frame_sum (snd item).
Proof.
  unfold frame_events, daily_frame_sum, values. cbn [map snd sumZ fold_right].
  rewrite map_map. cbn [snd]. reflexivity.
Qed.

Lemma sumZ_daily_frame_events (item : string * CameraData) :
  sumZ (values (daily_frame_events item)) = daily_frame_sum (snd item).
Proof.
  unfold daily_frame_events, daily_frame_sum.
  now rewrite values_app, sumZ_app, sumZ_values_zeroed.
Qed.

Lemma sumZ_daily_inf_events (item : string * CameraData) :
  sumZ (values (daily_inf_events item)) = daily_infraction_sum (snd item).
Proof.
  unfold daily_inf_events, daily_infraction_sum.
  rewrite values_app, sumZ_app, sumZ_values_zeroed. lia.
Qed.

(** The sum of the events of all periods. *)
Lemma sumZ_month_events (ev : string * CameraData -> dict Z)
    (g : CameraData -> Z) (fetch : Resolver) (mn : Z) (name : string)
    (weeks : list Z) :
  (forall item, sumZ (values (ev item)) = g (snd item)) ->
  sumZ (values (month_events ev fetch mn name weeks))
  = sumZ (map (fun week =>
                 sumZ (map (fun item => g (snd item))
                           (week_records fetch mn name week)))
              weeks).
Proof.
  intros Hev. unfold month_events, week_events.
  rewrite sumZ_values_flat_map. f_equal. apply map_ext. intros w.
  rewrite sumZ_values_flat_map. f_equal. apply map_ext. intros item. apply Hev.
Qed.

(** X14: whenever the monthly aggregation returns, its frame figures agree
    with each other: the overall total of frames is the sum of all daily
    frame entries of all observations, and it is both the sum of the
    per-device frame totals and the sum of the frames of the per-date
    totals; the infractions of the per-date totals add up to the overall
    total of infractions. *)
Theorem X14_monthly_frames_consistent (fetch : Resolver)
    (params : GetMonthlyReportInput.t) (weeks : list Z) (md : MonthData.t) :
  aggregate_month fetch params weeks = Ok md ->
  MonthData.total_frames md
  = spec_frames_total fetch (GetMonthlyReportInput.month_number params)
      (GetMonthlyReportInput.month_name params) weeks
  /\ sumZ (values (frames_view (MonthData.cameras md)))
     = MonthData.total_frames md
  /\ sumZ (values (daily_frames_view (MonthData.daily_totals md)))
     = MonthData.total_frames md
  /\ sumZ (values (daily_inf_view (MonthData.daily_totals md)))
     = MonthData.total_infractions md.
Proof.
  intros H.
  destruct (aggregate_month_views fetch params weeks md H)
    as [Hf [_ [_ [_ [V3 [V4 V5]]]]]].
  destruct (aggregate_month_totals fetch params weeks md H) as [_ [_ Hi]].
  cbn zeta in Hf, V3, V4, V5, Hi.
  apply merge_daily_sum in V3, V4, V5.
  cbn [empty_month MonthData.cameras MonthData.daily_totals frames_view
       daily_inf_view daily_frames_view dict_map map values sumZ fold_right]
    in V3, V4, V5.
  rewrite (sumZ_month_events frame_events daily_frame_sum) in V3
    by apply sumZ_frame_events.
  rewrite (sumZ_month_events daily_inf_events daily_infraction_sum) in V4
    by apply sumZ_daily_inf_events.
  rewrite (sumZ_month_events daily_frame_events daily_frame_sum) in V5
    by apply sumZ_daily_frame_events.
  fold (spec_frames_total fetch (GetMonthlyReportInput.month_number params)
          (GetMonthlyReportInput.month_name params) weeks) in V3, V5.
  fold (spec_daily_total fetch (GetMonthlyReportInput.month_number params)
          (GetMonthlyReportInput.month_name params) weeks) in V4.
  split; [exact Hf|]. rewrite Hf, Hi. repeat split; lia.
Qed.

Lemma X14_witness :
  MonthData.total_frames month_AB = 103
  /\ sumZ (values (frames_view (MonthData.cameras month_AB))) = 103
  /\ sumZ (values (daily_inf_view (MonthData.daily_totals month_AB))) = 13.
Proof.
  destruct (X14_monthly_frames_consistent (one_week week_AB) params_enero [1]
              month_AB eq_refl) as [H1 [H2 [H3 H4]]].
  split; [reflexivity|]. split; [exact H2 | exact H4].
Defined.

Lemma sumZ_map_filter {A : Type} (f : A -> Z) (p : A -> bool) (l : list A) :
  (forall x, p x = false -> f x = 0) ->
  sumZ (map f (filter p l)) = sumZ (map f l).
Proof.
  intros H0. induction l as [|x l IH]; simpl; [reflexivity|].
  destruct (p x) eqn:E; simpl; [now rewrite IH | rewrite IH, (H0 x E); lia].
Qed.

Lemma filter_idem {A : Type} (p : A -> bool) (l : list A) :
  filter p (filter p l) = filter p l.
Proof.
  induction l as [|x l IH]; simpl; [reflexivity|].
  destruct (p x) eqn:E; simpl; [now rewrite E, IH | exact IH].
Qed.

(** X15: whenever the monthly aggregation returns, it has written one
    summary line for each period that was found with data, in the order of
    the periods; a line holds the sums of the daily infraction and frame
    entries of the period's observations; the lines add up to the overall
    totals; and over the available periods there is exactly one line per
    period. *)
Theorem X15_monthly_week_summaries (fetch : Resolver)
    (params : GetMonthlyReportInput.t) (weeks : list Z) (md : MonthData.t) :
  aggregate_month fetch params weeks = Ok md ->
  MonthData.week_summaries md
  = spec_week_summaries fetch (GetMonthlyReportInput.month_number params)
      (GetMonthlyReportInput.month_name params) weeks
  /\ sumZ (map WeekSummary.infractions (MonthData.week_summaries md))
     = MonthData.total_infractions md
  /\ sumZ (map WeekSummary.frames (MonthData.week_summaries md))
     = MonthData.total_frames md
  /\ (weeks = get_available_weeks fetch
                (GetMonthlyReportInput.month_number params)
                (GetMonthlyReportInput.month_name params) ->
      map WeekSummary.week (MonthData.week_summaries md) = weeks).
Proof.
  intros H.
  destruct (aggregate_month_views fetch params weeks md H) as [Hf [Hw _]].
  destruct (aggregate_month_totals fetch params weeks md H) as [_ [_ Hi]].
  cbn zeta in Hf, Hw, Hi.
  set (mn := GetMonthlyReportInput.month_number params) in *.
  set (name := GetMonthlyReportInput.month_name params) in *.
  split; [exact Hw|]. rewrite Hw, Hf, Hi.
  unfold spec_week_summaries, spec_daily_total, spec_frames_total.
  rewrite !map_map. cbn [spec_week_summary WeekSummary.infractions
                         WeekSummary.frames WeekSummary.week].
  split; [|split].
  - apply (sumZ_map_filter
             (fun week => sumZ (map (fun item => daily_infraction_sum (snd item))
                                    (week_records fetch mn name week)))).
    intros w Hw0. now rewrite (week_records_falsy _ _ _ _ Hw0).
  - apply (sumZ_map_filter
             (fun week => sumZ (map (fun item => daily_frame_sum (snd item))
                                    (week_records fetch mn name week)))).
    intros w Hw0. now rewrite (week_records_falsy _ _ _ _ Hw0).
  - intros ->. rewrite map_id. unfold get_available_weeks. apply filter_idem.
Qed.

Lemma X15_witness :
  MonthData.week_summaries month_AB = [WeekSummary.mk 1 13 103]
  /\ sumZ (map WeekSummary.frames (MonthData.week_summaries month_AB)) = 103.
Proof.
  destruct (X15_monthly_week_summaries (one_week week_AB) params_enero [1]
              month_AB eq_refl) as [H1 [H2 [H3 H4]]].
  split; [reflexivity | exact H3].
Defined.

Lemma opt_sum_Some (x : Z) (l : list Z) :
  opt_sum (map Some (x :: l)) = Some (sumZ (x :: l)).
Proof.
  revert x; induction l as [|y l IH]; intros x; [simpl; f_equal; lia|].
  change (opt_sum (map Some (x :: y :: l)))
    with (opt_add (Some x) (opt_sum (map Some (y :: l)))).
  rewrite IH. reflexivity.
Qed.

(** Events filed under the identifier of their observation. *)
Lemma keyed_sum_own (cid k : string) (vals : list Z) :
  keyed_sum Some cid (map (fun v => (k, v)) vals)
  = if String.eqb cid k then opt_sum (map Some vals) else None.
Proof.
  unfold keyed_sum. rewrite map_map. cbn [fst snd].
  destruct (String.eqb cid k); [reflexivity|].
  induction vals as [|v vals IH]; simpl; [reflexivity | exact IH].
Qed.

Lemma keyed_sum_own_events (vals : CameraData -> list Z) (cid : string)
    (data : PeriodRecordSet) :
  dict_wf data ->
  keyed_sum Some cid
    (flat_map (fun item => map (fun v => (fst item, v)) (vals (snd item))) data)
  = match dict_get cid data with
    | Some cd => opt_sum (map Some (vals cd))
    | None => None
    end.
Proof.
  intros Hwf. rewrite keyed_sum_flat_map.
  rewrite <- (keyed_sum_wf (fun cd => opt_sum (map Some (vals cd))) cid data Hwf).
  unfold keyed_sum at 2. f_equal. apply map_ext. intros [k cd].
  cbn [fst snd]. apply keyed_sum_own.
Qed.

Lemma record_set_wf_records (fetch : Resolver) (mn : Z) (name : string)
    (week : Z) :
  resolver_wf fetch -> record_set_wf (week_records fetch mn name week).
Proof.
  intros Hwf. unfold week_records.
  destruct (fetch mn name week) as [data|] eqn:Hf; [exact (Hwf _ _ _ _ Hf)|].
  split; [constructor | intros ? ? []].
Qed.

Lemma week_records_get (fetch : Resolver) (mn : Z) (name : string)
    (cid : string) (week : Z) :
  dict_get cid (week_records fetch mn name week)
  = match fetch mn name week with
    | Some data => dict_get cid data
    | None => None
    end.
Proof. unfold week_records. now destruct (fetch mn name week). Qed.

(** What a period adds to a device's frame total. *)
Lemma week_frame_events_sum (fetch : Resolver) (mn : Z) (name : string)
    (cid : string) (week : Z) :
  resolver_wf fetch ->
  keyed_sum Some cid (week_events frame_events fetch mn name week)
  = spec_period_frames fetch mn name cid week.
Proof.
  intros Hwf. destruct (record_set_wf_records fetch mn name week Hwf) as [Hd _].
  unfold week_events.
  replace (flat_map frame_events (week_records fetch mn name week))
    with (flat_map (fun item =>
                      map (fun v => (fst item, v))
                          (0 :: values (get_or_empty (frames (snd item)))))
                   (week_records fetch mn name week)).
  - rewrite (keyed_sum_own_events
               (fun cd => 0 :: values (get_or_empty (frames cd))) cid _ Hd),
      week_records_get.
    unfold spec_period_frames.
    destruct (fetch mn name week) as [data|]; [|reflexivity].
    destruct (dict_get cid data) as [cd|]; [|reflexivity].
    now rewrite opt_sum_Some.
  - apply flat_map_ext. intros [k cd]. unfold frame_events, values.
    cbn [fst snd map]. now rewrite map_map.
Qed.

(** What a period adds to a device's count of active periods. *)
Lemma week_active_events_sum (fetch : Resolver) (mn : Z) (name : string)
    (cid : string) (week : Z) :
  resolver_wf fetch ->
  keyed_sum Some cid (week_events active_events fetch mn name week)
  = if holds_device fetch mn name cid week then Some 1 else None.
Proof.
  intros Hwf. destruct (record_set_wf_records fetch mn name week Hwf) as [Hd _].
  unfold week_events.
  change (flat_map active_events (week_records fetch mn name week))
    with (flat_map (fun item : string * CameraData =>
                      map (fun v => (fst item, v)) [1])
                   (week_records fetch mn name week)).
  rewrite (keyed_sum_own_events (fun _ => [1]) cid _ Hd), week_records_get.
  unfold holds_device, dict_mem.
  destruct (fetch mn name week) as [data|]; [|reflexivity].
  destruct (dict_get cid data) as [cd|]; reflexivity.
Qed.

Lemma opt_sum_indicator {A : Type} (p : A -> bool) (l : list A) :
  opt_sum (map (fun x => if p x then Some 1 else None) l)
  = if existsb p l then Some (Z.of_nat (List.length (filter p l))) else None.
Proof.
  induction l as [|x l IH]; [reflexivity|].
  cbn [map opt_sum fold_right existsb filter].
  fold (opt_sum (map (fun x => if p x then Some 1 else None) l)).
  rewrite IH. destruct (p x) eqn:E; cbn [orb].
  - destruct (existsb p l) eqn:Ex; cbn [opt_add List.length].
    + f_equal. lia.
    + assert (Hf : filter p l = []).
      { clear IH. induction l as [|y l IHl]; [reflexivity|].
        cbn [existsb] in Ex. apply orb_false_iff in Ex. destruct Ex as [Ey El].
        cbn [filter]. rewrite Ey. now apply IHl. }
      now rewrite Hf.
  - reflexivity.
Qed.

(** What the views of the finished month data hold under a key. *)
Lemma view_after_get (events view : dict Z) (key : string) :
  foldM add_daily events [] = Ok view ->
  dict_get key view = keyed_sum Some key events.
Proof.
  intros H. destruct (merge_daily_get events []) as [v [Hv Gv]].
  rewrite Hv in H. inversion H; subst. now rewrite Gv.
Qed.

(** The devices of the month data are those that some period holds, each
    with the number of periods that hold it. *)
Lemma month_weeks_active (fetch : Resolver)
    (params : GetMonthlyReportInput.t) (weeks : list Z) (md : MonthData.t) :
  let mn := GetMonthlyReportInput.month_number params in
  let name := GetMonthlyReportInput.month_name params in
  resolver_wf fetch ->
  aggregate_month fetch params weeks = Ok md ->
  forall cid,
    option_map CameraTotals.weeks_active (dict_get cid (MonthData.cameras md))
    = if existsb (holds_device fetch mn name cid) weeks
      then Some (periods_holding fetch mn name cid weeks) else None.
Proof.
  intros mn name Hwf H cid.
  destruct (aggregate_month_views fetch params weeks md H)
    as [_ [_ [_ [V2 _]]]].
  fold mn name in V2.
  rewrite <- dict_map_get.
  change (dict_map CameraTotals.weeks_active (MonthData.cameras md))
    with (active_view (MonthData.cameras md)).
  rewrite (view_after_get _ _ cid V2). unfold month_events.
  rewrite keyed_sum_flat_map.
  rewrite (map_ext _ (fun w => if holds_device fetch mn name cid w
                               then Some 1 else None))
    by (intros w; now apply week_active_events_sum).
  apply opt_sum_indicator.
Qed.

Lemma month_devices_held (fetch : Resolver)
    (params : GetMonthlyReportInput.t) (weeks : list Z) (md : MonthData.t) :
  resolver_wf fetch ->
  aggregate_month fetch params weeks = Ok md ->
  forall cid,
    dict_mem cid (MonthData.cameras md)
    = existsb (holds_device fetch (GetMonthlyReportInput.month_number params)
                 (GetMonthlyReportInput.month_name params) cid) weeks.
Proof.
  intros Hwf H cid.
  pose proof (month_weeks_active fetch params weeks md Hwf H cid) as Hact.
  cbv zeta in Hact. unfold dict_mem.
  destruct (dict_get cid (MonthData.cameras md)), (existsb _ weeks);
    simpl in Hact; congruence.
Qed.

(** X16: whenever the monthly aggregation returns, the month data has an
    entry for exactly the devices that some period holds; the entry counts
    the periods that hold the device, and its frame total is the sum of the
    device's daily frame entries over those periods. *)
Theorem X16_monthly_device_entry (fetch : Resolver)
    (params : GetMonthlyReportInput.t) (weeks : list Z) (md : MonthData.t) :
  let mn := GetMonthlyReportInput.month_number params in
  let name := GetMonthlyReportInput.month_name params in
  resolver_wf fetch ->
  aggregate_month fetch params weeks = Ok md ->
  (forall cid,
      dict_mem cid (MonthData.cameras md)
      = existsb (holds_device fetch mn name cid) weeks)
  /\ (forall cid c,
        dict_get cid (MonthData.cameras md) = Some c ->
        CameraTotals.weeks_active c = periods_holding fetch mn name cid weeks
        /\ Some (CameraTotals.total_frames c)
           = opt_sum (map (spec_period_frames fetch mn name cid) weeks)).
Proof.
  intros mn name Hwf H.
  destruct (aggregate_month_views fetch params weeks md H)
    as [_ [_ [_ [V2 [V3 _]]]]].
  fold mn name in V2, V3.
  pose proof (month_weeks_active fetch params weeks md Hwf H) as Hact.
  fold mn name in Hact.
  split.
  - intros cid. specialize (Hact cid). unfold dict_mem.
    destruct (dict_get cid (MonthData.cameras md)),
             (existsb (holds_device fetch mn name cid) weeks);
      simpl in Hact; congruence.
  - intros cid c Hc. split.
    + specialize (Hact cid). rewrite Hc in Hact. simpl in Hact.
      destruct (existsb (holds_device fetch mn name cid) weeks); congruence.
    + transitivity (option_map CameraTotals.total_frames
                      (dict_get cid (MonthData.cameras md)));
        [now rewrite Hc|].
      rewrite <- dict_map_get.
      change (dict_map CameraTotals.total_frames (MonthData.cameras md))
        with (frames_view (MonthData.cameras md)).
      rewrite (view_after_get _ _ cid V3). unfold month_events.
      rewrite keyed_sum_flat_map. f_equal. apply map_ext. intros w.
      now apply week_frame_events_sum.
Qed.

Lemma X16_witness :
  dict_mem "B" (MonthData.cameras month_AB) = true
  /\ dict_mem "C" (MonthData.cameras month_AB) = false
  /\ periods_holding (one_week week_AB) 1 "enero" "B" [1; 2] = 1.
Proof.
  destruct (X16_monthly_device_entry (one_week week_AB) params_enero [1; 2]
              month_AB (one_week_wf week_AB week_AB_wf) eq_refl) as [H1 H2].
  split; [exact (H1 "B"%string)|]. split; [exact (H1 "C"%string)|].
  symmetry. exact (proj1 (H2 "B"%string _ eq_refl)).
Defined.

Lemma opt_val_opt_add (a b : option Z) :
  opt_val (opt_add a b) = opt_val a + opt_val b.
Proof. destruct a, b; simpl; lia. Qed.

Lemma opt_val_opt_sum (l : list (option Z)) :
  opt_val (opt_sum l) = sumZ (map opt_val l).
Proof.
  induction l as [|a l IH]; simpl; [reflexivity|].
  now rewrite opt_val_opt_add, IH.
Qed.

Lemma opt_sum_None {A : Type} (f : A -> option Z) (l : list A) :
  opt_sum (map f l) = None <-> forall x, In x l -> f x = None.
Proof.
  induction l as [|a l IH]; simpl; [tauto|].
  destruct (f a) as [v|] eqn:E.
  - split.
    + destruct (opt_sum (map f l)); discriminate.
    + intros H. specialize (H a (or_introl eq_refl)). congruence.
  - simpl. rewrite IH. split.
    + intros H x [<-|Hx]; auto.
    + intros H x Hx. apply H. now right.
Qed.

(** The events of all periods filed under a key, when each observation
    files [cell] under it. *)
Lemma month_events_get (ev : string * CameraData -> dict Z)
    (cell : CameraData -> option Z) (fetch : Resolver) (mn : Z)
    (name : string) (key : string) (weeks : list Z) :
  (forall w cid cd,
      In (cid, cd) (week_records fetch mn name w) ->
      keyed_sum Some key (ev (cid, cd)) = cell cd) ->
  keyed_sum Some key (month_events ev fetch mn name weeks)
  = opt_sum (map (fun w =>
                    opt_sum (map (fun item => cell (snd item))
                                 (week_records fetch mn name w)))
                 weeks).
Proof.
  intros Hev. unfold month_events, week_events.
  rewrite keyed_sum_flat_map. f_equal. apply map_ext. intros w.
  rewrite keyed_sum_flat_map. f_equal. apply map_ext_in.
  intros [cid cd] Hin. now apply (Hev w).
Qed.

Lemma dict_wf_zeroed (entries : dict Z) :
  dict_wf entries -> dict_wf (zeroed entries).
Proof.
  unfold dict_wf, keys, zeroed. now rewrite map_map.
Qed.

Lemma dict_get_zeroed (date : string) (entries : dict Z) :
  dict_get date (zeroed entries)
  = option_map (fun _ => 0) (dict_get date entries).
Proof. exact (dict_map_get (fun _ : Z => 0) date entries). Qed.

Lemma opt_sum_not_None {A : Type} (f : A -> option Z) (l : list A) :
  opt_sum (map f l) <> None <-> exists x, In x l /\ f x <> None.
Proof.
  split.
  - induction l as [|a l IH]; simpl; [congruence|].
    destruct (f a) as [v|] eqn:E.
    + intros _. exists a. split; [now left | congruence].
    + simpl. intros H. destruct (IH H) as [x [Hx Hf]].
      exists x. split; [now right | exact Hf].
  - intros [x [Hx Hf]] H. apply Hf. exact (proj1 (opt_sum_None f l) H x Hx).
Qed.

(** What an observation files under a date in the two per-date views. *)
Lemma daily_inf_events_get (date cid : string) (cd : CameraData) :
  dict_wf (get_or_empty (infractions cd)) ->
  dict_wf (get_or_empty (frames cd)) ->
  keyed_sum Some date (daily_inf_events (cid, cd))
  = opt_add (dict_get date (get_or_empty (infractions cd)))
      (option_map (fun _ => 0) (dict_get date (get_or_empty (frames cd)))).
Proof.
  intros Hi Hf. unfold daily_inf_events. cbn [snd].
  rewrite keyed_sum_app, (keyed_sum_wf Some date _ Hi),
    (keyed_sum_wf Some date _ (dict_wf_zeroed _ Hf)), dict_get_zeroed.
  destruct (dict_get date (get_or_empty (infractions cd))),
           (dict_get date (get_or_empty (frames cd))); reflexivity.
Qed.

Lemma daily_frame_events_get (date cid : string) (cd : CameraData) :
  dict_wf (get_or_empty (infractions cd)) ->
  dict_wf (get_or_empty (frames cd)) ->
  keyed_sum Some date (daily_frame_events (cid, cd))
  = opt_add (option_map (fun _ => 0)
               (dict_get date (get_or_empty (infractions cd))))
      (dict_get date (get_or_empty (frames cd))).
Proof.
  intros Hi Hf. unfold daily_frame_events. cbn [snd].
  rewrite keyed_sum_app, (keyed_sum_wf Some date _ Hf),
    (keyed_sum_wf Some date _ (dict_wf_zeroed _ Hi)), dict_get_zeroed.
  destruct (dict_get date (get_or_empty (infractions cd))),
           (dict_get date (get_or_empty (frames cd))); reflexivity.
Qed.

Lemma dict_get_keys {V : Type} (k : string) (d : dict V) :
  dict_get k d <> None <-> In k (keys d).
Proof.
  split.
  - intros H. destruct (dict_get k d) as [v|] eqn:E; [|congruence].
    apply dict_get_In in E. unfold keys.
    change k with (fst (k, v)). now apply in_map.
  - intros Hin H. now apply (proj1 (dict_get_None k d) H).
Qed.

(** X17: whenever the monthly aggregation returns, the per-date totals
    have an entry for exactly the dates that occur in a daily infraction or
    daily frame mapping of some observation, and the entry of a date holds
    the sums, over all observations of all periods, of the infractions and
    of the frames recorded for that date (a mapping without the date
    counting 0). *)
Theorem X17_monthly_daily_totals (fetch : Resolver)
    (params : GetMonthlyReportInput.t) (weeks : list Z) (md : MonthData.t) :
  let mn := GetMonthlyReportInput.month_number params in
  let name := GetMonthlyReportInput.month_name params in
  resolver_wf fetch ->
  aggregate_month fetch params weeks = Ok md ->
  (forall date,
      dict_mem date (MonthData.daily_totals md) = true
      <-> date_seen fetch mn name date weeks)
  /\ (forall date d,
        dict_get date (MonthData.daily_totals md) = Some d ->
        DailyTotals.infractions d
        = spec_date_total infractions fetch mn name date weeks
        /\ DailyTotals.frames d
           = spec_date_total frames fetch mn name date weeks).
Proof.
  intros mn name Hwf H.
  destruct (aggregate_month_views fetch params weeks md H)
    as [_ [_ [_ [_ [_ [V4 V5]]]]]].
  fold mn name in V4, V5.
  assert (Hrec : forall w cid cd,
             In (cid, cd) (week_records fetch mn name w) ->
             dict_wf (get_or_empty (infractions cd))
             /\ dict_wf (get_or_empty (frames cd))).
  { intros w cid cd Hin.
    exact (proj2 (record_set_wf_records fetch mn name w Hwf) cid cd Hin). }
  assert (Hinf : forall date,
             option_map DailyTotals.infractions
               (dict_get date (MonthData.daily_totals md))
             = opt_sum
                 (map (fun w =>
                         opt_sum
                           (map (fun item =>
                                   opt_add
                                     (dict_get date
                                        (get_or_empty (infractions (snd item))))
                                     (option_map (fun _ => 0)
                                        (dict_get date
                                           (get_or_empty (frames (snd item))))))
                                (week_records fetch mn name w)))
                      weeks)).
  { intros date. rewrite <- dict_map_get.
    change (dict_map DailyTotals.infractions (MonthData.daily_totals md))
      with (daily_inf_view (MonthData.daily_totals md)).
    rewrite (view_after_get _ _ date V4).
    apply (month_events_get daily_inf_events
             (fun cd => opt_add (dict_get date (get_or_empty (infractions cd)))
                          (option_map (fun _ => 0)
                             (dict_get date (get_or_empty (frames cd)))))).
    intros w cid cd Hin. destruct (Hrec w cid cd Hin) as [Hi Hf].
    now apply daily_inf_events_get. }
  assert (Hfr : forall date,
             option_map DailyTotals.frames
               (dict_get date (MonthData.daily_totals md))
             = opt_sum
                 (map (fun w =>
                         opt_sum
                           (map (fun item =>
                                   opt_add
                                     (option_map (fun _ => 0)
                                        (dict_get date
                                           (get_or_empty
                                              (infractions (snd item)))))
                                     (dict_get date
                                        (get_or_empty (frames (snd item)))))
                                (week_records fetch mn name w)))
                      weeks)).
  { intros date. rewrite <- dict_map_get.
    change (dict_map DailyTotals.frames (MonthData.daily_totals md))
      with (daily_frames_view (MonthData.daily_totals md)).
    rewrite (view_after_get _ _ date V5).
    apply (month_events_get daily_frame_events
             (fun cd => opt_add
                          (option_map (fun _ => 0)
                             (dict_get date (get_or_empty (infractions cd))))
                          (dict_get date (get_or_empty (frames cd))))).
    intros w cid cd Hin. destruct (Hrec w cid cd Hin) as [Hi Hf].
    now apply daily_frame_events_get. }
  split.
  - intros date. specialize (Hinf date). unfold dict_mem, date_seen. split.
    + intros Hm.
      destruct (dict_get date (MonthData.daily_totals md)) as [d|];
        [clear Hm | discriminate].
      assert (Hne : opt_sum
                      (map (fun w =>
                         opt_sum
                           (map (fun item =>
                                   opt_add
                                     (dict_get date
                                        (get_or_empty (infractions (snd item))))
                                     (option_map (fun _ => 0)
                                        (dict_get date
                                           (get_or_empty (frames (snd item))))))
                                (week_records fetch mn name w)))
                      weeks) <> None)
        by (rewrite <- Hinf; discriminate).
      apply opt_sum_not_None in Hne. destruct Hne as [w [Hw Hne]].
      apply opt_sum_not_None in Hne. destruct Hne as [[cid cd] [Hin Hne]].
      cbn [snd] in Hne. exists w, cid, cd. split; [exact Hw|].
      split; [exact Hin|]. rewrite <- !dict_get_keys.
      destruct (dict_get date (get_or_empty (infractions cd)));
        [left; discriminate|].
      destruct (dict_get date (get_or_empty (frames cd)));
        [right; discriminate | now elim Hne].
    + intros [w [cid [cd [Hw [Hin Hd]]]]].
      destruct (dict_get date (MonthData.daily_totals md)) as [d|];
        [reflexivity|].
      exfalso. simpl in Hinf. symmetry in Hinf. revert Hinf.
      apply opt_sum_not_None. exists w. split; [exact Hw|].
      apply opt_sum_not_None. exists (cid, cd). split; [exact Hin|].
      cbn [snd]. rewrite <- !dict_get_keys in Hd.
      destruct (dict_get date (get_or_empty (infractions cd)));
        [destruct (dict_get date (get_or_empty (frames cd))); discriminate|].
      destruct (dict_get date (get_or_empty (frames cd)));
        [discriminate | destruct Hd as [Hd|Hd]; now elim Hd].
  - intros date d Hd. specialize (Hinf date). specialize (Hfr date).
    rewrite Hd in Hinf, Hfr. simpl in Hinf, Hfr.
    apply (f_equal opt_val) in Hinf, Hfr. simpl in Hinf, Hfr.
    rewrite opt_val_opt_sum, map_map in Hinf, Hfr.
    unfold spec_date_total. split.
    + rewrite Hinf. f_equal. apply map_ext. intros w.
      rewrite opt_val_opt_sum, map_map. f_equal. apply map_ext.
      intros [cid cd]. cbn [snd]. unfold dict_get_default.
      rewrite opt_val_opt_add.
      destruct (dict_get date (get_or_empty (infractions cd))),
               (dict_get date (get_or_empty (frames cd))); simpl; lia.
    + rewrite Hfr. f_equal. apply map_ext. intros w.
      rewrite opt_val_opt_sum, map_map. f_equal. apply map_ext.
      intros [cid cd]. cbn [snd]. unfold dict_get_default.
      rewrite opt_val_opt_add.
      destruct (dict_get date (get_or_empty (infractions cd))),
               (dict_get date (get_or_empty (frames cd))); simpl; lia.
Qed.

Lemma X17_witness :
  dict_mem "01-07" (MonthData.daily_totals month_AB) = true
  /\ spec_date_total frames (one_week week_AB) 1 "enero" "01-05" [1] = 43.
Proof.
  destruct (X17_monthly_daily_totals (one_week week_AB) params_enero [1]
              month_AB (one_week_wf week_AB week_AB_wf) eq_refl) as [H1 H2].
  split; [reflexivity|].
  symmetry. exact (proj2 (H2 "01-05"%string _ eq_refl)).
Defined.

(** A loop whose body never raises on the elements of the list runs to its
    end. *)
Lemma foldM_total_in {A S : Type} (body : S -> A -> result S) (l : list A) :
  (forall st x, In x l -> exists st', body st x = Ok st') ->
  forall s, exists s', foldM body l s = Ok s'.
Proof.
  induction l as [|x l IH]; intros Hb s; cbn [foldM].
  - now exists s.
  - destruct (Hb s x (or_introl eq_refl)) as [st' ->]. cbn [bind].
    apply IH. intros st y Hy. apply Hb. now right.
Qed.

(** When every observation has a total-count and a display name the
    monthly loop returns. *)
Lemma aggregate_month_runs (fetch : Resolver)
    (params : GetMonthlyReportInput.t) (weeks : list Z) :
  month_all_ready fetch (GetMonthlyReportInput.month_number params)
    (GetMonthlyReportInput.month_name params) weeks ->
  exists md, aggregate_month fetch params weeks = Ok md.
Proof.
  intros Hall. unfold aggregate_month. apply foldM_total_in.
  intros md w Hw. unfold month_week. cbv zeta.
  destruct (negb (truthy_data _)); [now exists md|].
  destruct (foldM_total_in month_camera
              (week_records fetch (GetMonthlyReportInput.month_number params)
                 (GetMonthlyReportInput.month_name params) w)) with (s := (md, 0, 0))
    as [[[m i] f] Hrun].
  - intros [[m i] f] [cid cd] Hin.
    specialize (Hall w cid cd Hw Hin). unfold month_ready in Hall.
    destruct (month_camera_run m i f cid cd) as [m' [Hr _]].
    + destruct (total cd); [discriminate | discriminate].
    + intros _. destruct (total cd); [|discriminate].
      destruct (camera cd); [discriminate | discriminate].
    + eexists. exact Hr.
  - match goal with
    | |- exists st', bind ?c _ = Ok st' =>
        replace c with (Ok (A := WeekState) (m, i, f))
          by (symmetry; exact Hrun)
    end.
    cbn [bind]. eexists. reflexivity.
Qed.

Lemma firstn_In {A : Type} (n : nat) (l : list A) (x : A) :
  In x (firstn n l) -> In x l.
Proof.
  revert l. induction n as [|n IH]; intros [|y l]; simpl; try tauto.
  intros [H|H]; [now left | right; now apply IH].
Qed.

Lemma mapM_total_in {A B : Type} (f : A -> result B) (l : list A) :
  (forall x, In x l -> exists y, f x = Ok y) ->
  exists ys, mapM f l = Ok ys.
Proof.
  induction l as [|x l IH]; intros Hf; cbn [mapM].
  - now exists [].
  - destruct (Hf x (or_introl eq_refl)) as [y ->]. cbn [bind].
    destruct (IH (fun z Hz => Hf z (or_intror Hz))) as [ys ->]. cbn [bind].
    now exists (y :: ys).
Qed.

Lemma mapM_map {A B : Type} (f : A -> result B) (g : B -> A) (l : list A)
    (ys : list B) :
  (forall x y, f x = Ok y -> g y = x) ->
  mapM f l = Ok ys -> map g ys = l.
Proof.
  intros Hg. revert ys. induction l as [|x l IH]; intros ys H; cbn [mapM] in H.
  - now inversion H.
  - inv_bind. cbn [map]. now rewrite (Hg x a Ha), (IH a0 Ha0).
Qed.

Lemma week_line_entry (s : WeekSummary.t) (y : WeekSummary.t * number) :
  week_line s = Ok y -> fst y = s.
Proof. unfold week_line. intros H. inv_bind. reflexivity. Qed.

Lemma camera_line_entry (x : string * CameraTotals.t)
    (y : string * CameraTotals.t * number) :
  camera_line x = Ok y -> line_entry y = x.
Proof. unfold camera_line. intros H. inv_bind. now destruct x. Qed.

(** With no available period the report answers "no data", and only
    then. *)
Lemma monthly_report_no_data (fetch : Resolver)
    (params : GetMonthlyReportInput.t) :
  get_monthly_report fetch params = NoDataFound
  <-> get_available_weeks fetch (GetMonthlyReportInput.month_number params)
        (GetMonthlyReportInput.month_name params) = [].
Proof.
  unfold get_monthly_report.
  destruct (get_available_weeks _ _ _) as [|w ws]; [tauto|].
  split; [|discriminate].
  destruct (aggregate_month fetch params (w :: ws)) as [md|e];
    [|discriminate]. cbn [bind].
  destruct (rounded_efficiency _ _) as [q|e]; [|discriminate]. cbn [bind].
  destruct (GetMonthlyReportInput.response_format params); [|discriminate].
  destruct (mapM week_line _) as [lines|e]; [|discriminate]. cbn [bind].
  destruct (mapM camera_line _) as [top|e]; discriminate.
Qed.

(** The report, once the month data is there. *)
Lemma monthly_report_payload (fetch : Resolver)
    (params : GetMonthlyReportInput.t) (r : MonthlyReport.t) :
  let weeks := get_available_weeks fetch
                 (GetMonthlyReportInput.month_number params)
                 (GetMonthlyReportInput.month_name params) in
  get_monthly_report fetch params = Payload r ->
  exists md,
    aggregate_month fetch params weeks = Ok md
    /\ Summary.total_infractions (MonthlyReport.summary r)
       = MonthData.total_infractions md
    /\ Summary.total_frames (MonthlyReport.summary r)
       = MonthData.total_frames md
    /\ Summary.weeks_available (MonthlyReport.summary r) = List.length weeks
    /\ Summary.cameras_active (MonthlyReport.summary r)
       = List.length (MonthData.cameras md)
    /\ MonthlyReport.cameras r = MonthData.cameras md
    /\ MonthlyReport.week_summaries r = MonthData.week_summaries md
    /\ (GetMonthlyReportInput.response_format params = MARKDOWN ->
        map fst (MonthlyReport.weekly_breakdown r)
        = MonthData.week_summaries md
        /\ map line_entry (MonthlyReport.top_cameras r)
           = firstn 5 (py_sort by_total_infractions_desc
                         (MonthData.cameras md))).
Proof.
  intros weeks H. apply run_tool_Payload in H.
  unfold get_monthly_report in H. fold weeks in H.
  destruct weeks as [|w ws] eqn:Hw; [discriminate|].
  apply bind_Ok in H. destruct H as [md [Ha H]].
  apply bind_Ok in H. destruct H as [eff [He H]].
  exists md. split; [exact Ha|].
  destruct (GetMonthlyReportInput.response_format params).
  - apply bind_Ok in H. destruct H as [lines [Hl H]].
    apply bind_Ok in H. destruct H as [top [Ht H]].
    inversion H; subst r; clear H. cbn.
    repeat (split; [reflexivity|]). intros _. split.
    + exact (mapM_map week_line fst _ _ week_line_entry Hl).
    + exact (mapM_map camera_line line_entry _ _ camera_line_entry Ht).
  - inversion H; subst r; clear H. cbn.
    repeat (split; [reflexivity|]). discriminate.
Qed.

(** The report is produced when the figures of the month are inside the
    floating-point range. *)
Lemma monthly_report_in_range (fetch : Resolver)
    (params : GetMonthlyReportInput.t) (md : MonthData.t) :
  let weeks := get_available_weeks fetch
                 (GetMonthlyReportInput.month_number params)
                 (GetMonthlyReportInput.month_name params) in
  weeks <> [] ->
  aggregate_month fetch params weeks = Ok md ->
  month_in_range md ->
  exists r, get_monthly_report fetch params = Payload r.
Proof.
  intros weeks Hne Ha [R1 [R2 R3]]. unfold get_monthly_report. fold weeks.
  destruct weeks as [|w ws] eqn:Hw; [congruence|].
  rewrite Ha. cbn [bind].
  rewrite (rounded_efficiency_in_range _ _ R1). cbn [bind].
  destruct (GetMonthlyReportInput.response_format params);
    [|eexists; reflexivity].
  destruct (mapM_total_in week_line (MonthData.week_summaries md))
    as [lines ->].
  { intros s Hs. rewrite Forall_forall in R2. unfold week_line.
    rewrite (rounded_efficiency_in_range _ _ (R2 s Hs)). cbn [bind].
    eexists. reflexivity. }
  cbn [bind].
  destruct (mapM_total_in camera_line
              (firstn 5 (py_sort by_total_infractions_desc
                           (MonthData.cameras md)))) as [top ->].
  { intros x Hx. apply firstn_In in Hx.
    apply (proj1 (py_sort_In by_total_infractions_desc x _)) in Hx.
    rewrite Forall_forall in R3. unfold camera_line.
    rewrite (rounded_efficiency_in_range _ _ (R3 x Hx)). cbn [bind].
    eexists. reflexivity. }
  cbn [bind]. eexists. reflexivity.
Qed.

(** X18: the outcomes of the monthly report.  It answers "no data" exactly
    when no period is available.  An exception raised while aggregating
    becomes the error message of the answer.  A report carries the
    aggregated month data unchanged, the number of available periods and
    the number of devices seen, and in the markdown answer one weekly line
    per period summary.  The aggregation returns whenever every observation
    has a total-count and a display name, and the report is then produced
    when the infraction figures of the month are at most 2^1000 in absolute
    value. *)
Theorem X18_monthly_report_outcomes (fetch : Resolver)
    (params : GetMonthlyReportInput.t) :
  let mn := GetMonthlyReportInput.month_number params in
  let name := GetMonthlyReportInput.month_name params in
  let weeks := get_available_weeks fetch mn name in
  (get_monthly_report fetch params = NoDataFound <-> weeks = [])
  /\ (forall e,
        weeks <> [] -> aggregate_month fetch params weeks = Err e ->
        get_monthly_report fetch params = ErrorMessage e)
  /\ (forall r,
        get_monthly_report fetch params = Payload r ->
        exists md,
          aggregate_month fetch params weeks = Ok md
          /\ Summary.total_infractions (MonthlyReport.summary r)
             = MonthData.total_infractions md
          /\ Summary.total_frames (MonthlyReport.summary r)
             = MonthData.total_frames md
          /\ Summary.weeks_available (MonthlyReport.summary r)
             = List.length weeks
          /\ Summary.cameras_active (MonthlyReport.summary r)
             = List.length (MonthData.cameras md)
          /\ MonthlyReport.cameras r = MonthData.cameras md
          /\ MonthlyReport.week_summaries r = MonthData.week_summaries md
          /\ (GetMonthlyReportInput.response_format params = MARKDOWN ->
              map fst (MonthlyReport.weekly_breakdown r)
              = MonthData.week_summaries md))
  /\ (month_all_ready fetch mn name weeks ->
      exists md, aggregate_month fetch params weeks = Ok md)
  /\ (forall md,
        weeks <> [] -> aggregate_month fetch params weeks = Ok md ->
        month_in_range md ->
        exists r, get_monthly_report fetch params = Payload r).
Proof.
  intros mn name weeks. subst weeks mn name.
  split; [apply monthly_report_no_data|]. split; [|split; [|split]].
  - intros e Hne Ha. unfold get_monthly_report.
    destruct (get_available_weeks _ _ _) as [|w ws]; [congruence|].
    rewrite Ha. reflexivity.
  - intros r Hr.
    destruct (monthly_report_payload fetch params r Hr)
      as [md [Ha [H1 [H2 [H3 [H4 [H5 [H6 H7]]]]]]]].
    exists md. repeat (split; [assumption|]).
    intros Hm. exact (proj1 (H7 Hm)).
  - apply aggregate_month_runs.
  - intros md. apply monthly_report_in_range.
Qed.

Lemma X18_witness :
  exists r, get_monthly_report (one_week week_AB) params_enero = Payload r.
Proof.
  apply (proj2 (proj2 (proj2 (proj2 (X18_monthly_report_outcomes
                                       (one_week week_AB) params_enero))))
           month_AB).
  - vm_compute. discriminate.
  - vm_compute. reflexivity.
  - repeat split; repeat constructor; vm_compute; discriminate.
Defined.

Lemma StronglySorted_app_le {A : Type} (R : A -> A -> Prop) (a b : list A) :
  StronglySorted R (a ++ b) ->
  StronglySorted R a /\ forall x y, In x a -> In y b -> R x y.
Proof.
  induction a as [|z a IH]; cbn [app]; intros H.
  - split; [constructor | intros x y []].
  - inversion H as [|? ? Hs Hall]; subst. destruct (IH Hs) as [Sa Hab].
    rewrite Forall_forall in Hall. split.
    + constructor; [exact Sa|]. apply Forall_forall. intros x Hx.
      apply Hall. apply in_or_app. now left.
    + intros x y [<-|Hx] Hy; [|now apply Hab].
      apply Hall. apply in_or_app. now right.
Qed.

Lemma StronglySorted_weaken {A : Type} (R R' : A -> A -> Prop) (l : list A) :
  (forall x y, R x y -> R' x y) -> StronglySorted R l -> StronglySorted R' l.
Proof.
  intros HR. induction 1 as [|x l Hs IH Hall]; constructor; [exact IH|].
  eapply Forall_impl; [|exact Hall]. intros y. apply HR.
Qed.

(** The monthly ranking is sorted by descending total of infractions. *)
Lemma monthly_ranking_sorted (cameras : dict CameraTotals.t) :
  StronglySorted (fun x y => ranking_total y <= ranking_total x)
    (py_sort by_total_infractions_desc cameras).
Proof.
  apply (StronglySorted_weaken
           (fun x y => by_total_infractions_desc x y = true)).
  - intros x y H. unfold by_total_infractions_desc in H.
    apply Z.leb_le in H. exact H.
  - apply py_sort_sorted.
    + intros a b H. unfold by_total_infractions_desc in *.
      apply Z.leb_gt in H. apply Z.leb_le. lia.
    + intros a b c H1 H2. unfold by_total_infractions_desc in *.
      apply Z.leb_le in H1, H2. apply Z.leb_le. lia.
Qed.

(** X19: the "top performing" lines of a markdown monthly report are the
    (at most) five devices with the largest total of infractions, by
    descending total: every device left out has a total no larger than that
    of every device listed.  The sort is stable: devices with the same
    total are listed in the order in which the aggregation first met
    them. *)
Theorem X19_monthly_top_cameras (fetch : Resolver)
    (params : GetMonthlyReportInput.t) (r : MonthlyReport.t) :
  let top := map line_entry (MonthlyReport.top_cameras r) in
  GetMonthlyReportInput.response_format params = MARKDOWN ->
  get_monthly_report fetch params = Payload r ->
  List.length top = Nat.min 5 (List.length (MonthlyReport.cameras r))
  /\ StronglySorted (fun x y => ranking_total y <= ranking_total x) top
  /\ exists rest,
       Permutation (MonthlyReport.cameras r) (top ++ rest)
       /\ (forall x y, In x top -> In y rest ->
                       ranking_total y <= ranking_total x)
       /\ forall t,
            filter (fun x => ranking_total x =? t) (MonthlyReport.cameras r)
            = filter (fun x => ranking_total x =? t) top
              ++ filter (fun x => ranking_total x =? t) rest.
Proof.
  intros top Hm H.
  destruct (monthly_report_payload fetch params r H)
    as [md [_ [_ [_ [_ [_ [Hc [_ Hlines]]]]]]]].
  destruct (Hlines Hm) as [_ Ht].
  fold top in Ht. rewrite Hc.
  set (sorted := py_sort by_total_infractions_desc (MonthData.cameras md)) in *.
  assert (Hsplit : sorted = top ++ skipn 5 sorted)
    by (rewrite Ht; symmetry; apply firstn_skipn).
  assert (Hsorted : StronglySorted
                      (fun x y => ranking_total y <= ranking_total x)
                      (top ++ skipn 5 sorted))
    by (rewrite <- Hsplit; apply monthly_ranking_sorted).
  apply StronglySorted_app_le in Hsorted. destruct Hsorted as [Stop Hdom].
  split; [|split; [exact Stop|]].
  - rewrite Ht, length_firstn. f_equal. apply Permutation_length.
    apply py_sort_perm.
  - exists (skipn 5 sorted). split; [|split; [exact Hdom|]].
    + rewrite <- Hsplit. symmetry. apply py_sort_perm.
    + intros t. rewrite <- filter_app, <- Hsplit. symmetry.
      apply py_sort_stable. intros a b Ha Hb.
      apply Z.eqb_eq in Ha, Hb. unfold by_total_infractions_desc.
      apply Z.leb_le. unfold ranking_total in *. lia.
Qed.

Lemma X19_witness :
  List.length (map line_entry (MonthlyReport.top_cameras report_AB)) = 2%nat
  /\ StronglySorted (fun x y => ranking_total y <= ranking_total x)
       (map line_entry (MonthlyReport.top_cameras report_AB)).
Proof.
  destruct (X19_monthly_top_cameras (one_week week_AB) params_enero report_AB)
    as [H1 [H2 _]]; [reflexivity | vm_compute; reflexivity|].
  split; [exact H1 | exact H2].
Defined.
(** ** The listing *)

(** A loop that appends one element per step, or raises the error of the
    first element that has one. *)
Lemma foldM_append_first_error {A B : Type}
    (body : list B -> A -> result (list B)) (g : A -> B)
    (bad : A -> option PyError) (l : list A) :
  (forall acc x,
      body acc x = match bad x with
                   | Some e => Err e
                   | None => Ok (acc ++ [g x])
                   end) ->
  forall acc,
    foldM body l acc
    = match first_some bad l with
      | Some e => Err e
      | None => Ok (acc ++ map g l)
      end.
Proof.
  intros Hb. induction l as [|x l IH]; intros acc; cbn [foldM first_some map].
  - now rewrite app_nil_r.
  - rewrite Hb. destruct (bad x) as [e|]; cbn [bind]; [reflexivity|].
    rewrite IH. destruct (first_some bad l); [reflexivity|].
    now rewrite <- app_assoc.
Qed.

(** A loop inside a loop is one loop over the flattened list. *)
Lemma foldM_flat_map {A B S : Type} (body : S -> B -> result S)
    (G : A -> list B) (l : list A) :
  forall s,
    foldM (fun st x => foldM body (G x) st) l s = foldM body (flat_map G l) s.
Proof.
  induction l as [|x l IH]; intros s; cbn [foldM flat_map]; [reflexivity|].
  rewrite foldM_app. destruct (foldM body (G x) s); cbn [bind];
    [apply IH | reflexivity].
Qed.

Lemma foldM_map {A B S : Type} (body : S -> B -> result S) (h : A -> B)
    (l : list A) :
  forall s, foldM body (map h l) s = foldM (fun st x => body st (h x)) l s.
Proof.
  induction l as [|x l IH]; intros s; cbn [foldM map]; [reflexivity|].
  destruct (body s (h x)); cbn [bind]; [apply IH | reflexivity].
Qed.

Lemma foldM_ext {A S : Type} (body body' : S -> A -> result S) (l : list A) :
  (forall st x, body st x = body' st x) ->
  forall s, foldM body l s = foldM body' l s.
Proof.
  intros He. induction l as [|x l IH]; intros s; cbn [foldM]; [reflexivity|].
  rewrite He. destruct (body' s x); cbn [bind]; [apply IH | reflexivity].
Qed.

Lemma first_some_map {A B C : Type} (f : A -> option B) (h : B -> C)
    (l : list A) :
  first_some (fun x => option_map h (f x)) l = option_map h (first_some f l).
Proof.
  induction l as [|x l IH]; cbn [first_some]; [reflexivity|].
  destruct (f x); [reflexivity | exact IH].
Qed.

(** One observation of the listing loop. *)
Lemma camera_info_eq (week : Z) (acc : list CameraInfo.t)
    (item : string * CameraData) :
  camera_info week acc item
  = match option_map KeyError (first_missing_list (snd item)) with
    | Some e => Err e
    | None => Ok (acc ++ [spec_info (week, item)])
    end.
Proof.
  destruct item as [cid cd]. unfold camera_info, first_missing_list, spec_info.
  destruct cd as [[nm|] up [st|] [t|] inf fr]; reflexivity.
Qed.

(** The listing loop over the observations of some periods. *)
Lemma listing_loop (fetch : Resolver) (params : ListCamerasInput.t)
    (weeks : list Z) :
  let listing :=
    flat_map (fun week =>
                map (pair week)
                    (week_records fetch (ListCamerasInput.month_number params)
                       (ListCamerasInput.month_name params) week))
             weeks in
  foldM (list_week fetch params) weeks []
  = match first_some (fun e => first_missing_list (snd (snd e))) listing with
    | Some f => Err (KeyError f)
    | None => Ok (map spec_info listing)
    end.
Proof.
  intros listing.
  rewrite (foldM_ext (list_week fetch params)
             (fun st w =>
                foldM (fun acc e => camera_info (fst e) acc (snd e))
                  (map (pair w)
                     (week_records fetch (ListCamerasInput.month_number params)
                        (ListCamerasInput.month_name params) w)) st)).
  - rewrite (foldM_flat_map (fun acc e => camera_info (fst e) acc (snd e))
               (fun w => map (pair w)
                           (week_records fetch
                              (ListCamerasInput.month_number params)
                              (ListCamerasInput.month_name params) w))).
    fold listing.
    rewrite (foldM_append_first_error
               (fun acc e => camera_info (fst e) acc (snd e)) spec_info
               (fun e => option_map KeyError
                           (first_missing_list (snd (snd e))))).
    + rewrite (first_some_map (fun e => first_missing_list (snd (snd e)))
                 KeyError).
      destruct (first_some _ listing); reflexivity.
    + intros acc [w item]. cbn [fst snd]. apply camera_info_eq.
  - intros st w. rewrite foldM_map. cbn [fst snd]. unfold list_week.
    destruct (truthy_data _) eqn:Ht.
    + reflexivity.
    + now rewrite (week_records_falsy _ _ _ _ Ht).
Qed.

(** X20: what [list_cameras] answers.  It reads the requested period, or
    all available periods; with no data in any of them it answers "no
    data"; otherwise it walks the observations period by period and, within
    a period, in record-set order: the first observation that lacks a
    field makes the whole listing fail with the error of its first missing
    field (name, then total, then storage); when none does, the listing
    holds one line per observation and period, in that order, and its
    count is the number of those observations (not of distinct devices). *)
Theorem X20_list_cameras_exact (fetch : Resolver)
    (params : ListCamerasInput.t) :
  list_cameras fetch params
  = if existsb (fun week =>
                  truthy_data
                    (fetch (ListCamerasInput.month_number params)
                       (ListCamerasInput.month_name params) week))
         (listed_weeks fetch params)
    then
      match first_some (fun e => first_missing_list (snd (snd e)))
              (spec_listing fetch params) with
      | Some f => ErrorMessage (KeyError f)
      | None =>
          Payload (CameraList.mk (map spec_info (spec_listing fetch params))
                     (List.length (spec_listing fetch params)))
      end
    else NoDataFound.
Proof.
  unfold list_cameras, collect_cameras_info, spec_listing, listed_weeks.
  set (mn := ListCamerasInput.month_number params).
  set (name := ListCamerasInput.month_name params).
  destruct (truthy_int (ListCamerasInput.week_number params)) eqn:Hti.
  - set (w := match ListCamerasInput.week_number params with
              | Some w => w | None => 0 end).
    cbn [existsb orb]. rewrite orb_false_r.
    destruct (truthy_data (fetch mn name w)) eqn:Ht; cbn [negb];
      [|reflexivity].
    pose proof (listing_loop fetch params [w]) as Hl. cbn zeta in Hl.
    fold mn name in Hl. cbn [foldM] in Hl. unfold list_week in Hl.
    fold mn name in Hl. rewrite Ht in Hl.
    match type of Hl with
    | bind ?c _ = _ =>
        assert (Hc : c = match first_some
                                 (fun e => first_missing_list (snd (snd e)))
                                 (flat_map (fun week =>
                                    map (pair week)
                                      (week_records fetch mn name week)) [w])
                         with
                         | Some f => Err (KeyError f)
                         | None =>
                             Ok (map spec_info
                                   (flat_map (fun week =>
                                      map (pair week)
                                        (week_records fetch mn name week)) [w]))
                         end)
          by (rewrite <- Hl; destruct c; reflexivity)
    end.
    rewrite Hc.
    destruct (first_some _ _); cbn [bind run_tool]; [reflexivity|].
    now rewrite length_map.
  - destruct (get_available_weeks fetch mn name) as [|w ws] eqn:Hw;
      [reflexivity|].
    assert (Hex : existsb (fun week => truthy_data (fetch mn name week))
                    (w :: ws) = true).
    { assert (Hin : In w (get_available_weeks fetch mn name))
        by (rewrite Hw; now left).
      unfold get_available_weeks in Hin. apply filter_In in Hin.
      cbn [existsb]. now rewrite (proj2 Hin). }
    rewrite Hex.
    pose proof (listing_loop fetch params (w :: ws)) as Hl. cbn zeta in Hl.
    fold mn name in Hl. rewrite Hl.
    destruct (first_some _ _); cbn [bind run_tool]; [reflexivity|].
    now rewrite length_map.
Qed.

(** ** The sections of the markdown listing *)

Lemma opt_app_nil (o : option (list CameraInfo.t)) : opt_app o [] = o.
Proof. destruct o as [l|]; simpl; [now rewrite app_nil_r | reflexivity]. Qed.

Lemma opt_app_app (o : option (list CameraInfo.t)) (a b : list CameraInfo.t) :
  opt_app (opt_app o a) b = opt_app o (a ++ b).
Proof.
  destruct o as [l|].
  - simpl. now rewrite app_assoc.
  - destruct a; reflexivity.
Qed.

(** One line of the grouping loop. *)
Lemma group_info_get (acc : dict (list CameraInfo.t)) (info : CameraInfo.t) :
  exists acc',
    group_info acc info = Ok acc'
    /\ (dict_wf acc -> dict_wf acc')
    /\ forall id, dict_get id acc' = opt_app (dict_get id acc) (infos_of id [info]).
Proof.
  unfold group_info, dict_mem, dict_getitem, infos_of. cbn [filter].
  destruct (dict_get (CameraInfo.id info) acc) as [l|] eqn:Hk.
  - rewrite Hk. cbn [bind]. eexists. split; [reflexivity|].
    split; [apply dict_set_wf|].
    intros id. rewrite dict_get_set.
    destruct (String.eqb id (CameraInfo.id info)) eqn:E.
    + apply String.eqb_eq in E. subst id. now rewrite Hk.
    + now rewrite opt_app_nil.
  - rewrite dict_get_set_same. cbn [bind]. eexists. split; [reflexivity|].
    split; [intros Hwf; now do 2 apply dict_set_wf|].
    intros id. rewrite !dict_get_set.
    destruct (String.eqb id (CameraInfo.id info)) eqn:E.
    + apply String.eqb_eq in E. subst id. now rewrite Hk.
    + now rewrite opt_app_nil.
Qed.

(** The grouping loop never fails; each group holds the lines of its
    device, in listing order. *)
Lemma group_loop_get (l : list CameraInfo.t) :
  forall acc, exists acc',
    foldM group_info l acc = Ok acc'
    /\ (dict_wf acc -> dict_wf acc')
    /\ forall id, dict_get id acc' = opt_app (dict_get id acc) (infos_of id l).
Proof.
  induction l as [|x l IH]; intros acc.
  - exists acc. split; [reflexivity|]. split; [auto|].
    intros id. now rewrite opt_app_nil.
  - destruct (group_info_get acc x) as [a1 [H1 [W1 G1]]].
    destruct (IH a1) as [acc' [H2 [W2 G2]]].
    exists acc'. split; [cbn [foldM]; now rewrite H1|].
    split; [auto|]. intros id. rewrite G2, G1, opt_app_app. f_equal.
    unfold infos_of. cbn [filter].
    destruct (String.eqb id (CameraInfo.id x)); reflexivity.
Qed.

Lemma infos_of_nil_iff (id : string) (l : list CameraInfo.t) :
  infos_of id l = [] <-> ~ In id (map CameraInfo.id l).
Proof.
  unfold infos_of. induction l as [|x l IH]; cbn [filter map In]; [tauto|].
  destruct (String.eqb id (CameraInfo.id x)) eqn:E.
  - apply String.eqb_eq in E. split; [discriminate | intros H; elim H; auto].
  - apply String.eqb_neq in E. rewrite IH. split; intros H; [|tauto].
    intros [Heq|Hin]; [now subst | tauto].
Qed.

(** Reading the groups of the given identifiers. *)
Lemma read_groups {V : Type} (by_camera : dict V) (ids : list string) :
  (forall id, In id ids -> dict_get id by_camera <> None) ->
  exists sections,
    mapM (fun camera_id =>
            camera_infos <- dict_getitem camera_id by_camera ;;
            Ok (camera_id, camera_infos)) ids = Ok sections
    /\ map fst sections = ids
    /\ forall id infos, In (id, infos) sections ->
                        dict_get id by_camera = Some infos.
Proof.
  induction ids as [|k ids IH]; intros Hin; cbn [mapM].
  - exists []. split; [reflexivity|]. split; [reflexivity | intros ? ? []].
  - destruct (IH (fun id H => Hin id (or_intror H))) as [secs [Hm [Hk Hg]]].
    unfold dict_getitem at 1.
    destruct (dict_get k by_camera) as [infos|] eqn:E;
      [|elim (Hin k (or_introl eq_refl) E)].
    cbn [bind]. rewrite Hm. cbn [bind]. exists ((k, infos) :: secs).
    split; [reflexivity|]. split; [cbn [map fst]; now rewrite Hk|].
    intros id infos' [Heq|Hin']; [inversion Heq; now subst | now apply Hg].
Qed.

Lemma str_leb_le (a b : string) :
  str_leb a b = true <-> String_as_OT.lt a b \/ a = b.
Proof.
  unfold str_leb. rewrite negb_true_iff.
  destruct (str_ltb b a) eqn:E.
  - apply str_ltb_lt in E. split; [discriminate|].
    intros [H|H].
    + exfalso. apply (String_as_OT.lt_strorder.(StrictOrder_Irreflexive) a).
      eapply String_as_OT.lt_strorder.(StrictOrder_Transitive); eassumption.
    + subst. exfalso.
      now apply (String_as_OT.lt_strorder.(StrictOrder_Irreflexive) b).
  - split; [intros _ | reflexivity].
    destruct (str_trichotomy a b) as [H|[H|H]]; auto.
    apply str_ltb_lt in H. congruence.
Qed.

Lemma sorted_ids (ids : list string) :
  NoDup ids ->
  StronglySorted String_as_OT.lt (py_sort str_leb ids).
Proof.
  intros Hnd.
  assert (Hs : StronglySorted (fun a b => str_leb a b = true)
                 (py_sort str_leb ids)).
  { apply py_sort_sorted.
    - intros a b H. apply str_leb_le.
      destruct (str_trichotomy b a) as [Hl|[He|Hl]]; auto.
      assert (str_leb a b = true) by (apply str_leb_le; now left). congruence.
    - intros a b c H1 H2. apply str_leb_le in H1, H2. apply str_leb_le.
      destruct H1 as [H1| ->]; [|exact H2]. destruct H2 as [H2| ->]; [|now left].
      left. eapply String_as_OT.lt_strorder.(StrictOrder_Transitive);
        eassumption. }
  assert (Hnd' : NoDup (py_sort str_leb ids))
    by (eapply Permutation_NoDup; [symmetry; apply py_sort_perm | exact Hnd]).
  induction Hs as [|x l Hs IH Hall]; [constructor|].
  inversion Hnd' as [|? ? Hx Hl]; subst.
  constructor; [now apply IH|].
  rewrite Forall_forall in *. intros y Hy.
  destruct (proj1 (str_leb_le x y) (Hall y Hy)) as [H|H]; [exact H|].
  subst. contradiction.
Qed.

(** X21: the sections of the markdown listing.  Grouping never fails; there
    is one section per distinct device of the listing (the "total cameras
    found" figure), in strictly ascending order of the identifiers; each
    section holds exactly the lines of its device, in listing order, and is
    never empty. *)
Theorem X21_camera_sections_partition (cameras_info : list CameraInfo.t) :
  exists sections,
    camera_sections cameras_info = Ok sections
    /\ StronglySorted String_as_OT.lt (map fst sections)
    /\ (forall id, In id (map fst sections)
                   <-> In id (map CameraInfo.id cameras_info))
    /\ (forall id infos, In (id, infos) sections ->
                         infos = infos_of id cameras_info /\ infos <> [])
    /\ List.length sections = total_cameras_found cameras_info.
Proof.
  destruct (group_loop_get cameras_info []) as [by_camera [Hg [Hwf Hget]]].
  assert (Hnd : NoDup (keys by_camera)) by (apply Hwf; constructor).
  assert (Hkeys : forall id, In id (keys by_camera)
                             <-> In id (map CameraInfo.id cameras_info)).
  { intros id. rewrite <- dict_mem_In. unfold dict_mem. rewrite Hget.
    cbn [dict_get opt_app].
    destruct (infos_of id cameras_info) as [|x l] eqn:E.
    - apply infos_of_nil_iff in E. split; [discriminate | contradiction].
    - split; [intros _ | reflexivity].
      destruct (in_dec string_dec id (map CameraInfo.id cameras_info))
        as [Hin|Hn]; [exact Hin|].
      apply infos_of_nil_iff in Hn. congruence. }
  destruct (read_groups by_camera (py_sort str_leb (keys by_camera)))
    as [sections [Hm [Hids Hsec]]].
  { intros id Hin. apply py_sort_In in Hin. apply dict_mem_In in Hin.
    unfold dict_mem in Hin. destruct (dict_get id by_camera); congruence. }
  exists sections. split; [unfold camera_sections; rewrite Hg; exact Hm|].
  split; [rewrite Hids; now apply sorted_ids|].
  split; [intros id; rewrite Hids, py_sort_In; apply Hkeys|].
  split.
  - intros id infos Hin. specialize (Hsec id infos Hin).
    rewrite Hget in Hsec. cbn [dict_get opt_app] in Hsec.
    destruct (infos_of id cameras_info) as [|x l]; [discriminate|].
    inversion Hsec; subst. split; [reflexivity | discriminate].
  - rewrite <- (length_map fst sections), Hids.
    rewrite (Permutation_length (py_sort_perm str_leb (keys by_camera))).
    unfold total_cameras_found. apply Permutation_length.
    apply NoDup_Permutation; [exact Hnd | apply NoDup_nodup|].
    intros id. rewrite nodup_In. apply Hkeys.
Qed.

(** ** The status of one device *)

(** What the markdown rendering of an observation does. *)
Lemma format_camera_data_markdown_cases (py_strip : string -> string)
    (cid : string) (cd : CameraData) (include_daily : bool) :
  match first_missing_status include_daily cd with
  | Some f =>
      format_camera_data_markdown py_strip cid cd include_daily
      = Err (KeyError f)
  | None =>
      exists nm rest,
        camera cd = Some nm
        /\ format_camera_data_markdown py_strip cid cd include_daily
           = Ok (String.append
                   (String.append "## Camera "
                      (String.append cid (String.append " - " nm)))
                   rest)
  end.
Proof.
  unfold first_missing_status, format_camera_data_markdown.
  destruct cd as [[nm|] [up|] [st|] [t|] inf fr];
    cbn [camera uptime used_storage total infractions frames field bind];
    try reflexivity.
  destruct include_daily; cbn [andb].
  - destruct inf as [inf|]; [destruct fr as [fr|]|]; cbn [field bind app];
      try reflexivity; exists nm; eexists; (split; [reflexivity|]);
      cbn [String.concat]; reflexivity.
  - exists nm. eexists. split; [reflexivity|]. cbn [String.concat]. reflexivity.
Qed.

(** X22: the outcomes of [get_camera_status].  Without data for the period
    it answers "no data"; with data that lacks the device, "camera not
    found".  Otherwise the structured answer is the stored observation as
    it is, and never fails, while the markdown answer fails with the error
    of the first missing field among name, uptime, storage and total (in
    that order), or, when the daily detail is requested and the observation
    has a daily infraction mapping but no daily frame mapping, with the
    error of the missing frames. *)
Theorem X22_camera_status_outcomes (py_strip : string -> string)
    (fetch : Resolver) (params : GetCameraStatusInput.t) :
  let data := fetch (GetCameraStatusInput.month_number params)
                (GetCameraStatusInput.month_name params)
                (GetCameraStatusInput.week_number params) in
  let records := week_records fetch (GetCameraStatusInput.month_number params)
                   (GetCameraStatusInput.month_name params)
                   (GetCameraStatusInput.week_number params) in
  let cid := GetCameraStatusInput.camera_id params in
  (get_camera_status py_strip fetch params = StatusNoData
   <-> truthy_data data = false)
  /\ (get_camera_status py_strip fetch params = StatusCameraNotFound
      <-> truthy_data data = true /\ dict_get cid records = None)
  /\ (forall cd,
        truthy_data data = true -> dict_get cid records = Some cd ->
        match GetCameraStatusInput.response_format params with
        | JSON => get_camera_status py_strip fetch params = StatusJson cd
        | MARKDOWN =>
            match first_missing_status
                    (GetCameraStatusInput.include_daily params) cd with
            | Some f =>
                get_camera_status py_strip fetch params
                = StatusError (KeyError f)
            | None =>
                exists text,
                  get_camera_status py_strip fetch params = StatusMarkdown text
                  /\ format_camera_data_markdown py_strip cid cd
                       (GetCameraStatusInput.include_daily params) = Ok text
            end
        end).
Proof.
  intros data records cid. unfold get_camera_status. fold data cid.
  change (match data with Some d => d | None => [] end) with records.
  destruct (truthy_data data) eqn:Ht; cbn [negb].
  2:{ split; [tauto|]. split; [split; [discriminate | intros [H _]; discriminate]|].
      intros cd H. discriminate. }
  unfold dict_mem, dict_getitem.
  destruct (dict_get cid records) as [cd|] eqn:Hg; cbn [negb].
  2:{ split; [split; discriminate|]. split; [tauto|]. intros cd _ H. discriminate. }
  pose proof (format_camera_data_markdown_cases py_strip cid cd
                (GetCameraStatusInput.include_daily params)) as Hfmt.
  split; [|split].
  - split; [|discriminate].
    destruct (GetCameraStatusInput.response_format params); [|discriminate].
    destruct (format_camera_data_markdown _ _ _ _); discriminate.
  - split; [|intros [_ H]; discriminate].
    destruct (GetCameraStatusInput.response_format params); [|discriminate].
    destruct (format_camera_data_markdown _ _ _ _); discriminate.
  - intros cd' _ Hcd. inversion Hcd; subst cd'.
    destruct (GetCameraStatusInput.response_format params); [|reflexivity].
    destruct (first_missing_status _ cd) as [f|].
    + now rewrite Hfmt.
    + destruct Hfmt as [nm [rest [_ Hfmt]]]. rewrite Hfmt.
      eexists. split; reflexivity.
Qed.

Lemma X22_witness :
  get_camera_status (fun s => s)
    (one_week [("N"%string,
                mkCameraData (Some "Cam N"%string) (Some "1 day"%string)
                  (Some "2G"%string) (Some 3)
                  (Some [("01-05", 1)]%string) None)])
    (GetCameraStatusInput.mk 1 "enero" 1 "N" true MARKDOWN)
  = StatusError (KeyError "frames").
Proof.
  apply (proj2 (proj2 (X22_camera_status_outcomes (fun s => s)
                  (one_week [("N"%string,
                     mkCameraData (Some "Cam N"%string) (Some "1 day"%string)
                       (Some "2G"%string) (Some 3)
                       (Some [("01-05", 1)]%string) None)])
                  (GetCameraStatusInput.mk 1 "enero" 1 "N" true MARKDOWN)))
           (mkCameraData (Some "Cam N"%string) (Some "1 day"%string)
              (Some "2G"%string) (Some 3)
              (Some [("01-05", 1)]%string) None)).
  - reflexivity.
  - reflexivity.
Defined.

(** X23: the daily detail of the markdown rendering.  Without the detail
    the text depends on the four header fields only; asking for the detail
    changes nothing for an observation without a daily infraction mapping;
    and every rendered text starts with the header of the device. *)
Theorem X23_markdown_daily_detail (py_strip : string -> string)
    (cid : string) (cd : CameraData) :
  (forall cd', same_header cd cd' ->
               format_camera_data_markdown py_strip cid cd false
               = format_camera_data_markdown py_strip cid cd' false)
  /\ (infractions cd = None ->
      format_camera_data_markdown py_strip cid cd true
      = format_camera_data_markdown py_strip cid cd false)
  /\ (forall include_daily text,
        format_camera_data_markdown py_strip cid cd include_daily = Ok text ->
        exists nm rest,
          camera cd = Some nm
          /\ text = String.append
                      (String.append "## Camera "
                         (String.append cid (String.append " - " nm)))
                      rest).
Proof.
  split; [|split].
  - intros cd' [H1 [H2 [H3 H4]]]. unfold format_camera_data_markdown.
    rewrite H1, H2, H3, H4. reflexivity.
  - intros Hi. unfold format_camera_data_markdown. rewrite Hi.
    cbn [andb]. reflexivity.
  - intros b text H.
    pose proof (format_camera_data_markdown_cases py_strip cid cd b) as Hc.
    destruct (first_missing_status b cd) as [f|]; [congruence|].
    destruct Hc as [nm [rest [Hn Hc]]]. exists nm, rest.
    split; [exact Hn | congruence].
Qed.
(** ** The daily trend of the monthly report *)

Lemma add_daily_wf (acc acc' : dict Z) (entry : string * Z) :
  dict_wf acc -> add_daily acc entry = Ok acc' -> dict_wf acc'.
Proof.
  destruct entry as [k c]. intros Hwf H.
  destruct (dict_get k acc) as [v|] eqn:E.
  - rewrite (add_daily_old acc k v c E) in H. inversion H; subst.
    now apply dict_set_wf.
  - rewrite (add_daily_new acc k c E) in H. inversion H; subst.
    now do 2 apply dict_set_wf.
Qed.

Lemma keys_dict_map {V W : Type} (f : V -> W) (d : dict V) :
  keys (dict_map f d) = keys d.
Proof. unfold keys, dict_map. rewrite map_map. reflexivity. Qed.

(** The dictionaries of the month data have no repeated key. *)
Lemma aggregate_month_wf (fetch : Resolver) (params : GetMonthlyReportInput.t)
    (weeks : list Z) (md : MonthData.t) :
  aggregate_month fetch params weeks = Ok md ->
  dict_wf (MonthData.cameras md) /\ dict_wf (MonthData.daily_totals md).
Proof.
  intros H.
  destruct (aggregate_month_views fetch params weeks md H)
    as [_ [_ [_ [V2 [_ [V4 _]]]]]].
  split.
  - unfold dict_wf. rewrite <- (keys_dict_map CameraTotals.weeks_active).
    change (dict_wf (active_view (MonthData.cameras md))).
    refine (foldM_preserves add_daily (fun d => dict_wf d) _
              (fun st x st' Hs Hb => add_daily_wf st st' x Hs Hb) _ _ _ V2).
    constructor.
  - unfold dict_wf. rewrite <- (keys_dict_map DailyTotals.infractions).
    change (dict_wf (daily_inf_view (MonthData.daily_totals md))).
    refine (foldM_preserves add_daily (fun d => dict_wf d) _
              (fun st x st' Hs Hb => add_daily_wf st st' x Hs Hb) _ _ _ V4).
    constructor.
Qed.

Lemma StronglySorted_app_r {A : Type} (R : A -> A -> Prop) (a b : list A) :
  StronglySorted R (a ++ b) -> StronglySorted R b.
Proof.
  induction a as [|z a IH]; cbn [app]; intros H; [exact H|].
  inversion H; subst. now apply IH.
Qed.

(** X24: the "recent daily trends" of a monthly report.  Reading the lines
    never fails; they are the (at most) seven latest dates of the per-date
    totals in strictly ascending order, each with the totals stored for
    it, and every date left out is earlier than every date listed. *)
Theorem X24_daily_trend_recent (fetch : Resolver)
    (params : GetMonthlyReportInput.t) (weeks : list Z) (md : MonthData.t) :
  aggregate_month fetch params weeks = Ok md ->
  exists trend,
    daily_trend (MonthData.daily_totals md) = Ok trend
    /\ List.length trend
       = Nat.min 7 (List.length (MonthData.daily_totals md))
    /\ StronglySorted String_as_OT.lt (map fst trend)
    /\ (forall date d, In (date, d) trend ->
                       dict_get date (MonthData.daily_totals md) = Some d)
    /\ (forall date date',
          In date (keys (MonthData.daily_totals md)) ->
          ~ In date (map fst trend) ->
          In date' (map fst trend) -> String_as_OT.lt date date').
Proof.
  intros H. destruct (aggregate_month_wf fetch params weeks md H) as [_ Hwf].
  set (daily := MonthData.daily_totals md) in *.
  set (sorted := py_sort str_leb (keys daily)).
  assert (Hs : StronglySorted String_as_OT.lt sorted)
    by (apply sorted_ids; exact Hwf).
  assert (Hsplit : sorted = firstn (List.length sorted - 7) sorted
                            ++ py_last 7 sorted)
    by (unfold py_last; symmetry; apply firstn_skipn).
  destruct (read_groups daily (py_last 7 sorted)) as [trend [Hm [Hk Hg]]].
  { intros id Hin.
    assert (Hin' : In id sorted)
      by (rewrite Hsplit; apply in_or_app; now right).
    apply py_sort_In in Hin'. apply dict_mem_In in Hin'.
    unfold dict_mem in Hin'. destruct (dict_get id daily); congruence. }
  exists trend. split; [exact Hm|].
  rewrite Hsplit in Hs.
  split; [|split; [|split; [exact Hg|]]].
  - rewrite <- (length_map fst trend), Hk. unfold py_last.
    rewrite length_skipn.
    assert (Hl : List.length sorted = List.length daily).
    { unfold sorted. rewrite (Permutation_length (py_sort_perm str_leb _)).
      unfold keys. apply length_map. }
    rewrite Hl. lia.
  - rewrite Hk. exact (StronglySorted_app_r _ _ _ Hs).
  - intros date date' Hin Hout Hin'. rewrite Hk in Hout, Hin'.
    apply (proj2 (StronglySorted_app_le _ _ _ Hs)); [|exact Hin'].
    assert (Hd : In date sorted) by (apply py_sort_In; exact Hin).
    rewrite Hsplit in Hd. apply in_app_or in Hd. tauto.
Qed.

Lemma X24_witness :
  exists trend,
    daily_trend (MonthData.daily_totals month_AB) = Ok trend
    /\ List.length trend = 3%nat.
Proof.
  destruct (X24_daily_trend_recent (one_week week_AB) params_enero [1]
              month_AB eq_refl) as [trend [H1 [H2 _]]].
  exists trend. split; [exact H1 | exact H2].
Defined.

(** ** Missing periods and present periods *)

(** Every period that holds a selected device is in the device's rollup. *)
Lemma collect_all_data_incorporates (fetch : Resolver)
    (params : AnalyzeCameraPerformanceInput.t) (weeks : list Z)
    (all_data : dict AllData.t) (cid : string) (w : Z) :
  let mn := AnalyzeCameraPerformanceInput.month_number params in
  let name := AnalyzeCameraPerformanceInput.month_name params in
  resolver_wf fetch ->
  collect_all_data fetch params weeks = Ok all_data ->
  selected (AnalyzeCameraPerformanceInput.camera_id params) cid = true ->
  In w weeks -> holds_device fetch mn name cid w = true ->
  exists e,
    dict_get cid all_data = Some e
    /\ In w (AllData.weeks e)
    /\ AllData.weeks e = filter (holds_device fetch mn name cid) weeks
    /\ map Some (AllData.infractions e)
       = map (spec_period_total fetch mn name cid) (AllData.weeks e).
Proof.
  intros mn name Hwf H Hs Hw Hh.
  destruct (collect_weeks_lists fetch params cid Hwf Hs weeks [] all_data H)
    as [I1 [I2 [_ [_ [I5 _]]]]].
  fold mn name in I1, I2, I5. cbn [dict_get rollup_weeks rollup_totals map app]
    in I1, I2, I5.
  assert (Hin : In w (filter (holds_device fetch mn name cid) weeks))
    by (apply filter_In; now split).
  destruct (filter (holds_device fetch mn name cid) weeks) as [|w0 rest] eqn:E;
    [destruct Hin|].
  destruct (I5 eq_refl w0 rest eq_refl) as [e [He _]].
  rewrite He in I1, I2. cbn [rollup_weeks rollup_totals] in I1, I2.
  exists e. split; [exact He|]. rewrite I1.
  split; [exact Hin|]. split; [reflexivity | exact I2].
Qed.

(** C8 (confirmed): in the multi-week analysis, the search scan and the
    monthly rollup, a period that resolves to "not found" raises nothing
    and changes nothing, so that running over a list of periods gives
    exactly what running over the found periods alone gives; and the data
    of every present period is incorporated.  In the analysis, the rollup
    of every selected device lists each period that holds the device,
    with the total-count stored there.  In the search, the matches are the
    matching tuples of all the periods.  In the monthly rollup there is one
    summary per period found with data, the overall totals are the sums
    over the periods, and every device that some period holds has an
    entry. *)
Theorem C8_missing_periods_skipped (fetch : Resolver)
    (pa : AnalyzeCameraPerformanceInput.t) (ps : SearchInfractionsInput.t)
    (pm : GetMonthlyReportInput.t) (weeks : list Z) :
  let mna := AnalyzeCameraPerformanceInput.month_number pa in
  let namea := AnalyzeCameraPerformanceInput.month_name pa in
  let mns := SearchInfractionsInput.month_number ps in
  let names := SearchInfractionsInput.month_name ps in
  let mnm := GetMonthlyReportInput.month_number pm in
  let namem := GetMonthlyReportInput.month_name pm in
  ((forall w st, period_found fetch mna namea w = false ->
                 collect_week fetch pa st w = Ok st)
   /\ (forall w st, period_found fetch mns names w = false ->
                    search_week fetch ps st w = Ok st)
   /\ (forall w st, period_found fetch mnm namem w = false ->
                    month_week fetch pm st w = Ok st))
  /\ (collect_all_data fetch pa weeks
      = collect_all_data fetch pa (filter (period_found fetch mna namea) weeks)
      /\ scan_matches fetch ps weeks
         = scan_matches fetch ps (filter (period_found fetch mns names) weeks)
      /\ aggregate_month fetch pm weeks
         = aggregate_month fetch pm
             (filter (period_found fetch mnm namem) weeks))
  /\ (forall all_data cid w,
        resolver_wf fetch ->
        collect_all_data fetch pa weeks = Ok all_data ->
        selected (AnalyzeCameraPerformanceInput.camera_id pa) cid = true ->
        In w weeks -> holds_device fetch mna namea cid w = true ->
        exists e,
          dict_get cid all_data = Some e
          /\ In w (AllData.weeks e)
          /\ AllData.weeks e = filter (holds_device fetch mna namea cid) weeks
          /\ map Some (AllData.infractions e)
             = map (spec_period_total fetch mna namea cid) (AllData.weeks e))
  /\ (forall matches,
        scan_matches fetch ps weeks = Ok matches ->
        matches
        = map spec_match
            (filter (spec_criteria ps) (spec_tuples fetch ps weeks)))
  /\ (forall md,
        aggregate_month fetch pm weeks = Ok md ->
        MonthData.week_summaries md = spec_week_summaries fetch mnm namem weeks
        /\ MonthData.total_infractions md
           = spec_daily_total fetch mnm namem weeks
        /\ MonthData.total_frames md = spec_frames_total fetch mnm namem weeks
        /\ (resolver_wf fetch -> forall cid,
              dict_mem cid (MonthData.cameras md)
              = existsb (holds_device fetch mnm namem cid) weeks)).
Proof.
  intros mna namea mns names mnm namem.
  split; [split; [|split]|split; [split; [|split]|split; [|split]]].
  - intros w st H. now apply collect_week_missing.
  - intros w st H. now apply search_week_missing.
  - intros w st H. now apply month_week_missing.
  - apply foldM_filter. intros st w. apply collect_week_missing.
  - apply foldM_filter. intros st w. apply search_week_missing.
  - apply foldM_filter. intros st w. apply month_week_missing.
  - intros all_data cid w Hwf H Hs Hw Hh.
    exact (collect_all_data_incorporates fetch pa weeks all_data cid w
             Hwf H Hs Hw Hh).
  - intros matches H. rewrite scan_matches_cases in H.
    destruct (existsb _ _); [discriminate | now inversion H].
  - intros md H.
    destruct (aggregate_month_views fetch pm weeks md H) as [Hf [Hw V]].
    destruct (aggregate_month_totals fetch pm weeks md H) as [_ [_ Hi]].
    fold mnm namem in Hf, Hw, V, Hi.
    split; [exact Hw|]. split; [exact Hi|]. split; [exact Hf|].
    intros Hwf cid.
    exact (month_devices_held fetch pm weeks md Hwf H cid).
Qed.

(** On the sample month whose periods 1 and 3 hold device D and whose
    period 2 is missing, the analysis of periods 1, 2 and 3 lists periods 1
    and 3 with their stored totals. *)
Lemma C8_witness :
  exists e,
    dict_get "D"
      [("D"%string,
        AllData.mk "Cam D" [1; 3] [3; 5] []
          [("2024-01-01", 8)]%string [("2024-01-01", 80)]%string)]
    = Some e
    /\ In 3 (AllData.weeks e)
    /\ AllData.weeks e
       = filter (holds_device (two_weeks [("D"%string, cam_D3)]
                                 [("D"%string, cam_D5)]) 1 "enero" "D")
           [1; 2; 3]
    /\ map Some (AllData.infractions e)
       = map (spec_period_total (two_weeks [("D"%string, cam_D3)]
                                   [("D"%string, cam_D5)]) 1 "enero" "D")
           (AllData.weeks e).
Proof.
  apply (proj1 (proj2 (proj2 (C8_missing_periods_skipped
           (two_weeks [("D"%string, cam_D3)] [("D"%string, cam_D5)])
           (AnalyzeCameraPerformanceInput.mk 1 "enero" None None)
           (SearchInfractionsInput.mk 1 "enero" None None None)
           params_enero [1; 2; 3])))
           [("D"%string,
             AllData.mk "Cam D" [1; 3] [3; 5] []
               [("2024-01-01", 8)]%string [("2024-01-01", 80)]%string)]
           "D"%string 3).
  - apply two_weeks_wf; [apply week_D3_wf | apply week_D5_wf].
  - vm_compute. reflexivity.
  - reflexivity.
  - simpl. tauto.
  - reflexivity.
Defined.
